(** * capture_mac: window capture, content cropping, batch paging and OCR retry

    A shallow embedding of [shot.py] and [llm_ocr.py], and after them of
    [pdf.py] and [legacy/shot-test.py].  Python integers are
    [Z], Python strings are [string] (read as byte strings, so the ASCII
    fragment of the builtins is what is modelled), the file system is a finite
    map from paths to contents, and the code that talks to the desktop or to
    the network runs in a small state-and-exception monad over a world that
    records what was done. *)

From Stdlib Require Import ZArith QArith Strings.String Strings.Ascii Lists.List Bool Lia.
From stdpp Require Import base option gmap strings list sorting.

Local Open Scope Z_scope.

(** ** Python builtins used by the sources *)

Module Py.

(** [c in '0123456789'] and the digit for a value in [0..9]. *)
Definition is_digit (c : ascii) : bool :=
  let n := N_of_ascii c in ((48 <=? n) && (n <=? 57))%N.

Definition digit_char (d : Z) : ascii := ascii_of_N (48 + Z.to_N d).

Definition digit_val (c : ascii) : Z := Z.of_N (N_of_ascii c) - 48.

(** [str(n)] for [n >= 0]: the decimal digits, most significant first and
    without leading zeros.  One digit is emitted per step; [Z.log2 n] steps
    are always enough (lemma [digits_aux_spec]). *)
Fixpoint digits_aux (fuel : nat) (n : Z) (acc : string) : string :=
  let acc' := String (digit_char (n mod 10)) acc in
  match fuel with
  | O => acc'
  | S f => if n / 10 =? 0 then acc' else digits_aux f (n / 10) acc'
  end.

Definition digits (n : Z) : string :=
  digits_aux (Z.to_nat (Z.log2 n)) n EmptyString.

(** [str(z)] on an [int]. *)
Definition str (z : Z) : string :=
  if z <? 0 then String "-" (digits (- z)) else digits z.

(** [len(s)]. *)
Definition len (s : string) : Z := Z.of_nat (String.length s).

(** ['0' * k]. *)
Fixpoint zeros (k : nat) : string :=
  match k with
  | O => EmptyString
  | S k' => String "0" (zeros k')
  end.

(** [s.zfill(width)]: pads on the left with ['0'] up to [width]; a leading
    sign stays in front of the padding; a string that is already long enough
    is returned as it is. *)
Definition zfill (s : string) (width : Z) : string :=
  let fill := Z.to_nat (width - len s) in
  match s with
  | String c rest =>
      if (Ascii.eqb c "+" || Ascii.eqb c "-")%bool
      then String c (zeros fill +:+ rest)
      else zeros fill +:+ s
  | EmptyString => zeros fill
  end.

(** [range(a, b)]. *)
Definition range (a b : Z) : list Z := seqZ a (b - a).

(** [a < b] on [str]: lexicographic by code point. *)
Definition lt (a b : string) : bool := String.ltb a b.

(** [c in s] for a one-character [c]. *)
Fixpoint contains (c : ascii) (s : string) : bool :=
  match s with
  | EmptyString => false
  | String d r => (Ascii.eqb c d || contains c r)%bool
  end.

(** [s.split(sep)] for a one-character separator: the pieces between the
    separators, an empty piece included. *)
Fixpoint split (sep : ascii) (s : string) : list string :=
  match s with
  | EmptyString => [EmptyString]
  | String c r =>
      if Ascii.eqb c sep then EmptyString :: split sep r
      else match split sep r with
           | p :: ps => String c p :: ps
           | [] => [String c EmptyString]
           end
  end.

(** [c.isspace()] on ASCII: tab, newline, vertical tab, form feed, carriage
    return, the four separators 28..31 and the space. *)
Definition is_space (c : ascii) : bool :=
  let n := N_of_ascii c in
  (((9 <=? n) && (n <=? 13)) || ((28 <=? n) && (n <=? 31)) || (n =? 32))%N%bool.

Fixpoint lstrip (s : string) : string :=
  match s with
  | String c r => if is_space c then lstrip r else s
  | EmptyString => EmptyString
  end.

Fixpoint rstrip (s : string) : string :=
  match s with
  | EmptyString => EmptyString
  | String c r =>
      match rstrip r with
      | EmptyString => if is_space c then EmptyString else String c EmptyString
      | r' => String c r'
      end
  end.

(** [s.strip()]. *)
Definition strip (s : string) : string := rstrip (lstrip s).

(** [s.lower()] on ASCII: ['A'..'Z'] go to ['a'..'z'], every other byte is
    kept. *)
Definition lower_char (c : ascii) : ascii :=
  let n := N_of_ascii c in
  if ((65 <=? n) && (n <=? 90))%N then ascii_of_N (n + 32) else c.

Fixpoint lower (s : string) : string :=
  match s with
  | EmptyString => EmptyString
  | String c r => String (lower_char c) (lower r)
  end.

(** The digits of an [int] literal after the sign: decimal digits, with
    single underscores allowed between two digits.  [go acc after_digit]. *)
Fixpoint int_digits (s : string) (acc : Z) (after_digit : bool) : option Z :=
  match s with
  | EmptyString => if after_digit then Some acc else None
  | String c r =>
      if is_digit c then int_digits r (acc * 10 + digit_val c) true
      else if (Ascii.eqb c "_" && after_digit)%bool then
        match r with
        | String d _ => if is_digit d then int_digits r acc false else None
        | EmptyString => None
        end
      else None
  end.

(** The white space that [int()] passes over at both ends of an ASCII
    text: tab, newline, vertical tab, form feed, carriage return and the
    space.  The separators 28..31, which [str.strip()] removes, are not among
    them: [int] takes them for part of the number and raises. *)
Definition is_int_space (c : ascii) : bool :=
  let n := N_of_ascii c in
  (((9 <=? n) && (n <=? 13)) || (n =? 32))%N%bool.

Fixpoint int_lstrip (s : string) : string :=
  match s with
  | String c r => if is_int_space c then int_lstrip r else s
  | EmptyString => EmptyString
  end.

Fixpoint int_rstrip (s : string) : string :=
  match s with
  | EmptyString => EmptyString
  | String c r =>
      match int_rstrip r with
      | EmptyString => if is_int_space c then EmptyString else String c EmptyString
      | r' => String c r'
      end
  end.

(** [int(s)] on a [str]: the white space at both ends is passed over, one
    sign is allowed; [None] stands for [ValueError]. *)
Definition int (s : string) : option Z :=
  match int_rstrip (int_lstrip s) with
  | String c r =>
      if Ascii.eqb c "-" then Z.opp <$> int_digits r 0 false
      else if Ascii.eqb c "+" then int_digits r 0 false
      else int_digits (String c r) 0 false
  | EmptyString => None
  end.

(** [s.startswith(c)] and [s.endswith(c)] for a one-character [c]. *)
Definition startswith (c : ascii) (s : string) : bool :=
  match s with
  | String d _ => Ascii.eqb c d
  | EmptyString => false
  end.

Fixpoint endswith (c : ascii) (s : string) : bool :=
  match s with
  | EmptyString => false
  | String d EmptyString => Ascii.eqb c d
  | String _ r => endswith c r
  end.

(** [os.path.join(a, b)] (posixpath, two components). *)
Definition os_path_join (a b : string) : string :=
  if startswith "/" b then b
  else if (String.eqb a EmptyString || endswith "/" a)%bool then a +:+ b
  else a +:+ String "/" b.

(** Truthiness of a [str]. *)
Definition truthy (s : string) : bool := negb (String.eqb s EmptyString).

(** Used to state facts about [str]: strings made of decimal digits only, and
    the number such a string denotes. *)
Fixpoint all_digits (s : string) : bool :=
  match s with
  | EmptyString => true
  | String c r => is_digit c && all_digits r
  end.

Fixpoint val (s : string) : Z :=
  match s with
  | EmptyString => 0
  | String c r => digit_val c * 10 ^ len r + val r
  end.

End Py.

(** ** A state and exception monad

    A computation takes the world, changes it and either returns a value or
    raises.  Both tools below run in it, each over its own world. *)

Module Eff.

Inductive result (E A : Type) :=
| Ok (a : A)
| Raise (e : E).
Arguments Ok {E A} a.
Arguments Raise {E A} e.

Definition M (W E A : Type) : Type := W -> result E A * W.

Definition ret {W E A} (a : A) : M W E A := fun w => (Ok a, w).

Definition bind {W E A B} (m : M W E A) (k : A -> M W E B) : M W E B :=
  fun w => match m w with
           | (Ok a, w') => k a w'
           | (Raise e, w') => (Raise e, w')
           end.

Definition raise {W E A} (e : E) : M W E A := fun w => (Raise e, w).

(** [try: m  except Exception as e: h e]. *)
Definition try_except {W E A} (m : M W E A) (h : E -> M W E A) : M W E A :=
  fun w => match m w with
           | (Ok a, w') => (Ok a, w')
           | (Raise e, w') => h e w'
           end.

Declare Scope eff_scope.
Delimit Scope eff_scope with eff.
Notation "x <- m ;; k" := (bind m (fun x => k))
  (at level 100, m at level 99, right associativity) : eff_scope.
Notation "m ;; k" := (bind m (fun _ => k))
  (at level 100, right associativity) : eff_scope.

End Eff.

(** ** shot.py *)

Module Shot.

(** *** Images

    An RGB image as PIL holds it after [convert("RGB")]: its [size] and its
    pixels, row by row ([np.array(img)] has shape [(size_h, size_w, 3)]). *)
Definition pixel : Type := Z * Z * Z.

Record image := Image { size_w : Z; size_h : Z; rows : list (list pixel) }.

Definition white : pixel := (255, 255, 255).
Definition black : pixel := (0, 0, 0).

(** [np.all(arr == 255, axis=2)] at one pixel. *)
Definition is_white (p : pixel) : bool :=
  let '(r, g, b) := p in (r =? 255) && (g =? 255) && (b =? 255).

(** [np.argwhere(~mask)]: the [(y, x)] of every pixel that is not pure
    white, in row-major order. *)
Fixpoint row_coords (y x : Z) (row : list pixel) : list (Z * Z) :=
  match row with
  | [] => []
  | p :: r =>
      if is_white p then row_coords y (x + 1) r
      else (y, x) :: row_coords y (x + 1) r
  end.

Fixpoint argwhere_from (y : Z) (rs : list (list pixel)) : list (Z * Z) :=
  match rs with
  | [] => []
  | r :: rs' => row_coords y 0 r ++ argwhere_from (y + 1) rs'
  end.

Definition argwhere_nonwhite (img : image) : list (Z * Z) :=
  argwhere_from 0 (rows img).

(** [min] and [max] of one column of a non-empty [coords] array. *)
Definition list_min (x : Z) (l : list Z) : Z := fold_left Z.min l x.
Definition list_max (x : Z) (l : list Z) : Z := fold_left Z.max l x.

(** The pixel that [Image.crop] reads at [(x, y)]: outside the image the
    crop is filled with black. *)
Definition getpixel (img : image) (x y : Z) : pixel :=
  if (0 <=? x) && (0 <=? y) then
    match rows img !! Z.to_nat y with
    | Some row => default black (row !! Z.to_nat x)
    | None => black
    end
  else black.

(** [img.crop((x0, y0, x1, y1))].  The cropper below only passes boxes with
    [x0 <= x1] and [y0 <= y1] (lemma [adjusted_box_ordered]). *)
Definition crop (img : image) (box : Z * Z * Z * Z) : image :=
  let '(x0, y0, x1, y1) := box in
  {| size_w := x1 - x0;
     size_h := y1 - y0;
     rows := (fun y => (fun x => getpixel img x y) <$> Py.range x0 x1) <$> Py.range y0 y1 |}.

(** Lines 199-205 of [crop_nonwhite_bbox_with_margin]: the bounding box of
    the non-white pixels, then the margins.  The result is the box handed to
    [crop], in PIL's order [(x0, y0, x1, y1)]. *)
Definition adjusted_box (c : Z * Z) (cs : list (Z * Z))
    (margin_top margin_bottom margin_left margin_right : Z) : Z * Z * Z * Z :=
  let y0 := list_min (fst c) (fst <$> cs) in
  let x0 := list_min (snd c) (snd <$> cs) in
  let y1 := list_max (fst c) (fst <$> cs) + 1 in
  let x1 := list_max (snd c) (snd <$> cs) + 1 in
  let y0 := Z.max 0 (y0 + margin_top) in
  let y1 := Z.max y0 (y1 - margin_bottom) in
  let x0 := Z.max 0 (x0 + margin_left) in
  let x1 := Z.max x0 (x1 - margin_right) in
  (x0, y0, x1, y1).

(** What [crop_nonwhite_bbox_with_margin] saves for an input image: the
    image itself when no pixel differs from white, else the crop. *)
Definition cropped_image (img : image)
    (margin_top margin_bottom margin_left margin_right : Z) : image :=
  match argwhere_nonwhite img with
  | [] => img
  | c :: cs =>
      crop img (adjusted_box c cs margin_top margin_bottom margin_left margin_right)
  end.

(** The image has a width and a height. *)
Definition has_pixels (img : image) : bool := (0 <? size_w img) && (0 <? size_h img).

(** What the cropper makes of [img] can be saved: the image as it was read
    when it is all white, else a crop that has a width and a height. *)
Definition crop_saved (img : image)
    (margin_top margin_bottom margin_left margin_right : Z) : bool :=
  match argwhere_nonwhite img with
  | [] => true
  | _ :: _ => has_pixels (cropped_image img margin_top margin_bottom margin_left margin_right)
  end.

(** The pixel at row [y], column [x] exists and is not pure white. *)
Definition nonwhite_at (img : image) (y x : Z) : Prop :=
  exists row p, 0 <= y /\ 0 <= x /\
    rows img !! Z.to_nat y = Some row /\ row !! Z.to_nat x = Some p /\
    is_white p = false.

(** [(x0, y0, x1, y1)] is the least rectangle, exclusive at its far edges,
    that holds every non-white pixel. *)
Definition is_bounding_box (img : image) (box : Z * Z * Z * Z) : Prop :=
  let '(x0, y0, x1, y1) := box in
  (forall y x, nonwhite_at img y x -> y0 <= y < y1 /\ x0 <= x < x1) /\
  (exists x, nonwhite_at img y0 x) /\ (exists x, nonwhite_at img (y1 - 1) x) /\
  (exists y, nonwhite_at img y x0) /\ (exists y, nonwhite_at img y (x1 - 1)).

(** Every pixel of the image is pure white. *)
Definition all_white (img : image) : Prop :=
  Forall (Forall (fun p => p = white)) (rows img).

(** Two small pages used in the examples: one black pixel on white, and a
    blank page. *)
Definition dot_page : image :=
  {| size_w := 3; size_h := 2;
     rows := [[white; black; white]; [white; white; white]] |}.

Definition blank_page : image :=
  {| size_w := 2; size_h := 2; rows := [[white; white]; [white; white]] |}.

(** *** The world the tool acts on *)

(** A parsed entry of the AppleScript reply:
    [(proc_name, win_name, x, y, w, h)]. *)
Record window := Window {
  proc_name : string; win_name : string;
  win_x : Z; win_y : Z; win_w : Z; win_h : Z }.

Inductive event :=
| EvEnumerate                                   (* osascript: list the windows *)
| EvActivate (proc : string)                    (* osascript: activate *)
| EvSetSize (proc : string) (w h : option Z)    (* osascript: set size *)
| EvMakedirs (dir : string)
| EvSleep (seconds : Q)
| EvScreenshot (region : Z * Z * Z * Z)         (* pyautogui.screenshot(region=...) *)
| EvClick (x y : Z)                             (* pyautogui.click *)
| EvPress (key : string)                        (* pyautogui.press *)
| EvLogError (what : string).

Inductive exn :=
| RuntimeError (msg : string)
| ValueError
| FileNotFoundError (path : string)
| ScreenshotError
| SystemError.                                  (* PIL: nothing to encode *)

(** What the surroundings answer in one run.  [osascript k] is the
    [windows] list that lines 136-155 of [get_window_info] obtain on the
    [k]-th enumeration ([None]: the script failed or printed nothing);
    [grab k region] is the image that the [k]-th call of
    [pyautogui.screenshot] returns ([None]: it raises); [activates k] tells
    whether the [k]-th activation script runs to its end ([false]: it times
    out or cannot be started).  The answers are those of one run: what the
    desktop shows depends on what was asked of it before, so a run that asks
    for something else (another window size, say) is described by other
    surroundings. *)
Record env := Env {
  pyautogui : bool;          (* the import at the top of the file succeeded *)
  pillow : bool;
  darwin : bool;             (* platform.system() == "Darwin" *)
  osascript : nat -> option (list window);
  grab : nat -> Z * Z * Z * Z -> option image;
  activates : nat -> bool }.

(** Files written by the tool (all of them PNG images), what was done so
    far (latest event first), and how often the two oracles were asked. *)
Record world := World {
  fs : gmap string image;
  trace : list event;
  enumerations : nat;
  grabs : nat }.

Definition initial (files : gmap string image) : world :=
  {| fs := files; trace := []; enumerations := 0; grabs := 0 |}.

Import Eff.
Local Open Scope eff_scope.
Abbreviation M := (Eff.M world exn).

Definition emit (e : event) : M unit :=
  fun w => (Ok tt, {| fs := fs w; trace := e :: trace w;
                      enumerations := enumerations w; grabs := grabs w |}).

Definition sleep (seconds : Q) : M unit := emit (EvSleep seconds).

(** [Image.open(path)]. *)
Definition image_open (path : string) : M image :=
  fun w => match fs w !! path with
           | Some img => (Ok img, w)
           | None => (Raise (FileNotFoundError path), w)
           end.

(** [img.save(path)] for an image that was read from a file or taken from
    the screen: such an image has pixels, and the save succeeds. *)
Definition image_save (img : image) (path : string) : M unit :=
  fun w => (Ok tt, {| fs := <[path := img]> (fs w); trace := trace w;
                      enumerations := enumerations w; grabs := grabs w |}).

(** [cropped.save(path)] for the image made by [crop], which may be without
    width or height.  PIL opens the file for writing and then encodes the
    image; with nothing to encode the encoder raises, and what is left at
    [path] is no image: the file is removed again or stays cut to nothing,
    depending on the version of the library. *)
Definition save_cropped (cropped : image) (path : string) : M unit :=
  fun w =>
    if has_pixels cropped then image_save cropped path w
    else (Raise SystemError,
          {| fs := delete path (fs w); trace := trace w;
             enumerations := enumerations w; grabs := grabs w |}).

(** [os.remove(path)]. *)
Definition os_remove (path : string) : M unit :=
  fun w => match fs w !! path with
           | Some _ => (Ok tt, {| fs := delete path (fs w); trace := trace w;
                                  enumerations := enumerations w; grabs := grabs w |})
           | None => (Raise (FileNotFoundError path), w)
           end.

(** [pyautogui.screenshot(region=...)]. *)
Definition screenshot (e : env) (region : Z * Z * Z * Z) : M image :=
  fun w =>
    let w' := {| fs := fs w; trace := EvScreenshot region :: trace w;
                 enumerations := enumerations w; grabs := S (grabs w) |} in
    match grab e (grabs w) region with
    | Some img => (Ok img, w')
    | None => (Raise ScreenshotError, w')
    end.

(** The windows that one run of the enumeration script yields. *)
Definition enumerate_windows (e : env) : M (option (list window)) :=
  fun w => (Ok (osascript e (enumerations w)),
            {| fs := fs w; trace := EvEnumerate :: trace w;
               enumerations := S (enumerations w); grabs := grabs w |}).

(** *** WindowCapture *)

Definition _check_dependencies (e : env) : bool :=
  pyautogui e && pillow e && darwin e.

(** Truthiness of an optional [str] argument ([None] and [""] are false). *)
Definition given (sel : option string) : option string :=
  match sel with
  | Some s => if Py.truthy s then Some s else None
  | None => None
  end.

(** The test made on one window in the loop of lines 157-161. *)
Definition window_matches (app_name window_title : option string) (win : window) : bool :=
  match given app_name with
  | Some a => String.eqb (Py.lower (proc_name win)) (Py.lower a)
  | None => false
  end
  ||
  match given window_title with
  | Some t => String.eqb (Py.lower (win_name win)) (Py.lower t)
  | None => false
  end.

(** [name] equals a selector that was supplied, up to the case of letters. *)
Definition selector_is (sel : option string) (name : string) : Prop :=
  exists s, sel = Some s /\ s <> EmptyString /\ Py.lower name = Py.lower s.

(** The window is named by the process selector or by the title selector. *)
Definition selected (app_name window_title : option string) (win : window) : Prop :=
  selector_is app_name (proc_name win) \/ selector_is window_title (win_name win).

(** Lines 157-163: the first window that passes the test. *)
Fixpoint first_match (app_name window_title : option string) (windows : list window)
    : option window :=
  match windows with
  | [] => None
  | win :: rest =>
      if window_matches app_name window_title win then Some win
      else first_match app_name window_title rest
  end.

Definition get_window_info (e : env) (app_name window_title : option string)
    : M (option window) :=
  if negb (_check_dependencies e) then ret None
  else
    ws <- enumerate_windows e ;;
    match ws with
    | None => ret None
    | Some windows =>
        match first_match app_name window_title windows with
        | Some win => ret (Some win)
        | None => emit (EvLogError "No exact matching window found") ;; ret None
        end
    end.

(** Lines 185-209: an image without a pixel other than white is saved as it
    was read (lines 196-198); otherwise the crop is saved (line 208), and
    that save raises when the margins have left no width or no height. *)
Definition crop_nonwhite_bbox_with_margin (input_path output_path : string)
    (margin_top margin_bottom margin_left margin_right : Z) : M bool :=
  img <- image_open input_path ;;
  match argwhere_nonwhite img with
  | [] => image_save img output_path ;; ret true
  | c :: cs =>
      let cropped :=
        crop img (adjusted_box c cs margin_top margin_bottom margin_left margin_right) in
      save_cropped cropped output_path ;;
      ret true
  end.

Definition crop_left_third (image_path output_path : string)
    (margin_top margin_bottom margin_left margin_right : Z) : M bool :=
  try_except
    (img <- image_open image_path ;;
     let temp_path := output_path +:+ ".cvtmp.png" in
     image_save img temp_path ;;
     crop_nonwhite_bbox_with_margin temp_path output_path
       margin_top margin_bottom margin_left margin_right ;;
     os_remove temp_path ;;
     ret true)
    (fun _ => emit (EvLogError "Cropping failed") ;; ret false).

Definition capture_window (e : env) (x y width height : Z) (output_path : string)
    (margin_top margin_bottom margin_left margin_right : Z) : M bool :=
  try_except
    (if negb (pyautogui e) then
       emit (EvLogError "pyautogui is required for capturing") ;; ret false
     else
       let region_width := width / 3 in
       let temp_path := output_path +:+ ".tmp.png" in
       shot <- screenshot e (x, y, region_width, height) ;;
       image_save shot temp_path ;;
       crop_left_third temp_path output_path
         margin_top margin_bottom margin_left margin_right ;;
       os_remove temp_path ;;
       ret true)
    (fun _ => emit (EvLogError "Capture failed") ;; ret false).

(** *** Batch capture *)

Definition is_activate (ev : event) : bool :=
  match ev with EvActivate _ => true | _ => false end.

(** The number of activations asked for so far. *)
Definition activations (w : world) : nat := length (List.filter is_activate (trace w)).

(** [activate_app], lines 255-266.  When the script runs to its end the
    half second of line 264 follows; when it times out or cannot be started
    the exception is caught, a warning is logged (the log of warnings is not
    part of the trace) and the sleep is passed over.  Either way nothing is
    raised. *)
Definition activate_app (e : env) (app_name : string) : M unit :=
  fun w =>
    if activates e (activations w)
    then (emit (EvActivate app_name) ;; sleep (1 # 2)) w
    else emit (EvActivate app_name) w.

(** Truthiness of an optional [int] argument ([None] and [0] are false). *)
Definition nonzero (v : option Z) : bool :=
  match v with
  | Some z => negb (z =? 0)
  | None => false
  end.

(** Lines 268-289.  Called below with no position, and only when [width]
    or [height] is true, so the early return for four [None]s is not taken.
    The event is the request; whether the script fails is caught and logged
    as a warning, and what the window does with the request shows in the
    next enumeration, which is for [osascript] to answer. *)
Definition set_window_size_and_position (app_name : string) (width height : option Z)
    : M unit :=
  match width, height with
  | None, None => ret tt
  | _, _ => emit (EvSetSize app_name width height)
  end.

(** Lines 333-341: the action that turns the page. *)
Definition advance (next_action : string) : M unit :=
  if Py.contains "," next_action then
    match Py.int <$> Py.split "," next_action with
    | [Some nx; Some ny] => emit (EvClick nx ny)
    | _ =>
        emit (EvLogError "--next must be 'x,y' for click or a key name for press.") ;;
        raise ValueError
    end
  else emit (EvPress next_action).

(** [delay > 0]. *)
Definition positive (delay : Q) : bool := 0 <? Qnum delay.

(** The name of page [i], line 329. *)
Definition page_filename (book : string) (pad_width i : Z) : string :=
  book +:+ "_" +:+ Py.zfill (Py.str i) pad_width +:+ ".png".

(** The body of the loop of lines 323-342, run over the pages that are left;
    [img_paths] is the list built so far. *)
Fixpoint capture_pages (e : env) (proc : string) (x y w h : Z)
    (output_dir book : string) (pad_width : Z) (next_action : string) (delay : Q)
    (top bottom left right : Z) (pages : list Z) (img_paths : list string)
    : M (list string) :=
  match pages with
  | [] => ret img_paths
  | i :: pages' =>
      activate_app e proc ;;
      (if positive delay then sleep delay else ret tt) ;;
      let out_path := Py.os_path_join output_dir (page_filename book pad_width i) in
      capture_window e x y w h out_path top bottom left right ;;
      let img_paths := img_paths ++ [out_path] in
      sleep (1 # 10) ;;
      advance next_action ;;
      sleep (1 # 10) ;;
      capture_pages e proc x y w h output_dir book pad_width next_action delay
                    top bottom left right pages' img_paths
  end.

(** [batch_capture], lines 290-344.  The logging set-up and the query of the
    screen size have no effect on what follows and are left out; [start] and
    [no] are the first page and the number of pages.  The assignments
    [w = width] and [h = height] of lines 305-308 are made only when [width]
    or [height] is true, and then line 314 overwrites both with the geometry
    queried again, so they never reach the loop and are not written here. *)
Definition batch_capture (e : env) (app_name window_label : option string)
    (output_dir book : string) (start no : Z) (next_action : string) (delay : Q)
    (width height : option Z) (top bottom left right : Z) : M (list string) :=
  if negb (_check_dependencies e) then
    raise (RuntimeError "Missing dependencies or not macOS")
  else
    info <- get_window_info e app_name window_label ;;
    match info with
    | None => raise (RuntimeError "No matching window found")
    | Some win =>
        info <- (if nonzero width || nonzero height then
                   set_window_size_and_position (proc_name win) width height ;;
                   info <- get_window_info e app_name window_label ;;
                   match info with
                   | None => raise (RuntimeError "No matching window after resize")
                   | Some win' => ret win'
                   end
                 else ret win) ;;
        let proc := proc_name info in
        let '(x, y, w, h) := (win_x info, win_y info, win_w info, win_h info) in
        activate_app e proc ;;
        emit (EvMakedirs output_dir) ;;
        let total_pages := start + no - 1 in
        let pad_width := Py.len (Py.str total_pages) in
        capture_pages e proc x y w h output_dir book pad_width next_action delay
                      top bottom left right (Py.range start (start + no)) []
    end.

(** Surroundings used in the examples: one window of a reader application,
    every dependency at hand, and the given outcomes of the screenshots. *)
Definition reader_env (shots : nat -> option image) : env :=
  {| pyautogui := true; pillow := true; darwin := true;
     osascript := fun _ => Some [Window "Reader" "Book" 0 0 300 200];
     grab := fun k _ => shots k;
     activates := fun _ => true |}.

(** The event by which [advance] turns the page, if the action is well
    formed: what the facts about a whole run are stated with. *)
Definition advance_event (next_action : string) : option event :=
  if Py.contains "," next_action then
    match Py.int <$> Py.split "," next_action with
    | [Some nx; Some ny] => Some (EvClick nx ny)
    | _ => None
    end
  else Some (EvPress next_action).

(** The window that [batch_capture] ends up working with: the first
    enumeration must name one and, when a size is asked for, so must the
    enumeration after the resize. *)
Definition locate (e : env) (k : nat) (app_name window_label : option string)
    : option window :=
  osascript e k ≫= first_match app_name window_label.

Definition located (e : env) (w : world) (app_name window_label : option string)
    (width height : option Z) : option window :=
  if _check_dependencies e then
    match locate e (enumerations w) app_name window_label with
    | Some win =>
        if nonzero width || nonzero height
        then locate e (S (enumerations w)) app_name window_label
        else Some win
    | None => None
    end
  else None.

Definition is_screenshot (ev : event) : bool :=
  match ev with EvScreenshot _ => true | _ => false end.

Definition is_advance (ev : event) : bool :=
  match ev with EvClick _ _ | EvPress _ => true | _ => false end.

Definition is_log_error (ev : event) : bool :=
  match ev with EvLogError _ => true | _ => false end.

(** What happened, oldest event first. *)
Definition history (w : world) : list event := rev (trace w).

(** The events of a run that capture the screen or turn the page. *)
Definition capture_or_advance (ev : event) : bool := is_screenshot ev || is_advance ev.

(** [k] times: one screenshot of [region], then the page turn [ev]. *)
Definition turns (k : nat) (region : Z * Z * Z * Z) (ev : event) : list event :=
  mjoin (replicate k [EvScreenshot region; ev]).

(** A step that neither captures nor turns a page. *)
Definition calm_step (w w' : world) : Prop :=
  fs w' = fs w /\ grabs w' = grabs w /\
  exists hist, trace w' = rev hist ++ trace w /\
               List.filter capture_or_advance hist = [].

(** [m] always returns. *)
Definition total {A} (m : M A) : Prop := forall w, exists a w', m w = (Ok a, w').

(** A step that leaves the oracles alone and adds error messages at most. *)
Definition quiet_step (w w' : world) : Prop :=
  enumerations w' = enumerations w /\ grabs w' = grabs w /\
  exists tail, trace w' = tail ++ trace w /\ forallb is_log_error tail = true.

Definition quiet {A} (m : M A) : Prop := forall w, quiet_step w (snd (m w)).

End Shot.

(** ** llm_ocr.py *)

Module LlmOcr.

(** The reply of the OCR endpoint: the status and, for a 200, the markdown
    of each entry of ["pages"]. *)
Record response := Response { status_code : Z; pages : list string }.

Inductive log :=
| LogNoKey
| LogRateLimit (png : string)
| LogApiError (status : Z)
| LogExists (txt_path : string)
| LogSaved (txt_path : string)
| LogRetryAnnounce (count : nat)
| LogRetryOk (txt_path : string)
| LogRetryFailed (png : string)
| LogMerged (merged_path : string).

Inductive event :=
| EvPost (png : string)          (* requests.post with this file *)
| EvSleep (seconds : Q)
| EvWrite (path : string)        (* a file opened with 'w' *)
| EvLog (l : log).

(** [RequestError] stands for whatever a request raises: the transport
    error of [requests.post], the decoding error of [response.json()] on a
    body that is not JSON, the type error of line 68 on a page without
    markdown. *)
Inductive exn :=
| FileNotFoundError (path : string)
| OSError (path : string)
| RequestError.

(** What the surroundings answer: the API key of the environment, whether
    a file can be opened for reading, whether the [k]-th request comes back
    with a reply that lines 64-69 can read and, if so, this reply, and how
    much of the text written to a file that is still open has reached the
    disk. *)
Record env := Env {
  MISTRAL_API_KEY : string;
  readable : string -> bool;
  answers : nat -> string -> bool;
  remote : nat -> string -> response;
  flushed : string -> string }.

(** The text files of the output directory by name, what was done so far
    (latest first) and the number of requests sent. *)
Record world := World {
  fs : gmap string string;
  trace : list event;
  posts : nat }.

Definition initial (files : gmap string string) : world :=
  {| fs := files; trace := []; posts := 0 |}.

Import Eff.
Local Open Scope eff_scope.
Abbreviation M := (Eff.M world exn).

Definition emit (e : event) : M unit :=
  fun w => (Ok tt, {| fs := fs w; trace := e :: trace w; posts := posts w |}).

Definition logger (l : log) : M unit := emit (EvLog l).

Definition sleep (seconds : Q) : M unit := emit (EvSleep seconds).

(** [encode_file]: opening a file that cannot be read raises. *)
Definition encode_file (e : env) (file_path : string) : M unit :=
  fun w => if readable e file_path then (Ok tt, w) else (Raise (OSError file_path), w).

(** [requests.post(...)] and the reading of its reply; a request without
    an answer raises once it has been sent. *)
Definition post (e : env) (png : string) : M response :=
  fun w =>
    let w' := {| fs := fs w; trace := EvPost png :: trace w; posts := S (posts w) |} in
    if answers e (posts w) png then (Ok (remote e (posts w) png), w')
    else (Raise RequestError, w').

(** [path.exists()]. *)
Definition path_exists (path : string) : M bool :=
  fun w => (Ok (bool_decide (is_Some (fs w !! path))), w).

(** The file at [path] now holds [text]. *)
Definition store (path text : string) : M unit :=
  fun w => (Ok tt, {| fs := <[path := text]> (fs w); trace := trace w; posts := posts w |}).

(** [with open(path, 'w') as f: f.write(text)]. *)
Definition write_text (path text : string) : M unit :=
  emit (EvWrite path) ;; store path text.

(** [with open(path, 'r') as tf: tf.read()]. *)
Definition read_text (path : string) : M string :=
  fun w => match fs w !! path with
           | Some text => (Ok text, w)
           | None => (Raise (FileNotFoundError path), w)
           end.

Definition nl : string := String "010" EmptyString.
Definition blank_line : string := nl +:+ nl.

Definition RATE_LIMIT : string := "RATE_LIMIT".

(** [perform_mistral_ocr]: [None], ["RATE_LIMIT"] or the text; nothing in
    it catches what [encode_file] or the request raise. *)
Definition perform_mistral_ocr (e : env) (file_path : string) : M (option string) :=
  if negb (Py.truthy (MISTRAL_API_KEY e)) then logger LogNoKey ;; ret None
  else
    encode_file e file_path ;;
    response <- post e file_path ;;
    if status_code response =? 200 then
      let all_text :=
        fold_left (fun all_text page => all_text +:+ page +:+ blank_line)
                  (pages response) EmptyString in
      ret (Some (Py.strip all_text))
    else if status_code response =? 429 then
      logger (LogRateLimit file_path) ;; ret (Some RATE_LIMIT)
    else
      logger (LogApiError (status_code response)) ;; ret None.

(** [s.rfind(c)]. *)
Fixpoint rfind (c : ascii) (s : string) : option nat :=
  match s with
  | EmptyString => None
  | String d r =>
      match rfind c r with
      | Some i => Some (S i)
      | None => if Ascii.eqb c d then Some O else None
      end
  end.

(** [Path(name).stem]: the name without its last suffix; a dot in front or
    at the very end starts no suffix. *)
Definition stem (name : string) : string :=
  match rfind "." name with
  | Some i =>
      if ((0 <? i) && (i <? String.length name - 1))%nat
      then substring 0 i name else name
  | None => name
  end.

(** [output_dir / (png.stem + '.txt')], as a name in the output directory. *)
Definition txt_path_of (png : string) : string := stem png +:+ ".txt".

(** Lines 111-125: the first pass over the images that are left. *)
Fixpoint first_pass (e : env) (png_files : list string)
    (txt_files retry_list : list string) : M (list string * list string) :=
  match png_files with
  | [] => ret (txt_files, retry_list)
  | png :: rest =>
      let txt_path := txt_path_of png in
      present <- path_exists txt_path ;;
      if present then
        logger (LogExists txt_path) ;;
        first_pass e rest txt_files retry_list
      else
        text <- perform_mistral_ocr e png ;;
        lists <-
          match text with
          | Some t =>
              if String.eqb t RATE_LIMIT then ret (txt_files, retry_list ++ [png])
              else if Py.truthy t then
                write_text txt_path t ;;
                logger (LogSaved txt_path) ;;
                ret (txt_files ++ [txt_path], retry_list)
              else ret (txt_files, retry_list)
          | None => ret (txt_files, retry_list)
          end ;;
        sleep (2 # 10) ;;
        first_pass e rest (fst lists) (snd lists)
  end.

(** Lines 129-139: one more request for each deferred image. *)
Fixpoint retry_pass (e : env) (retry_list : list string) (txt_files : list string)
    : M (list string) :=
  match retry_list with
  | [] => ret txt_files
  | png :: rest =>
      let txt_path := txt_path_of png in
      text <- perform_mistral_ocr e png ;;
      txt_files <-
        match text with
        | Some t =>
            if Py.truthy t && negb (String.eqb t RATE_LIMIT) then
              write_text txt_path t ;;
              logger (LogRetryOk txt_path) ;;
              ret (txt_files ++ [txt_path])
            else logger (LogRetryFailed png) ;; ret txt_files
        | None => logger (LogRetryFailed png) ;; ret txt_files
        end ;;
      retry_pass e rest txt_files
  end.

(** [name] matches the pattern [*suffix]. *)
Definition ends_with (suffix name : string) : bool :=
  let n := String.length name in
  let k := String.length suffix in
  ((k <=? n)%nat && String.eqb (substring (n - k) k name) suffix).

(** [sorted(output_dir.glob('*.txt'), key=lambda x: str(x))]. *)
Definition glob_txt_sorted (files : gmap string string) : list string :=
  merge_sort String.le
    (filter (fun name => Is_true (ends_with ".txt" name)) (fst <$> map_to_list files)).

(** Lines 145-147 while the merged file is open: [written] is what went
    into [f] so far; the disk shows the part of it that was flushed. *)
Fixpoint write_merged (e : env) (merged_path : string) (all_txts : list string)
    (written : string) : M string :=
  match all_txts with
  | [] => ret written
  | txt :: rest =>
      text <- read_text txt ;;
      let written := written +:+ (Py.strip text +:+ blank_line) in
      store merged_path (flushed e written) ;;
      write_merged e merged_path rest written
  end.

(** Lines 140-148. *)
Definition merge_texts (e : env) (input_dir_name : string) : M unit :=
  fun w =>
    let all_txts := glob_txt_sorted (fs w) in
    match all_txts with
    | [] => (Ok tt, w)
    | _ =>
        let merged_path := input_dir_name +:+ "_merged.txt" in
        (write_text merged_path EmptyString ;;
         written <- write_merged e merged_path all_txts EmptyString ;;
         store merged_path written ;;
         logger (LogMerged merged_path)) w
    end.

(** [main] with [--input-dir]: [png_files] is [sorted(input_dir.glob('*.png'))],
    [input_dir_name] is [input_dir.name], [merge] is [args.merge].  The lock
    around each request is taken and released within the request and is not
    part of the model.  Neither pass has a handler around its request: what
    [perform_mistral_ocr] raises ends [main]. *)
Definition main (e : env) (input_dir_name : string) (png_files : list string)
    (merge : bool) : M unit :=
  lists <- first_pass e png_files [] [] ;;
  let '(txt_files, retry_list) := lists in
  txt_files <-
    match retry_list with
    | [] => ret txt_files
    | _ =>
        logger (LogRetryAnnounce (length retry_list)) ;;
        sleep 3 ;;
        retry_pass e retry_list txt_files
    end ;;
  if merge then merge_texts e input_dir_name else ret tt.

(** What [perform_mistral_ocr] makes of a reply. *)
Definition outcome_of (r : response) : option string :=
  if status_code r =? 200 then
    Some (Py.strip (fold_left (fun all_text page => all_text +:+ page +:+ blank_line)
                              (pages r) EmptyString))
  else if status_code r =? 429 then Some RATE_LIMIT
  else None.

(** The result sends the image to the retry list. *)
Definition is_rate_limited (text : option string) : bool :=
  match text with
  | Some t => String.eqb t RATE_LIMIT
  | None => false
  end.

(** The result is a text that is written out. *)
Definition is_text (text : option string) : bool :=
  match text with
  | Some t => Py.truthy t && negb (String.eqb t RATE_LIMIT)
  | None => false
  end.

(** The images requested in a stretch of the history, in order. *)
Definition posted (hist : list event) : list string :=
  omap (fun ev => match ev with EvPost png => Some png | _ => None end) hist.

(** Of the requests [requested], sent one after the other from request
    number [k] on, those that came back rate limited. *)
Fixpoint deferred (e : env) (k : nat) (requested : list string) : list string :=
  match requested with
  | [] => []
  | png :: rest =>
      (if is_rate_limited (outcome_of (remote e k png)) then [png] else [])
      ++ deferred e (S k) rest
  end.

(** The text that the merge takes from each of [names], as [files] has them. *)
Definition pieces (files : gmap string string) (names : list string) : string :=
  foldr (fun name acc => (Py.strip (default EmptyString (files !! name)) +:+ blank_line) +:+ acc)
        EmptyString names.

(** What was done, oldest event first. *)
Definition history (w : world) : list event := rev (trace w).

(** The requests [requested], sent one after the other from request number
    [k] on, all get an answer. *)
Definition answered (e : env) (k : nat) (requested : list string) : Prop :=
  forall (i : nat) png, requested !! i = Some png -> answers e (k + i) png = true.

(** How a stretch [hist] of a run that began in [w] came to its result: all
    its requests were answered and it ended normally, or its last request
    was not, it raised, and the request is the last thing that was done. *)
Definition ends_at_request {A} (e : env) (w : world) (hist : list event)
    (r : result exn A) : Prop :=
  match r with
  | Ok _ => answered e (posts w) (posted hist)
  | Raise x =>
      x = RequestError /\
      exists before png,
        hist = before ++ [EvPost png] /\
        answered e (posts w) (posted before) /\
        answers e (posts w + length (posted before)) png = false
  end.

(** Surroundings used in the examples: a key is set, every file can be read
    and every request is answered; request number 1 is rate limited, request
    number 2 is a server error, every other request is answered with one page
    of text; nothing written to an open file reaches the disk before the
    file is closed. *)
Definition demo_env : env :=
  {| MISTRAL_API_KEY := "key";
     readable := fun _ => true;
     answers := fun _ _ => true;
     remote := fun k png =>
       if (k =? 1)%nat then Response 429 []
       else if (k =? 2)%nat then Response 500 []
       else Response 200 ["text of " +:+ png];
     flushed := fun _ => EmptyString |}.

(** The same with a disk that shows every write at once. *)
Definition unbuffered_env : env :=
  {| MISTRAL_API_KEY := MISTRAL_API_KEY demo_env; readable := readable demo_env;
     answers := answers demo_env; remote := remote demo_env;
     flushed := fun written => written |}.

(** The service of [demo_env] going away in the middle of a run: the
    requests number 0 to 2 come back, [b.png] and [c.png] rate limited, and
    no request after them is answered. *)
Definition failing_env : env :=
  {| MISTRAL_API_KEY := "key";
     readable := fun _ => true;
     answers := fun k _ => (k <? 3)%nat;
     remote := fun k png =>
       if (k =? 0)%nat then Response 200 ["text of " +:+ png] else Response 429 [];
     flushed := fun _ => EmptyString |}.

(** From [w] to [w']: the events [hist] were added, with their requests. *)
Definition extends (w w' : world) (hist : list event) : Prop :=
  trace w' = rev hist ++ trace w /\ posts w' = (posts w + length (posted hist))%nat.

End LlmOcr.

(** ** More of the Python library *)

Module PyLib.

(** Every character of [s] is white space (of an empty [s] as well). *)
Fixpoint all_space (s : string) : bool :=
  match s with
  | EmptyString => true
  | String c r => Py.is_space c && all_space r
  end.

(** Every character of [s] is white space that [int] passes over: a tab, a
    line feed, a vertical tab, a form feed, a carriage return or a blank. *)
Fixpoint all_int_space (s : string) : bool :=
  match s with
  | EmptyString => true
  | String c r => Py.is_int_space c && all_int_space r
  end.

(** [s.lstrip(c)], [s.rstrip(c)] and [s.strip(c)] for a one-character [c]. *)
Fixpoint lstrip_char (c : ascii) (s : string) : string :=
  match s with
  | String d r => if Ascii.eqb d c then lstrip_char c r else s
  | EmptyString => EmptyString
  end.

Fixpoint rstrip_char (c : ascii) (s : string) : string :=
  match s with
  | EmptyString => EmptyString
  | String d r =>
      match rstrip_char c r with
      | EmptyString => if Ascii.eqb d c then EmptyString else String d EmptyString
      | r' => String d r'
      end
  end.

Definition strip_char (c : ascii) (s : string) : string := rstrip_char c (lstrip_char c s).

(** [s[:-1]] and [s[1:-1]]. *)
Fixpoint drop_last (s : string) : string :=
  match s with
  | EmptyString => EmptyString
  | String _ EmptyString => EmptyString
  | String c r => String c (drop_last r)
  end.

Definition slice_1_m1 (s : string) : string :=
  match s with
  | EmptyString => EmptyString
  | String _ r => drop_last r
  end.

(** [s.count(c)] for a one-character [c]. *)
Fixpoint count (c : ascii) (s : string) : nat :=
  match s with
  | EmptyString => O
  | String d r => ((if Ascii.eqb d c then 1 else 0) + count c r)%nat
  end.

(** The line end. *)
Definition newline : string := String "010" EmptyString.

(** The double quote. *)
Definition dquote : ascii := "034".

(** [' ' * k]. *)
Fixpoint spaces (k : nat) : string :=
  match k with
  | O => EmptyString
  | S k' => String " " (spaces k')
  end.

(** [sep.join(l)]. *)
Fixpoint join (sep : string) (l : list string) : string :=
  match l with
  | [] => EmptyString
  | [s] => s
  | s :: rest => s +:+ sep +:+ join sep rest
  end.

(** Every character of [s] is a dot. *)
Fixpoint only_dots (s : string) : bool :=
  match s with
  | EmptyString => true
  | String c r => Ascii.eqb c "." && only_dots r
  end.

(** A name that [Path] keeps as it is and takes for a file of the working
    directory: not empty, without a slash, and not the directory [.]
    itself.  For such a name [Path(name).with_suffix(s)] is the stem of the
    name followed by [s]. *)
Definition plain_name (name : string) : bool :=
  Py.truthy name && negb (Py.contains "/" name) && negb (String.eqb name ".").

(** [os.path.splitext(p)] (posixpath): the extension starts at the last dot
    of [p], provided this dot comes after the last slash and some character
    between the two is not a dot; otherwise the extension is empty. *)
Definition splitext (p : string) : string * string :=
  match LlmOcr.rfind "." p with
  | Some dotIndex =>
      let filenameIndex :=
        match LlmOcr.rfind "/" p with
        | Some sepIndex => S sepIndex
        | None => O
        end in
      if (filenameIndex <=? dotIndex)%nat
         && negb (only_dots (substring filenameIndex (dotIndex - filenameIndex) p))
      then (substring 0 dotIndex p, substring dotIndex (String.length p - dotIndex) p)
      else (p, EmptyString)
  | None => (p, EmptyString)
  end.

End PyLib.

(** ** shot.py, the rest of the tool *)

Module ShotCli.
Import Eff Shot.
Local Open Scope eff_scope.

(** [capture_fullscreen], lines 234-253.  [pyautogui.screenshot()] without a
    region grabs the whole screen; with [screen] the extent of the screen in
    pixels this is the screenshot of the region [(0, 0, width, height)]. *)
Definition capture_fullscreen (e : env) (screen : Z * Z) (output_path : string)
    (margin_top margin_bottom margin_left margin_right : Z) : M bool :=
  try_except
    (if negb (pyautogui e) then
       emit (EvLogError "pyautogui is required for capturing") ;; ret false
     else
       let temp_path := output_path +:+ ".tmp.png" in
       shot <- screenshot e (0, 0, fst screen, snd screen) ;;
       image_save shot temp_path ;;
       crop_left_third temp_path output_path
         margin_top margin_bottom margin_left margin_right ;;
       os_remove temp_path ;;
       ret true)
    (fun _ => emit (EvLogError "Capture failed") ;; ret false).

(** *** What a batch run does, written out

    The events of a run with a well-formed page-turn action [ev], oldest
    first, and the files it leaves; the facts below show that a run does
    exactly this. *)

(** An activation, the [a]-th that is asked for: the half second is slept
    only when the script ran to its end. *)
Definition activation_events (e : env) (proc : string) (a : nat) : list event :=
  EvActivate proc :: (if activates e a then [EvSleep (1 # 2)] else []).

(** The steps before the loop: the window is looked up, resized and looked
    up again when a size is asked for, brought to the front, and the output
    directory is made.  [first] is the process of the window found by the
    first look-up, [proc] the one of the window the run works with. *)
Definition setup_events (e : env) (first proc output_dir : string)
    (width height : option Z) (a : nat) : list event :=
  EvEnumerate
  :: (if nonzero width || nonzero height
      then [EvSetSize first width height; EvEnumerate] else [])
  ++ activation_events e proc a ++ [EvMakedirs output_dir].

(** One turn of the loop, its activation being number [a] and its
    screenshot number [k]. *)
Definition page_events (e : env) (proc : string) (region : Z * Z * Z * Z) (delay : Q)
    (mt mb ml mr : Z) (ev : event) (a k : nat) : list event :=
  activation_events e proc a
  ++ (if positive delay then [EvSleep delay] else [])
  ++ EvScreenshot region
     :: match grab e k region with
        | Some shot =>
            if crop_saved shot mt mb ml mr then [] else [EvLogError "Cropping failed"]
        | None => [EvLogError "Capture failed"]
        end
  ++ [EvSleep (1 # 10); ev; EvSleep (1 # 10)].

Fixpoint loop_events (e : env) (proc : string) (region : Z * Z * Z * Z) (delay : Q)
    (mt mb ml mr : Z) (ev : event) (a k n : nat) : list event :=
  match n with
  | O => []
  | S n' => page_events e proc region delay mt mb ml mr ev a k
            ++ loop_events e proc region delay mt mb ml mr ev (S a) (S k) n'
  end.

(** The files after the capture of [out], its screenshot being number
    [k]: the cropped screenshot under [out], or, when the crop could not be
    saved, the screenshot under the second temporary name and no image under
    [out]. *)
Definition page_files (e : env) (region : Z * Z * Z * Z) (mt mb ml mr : Z)
    (out : string) (k : nat) (files : gmap string image) : gmap string image :=
  match grab e k region with
  | Some shot =>
      if crop_saved shot mt mb ml mr then
        <[out := cropped_image shot mt mb ml mr]>
          (delete (out +:+ ".tmp.png") (delete (out +:+ ".cvtmp.png") files))
      else
        <[out +:+ ".cvtmp.png" := shot]>
          (delete (out +:+ ".tmp.png") (delete out files))
  | None => files
  end.

(** The files after the captures of [outs], the first screenshot being
    number [k]. *)
Fixpoint loop_files (e : env) (region : Z * Z * Z * Z) (mt mb ml mr : Z)
    (outs : list string) (k : nat) (files : gmap string image) : gmap string image :=
  match outs with
  | [] => files
  | out :: outs' =>
      loop_files e region mt mb ml mr outs' (S k)
        (page_files e region mt mb ml mr out k files)
  end.

(** Of the [n] activations from number [a] on, those whose script ran to
    its end. *)
Fixpoint activated (e : env) (a n : nat) : nat :=
  match n with
  | O => O
  | S n' => ((if activates e a then 1 else 0) + activated e (S a) n')%nat
  end.

(** The seconds slept in a stretch of the history. *)
Definition slept (hist : list event) : Q :=
  foldr (fun ev acc => match ev with EvSleep s => (s + acc)%Q | _ => acc end) 0%Q hist.

(** The events that act on the desktop or on the disk: everything but the
    sleeps and the log. *)
Definition is_action (ev : event) : bool :=
  match ev with
  | EvSleep _ | EvLogError _ => false
  | _ => true
  end.

(** The resize requests. *)
Definition is_resize (ev : event) : bool :=
  match ev with EvSetSize _ _ _ => true | _ => false end.

End ShotCli.

(** ** shot.py, reading the reply of the enumeration script

    Lines 136-155 of [get_window_info] (the same as lines 85-94 of
    [list_windows]).  [int(float(x))] is a parameter [int_float] of what
    follows: [None] stands for the exception that makes the loop pass over the
    item. *)

Module Reply.
Import Shot.

(** Line 145. *)
Definition content_of (windows_data : string) : string :=
  if Py.startswith "{" windows_data && Py.endswith "}" windows_data
  then PyLib.slice_1_m1 windows_data else windows_data.

(** Line 146. *)
Definition items_of (content : string) : list string :=
  (fun i => PyLib.strip_char PyLib.dquote (Py.strip i))
    <$> List.filter (fun i => Py.truthy (Py.strip i)) (Py.split "," content).

(** Lines 148-155 for one item. *)
Definition window_of (int_float : string -> option Z) (item : string) : option window :=
  match Py.split "|" item with
  | [proc_name; win_name; x; y; w; h] =>
      match int_float x, int_float y, int_float w, int_float h with
      | Some x, Some y, Some w, Some h => Some (Window proc_name win_name x y w h)
      | _, _, _, _ => None
      end
  | _ => None
  end.

(** Lines 144-155: the list [windows]. *)
Definition windows_of (int_float : string -> option Z) (windows_data : string)
    : list window :=
  omap (window_of int_float) (items_of (content_of windows_data)).

(** Lines 136-155: from the result of the script to the list [windows];
    [None] when [get_window_info] returns [None] before it looks for a
    match. *)
Definition parse_reply (int_float : string -> option Z) (returncode : Z) (stdout : string)
    : option (list window) :=
  if negb (returncode =? 0) then None
  else
    let windows_data := Py.strip stdout in
    if negb (Py.truthy windows_data) || String.eqb windows_data "{}" then None
    else Some (windows_of int_float windows_data).

(** What the script builds for one window (line 127 of the source, inside
    the AppleScript), and the list as [osascript] prints it: the entries
    separated by a comma and a space. *)
Definition record_of (win : window) : string :=
  proc_name win +:+ "|" +:+ win_name win +:+ "|" +:+ Py.str (win_x win) +:+ "|"
  +:+ Py.str (win_y win) +:+ "|" +:+ Py.str (win_w win) +:+ "|" +:+ Py.str (win_h win).

Fixpoint reply_of (windows : list window) : string :=
  match windows with
  | [] => EmptyString
  | [win] => record_of win
  | win :: rest => record_of win +:+ ", " +:+ reply_of rest
  end.

(** Names that come through the reply unharmed: no comma and no bar in
    either name, and the process name does not begin with white space or a
    double quote. *)
Definition plain_proc (name : string) : bool :=
  negb (Py.contains "," name) && negb (Py.contains "|" name)
  && match name with
     | String c _ => negb (Py.is_space c) && negb (Ascii.eqb c PyLib.dquote)
     | EmptyString => true
     end.

Definition plain_title (name : string) : bool :=
  negb (Py.contains "," name) && negb (Py.contains "|" name).

Definition plain_names (win : window) : bool :=
  plain_proc (proc_name win) && plain_title (win_name win).

(** [int_float] reads the four numbers of the window back. *)
Definition reads_back (int_float : string -> option Z) (win : window) : Prop :=
  int_float (Py.str (win_x win)) = Some (win_x win) /\
  int_float (Py.str (win_y win)) = Some (win_y win) /\
  int_float (Py.str (win_w win)) = Some (win_w win) /\
  int_float (Py.str (win_h win)) = Some (win_h win).

End Reply.

(** ** llm_ocr.py, one input file *)

Module LlmOcrFile.
Import Eff LlmOcr.
Local Open Scope eff_scope.

(** [main] with [--input-file], lines 93-101, for an [input_file] that is
    a [PyLib.plain_name]; [output_file] is the value of [--output-file].  The
    default output is [input_path.with_suffix('.txt')], which for such a name
    is its stem followed by [.txt] (for a path with directories the stem is
    that of the last component, which is not modelled).  Nothing here catches
    what [perform_mistral_ocr] raises. *)
Definition main (e : env) (input_file : string) (output_file : option string) : M unit :=
  let output_path :=
    match output_file with
    | Some o => if Py.truthy o then o else txt_path_of input_file
    | None => txt_path_of input_file
    end in
  text <- perform_mistral_ocr e input_file ;;
  match text with
  | Some t =>
      if Py.truthy t then
        write_text output_path t ;;
        logger (LogSaved output_path)
      else ret tt
  | None => ret tt
  end.

(** From [w] to [w']: a file is as it was, or it is the text file of one
    of [pngs] and holds a text that is not empty, not the rate-limit marker,
    and stripped. *)
Definition texts_only (pngs : list string) (w w' : world) : Prop :=
  forall p,
    fs w' !! p = fs w !! p \/
    (p ∈ txt_path_of <$> pngs /\
     exists t, fs w' !! p = Some t /\ is_text (Some t) = true /\ Py.strip t = t).

End LlmOcrFile.

(** ** shot.py, the listing of the windows *)

Module Listing.

(** What [list_windows] puts out: a message of the logger or a line that is
    printed. *)
Inductive output :=
| LogError (msg : string)
| Print (line : string).

(** [f"{i:2d}"]: the number, with spaces in front up to two characters. *)
Definition fmt_2d (i : Z) : string :=
  PyLib.spaces (Z.to_nat (2 - Py.len (Py.str i))) +:+ Py.str i.

(** The line printed at line 100. *)
Definition line_of (i : Z) (proc_name win_name x y w h : string) : string :=
  fmt_2d i +:+ ". [" +:+ proc_name +:+ "] " +:+ win_name +:+ "  (" +:+ x +:+ ","
  +:+ y +:+ ") " +:+ w +:+ "x" +:+ h.

(** Lines 96-100: the loop over [enumerate(items, i)]. *)
Fixpoint print_items (i : Z) (items : list string) : list output :=
  match items with
  | [] => []
  | item :: rest =>
      match Py.split "|" item with
      | [proc_name; win_name; x; y; w; h] => [Print (line_of i proc_name win_name x y w h)]
      | _ => []
      end ++ print_items (i + 1) rest
  end.

(** [list_windows], lines 85-100, on the result of the enumeration script:
    its return code and what it wrote to the two streams. *)
Definition list_windows (returncode : Z) (stdout stderr : string) : list output :=
  if negb (returncode =? 0) then [LogError ("AppleScript failed: " +:+ stderr)]
  else
    let windows_data := Py.strip stdout in
    if negb (Py.truthy windows_data) || String.eqb windows_data "{}"
    then [LogError "No windows found"]
    else
      Print (PyLib.newline +:+ "Available Windows:")
      :: print_items 1 (Reply.items_of (Reply.content_of windows_data)).

(** The lines that were printed. *)
Definition printed (out : list output) : list string :=
  omap (fun o => match o with Print line => Some line | LogError _ => None end) out.

End Listing.

(** ** shot.py, the command line

    [argparse] keeps the option strings registered so far; a new argument
    whose option strings are all new is added, and one that brings an option
    string again is refused with [ArgumentError] (the parser is made with the
    default [conflict_handler='error']). *)

Module Argparse.

Inductive exn :=
| ArgumentError (argument : string) (conflicting : list string).

(** The option strings that the parser knows. *)
Definition parser := list string.

(** [argparse.ArgumentParser(...)]: [add_help] registers [-h] and [--help]. *)
Definition ArgumentParser : parser := ["-h"; "--help"]%string.

(** [parser.add_argument] with the option strings given. *)
Definition add_argument (p : parser) (option_strings : list string)
    : Eff.result exn parser :=
  match List.filter (fun o => bool_decide (o ∈ p)) option_strings with
  | [] => Eff.Ok (p ++ option_strings)
  | conflicting => Eff.Raise (ArgumentError (PyLib.join "/" option_strings) conflicting)
  end.

(** One [add_argument] after the other. *)
Fixpoint add_arguments (p : parser) (arguments : list (list string))
    : Eff.result exn parser :=
  match arguments with
  | [] => Eff.Ok p
  | option_strings :: rest =>
      match add_argument p option_strings with
      | Eff.Ok p' => add_arguments p' rest
      | Eff.Raise x => Eff.Raise x
      end
  end.

End Argparse.

Module ShotMain.
Import Argparse.

(** The option strings of lines 419-440, one entry for each call of
    [add_argument]. *)
Definition arguments : list (list string) :=
  [ ["--input-file"; "-if"]; ["--input-dir"; "-id"]; ["--output-file"; "-of"];
    ["--output-dir"; "-od"]; ["--merge"; "-m"]; ["--lang"; "-l"]; ["--tess"];
    ["--log-level"]; ["--app"; "-a"]; ["--label"; "-L"]; ["--show"; "-s"];
    ["--start"; "-S"]; ["--no"; "-n"]; ["--next"; "-N"]; ["--delay"; "-d"];
    ["--width"; "-w"]; ["--height"; "-H"]; ["--top"; "-t"]; ["--bottom"; "-b"];
    ["--left"; "-l"]; ["--right"; "-r"] ]%string.

(** What [main] can end with: the error of the parser, or whatever the lines
    after it end with. *)
Inductive exn (E : Type) :=
| Parser (x : Argparse.exn)
| Later (x : E).
Arguments Parser {E} x.
Arguments Later {E} x.

(** [main], lines 394-526: the parser is made and filled (lines 397-440);
    [rest] stands for lines 441-526, which work with the parser that was
    built: they read the command line with it and run the captures. *)
Definition main {W E A} (rest : parser -> Eff.M W (exn E) A) : Eff.M W (exn E) A :=
  fun w =>
    match add_arguments ArgumentParser arguments with
    | Eff.Ok p => rest p w
    | Eff.Raise x => (Eff.Raise (Parser x), w)
    end.

(** The option strings of the parsers of [llm_ocr.py] (lines 80-86) and
    [pdf.py] (lines 51-58). *)
Definition llm_ocr_arguments : list (list string) :=
  [ ["--input-file"; "-if"]; ["--input-dir"; "-id"]; ["--output-file"; "-of"];
    ["--output-dir"; "-od"]; ["--merge"; "-m"]; ["--lang"; "-l"]; ["--log-level"] ]%string.

Definition pdf_arguments : list (list string) :=
  [ ["--input-file"; "-if"]; ["--input-dir"; "-id"]; ["--output-file"; "-of"];
    ["--output-dir"; "-od"]; ["--merge"; "-m"]; ["--lang"; "-l"]; ["--tess"];
    ["--log-level"] ]%string.

End ShotMain.

(** ** Tesseract and PDF files

    What [generate_pdfs] of [shot.py] and the whole of [pdf.py] work with.  A
    PDF file is the list of its pages.  [tesseract k cmd] is what the [k]-th
    run of a command does: [Some pdf] when it ends with return code 0, having
    written [pdf] to [<outputbase>.pdf], where [outputbase] is the third word
    of the command; [None] when it ends with another return code. *)

Module Tess.

Definition pdf := list string.

Inductive log :=
| LogRunning (cmd : list string)
| LogPdfSaved (pdf_path : string)
| LogExists (pdf_path : string)
| LogNothingToMerge
| LogNoPyPDF2
| LogMerged (merged_path : string)
| LogNoInput.

Inductive event :=
| EvRun (cmd : list string)          (* subprocess.run(cmd, check=True) *)
| EvMerge (merged_path : string)     (* merger.write(merged_path) *)
| EvLog (l : log).

Inductive exn :=
| CalledProcessError (cmd : list string)
| FileNotFoundError (path : string)
| SystemExit (code : Z).

Record env := Env {
  tesseract : nat -> list string -> option pdf;
  PyPDF2 : bool }.                   (* the import of PyPDF2 succeeds *)

(** The PDF files by path, what was done so far (latest first) and the
    number of commands run. *)
Record world := World {
  fs : gmap string pdf;
  trace : list event;
  runs : nat }.

Definition initial (files : gmap string pdf) : world :=
  {| fs := files; trace := []; runs := 0 |}.

Import Eff.
Local Open Scope eff_scope.
Abbreviation M := (Eff.M world exn).

Definition emit (e : event) : M unit :=
  fun w => (Ok tt, {| fs := fs w; trace := e :: trace w; runs := runs w |}).

Definition logger (l : log) : M unit := emit (EvLog l).

(** [subprocess.run(cmd, check=True)]. *)
Definition subprocess_run (e : env) (cmd : list string) : M unit :=
  fun w =>
    match tesseract e (runs w) cmd with
    | Some out =>
        (Ok tt,
         {| fs := match cmd with
                  | _ :: _ :: outputbase :: _ => <[outputbase +:+ ".pdf" := out]> (fs w)
                  | _ => fs w
                  end;
            trace := EvRun cmd :: trace w; runs := S (runs w) |})
    | None =>
        (Raise (CalledProcessError cmd),
         {| fs := fs w; trace := EvRun cmd :: trace w; runs := S (runs w) |})
    end.

(** What was done, oldest event first, and the commands that were run. *)
Definition history (w : world) : list event := rev (trace w).

Definition ran (hist : list event) : list (list string) :=
  omap (fun ev => match ev with EvRun cmd => Some cmd | _ => None end) hist.

End Tess.

(** ** shot.py, the PDF of each page *)

Module ShotPdf.
Import Eff Tess.
Local Open Scope eff_scope.

(** The command of line 354. *)
Definition command (tess_path lang img_path : string) : list string :=
  [tess_path; img_path; fst (PyLib.splitext img_path); "-l"%string; lang; "pdf"%string].

(** The path of line 353. *)
Definition pdf_path_of (img_path : string) : string :=
  fst (PyLib.splitext img_path) +:+ ".pdf".

(** The loop of lines 352-358 over the images that are left. *)
Fixpoint generate_pdfs_loop (e : env) (img_files : list string) (tess_path lang : string)
    (pdf_files : list string) : M (list string) :=
  match img_files with
  | [] => ret pdf_files
  | img_path :: rest =>
      let pdf_path := fst (PyLib.splitext img_path) +:+ ".pdf" in
      let cmd := [tess_path; img_path; fst (PyLib.splitext img_path);
                  "-l"%string; lang; "pdf"%string] in
      logger (LogRunning cmd) ;;
      subprocess_run e cmd ;;
      logger (LogPdfSaved pdf_path) ;;
      generate_pdfs_loop e rest tess_path lang (pdf_files ++ [pdf_path])
  end.

(** [generate_pdfs], lines 346-359. *)
Definition generate_pdfs (e : env) (img_files : list string) (tess_path lang : string)
    : M (list string) :=
  generate_pdfs_loop e img_files tess_path lang [].

End ShotPdf.

(** ** pdf.py

    The files are named within their directory: [png_files] are the names of
    the images of the input directory and [fs] holds the PDF files of the
    output directory by name.  For a name, [with_suffix('')] is the stem and
    [with_suffix('.pdf')] the stem followed by [.pdf]. *)

Module PdfTool.
Import Eff Tess.
Local Open Scope eff_scope.

(** [path.exists()]. *)
Definition path_exists (path : string) : M bool :=
  fun w => (Ok (bool_decide (is_Some (fs w !! path))), w).

(** [run_tesseract], lines 20-28, for an [output_path] that is a
    [PyLib.plain_name], as are the names of the files of one directory:
    [output_path.with_suffix('')] is then the stem of the name (for a path
    with directories it is the stem of the last component, which is not
    modelled). *)
Definition run_tesseract (e : env) (input_path output_path lang tess_path : string)
    : M string :=
  let cmd := [tess_path; input_path; LlmOcr.stem output_path; "-l"%string; lang; "pdf"%string] in
  logger (LogRunning cmd) ;;
  subprocess_run e cmd ;;
  ret output_path.

(** [open(path, 'rb')] and [merger.append(f)], which reads the file: its
    pages. *)
Definition read_pdf (path : string) : M pdf :=
  fun w => match fs w !! path with
           | Some content => (Ok content, w)
           | None => (Raise (FileNotFoundError path), w)
           end.

(** Lines 41-43: each file is opened and read into the merger. *)
Fixpoint append_all (pdf_files : list string) (pages : pdf) : M pdf :=
  match pdf_files with
  | [] => ret pages
  | pdf_file :: rest =>
      content <- read_pdf pdf_file ;;
      append_all rest (pages ++ content)
  end.

(** [merger.write(merged_path)]. *)
Definition write_pdf (merged_path : string) (pages : pdf) : M unit :=
  fun w => (Ok tt, {| fs := <[merged_path := pages]> (fs w);
                      trace := EvMerge merged_path :: trace w; runs := runs w |}).

(** [merge_pdfs], lines 30-46. *)
Definition merge_pdfs (e : env) (pdf_files : list string) (merged_path : string) : M unit :=
  if negb (PyPDF2 e) then logger LogNoPyPDF2 ;; raise (SystemExit 1)
  else
    pages <- append_all (merge_sort String.le pdf_files) [] ;;
    write_pdf merged_path pages ;;
    logger (LogMerged merged_path).

(** Lines 77-83: the loop over the images that are left. *)
Fixpoint convert (e : env) (png_files : list string) (lang tess_path : string) : M unit :=
  match png_files with
  | [] => ret tt
  | png :: rest =>
      let pdf_path := LlmOcr.stem png +:+ ".pdf" in
      present <- path_exists pdf_path ;;
      (if present : bool then logger (LogExists pdf_path)
       else run_tesseract e png pdf_path lang tess_path ;; logger (LogPdfSaved pdf_path)) ;;
      convert e rest lang tess_path
  end.

(** [sorted(list(output_dir.glob('*.pdf')) + list(output_dir.glob('*.PDF')),
    key=lambda x: str(x))]. *)
Definition glob_pdf_sorted (files : gmap string pdf) : list string :=
  let names := fst <$> map_to_list files in
  merge_sort String.le
    (filter (fun name => Is_true (LlmOcr.ends_with ".pdf" name)) names
     ++ filter (fun name => Is_true (LlmOcr.ends_with ".PDF" name)) names).

(** Lines 84-90. *)
Definition merge_all (e : env) (input_dir_name : string) : M unit :=
  fun w =>
    let all_pdfs := glob_pdf_sorted (fs w) in
    match all_pdfs with
    | [] => logger LogNothingToMerge w
    | _ => merge_pdfs e all_pdfs (input_dir_name +:+ "_merged.pdf") w
    end.

(** [main], lines 65-93, after the command line is read: [input_file],
    [input_dir] and [output_file] are the values of the options, file names
    being [PyLib.plain_name]s; [input_dir_name] is [Path(args.input_dir).name]
    and [png_files] is the sorted list of line 76, as names in the
    directory.  The output directory is taken to be there, so [mkdir] does
    nothing. *)
Definition main (e : env) (input_file input_dir output_file : option string)
    (input_dir_name : string) (png_files : list string) (merge : bool)
    (lang tess_path : string) : M unit :=
  match Shot.given input_file with
  | Some input_path =>
      let output_path :=
        match Shot.given output_file with
        | Some o => o
        | None => LlmOcr.stem input_path +:+ ".pdf"
        end in
      run_tesseract e input_path output_path lang tess_path ;;
      logger (LogPdfSaved output_path)
  | None =>
      match Shot.given input_dir with
      | Some _ =>
          convert e png_files lang tess_path ;;
          if merge then merge_all e input_dir_name else ret tt
      | None => logger LogNoInput ;; raise (SystemExit 1)
      end
  end.

(** The PDF of an image (line 78) and the command that makes it when
    [run_tesseract] is called with the two (line 25). *)
Definition pdf_path_of (png : string) : string := LlmOcr.stem png +:+ ".pdf".

Definition command (tess_path lang png : string) : list string :=
  [tess_path; png; LlmOcr.stem png; "-l"; lang; "pdf"]%string.

(** The pages of the files [names], one file after the other. *)
Definition pages_of (files : gmap string pdf) (names : list string) : pdf :=
  mjoin ((fun name => default [] (files !! name : option pdf)) <$> names).

End PdfTool.

(** ** legacy/shot-test.py

    The earlier capture tool: it saves the screenshot of the window, less the
    margins, as it is. *)

Module ShotTest.
Import Eff.
Local Open Scope eff_scope.

Inductive event :=
| EvMakedirs (dir : string)
| EvEnumerate                                   (* osascript: list the windows *)
| EvResize (app win : string) (w h : Z)         (* osascript: set size of the window *)
| EvActivate (app : string)                     (* osascript: activate *)
| EvScreenshot (region : Z * Z * Z * Z)         (* pyautogui.screenshot(region=...) *)
| EvKeystroke (app key : string)                (* osascript: activate and keystroke *)
| EvSleep (seconds : Q)
| EvLogError (what : string).

Inductive exn :=
| SystemExit (code : Z).

(** The images written, what was done so far (latest first), and how often
    the two oracles of [Shot.env] were asked. *)
Record world := World {
  fs : gmap string Shot.image;
  trace : list event;
  enumerations : nat;
  grabs : nat }.

Definition initial (files : gmap string Shot.image) : world :=
  {| fs := files; trace := []; enumerations := 0; grabs := 0 |}.

Abbreviation M := (Eff.M world exn).

Definition emit (ev : event) : M unit :=
  fun w => (Ok tt, {| fs := fs w; trace := ev :: trace w;
                      enumerations := enumerations w; grabs := grabs w |}).

(** [get_window_info], lines 99-159: the same look-up as in [shot.py]. *)
Definition get_window_info (e : Shot.env) (app_name window_title : option string)
    : M (option Shot.window) :=
  if negb (Shot._check_dependencies e) then ret None
  else
    fun w =>
      let w' := {| fs := fs w; trace := EvEnumerate :: trace w;
                   enumerations := S (enumerations w); grabs := grabs w |} in
      match Shot.osascript e (enumerations w) with
      | None => (Ok None, w')
      | Some windows =>
          match Shot.first_match app_name window_title windows with
          | Some win => (Ok (Some win), w')
          | None => (emit (EvLogError "No exact matching window found") ;; ret None) w'
          end
      end.

(** [capture_window], lines 162-177. *)
Definition capture_window (e : Shot.env) (x y width height : Z) (output_path : string)
    : M bool :=
  if negb (Shot.pyautogui e) then
    emit (EvLogError "pyautogui is required for capturing") ;; ret false
  else
    fun w =>
      match Shot.grab e (grabs w) (x, y, width, height) with
      | Some screenshot =>
          (Ok true, {| fs := <[output_path := screenshot]> (fs w);
                       trace := EvScreenshot (x, y, width, height) :: trace w;
                       enumerations := enumerations w; grabs := S (grabs w) |})
      | None =>
          (Ok false, {| fs := fs w;
                        trace := EvLogError "Capture failed"
                                 :: EvScreenshot (x, y, width, height) :: trace w;
                        enumerations := enumerations w; grabs := S (grabs w) |})
      end.

(** [resize_window], [activate_app] and [send_key_applescript], lines
    197-227: one script each. *)
Definition resize_window (app_name win_name : string) (width height : Z) : M unit :=
  emit (EvResize app_name win_name width height).

Definition activate_app (app_name : string) : M unit := emit (EvActivate app_name).

Definition send_key_applescript (app_name key : string) : M unit :=
  emit (EvKeystroke app_name key).

(** The values of the options after the command line is read;
    [output_dir] is [Path(args.output_dir) / args.book] as a string. *)
Record args := Args {
  output_dir : string; app : string; label : string;
  width : Z; height : Z; start : Z; no : Z; next : string; delay : Q;
  top : Z; bottom : Z; left : Z; right : Z }.

(** [str(output_dir / name)] for a [name] without a slash. *)
Definition path_join (dir name : string) : string :=
  if String.eqb dir "." then name
  else if Py.endswith "/" dir then dir +:+ name
  else dir +:+ "/" +:+ name.

(** The loop of lines 270-296 over the values of [i] that are left. *)
Fixpoint capture_pages (e : Shot.env) (a : args) (proc_name : string) (x y w h : Z)
    (indices : list Z) : M unit :=
  match indices with
  | [] => ret tt
  | i :: rest =>
      let current_page_num := start a + i in
      let output_path_page :=
        path_join (output_dir a) (Py.zfill (Py.str current_page_num) 4 +:+ ".png") in
      let capture_x := x + left a in
      let capture_y := y + top a in
      let capture_width := w - left a - right a in
      let capture_height := h - top a - bottom a in
      if (capture_width <=? 0) || (capture_height <=? 0) then
        emit (EvLogError ("Invalid capture area for page " +:+ Py.str current_page_num
                          +:+ ". Check margin values.")) ;;
        raise (SystemExit 1)
      else
        activate_app proc_name ;;
        capture_window e capture_x capture_y capture_width capture_height
                       output_path_page ;;
        (if (i <? no a - 1) && Py.truthy (next a) then
           send_key_applescript proc_name (next a) ;;
           if Shot.positive (delay a) then emit (EvSleep (delay a)) else ret tt
         else ret tt) ;;
        capture_pages e a proc_name x y w h rest
  end.

(** The size that the loop works with, lines 260-268: what was asked for,
    where something was asked for, and what the window had otherwise. *)
Definition size_used (a : args) (win : Shot.window) : Z * Z :=
  if negb (width a =? 0) && negb (height a =? 0) then (width a, height a)
  else if negb (width a =? 0) then (width a, Shot.win_h win)
  else if negb (height a =? 0) then (Shot.win_w win, height a)
  else (Shot.win_w win, Shot.win_h win).

(** [main], lines 246-296. *)
Definition main (e : Shot.env) (a : args) : M unit :=
  if negb (Shot._check_dependencies e) then raise (SystemExit 1)
  else
    emit (EvMakedirs (output_dir a)) ;;
    info <- get_window_info e (Some (app a)) (Some (label a)) ;;
    match info with
    | None => raise (SystemExit 1)
    | Some win =>
        let proc_name := Shot.proc_name win in
        let win_name := Shot.win_name win in
        let '(x, y, w, h) :=
          (Shot.win_x win, Shot.win_y win, Shot.win_w win, Shot.win_h win) in
        size <-
          (if negb (width a =? 0) && negb (height a =? 0) then
             resize_window proc_name win_name (width a) (height a) ;;
             ret (width a, height a)
           else if negb (width a =? 0) then
             resize_window proc_name win_name (width a) h ;;
             ret (width a, h)
           else if negb (height a =? 0) then
             resize_window proc_name win_name w (height a) ;;
             ret (w, height a)
           else ret (w, h)) ;;
        capture_pages e a proc_name x y (fst size) (snd size) (Py.range 0 (no a))
    end.

(** What was done, oldest event first; the captures and the page turns. *)
Definition history (w : world) : list event := rev (trace w).

Definition is_screenshot (ev : event) : bool :=
  match ev with EvScreenshot _ => true | _ => false end.

Definition is_keystroke (ev : event) : bool :=
  match ev with EvKeystroke _ _ => true | _ => false end.

(** The region captured for a window: its geometry with the size used, less
    the margins. *)
Definition region_of (a : args) (win : Shot.window) : Z * Z * Z * Z :=
  (Shot.win_x win + left a, Shot.win_y win + top a,
   fst (size_used a win) - left a - right a,
   snd (size_used a win) - top a - bottom a).

End ShotTest.

Example str_examples :
  Py.str 0 = "0"%string /\ Py.str 10 = "10"%string /\ Py.str 1234567890123 = "1234567890123"%string
  /\ Py.str (-42) = "-42"%string /\ Py.zfill (Py.str 8) 2 = "08"%string
  /\ Py.zfill (Py.str (-5)) 4 = "-005"%string /\ Py.zfill (Py.str 123) 2 = "123"%string
  /\ Py.split "," "300,400" = ["300"; "400"]%string /\ Py.split "," "a,,b," = ["a"; ""; "b"; ""]%string
  /\ Py.int " +1_000 " = Some 1000 /\ Py.int "1__0" = None /\ Py.int "-7" = Some (-7)
  /\ Py.int "x" = None /\ Py.strip "  a b  " = "a b"%string
  /\ Py.lower "Safari Preview" = "safari preview"%string
  /\ Py.os_path_join "out" "p_1.png" = "out/p_1.png"%string
  /\ Py.os_path_join "out/" "p_1.png" = "out/p_1.png"%string
  /\ Py.os_path_join "out" "/p_1.png" = "/p_1.png"%string.
Proof. repeat split; reflexivity. Qed.


(** * Facts *)

(** ** Decimal strings *)

Section Decimal.
Import Py.

Lemma len_String c s : len (String c s) = len s + 1.
Proof. unfold len. cbn [String.length]. lia. Qed.

Lemma len_nonneg s : 0 <= len s.
Proof. unfold len. lia. Qed.

Lemma app_String c a b : String c a +:+ b = String c (a +:+ b).
Proof. reflexivity. Qed.

Lemma string_length_app a b :
  String.length (a +:+ b) = (String.length a + String.length b)%nat.
Proof. induction a as [| c a IH]; [reflexivity |]. simpl. now rewrite IH. Qed.

Lemma len_app a b : len (a +:+ b) = len a + len b.
Proof. unfold len. rewrite string_length_app. lia. Qed.

Lemma digit_char_ok d :
  0 <= d < 10 -> is_digit (digit_char d) = true /\ digit_val (digit_char d) = d.
Proof.
  intros H.
  assert (d = 0 \/ d = 1 \/ d = 2 \/ d = 3 \/ d = 4 \/ d = 5 \/ d = 6 \/ d = 7 \/ d = 8 \/ d = 9)
    as Hd by lia.
  repeat (destruct Hd as [-> | Hd]; [split; reflexivity |]).
  subst d. split; reflexivity.
Qed.

Lemma is_digit_range c : is_digit c = true -> 0 <= digit_val c <= 9.
Proof.
  unfold is_digit, digit_val. intros H.
  apply andb_true_iff in H as [H1 H2].
  apply N.leb_le in H1, H2. lia.
Qed.

Lemma val_bound s : all_digits s = true -> 0 <= val s < 10 ^ len s.
Proof.
  induction s as [| c s IH]; cbn [all_digits val]; intros H.
  - unfold len. simpl. lia.
  - apply andb_true_iff in H as [Hc Hs].
    specialize (IH Hs). apply is_digit_range in Hc.
    rewrite len_String, Z.pow_add_r by (pose proof (len_nonneg s); lia).
    nia.
Qed.

(** What [digits_aux] adds in front of [acc]: at least one digit, the digits
    of [n], with no zero in front unless it is the only digit. *)
Lemma digits_aux_spec fuel : forall n acc,
  0 <= n < 2 ^ (Z.of_nat fuel + 1) ->
  all_digits acc = true ->
  all_digits (digits_aux fuel n acc) = true /\
  val (digits_aux fuel n acc) = n * 10 ^ len acc + val acc /\
  exists k, 1 <= k /\ len (digits_aux fuel n acc) = k + len acc /\
            (k = 1 \/ 10 ^ (k - 1) <= n).
Proof.
  induction fuel as [| f IH]; intros n acc Hn Hacc.
  - cbn in Hn. assert (n mod 10 = n) as Hm by (apply Z.mod_small; lia).
    cbn [digits_aux]. rewrite Hm.
    destruct (digit_char_ok n) as [Hd Hv]; [lia |].
    cbn [all_digits val]. rewrite Hd, Hv, Hacc. repeat split; try reflexivity.
    exists 1. rewrite len_String. lia.
  - cbn [digits_aux].
    pose proof (Z.mod_pos_bound n 10 ltac:(lia)) as Hmod.
    destruct (digit_char_ok (n mod 10) Hmod) as [Hd Hv].
    pose proof (Z.div_mod n 10 ltac:(lia)) as Hdm.
    destruct (Z.eqb_spec (n / 10) 0) as [Hz | Hnz].
    + cbn [all_digits val]. rewrite Hd, Hv, Hacc. repeat split; try reflexivity.
      * nia.
      * exists 1. rewrite len_String. lia.
    + assert (0 <= n / 10 < 2 ^ (Z.of_nat f + 1)) as Hn'.
      { split; [apply Z.div_pos; lia |].
        apply Z.div_lt_upper_bound; [lia |].
        replace (Z.of_nat (S f) + 1) with (Z.succ (Z.of_nat f + 1)) in Hn by lia.
        rewrite Z.pow_succ_r in Hn by lia. lia. }
      assert (all_digits (String (digit_char (n mod 10)) acc) = true) as Hacc'.
      { cbn [all_digits]. now rewrite Hd, Hacc. }
      destruct (IH (n / 10) _ Hn' Hacc') as (Had & Hval & k & Hk & Hlen & Hlow).
      split; [exact Had |]. split.
      * rewrite Hval. cbn [val]. rewrite Hv, len_String.
        rewrite Z.pow_add_r by (pose proof (len_nonneg acc); lia). lia.
      * exists (k + 1). rewrite Hlen, len_String.
        split; [lia |]. split; [lia |]. right.
        replace (k + 1 - 1) with (Z.succ (k - 1)) by lia.
        rewrite Z.pow_succ_r by lia.
        destruct Hlow as [-> | Hlow]; [cbn; lia | lia].
Qed.

Lemma log2_fuel n : 0 <= n -> 0 <= n < 2 ^ (Z.of_nat (Z.to_nat (Z.log2 n)) + 1).
Proof.
  intros Hn. rewrite Z2Nat.id by apply Z.log2_nonneg.
  destruct (Z.eq_dec n 0) as [-> | Hne]; [cbn; lia |].
  pose proof (Z.log2_spec n ltac:(lia)) as H.
  replace (Z.log2 n + 1) with (Z.succ (Z.log2 n)) by lia. lia.
Qed.

Lemma digits_spec n :
  0 <= n ->
  all_digits (digits n) = true /\ val (digits n) = n /\
  1 <= len (digits n) /\ (len (digits n) = 1 \/ 10 ^ (len (digits n) - 1) <= n).
Proof.
  intros Hn. unfold digits.
  destruct (digits_aux_spec _ n EmptyString (log2_fuel n Hn) eq_refl)
    as (Had & Hval & k & Hk & Hlen & Hlow).
  change (len EmptyString) with 0 in Hval, Hlen. cbn [val] in Hval.
  rewrite Hlen, Z.add_0_r. rewrite Z.pow_0_r in Hval.
  repeat split; try assumption; lia.
Qed.

Lemma str_nonneg n : 0 <= n -> str n = digits n.
Proof. intros H. unfold str. destruct (Z.ltb_spec n 0); [lia | reflexivity]. Qed.

(** A larger number never has a shorter [str]. *)
Lemma len_str_mono n m : 0 <= n <= m -> len (str n) <= len (str m).
Proof.
  intros H. rewrite !str_nonneg by lia.
  destruct (digits_spec n ltac:(lia)) as (_ & _ & Hn1 & Hlow).
  destruct (digits_spec m ltac:(lia)) as (Hdm & Hvm & Hm1 & _).
  destruct Hlow as [-> | Hlow]; [lia |].
  pose proof (val_bound _ Hdm) as Hb. rewrite Hvm in Hb.
  assert (10 ^ (len (digits n) - 1) < 10 ^ len (digits m)) as Hlt by lia.
  apply Z.pow_lt_mono_r_iff in Hlt; lia.
Qed.

Lemma zeros_length k : String.length (zeros k) = k.
Proof. induction k; cbn; congruence. Qed.

Lemma zeros_digits k s :
  all_digits s = true ->
  all_digits (zeros k +:+ s) = true /\ val (zeros k +:+ s) = val s.
Proof.
  intros Hs. induction k as [| k [IH1 IH2]]; [now split |].
  cbn [zeros]. rewrite app_String. cbn [all_digits val].
  rewrite IH1, IH2. split; [reflexivity |].
  change (digit_val "0") with 0. lia.
Qed.

Lemma digits_no_sign n :
  0 <= n -> exists c r, digits n = String c r /\ (Ascii.eqb c "+" || Ascii.eqb c "-") = false.
Proof.
  intros Hn. destruct (digits_spec n Hn) as (Had & _ & Hlen & _).
  destruct (digits n) as [| c r]; [change (len EmptyString) with 0 in Hlen; lia |].
  exists c, r. split; [reflexivity |].
  cbn [all_digits] in Had. apply andb_true_iff in Had as [Hc _].
  unfold is_digit in Hc. apply andb_true_iff in Hc as [H1 H2].
  apply N.leb_le in H1, H2.
  destruct (Ascii.eqb_spec c "+") as [-> | _]; [cbn in H1; lia |].
  destruct (Ascii.eqb_spec c "-") as [-> | _]; [cbn in H1; lia |].
  reflexivity.
Qed.

Lemma zfill_no_sign c r width :
  (Ascii.eqb c "+" || Ascii.eqb c "-") = false ->
  zfill (String c r) width = zeros (Z.to_nat (width - len (String c r))) +:+ String c r.
Proof. intros H. unfold zfill. now rewrite H. Qed.

(** The padded page number: all digits, the value of the page, and exactly
    [width] characters once [width] is at least the length of [str i]. *)
Lemma zfill_str i width :
  0 <= i -> len (str i) <= width ->
  all_digits (zfill (str i) width) = true /\
  val (zfill (str i) width) = i /\
  len (zfill (str i) width) = width.
Proof.
  intros Hi Hw. rewrite str_nonneg in * by assumption.
  destruct (digits_spec i Hi) as (Had & Hval & _ & _).
  destruct (digits_no_sign i Hi) as (c & r & Heq & Hsign).
  destruct (zeros_digits (Z.to_nat (width - len (digits i))) _ Had) as [H1 H2].
  assert (zfill (digits i) width
          = zeros (Z.to_nat (width - len (digits i))) +:+ digits i) as ->.
  { rewrite Heq. now apply zfill_no_sign. }
  split; [exact H1 |]. split; [congruence |].
  rewrite len_app. unfold len at 1. rewrite zeros_length. lia.
Qed.

(** On digit strings of one length the order of [str] is the order of the
    numbers. *)
Lemma compare_digits a : forall b,
  all_digits a = true -> all_digits b = true -> len a = len b ->
  String.compare a b = (val a ?= val b).
Proof.
  induction a as [| c a IH]; intros [| d b] Ha Hb Hlen.
  - reflexivity.
  - rewrite len_String in Hlen. change (len EmptyString) with 0 in Hlen.
    pose proof (len_nonneg b). lia.
  - rewrite len_String in Hlen. change (len EmptyString) with 0 in Hlen.
    pose proof (len_nonneg a). lia.
  - cbn [all_digits] in Ha, Hb.
    apply andb_true_iff in Ha as [Hc Ha]. apply andb_true_iff in Hb as [Hd Hb].
    rewrite !len_String in Hlen. assert (len a = len b) as Hl by lia.
    pose proof (val_bound _ Ha) as Ba. pose proof (val_bound _ Hb) as Bb.
    rewrite Hl in Ba.
    cbn [String.compare val]. rewrite Hl. unfold Ascii.compare.
    specialize (IH b Ha Hb Hl).
    assert (0 < 10 ^ len b) as Hp by (apply Z.pow_pos_nonneg; [lia | apply len_nonneg]).
    destruct (N.compare_spec (N_of_ascii c) (N_of_ascii d)) as [E | L | G].
    + rewrite IH. unfold digit_val. rewrite E. symmetry. apply Z.add_compare_mono_l.
    + symmetry. apply Z.compare_lt_iff. unfold digit_val. nia.
    + symmetry. apply Z.compare_gt_iff. unfold digit_val. nia.
Qed.

End Decimal.

(** ** The cropper *)

Section Cropper.
Import Shot.

Lemma is_white_iff p : is_white p = true <-> p = white.
Proof.
  destruct p as [[r g] b]. unfold is_white, white.
  rewrite !andb_true_iff, !Z.eqb_eq. split; [intros [[-> ->] ->] | intros [= -> -> ->]]; auto.
Qed.

Lemma row_coords_spec row : forall y x0 y' x,
  (y', x) ∈ row_coords y x0 row <->
  y' = y /\ exists j p, row !! j = Some p /\ is_white p = false /\ x = x0 + Z.of_nat j.
Proof.
  induction row as [| p r IH]; intros y x0 y' x; cbn [row_coords].
  - split; [intros H; inversion H | intros (_ & j & q & H & _); discriminate].
  - assert ((y', x) ∈ row_coords y (x0 + 1) r <->
            y' = y /\ exists j q, (p :: r) !! S j = Some q /\ is_white q = false
                                  /\ x = x0 + Z.of_nat (S j)) as Htail.
    { rewrite IH. split; intros (-> & j & q & H1 & H2 & ->);
        (split; [reflexivity |]); exists j, q; repeat split; auto; lia. }
    destruct (is_white p) eqn:Hp.
    + rewrite Htail. split.
      * intros (-> & j & q & H1 & H2 & ->). split; [reflexivity |]. eauto.
      * intros (-> & [| j] & q & H1 & H2 & ->).
        -- cbn in H1. congruence.
        -- split; [reflexivity |]. eauto.
    + rewrite elem_of_cons, Htail. split.
      * intros [[= -> ->] | (-> & j & q & H1 & H2 & ->)].
        -- split; [reflexivity |]. exists O, p. repeat split; auto. lia.
        -- split; [reflexivity |]. eauto.
      * intros (-> & [| j] & q & H1 & H2 & ->).
        -- left. f_equal. lia.
        -- right. split; [reflexivity |]. eauto.
Qed.

Lemma argwhere_from_spec rs : forall y0 y x,
  (y, x) ∈ argwhere_from y0 rs <->
  exists i row p, rs !! i = Some row /\ row !! Z.to_nat x = Some p /\
                  is_white p = false /\ y = y0 + Z.of_nat i /\ 0 <= x.
Proof.
  induction rs as [| r rs IH]; intros y0 y x; cbn [argwhere_from].
  - split; [intros H; inversion H | intros (i & row & q & H & _); discriminate].
  - rewrite elem_of_app, row_coords_spec, IH. split.
    + intros [(-> & j & q & H1 & H2 & ->) | (i & row & q & H1 & H2 & H3 & -> & H4)].
      * exists O, r, q. rewrite Z.add_0_l, Nat2Z.id. repeat split; auto; lia.
      * exists (S i), row, q. repeat split; auto; lia.
    + intros ([| i] & row & q & H1 & H2 & H3 & -> & H4).
      * left. cbn in H1. injection H1 as <-. split; [lia |].
        exists (Z.to_nat x), q. repeat split; auto; lia.
      * right. exists i, row, q. repeat split; auto; lia.
Qed.

Lemma argwhere_spec img y x : (y, x) ∈ argwhere_nonwhite img <-> nonwhite_at img y x.
Proof.
  unfold argwhere_nonwhite, nonwhite_at. rewrite argwhere_from_spec. split.
  - intros (i & row & q & H1 & H2 & H3 & -> & H4).
    exists row, q. rewrite Z.add_0_l, Nat2Z.id. repeat split; auto; lia.
  - intros (row & q & Hy & Hx & H1 & H2 & H3).
    exists (Z.to_nat y), row, q. repeat split; auto; lia.
Qed.

Lemma list_min_spec l : forall x,
  (forall z, z ∈ x :: l -> list_min x l <= z) /\ list_min x l ∈ x :: l.
Proof.
  unfold list_min. induction l as [| a l IH]; intros x; cbn [fold_left].
  - split; [intros z Hz; apply list_elem_of_singleton in Hz; lia | left].
  - destruct (IH (Z.min x a)) as [Hlow Hin]. split.
    + intros z Hz. apply elem_of_cons in Hz as [-> | Hz].
      * specialize (Hlow (Z.min x a) ltac:(left)). lia.
      * apply elem_of_cons in Hz as [-> | Hz].
        -- specialize (Hlow (Z.min x a) ltac:(left)). lia.
        -- apply Hlow. now right.
    + apply elem_of_cons in Hin as [-> | Hin].
      * destruct (Z.min_spec x a) as [[_ ->] | [_ ->]]; [left | right; left].
      * right. now right.
Qed.

Lemma list_max_spec l : forall x,
  (forall z, z ∈ x :: l -> z <= list_max x l) /\ list_max x l ∈ x :: l.
Proof.
  unfold list_max. induction l as [| a l IH]; intros x; cbn [fold_left].
  - split; [intros z Hz; apply list_elem_of_singleton in Hz; lia | left].
  - destruct (IH (Z.max x a)) as [Hup Hin]. split.
    + intros z Hz. apply elem_of_cons in Hz as [-> | Hz].
      * specialize (Hup (Z.max x a) ltac:(left)). lia.
      * apply elem_of_cons in Hz as [-> | Hz].
        -- specialize (Hup (Z.max x a) ltac:(left)). lia.
        -- apply Hup. now right.
    + apply elem_of_cons in Hin as [-> | Hin].
      * destruct (Z.max_spec x a) as [[_ ->] | [_ ->]]; [right; left | left].
      * right. now right.
Qed.

(** The box that lines 199-200 detect is the bounding box of the non-white
    pixels. *)
Lemma detected_box img c cs :
  argwhere_nonwhite img = c :: cs ->
  is_bounding_box img
    (list_min (snd c) (snd <$> cs), list_min (fst c) (fst <$> cs),
     list_max (snd c) (snd <$> cs) + 1, list_max (fst c) (fst <$> cs) + 1).
Proof.
  intros Hc.
  assert (forall y x, nonwhite_at img y x <-> (y, x) ∈ c :: cs) as Hin.
  { intros y x. now rewrite <- Hc, argwhere_spec. }
  assert (forall (f : Z * Z -> Z) z, z ∈ f c :: (f <$> cs) <-> exists q, q ∈ c :: cs /\ z = f q)
    as Hmap.
  { intros f z. change (f c :: (f <$> cs)) with (f <$> (c :: cs)).
    rewrite list_elem_of_fmap. split; intros (q & H1 & H2); eauto. }
  destruct (list_min_spec (fst <$> cs) (fst c)) as [Ly Ay].
  destruct (list_min_spec (snd <$> cs) (snd c)) as [Lx Ax].
  destruct (list_max_spec (fst <$> cs) (fst c)) as [Uy By].
  destruct (list_max_spec (snd <$> cs) (snd c)) as [Ux Bx].
  unfold is_bounding_box. repeat split.
  - apply Ly, Hmap. exists (y, x). split; [now apply Hin | reflexivity].
  - enough (y <= list_max (fst c) (fst <$> cs)) by lia.
    apply Uy, Hmap. exists (y, x). split; [now apply Hin | reflexivity].
  - apply Lx, Hmap. exists (y, x). split; [now apply Hin | reflexivity].
  - enough (x <= list_max (snd c) (snd <$> cs)) by lia.
    apply Ux, Hmap. exists (y, x). split; [now apply Hin | reflexivity].
  - apply Hmap in Ay as ([y x] & Hq & ->). exists x. now apply Hin.
  - apply Hmap in By as ([y x] & Hq & Heq). exists x.
    replace (list_max (fst c) (fst <$> cs) + 1 - 1) with y by (cbn in Heq; lia).
    now apply Hin.
  - apply Hmap in Ax as ([y x] & Hq & ->). exists y. now apply Hin.
  - apply Hmap in Bx as ([y x] & Hq & Heq). exists y.
    replace (list_max (snd c) (snd <$> cs) + 1 - 1) with x by (cbn in Heq; lia).
    now apply Hin.
Qed.

Lemma bounding_box_unique img b b' :
  is_bounding_box img b -> is_bounding_box img b' -> b = b'.
Proof.
  destruct b as [[[x0 y0] x1] y1], b' as [[[x0' y0'] x1'] y1'].
  intros (H & [a Ha] & [b Hb] & [c Hc] & [d Hd]) (H' & [a' Ha'] & [b' Hb'] & [c' Hc'] & [d' Hd']).
  pose proof (H _ _ Ha'). pose proof (H _ _ Hb'). pose proof (H _ _ Hc'). pose proof (H _ _ Hd').
  pose proof (H' _ _ Ha). pose proof (H' _ _ Hb). pose proof (H' _ _ Hc). pose proof (H' _ _ Hd).
  repeat f_equal; lia.
Qed.

Lemma bounding_box_nonempty img x0 y0 x1 y1 :
  is_bounding_box img (x0, y0, x1, y1) ->
  0 <= x0 < x1 /\ 0 <= y0 < y1 /\ exists c cs, argwhere_nonwhite img = c :: cs.
Proof.
  intros (H & [a Ha] & _ & [c Hc] & _).
  pose proof (H _ _ Ha) as B1. pose proof (H _ _ Hc) as B2.
  pose proof Ha as Hn. apply argwhere_spec in Hn.
  destruct Ha as (? & ? & ? & ? & _). destruct Hc as (? & ? & ? & ? & _).
  repeat split; try lia.
  destruct (argwhere_nonwhite img) as [| q qs] eqn:E; [inversion Hn | eauto].
Qed.

(** The box handed to [crop] is never inverted. *)
Lemma adjusted_box_ordered c cs mt mb ml mr x0 y0 x1 y1 :
  adjusted_box c cs mt mb ml mr = (x0, y0, x1, y1) ->
  0 <= x0 <= x1 /\ 0 <= y0 <= y1.
Proof. unfold adjusted_box. intros [= <- <- <- <-]. lia. Qed.

(** What the cropper saves when there is something to crop to. *)
Lemma cropped_image_box img x0 y0 x1 y1 mt mb ml mr :
  is_bounding_box img (x0, y0, x1, y1) ->
  cropped_image img mt mb ml mr =
  crop img (Z.max 0 (x0 + ml), Z.max 0 (y0 + mt),
            Z.max (Z.max 0 (x0 + ml)) (x1 - mr), Z.max (Z.max 0 (y0 + mt)) (y1 - mb)).
Proof.
  intros Hb. destruct (bounding_box_nonempty _ _ _ _ _ Hb) as (_ & _ & c & cs & Hc).
  pose proof (bounding_box_unique _ _ _ Hb (detected_box _ _ _ Hc)) as [= Hx0 Hy0 Hx1 Hy1].
  unfold cropped_image, adjusted_box. rewrite Hc.
  now rewrite <- Hx0, <- Hy0, <- Hx1, <- Hy1.
Qed.

Lemma rows_crop img x0 y0 x1 y1 :
  rows (crop img (x0, y0, x1, y1)) =
  (fun y => (fun x => getpixel img x y) <$> seqZ x0 (x1 - x0)) <$> seqZ y0 (y1 - y0).
Proof. reflexivity. Qed.

Lemma getpixel_crop img x0 y0 x1 y1 x y :
  0 <= x < x1 - x0 -> 0 <= y < y1 - y0 ->
  getpixel (crop img (x0, y0, x1, y1)) x y = getpixel img (x0 + x) (y0 + y).
Proof.
  intros Hx Hy. unfold getpixel at 1.
  rewrite (proj2 (Z.leb_le 0 x)), (proj2 (Z.leb_le 0 y)) by lia. cbn [andb].
  rewrite rows_crop, list_lookup_fmap, lookup_seqZ_lt by lia. cbn [fmap option_fmap option_map].
  rewrite list_lookup_fmap, lookup_seqZ_lt by lia. cbn.
  now rewrite !Z2Nat.id by lia.
Qed.

Lemma getpixel_nonwhite img y x :
  nonwhite_at img y x -> is_white (getpixel img x y) = false.
Proof.
  intros (row & q & Hy & Hx & H1 & H2 & H3). unfold getpixel.
  rewrite (proj2 (Z.leb_le 0 x)), (proj2 (Z.leb_le 0 y)) by lia. cbn [andb].
  now rewrite H1, H2.
Qed.

Lemma nonwhite_crop img x0 y0 x1 y1 y x :
  nonwhite_at (crop img (x0, y0, x1, y1)) y x <->
  0 <= y < y1 - y0 /\ 0 <= x < x1 - x0 /\
  is_white (getpixel img (x0 + x) (y0 + y)) = false.
Proof.
  unfold nonwhite_at. rewrite rows_crop. split.
  - intros (row & q & Hy & Hx & H1 & H2 & H3).
    apply list_lookup_fmap_Some in H1 as (y' & -> & H1).
    apply lookup_seqZ in H1 as [-> H1].
    apply list_lookup_fmap_Some in H2 as (x' & -> & H2).
    apply lookup_seqZ in H2 as [-> H2].
    rewrite !Z2Nat.id in * by lia. auto with lia.
  - intros (Hy & Hx & Hw).
    eexists _, _. split; [lia |]. split; [lia |]. split; [| split].
    + rewrite list_lookup_fmap, lookup_seqZ_lt by lia. reflexivity.
    + rewrite list_lookup_fmap, lookup_seqZ_lt by lia. reflexivity.
    + now rewrite !Z2Nat.id by lia.
Qed.

(** After a crop to the bounding box the content touches all four edges. *)
Lemma crop_bounding_box img x0 y0 x1 y1 :
  is_bounding_box img (x0, y0, x1, y1) ->
  is_bounding_box (crop img (x0, y0, x1, y1)) (0, 0, x1 - x0, y1 - y0).
Proof.
  intros (H & [a Ha] & [b Hb] & [c Hc] & [d Hd]).
  pose proof (H _ _ Ha) as Ba. pose proof (H _ _ Hb) as Bb.
  pose proof (H _ _ Hc) as Bc. pose proof (H _ _ Hd) as Bd.
  apply getpixel_nonwhite in Ha, Hb, Hc, Hd.
  unfold is_bounding_box. repeat split.
  1-4: apply nonwhite_crop in H0; lia.
  - exists (a - x0). apply nonwhite_crop. repeat split; try lia.
    now replace (x0 + (a - x0)) with a by lia; replace (y0 + 0) with y0 by lia.
  - exists (b - x0). apply nonwhite_crop. repeat split; try lia.
    now replace (x0 + (b - x0)) with b by lia;
      replace (y0 + (y1 - y0 - 1)) with (y1 - 1) by lia.
  - exists (c - y0). apply nonwhite_crop. repeat split; try lia.
    now replace (y0 + (c - y0)) with c by lia; replace (x0 + 0) with x0 by lia.
  - exists (d - y0). apply nonwhite_crop. repeat split; try lia.
    now replace (y0 + (d - y0)) with d by lia;
      replace (x0 + (x1 - x0 - 1)) with (x1 - 1) by lia.
Qed.

Lemma image_eq a b :
  size_w a = size_w b -> size_h a = size_h b -> rows a = rows b -> a = b.
Proof. destruct a, b. cbn. now intros -> -> ->. Qed.

(** Cropping a crop to its full extent changes nothing. *)
Lemma crop_full img x0 y0 x1 y1 :
  crop (crop img (x0, y0, x1, y1)) (0, 0, x1 - x0, y1 - y0) = crop img (x0, y0, x1, y1).
Proof.
  apply image_eq; [cbn; lia | cbn; lia |].
  rewrite (rows_crop (crop img (x0, y0, x1, y1))), rows_crop, !Z.sub_0_r.
  apply list_eq. intros i. rewrite !list_lookup_fmap.
  destruct (decide (Z.of_nat i < y1 - y0)) as [Hi | Hi].
  2: { now rewrite !lookup_seqZ_ge by lia. }
  rewrite !lookup_seqZ_lt by lia. cbn [fmap option_fmap option_map]. f_equal.
  apply list_eq. intros j. rewrite !list_lookup_fmap.
  destruct (decide (Z.of_nat j < x1 - x0)) as [Hj | Hj].
  2: { now rewrite !lookup_seqZ_ge by lia. }
  rewrite !lookup_seqZ_lt by lia. cbn [fmap option_fmap option_map]. f_equal.
  rewrite getpixel_crop by lia. f_equal; lia.
Qed.

Lemma all_white_argwhere img : all_white img -> argwhere_nonwhite img = [].
Proof.
  intros Hw. destruct (argwhere_nonwhite img) as [| [y x] cs] eqn:E; [reflexivity |].
  assert (nonwhite_at img y x) as (row & q & _ & _ & H1 & H2 & H3).
  { apply argwhere_spec. rewrite E. left. }
  apply list_elem_of_lookup_2 in H1, H2.
  unfold all_white in Hw. rewrite Forall_forall in Hw.
  specialize (Hw _ H1). rewrite Forall_forall in Hw. specialize (Hw _ H2).
  subst q. discriminate.
Qed.

End Cropper.

Section Saves.
Import Eff Shot.

(** What the cropper does to the files, for an image that is there. *)
Lemma crop_nonwhite_exact input_path output_path mt mb ml mr w img :
  fs w !! input_path = Some img ->
  crop_nonwhite_bbox_with_margin input_path output_path mt mb ml mr w
  = if crop_saved img mt mb ml mr
    then (Ok true, {| fs := <[output_path := cropped_image img mt mb ml mr]> (fs w);
                      trace := trace w; enumerations := enumerations w; grabs := grabs w |})
    else (Raise SystemError,
          {| fs := delete output_path (fs w);
             trace := trace w; enumerations := enumerations w; grabs := grabs w |}).
Proof.
  intros Hin. unfold crop_nonwhite_bbox_with_margin, bind at 1, image_open. rewrite Hin.
  unfold crop_saved, cropped_image. destruct (argwhere_nonwhite img) as [| c cs]; [reflexivity |].
  unfold bind, save_cropped.
  destruct (has_pixels (crop img (adjusted_box c cs mt mb ml mr))); reflexivity.
Qed.

End Saves.

(** C5.  The clamping of the claim holds; what it promises of a collapsed
    crop does not.  Whatever the margins, the box handed to the crop is the
    detected bounding box [(x0, y0, x1, y1)] moved inwards and clamped:
    [y0' = max(0, y0 + margin_top)], [y1' = max(y0', y1 - margin_bottom)],
    [x0' = max(0, x0 + margin_left)], [x1' = max(x0', x1 - margin_right)].
    The crop is [x1' - x0'] wide and [y1' - y0'] high, neither is negative,
    and margins that eat up the whole box give extent zero on that axis.  A
    crop that has a width and a height is saved and the operation returns
    [True]; a crop without one of them cannot be saved: the operation raises
    and leaves no image at the output. *)
Theorem C5_margins_are_clamped (img : Shot.image) (x0 y0 x1 y1 mt mb ml mr : Z) :
  Shot.is_bounding_box img (x0, y0, x1, y1) ->
  let y0' := Z.max 0 (y0 + mt) in
  let y1' := Z.max y0' (y1 - mb) in
  let x0' := Z.max 0 (x0 + ml) in
  let x1' := Z.max x0' (x1 - mr) in
  let out := Shot.cropped_image img mt mb ml mr in
  out = Shot.crop img (x0', y0', x1', y1') /\
  Shot.size_w out = x1' - x0' /\ Shot.size_h out = y1' - y0' /\
  0 <= Shot.size_w out /\ 0 <= Shot.size_h out /\
  (x1 - x0 <= ml + mr -> Shot.size_w out = 0) /\
  (y1 - y0 <= mt + mb -> Shot.size_h out = 0) /\
  forall input_path output_path w,
    Shot.fs w !! input_path = Some img ->
    (0 < Shot.size_w out -> 0 < Shot.size_h out ->
     exists w',
       Shot.crop_nonwhite_bbox_with_margin input_path output_path mt mb ml mr w
         = (Eff.Ok true, w') /\
       Shot.fs w' !! output_path = Some out) /\
    (Shot.size_w out = 0 \/ Shot.size_h out = 0 ->
     exists w',
       Shot.crop_nonwhite_bbox_with_margin input_path output_path mt mb ml mr w
         = (Eff.Raise Shot.SystemError, w') /\
       Shot.fs w' !! output_path = None).
Proof.
  intros Hb y0' y1' x0' x1' out.
  assert (out = Shot.crop img (x0', y0', x1', y1')) as Hout
    by (now apply cropped_image_box).
  destruct (bounding_box_nonempty _ _ _ _ _ Hb) as (_ & _ & c & cs & Harg).
  split; [exact Hout |].
  assert (Shot.size_w out = x1' - x0' /\ Shot.size_h out = y1' - y0') as [Hw Hh]
    by (rewrite Hout; split; reflexivity).
  rewrite Hw, Hh.
  repeat split; try reflexivity; try lia.
  - intros Hpw Hph. rewrite (crop_nonwhite_exact _ _ _ _ _ _ _ _ H).
    unfold Shot.crop_saved. rewrite Harg.
    fold out. unfold Shot.has_pixels. rewrite Hw, Hh.
    assert ((0 <? x1' - x0') && (0 <? y1' - y0') = true) as ->
      by (apply andb_true_iff; split; apply Z.ltb_lt; assumption).
    eexists. split; [reflexivity |]. cbn [Shot.fs]. apply lookup_insert_eq.
  - intros Hzero. rewrite (crop_nonwhite_exact _ _ _ _ _ _ _ _ H).
    unfold Shot.crop_saved. rewrite Harg.
    fold out. unfold Shot.has_pixels. rewrite Hw, Hh.
    assert ((0 <? x1' - x0') && (0 <? y1' - y0') = false) as ->.
    { apply andb_false_iff. destruct Hzero as [-> | ->]; [left | right]; reflexivity. }
    eexists. split; [reflexivity |]. cbn [Shot.fs]. apply lookup_delete_eq.
Qed.

Lemma C5_margins_are_clamped_witness :
  Shot.is_bounding_box Shot.dot_page (1, 0, 2, 1) /\
  Shot.size_w (Shot.cropped_image Shot.dot_page 0 0 5 0) = 0.
Proof.
  assert (Shot.is_bounding_box Shot.dot_page (1, 0, 2, 1)) as H.
  { exact (detected_box Shot.dot_page (0, 1) [] eq_refl). }
  split; [exact H |].
  destruct (C5_margins_are_clamped Shot.dot_page 1 0 2 1 0 0 5 0 H)
    as (_ & _ & _ & _ & _ & Hw & _).
  apply Hw. lia.
Defined.

(** C5 at a failing input: with a left margin of 5 on a page whose content
    is one pixel wide the box collapses, and the cropper raises instead of
    saving; [crop_left_third] then logs the failure, returns [False], writes
    no output and leaves its temporary copy behind. *)
Lemma C5_counterexample :
  let files : gmap string Shot.image := <["in.png"%string := Shot.dot_page]> ∅ in
  let direct := Shot.crop_nonwhite_bbox_with_margin "in.png" "out.png" 0 0 5 0
                  (Shot.initial files) in
  let caught := Shot.crop_left_third "in.png" "out.png" 0 0 5 0 (Shot.initial files) in
  fst direct = Eff.Raise Shot.SystemError /\
  fst caught = Eff.Ok false /\
  Shot.trace (snd caught) = [Shot.EvLogError "Cropping failed"] /\
  Shot.fs (snd caught) !! "out.png"%string = None /\
  Shot.fs (snd caught) !! "out.png.cvtmp.png"%string = Some Shot.dot_page.
Proof. vm_compute. repeat split. Qed.

(** C6.  An image whose pixels are all pure white is saved as it is: the
    output is the input, with the same width and height, and the operation
    returns [True]. *)
Theorem C6_blank_image_unchanged (img : Shot.image) (mt mb ml mr : Z) :
  Shot.all_white img ->
  Shot.cropped_image img mt mb ml mr = img /\
  Shot.size_w (Shot.cropped_image img mt mb ml mr) = Shot.size_w img /\
  Shot.size_h (Shot.cropped_image img mt mb ml mr) = Shot.size_h img /\
  forall input_path output_path w,
    Shot.fs w !! input_path = Some img ->
    exists w',
      Shot.crop_nonwhite_bbox_with_margin input_path output_path mt mb ml mr w
        = (Eff.Ok true, w') /\
      Shot.fs w' !! output_path = Some img.
Proof.
  intros Hw.
  assert (Shot.cropped_image img mt mb ml mr = img) as Heq.
  { unfold Shot.cropped_image. now rewrite all_white_argwhere. }
  rewrite Heq. repeat split; try reflexivity.
  intros input_path output_path w Hin.
  rewrite (crop_nonwhite_exact _ _ _ _ _ _ _ _ Hin), Heq.
  unfold Shot.crop_saved. rewrite (all_white_argwhere _ Hw).
  eexists. split; [reflexivity |]. cbn [Shot.fs].
  apply lookup_insert_eq.
Qed.

Lemma C6_blank_image_unchanged_witness :
  Shot.all_white Shot.blank_page /\
  Shot.cropped_image Shot.blank_page 60 55 0 0 = Shot.blank_page.
Proof.
  assert (Shot.all_white Shot.blank_page) as H.
  { repeat constructor. }
  split; [exact H |].
  exact (proj1 (C6_blank_image_unchanged Shot.blank_page 60 55 0 0 H)).
Defined.

(** C7.  With zero margins the cropper is idempotent: cropping the result of
    a crop once more gives the same image, because the bounding box found by
    the second pass is the whole of the image it is given. *)
Theorem C7_zero_margin_crop_idempotent (img : Shot.image) :
  let once := Shot.cropped_image img 0 0 0 0 in
  Shot.cropped_image once 0 0 0 0 = once /\
  (Shot.argwhere_nonwhite img <> [] ->
   Shot.is_bounding_box once (0, 0, Shot.size_w once, Shot.size_h once)).
Proof.
  intros once. subst once.
  destruct (Shot.argwhere_nonwhite img) as [| c cs] eqn:E.
  - assert (Shot.cropped_image img 0 0 0 0 = img) as Heq
      by (unfold Shot.cropped_image; now rewrite E).
    rewrite !Heq. split; [reflexivity | intros H; now destruct H].
  - pose proof (detected_box _ _ _ E) as Hb.
    set (x0 := Shot.list_min (snd c) (snd <$> cs)) in *.
    set (y0 := Shot.list_min (fst c) (fst <$> cs)) in *.
    set (x1 := Shot.list_max (snd c) (snd <$> cs) + 1) in *.
    set (y1 := Shot.list_max (fst c) (fst <$> cs) + 1) in *.
    destruct (bounding_box_nonempty _ _ _ _ _ Hb) as (Hx & Hy & _).
    assert (Shot.cropped_image img 0 0 0 0 = Shot.crop img (x0, y0, x1, y1)) as Heq.
    { rewrite (cropped_image_box _ _ _ _ _ 0 0 0 0 Hb). repeat f_equal; lia. }
    pose proof (crop_bounding_box _ _ _ _ _ Hb) as Hb'.
    rewrite Heq. split.
    + rewrite (cropped_image_box _ _ _ _ _ 0 0 0 0 Hb').
      rewrite <- (crop_full img x0 y0 x1 y1) at 2. repeat f_equal; lia.
    + intros _. exact Hb'.
Qed.

(** The margins of the first pass have to be zero as well: a first pass with
    a margin leaves white at the edge, which a second pass removes. *)
Example crop_after_margin_shrinks :
  let page := {| Shot.size_w := 3; Shot.size_h := 1;
                 Shot.rows := [[Shot.black; Shot.white; Shot.black]] |} in
  let once := Shot.cropped_image page 0 0 1 0 in
  Shot.size_w once = 2 /\ Shot.size_w (Shot.cropped_image once 0 0 0 0) = 1.
Proof. split; reflexivity. Qed.

(** ** The window locator *)

Section Locator.
Import Shot.

Lemma given_spec sel s : given sel = Some s <-> sel = Some s /\ s <> EmptyString.
Proof.
  unfold given, Py.truthy. destruct sel as [t |]; [| split; [discriminate | intros [? _]; discriminate]].
  destruct (String.eqb_spec t EmptyString) as [-> | Hne]; cbn.
  - split; [discriminate | intros [[= <-] H]; now destruct H].
  - split; [intros [= ->]; auto | intros [[= ->] _]; reflexivity].
Qed.

Lemma selector_test sel name :
  match given sel with
  | Some s => String.eqb (Py.lower name) (Py.lower s)
  | None => false
  end = true <-> selector_is sel name.
Proof.
  unfold selector_is. destruct (given sel) as [s |] eqn:E.
  - apply given_spec in E as [-> Hs]. rewrite String.eqb_eq. split.
    + intros H. eauto.
    + intros (s' & [= <-] & _ & H). exact H.
  - split; [discriminate |]. intros (s & Hsel & Hs & _).
    assert (given sel = Some s) as E' by now apply given_spec. congruence.
Qed.

Lemma window_matches_iff app_name window_title win :
  window_matches app_name window_title win = true <-> selected app_name window_title win.
Proof.
  unfold window_matches, selected. now rewrite orb_true_iff, !selector_test.
Qed.

Lemma first_match_spec app_name window_title windows :
  match first_match app_name window_title windows with
  | Some win =>
      selected app_name window_title win /\
      exists before after,
        windows = before ++ win :: after /\
        Forall (fun v => ~ selected app_name window_title v) before
  | None => Forall (fun v => ~ selected app_name window_title v) windows
  end.
Proof.
  induction windows as [| v vs IH]; cbn [first_match]; [constructor |].
  destruct (window_matches app_name window_title v) eqn:Hv.
  - apply window_matches_iff in Hv. split; [exact Hv |]. exists [], vs. split; [reflexivity | constructor].
  - assert (~ selected app_name window_title v) as Hn.
    { intros H. apply window_matches_iff in H. congruence. }
    destruct (first_match app_name window_title vs) as [win |].
    + destruct IH as (Hs & before & after & -> & Hb). split; [exact Hs |].
      exists (v :: before), after. split; [reflexivity | now constructor].
    + now constructor.
Qed.

End Locator.

(** C8.  On the windows that the enumeration yields, [get_window_info]
    returns a window only if a supplied selector equals its process name or
    its title up to the case of letters (equality of the whole string), and
    then it is the first such window of the enumeration; when no window is
    named by either selector it returns [None].  ["safari"] names a window
    of the process ["Safari"] and does not name one of ["Safari Preview"]. *)
Theorem C8_locator_exact_match
    (e : Shot.env) (app_name window_title : option string) (w : Shot.world)
    (windows : list Shot.window) :
  Shot._check_dependencies e = true ->
  Shot.osascript e (Shot.enumerations w) = Some windows ->
  (exists r w',
     Shot.get_window_info e app_name window_title w = (Eff.Ok r, w') /\
     match r with
     | Some win =>
         Shot.selected app_name window_title win /\
         exists before after,
           windows = before ++ win :: after /\
           Forall (fun v => ~ Shot.selected app_name window_title v) before
     | None => Forall (fun v => ~ Shot.selected app_name window_title v) windows
     end) /\
  (forall title x y width height,
     Shot.selected (Some "safari"%string) None
       (Shot.Window "Safari" title x y width height) /\
     ~ Shot.selected (Some "safari"%string) None
         (Shot.Window "Safari Preview" title x y width height)).
Proof.
  intros Hdeps Henum. split.
  - pose proof (first_match_spec app_name window_title windows) as Hspec.
    unfold Shot.get_window_info. rewrite Hdeps. cbn [negb].
    unfold Eff.bind, Shot.enumerate_windows. rewrite Henum.
    destruct (Shot.first_match app_name window_title windows) as [win |].
    + eexists (Some win), _. split; [reflexivity | exact Hspec].
    + eexists None, _. split; [reflexivity | exact Hspec].
  - intros title x y width height. split.
    + left. exists "safari"%string. repeat split. discriminate.
    + intros [(s & [= <-] & _ & H) | (s & [=] & _)]. discriminate H.
Qed.

Lemma C8_locator_exact_match_witness :
  let e := {| Shot.pyautogui := true; Shot.pillow := true; Shot.darwin := true;
              Shot.osascript := fun _ =>
                Some [Shot.Window "Safari Preview" "Docs" 0 0 800 600;
                      Shot.Window "Safari" "Start Page" 10 20 1200 900];
              Shot.grab := fun _ _ => None; Shot.activates := fun _ => true |} in
  fst (Shot.get_window_info e (Some "safari"%string) None (Shot.initial ∅))
  = Eff.Ok (Some (Shot.Window "Safari" "Start Page" 10 20 1200 900)).
Proof.
  intros e.
  destruct (C8_locator_exact_match e (Some "safari"%string) None (Shot.initial ∅)
              [Shot.Window "Safari Preview" "Docs" 0 0 800 600;
               Shot.Window "Safari" "Start Page" 10 20 1200 900]
              eq_refl eq_refl) as [(r & w' & Hrun & Hr) _].
  rewrite Hrun. vm_compute in Hrun. injection Hrun as Hres _.
  cbn [fst]. now rewrite <- Hres.
Defined.

(** ** Running the monad *)

Section Binds.
Context {W E : Type}.
Import Eff.

Lemma bind_ok {A B} (m : M W E A) (k : A -> M W E B) w a w1 :
  m w = (Ok a, w1) -> bind m k w = k a w1.
Proof. intros H. unfold bind. now rewrite H. Qed.

Lemma bind_raise {A B} (m : M W E A) (k : A -> M W E B) w x w1 :
  m w = (Raise x, w1) -> bind m k w = (Raise x, w1).
Proof. intros H. unfold bind. now rewrite H. Qed.

End Binds.

Section Runs.
Import Eff Shot.
Local Open Scope eff_scope.

Lemma total_ret {A} (a : A) : total (ret a).
Proof. intros w. now exists a, w. Qed.

Lemma total_bind {A B} (m : M A) (k : A -> M B) :
  total m -> (forall a, total (k a)) -> total (bind m k).
Proof.
  intros Hm Hk w. destruct (Hm w) as (a & w1 & E). unfold bind. rewrite E. apply Hk.
Qed.

Lemma total_try {A} (m : M A) (h : exn -> M A) :
  (forall x, total (h x)) -> total (try_except m h).
Proof.
  intros Hh w. unfold try_except. destruct (m w) as [[a | x] w1]; [now exists a, w1 | apply Hh].
Qed.

Lemma total_emit ev : total (emit ev).
Proof. intros w. eexists _, _. reflexivity. Qed.

Lemma quiet_refl w : quiet_step w w.
Proof. repeat split. now exists []. Qed.

Lemma quiet_trans w1 w2 w3 : quiet_step w1 w2 -> quiet_step w2 w3 -> quiet_step w1 w3.
Proof.
  intros (E1 & G1 & t1 & T1 & L1) (E2 & G2 & t2 & T2 & L2).
  split; [congruence |]. split; [congruence |].
  exists (t2 ++ t1). rewrite T2, T1, app_assoc. split; [reflexivity |].
  now rewrite forallb_app, L1, L2.
Qed.

Lemma quiet_ret {A} (a : A) : quiet (ret a).
Proof. intros w. apply quiet_refl. Qed.

Lemma quiet_raise {A} x : quiet (raise (A := A) x).
Proof. intros w. apply quiet_refl. Qed.

Lemma quiet_bind {A B} (m : M A) (k : A -> M B) :
  quiet m -> (forall a, quiet (k a)) -> quiet (bind m k).
Proof.
  intros Hm Hk w. specialize (Hm w). unfold bind.
  destruct (m w) as [[a | x] w1]; cbn [snd] in *; [| exact Hm].
  eapply quiet_trans; [exact Hm | apply Hk].
Qed.

Lemma quiet_try {A} (m : M A) (h : exn -> M A) :
  quiet m -> (forall x, quiet (h x)) -> quiet (try_except m h).
Proof.
  intros Hm Hh w. specialize (Hm w). unfold try_except.
  destruct (m w) as [[a | x] w1]; cbn [snd] in *; [exact Hm |].
  eapply quiet_trans; [exact Hm | apply Hh].
Qed.

Lemma quiet_log msg : quiet (emit (EvLogError msg)).
Proof. intros w. repeat split. now exists [EvLogError msg]. Qed.

Lemma quiet_image_open path : quiet (image_open path).
Proof. intros w. unfold image_open. destruct (fs w !! path); apply quiet_refl. Qed.

Lemma quiet_image_save img path : quiet (image_save img path).
Proof. intros w. repeat split. now exists []. Qed.

Lemma quiet_os_remove path : quiet (os_remove path).
Proof.
  intros w. unfold os_remove. destruct (fs w !! path); [| apply quiet_refl].
  repeat split. now exists [].
Qed.

Lemma quiet_save_cropped img path : quiet (save_cropped img path).
Proof.
  intros w. unfold save_cropped. destruct (has_pixels img); repeat split; now exists [].
Qed.

Lemma quiet_crop_nonwhite input output mt mb ml mr :
  quiet (crop_nonwhite_bbox_with_margin input output mt mb ml mr).
Proof.
  unfold crop_nonwhite_bbox_with_margin.
  apply quiet_bind; [apply quiet_image_open | intros img].
  destruct (argwhere_nonwhite img) as [| c cs].
  - apply quiet_bind; [apply quiet_image_save | intros _; apply quiet_ret].
  - apply quiet_bind; [apply quiet_save_cropped | intros _; apply quiet_ret].
Qed.

Lemma quiet_crop_left_third image_path output mt mb ml mr :
  quiet (crop_left_third image_path output mt mb ml mr).
Proof.
  unfold crop_left_third. apply quiet_try.
  - apply quiet_bind; [apply quiet_image_open | intros img].
    apply quiet_bind; [apply quiet_image_save | intros _].
    apply quiet_bind; [apply quiet_crop_nonwhite | intros _].
    apply quiet_bind; [apply quiet_os_remove | intros _; apply quiet_ret].
  - intros x. apply quiet_bind; [apply quiet_log | intros _; apply quiet_ret].
Qed.

(** [capture_window] never raises.  With the capture library at hand the
    first thing it does is the screenshot of [(x, y, width // 3, height)];
    what follows adds error messages at most. *)
Lemma capture_window_run e x y width height output mt mb ml mr w :
  pyautogui e = true ->
  exists b w' tail,
    capture_window e x y width height output mt mb ml mr w = (Ok b, w') /\
    trace w' = tail ++ EvScreenshot (x, y, width / 3, height) :: trace w /\
    forallb is_log_error tail = true /\
    enumerations w' = enumerations w /\ grabs w' = S (grabs w).
Proof.
  intros Hpy. unfold capture_window. rewrite Hpy. cbn [negb].
  set (h := fun _ : exn => emit (EvLogError "Capture failed") ;; ret false).
  set (body := fun shot : image =>
         image_save shot (output +:+ ".tmp.png") ;;
         crop_left_third (output +:+ ".tmp.png") output mt mb ml mr ;;
         os_remove (output +:+ ".tmp.png") ;; ret true).
  set (w1 := {| fs := fs w; trace := EvScreenshot (x, y, width / 3, height) :: trace w;
                enumerations := enumerations w; grabs := S (grabs w) |}).
  assert (forall x0, total (h x0)) as Hh.
  { intros x0. apply total_bind; [apply total_emit | intros _; apply total_ret]. }
  assert (forall x0, quiet (h x0)) as Qh.
  { intros x0. apply quiet_bind; [apply quiet_log | intros _; apply quiet_ret]. }
  unfold try_except, bind at 1, screenshot. fold w1.
  destruct (grab e (grabs w) (x, y, width / 3, height)) as [shot |].
  - change (exists b w' tail,
              try_except (body shot) h w1 = (Ok b, w') /\
              trace w' = tail ++ EvScreenshot (x, y, width / 3, height) :: trace w /\
              forallb is_log_error tail = true /\
              enumerations w' = enumerations w /\ grabs w' = S (grabs w)).
    assert (quiet (try_except (body shot) h)) as Q.
    { apply quiet_try; [| exact Qh]. unfold body.
      apply quiet_bind; [apply quiet_image_save | intros _].
      apply quiet_bind; [apply quiet_crop_left_third | intros _].
      apply quiet_bind; [apply quiet_os_remove | intros _; apply quiet_ret]. }
    destruct (total_try (body shot) h Hh w1) as (b & w' & E).
    specialize (Q w1). rewrite E in Q. destruct Q as (Q1 & Q2 & tail & Q3 & Q4).
    exists b, w', tail. rewrite E. cbn [snd] in *. auto.
  - destruct (Hh ScreenshotError w1) as (b & w' & E).
    pose proof (Qh ScreenshotError w1) as Q. rewrite E in Q.
    destruct Q as (Q1 & Q2 & tail & Q3 & Q4).
    exists b, w', tail. rewrite E. cbn [snd] in *. auto.
Qed.

Lemma log_errors_filtered tail :
  forallb is_log_error tail = true -> List.filter capture_or_advance tail = [].
Proof.
  induction tail as [| ev tail IH]; [reflexivity |]. cbn [forallb List.filter].
  intros H. apply andb_true_iff in H as [H1 H2]. destruct ev; try discriminate.
  cbn. auto.
Qed.

Lemma log_errors_rev tail :
  forallb is_log_error tail = true -> forallb is_log_error (rev tail) = true.
Proof.
  rewrite !forallb_forall. intros H ev Hin. apply H. now apply in_rev.
Qed.

Lemma advance_event_is_advance next_action ev :
  advance_event next_action = Some ev -> is_advance ev = true.
Proof.
  unfold advance_event. destruct (Py.contains "," next_action).
  - destruct (Py.int <$> Py.split "," next_action) as [| [nx |] [| [ny |] [| ? ?]]];
      try discriminate. now intros [= <-].
  - now intros [= <-].
Qed.

Lemma advance_ok next_action ev w :
  advance_event next_action = Some ev ->
  advance next_action w =
  (Ok tt, {| fs := fs w; trace := ev :: trace w;
             enumerations := enumerations w; grabs := grabs w |}).
Proof.
  unfold advance_event, advance. destruct (Py.contains "," next_action).
  - destruct (Py.int <$> Py.split "," next_action) as [| [nx |] [| [ny |] [| ? ?]]];
      try discriminate. now intros [= <-].
  - now intros [= <-].
Qed.

Lemma advance_malformed next_action w :
  advance_event next_action = None ->
  advance next_action w =
  (Raise ValueError,
   {| fs := fs w;
      trace := EvLogError "--next must be 'x,y' for click or a key name for press." :: trace w;
      enumerations := enumerations w; grabs := grabs w |}).
Proof.
  unfold advance_event, advance. destruct (Py.contains "," next_action); [| discriminate].
  destruct (Py.int <$> Py.split "," next_action) as [| [nx |] [| [ny |] [| ? ?]]];
    try discriminate; reflexivity.
Qed.

Lemma app_ne_self (s t : string) : t <> EmptyString -> s +:+ t <> s.
Proof.
  intros Ht Heq. apply (f_equal String.length) in Heq.
  rewrite string_length_app in Heq. destruct t; [now destruct Ht | cbn in Heq; lia].
Qed.

Lemma temp_paths_differ (output : string) :
  output +:+ ".tmp.png" <> output /\ output +:+ ".cvtmp.png" <> output /\
  output +:+ ".tmp.png" <> output +:+ ".cvtmp.png".
Proof.
  split; [apply app_ne_self; discriminate |]. split; [apply app_ne_self; discriminate |].
  intros Heq. apply (inj (String.append output)) in Heq. discriminate.
Qed.

(** [crop_left_third] as one step: a missing image is logged and gives
    [False]; an image that is there is cropped into the output, and the copy
    made on the way is removed; when the crop cannot be saved the failure is
    logged, [False] is returned, no image is left at the output and the copy
    stays where it is. *)
Lemma crop_left_third_exact image_path output mt mb ml mr w :
  crop_left_third image_path output mt mb ml mr w
  = match fs w !! image_path with
    | Some img =>
        if crop_saved img mt mb ml mr then
          (Ok true,
           {| fs := <[output := cropped_image img mt mb ml mr]>
                      (delete (output +:+ ".cvtmp.png") (fs w));
              trace := trace w; enumerations := enumerations w; grabs := grabs w |})
        else
          (Ok false,
           {| fs := <[output +:+ ".cvtmp.png" := img]> (delete output (fs w));
              trace := EvLogError "Cropping failed" :: trace w;
              enumerations := enumerations w; grabs := grabs w |})
    | None =>
        (Ok false,
         {| fs := fs w; trace := EvLogError "Cropping failed" :: trace w;
            enumerations := enumerations w; grabs := grabs w |})
    end.
Proof.
  destruct (temp_paths_differ output) as (_ & N2 & _).
  unfold crop_left_third, try_except, bind at 1, image_open.
  destruct (fs w !! image_path) as [img |]; [| reflexivity].
  unfold bind at 1, image_save. cbn [fs trace enumerations grabs].
  unfold bind at 1.
  rewrite (crop_nonwhite_exact _ _ _ _ _ _ _ img)
    by (cbn [fs]; apply lookup_insert_eq).
  cbn [fs trace enumerations grabs].
  destruct (crop_saved img mt mb ml mr).
  - unfold bind at 1, os_remove. cbn [fs trace enumerations grabs].
    rewrite lookup_insert_ne by congruence. rewrite lookup_insert_eq.
    unfold ret. do 2 f_equal. apply map_eq. intros p.
    destruct (decide (p = output +:+ ".cvtmp.png")) as [-> | P].
    + rewrite lookup_delete_eq, lookup_insert_ne by congruence. now rewrite lookup_delete_eq.
    + rewrite lookup_delete_ne by congruence.
      destruct (decide (p = output)) as [-> | P'].
      * now rewrite !lookup_insert_eq.
      * rewrite !lookup_insert_ne by congruence. now rewrite lookup_delete_ne by congruence.
  - unfold bind, emit, ret. cbn [fs trace enumerations grabs].
    do 2 f_equal. apply map_eq. intros p.
    destruct (decide (p = output)) as [-> | P'].
    + rewrite lookup_delete_eq, lookup_insert_ne by congruence. now rewrite lookup_delete_eq.
    + rewrite lookup_delete_ne by congruence.
      destruct (decide (p = output +:+ ".cvtmp.png")) as [-> | P].
      * now rewrite !lookup_insert_eq.
      * rewrite !lookup_insert_ne by congruence. now rewrite lookup_delete_ne by congruence.
Qed.

(** The steps after the screenshot, which [capture_window] and
    [capture_fullscreen] share. *)
Lemma after_screenshot shot output mt mb ml mr w :
  (image_save shot (output +:+ ".tmp.png") ;;
   crop_left_third (output +:+ ".tmp.png") output mt mb ml mr ;;
   os_remove (output +:+ ".tmp.png") ;;
   ret true) w
  = if crop_saved shot mt mb ml mr then
      (Ok true,
       {| fs := <[output := cropped_image shot mt mb ml mr]>
                  (delete (output +:+ ".tmp.png") (delete (output +:+ ".cvtmp.png") (fs w)));
          trace := trace w; enumerations := enumerations w; grabs := grabs w |})
    else
      (Ok true,
       {| fs := <[output +:+ ".cvtmp.png" := shot]>
                  (delete (output +:+ ".tmp.png") (delete output (fs w)));
          trace := EvLogError "Cropping failed" :: trace w;
          enumerations := enumerations w; grabs := grabs w |}).
Proof.
  destruct (temp_paths_differ output) as (N1 & N2 & N3).
  unfold bind at 1, image_save. unfold bind at 1. rewrite crop_left_third_exact.
  cbn [fs trace enumerations grabs]. rewrite lookup_insert_eq.
  destruct (crop_saved shot mt mb ml mr).
  - unfold bind at 1, os_remove. cbn [fs trace enumerations grabs].
    rewrite (lookup_insert_ne _ output) by congruence.
    rewrite (lookup_delete_ne _ (output +:+ ".cvtmp.png")) by congruence.
    rewrite lookup_insert_eq. unfold ret. do 2 f_equal. apply map_eq. intros p.
    destruct (decide (p = output +:+ ".tmp.png")) as [-> | P2].
    { rewrite lookup_delete_eq, (lookup_insert_ne _ output) by congruence.
      now rewrite lookup_delete_eq. }
    rewrite (lookup_delete_ne _ (output +:+ ".tmp.png") p) by congruence.
    destruct (decide (p = output)) as [-> | P1]; [now rewrite !lookup_insert_eq |].
    rewrite !(lookup_insert_ne _ output p) by congruence.
    rewrite (lookup_delete_ne _ (output +:+ ".tmp.png") p) by congruence.
    destruct (decide (p = output +:+ ".cvtmp.png")) as [-> | P3].
    { now rewrite !lookup_delete_eq. }
    rewrite !(lookup_delete_ne _ (output +:+ ".cvtmp.png") p) by congruence.
    now rewrite lookup_insert_ne by congruence.
  - unfold bind at 1, os_remove. cbn [fs trace enumerations grabs].
    rewrite (lookup_insert_ne _ (output +:+ ".cvtmp.png")) by congruence.
    rewrite (lookup_delete_ne _ output) by congruence.
    rewrite lookup_insert_eq. unfold ret. do 2 f_equal. apply map_eq. intros p.
    destruct (decide (p = output +:+ ".tmp.png")) as [-> | P2].
    { rewrite lookup_delete_eq, (lookup_insert_ne _ (output +:+ ".cvtmp.png")) by congruence.
      now rewrite lookup_delete_eq. }
    rewrite (lookup_delete_ne _ (output +:+ ".tmp.png") p) by congruence.
    destruct (decide (p = output +:+ ".cvtmp.png")) as [-> | P3];
      [now rewrite !lookup_insert_eq |].
    rewrite !(lookup_insert_ne _ (output +:+ ".cvtmp.png") p) by congruence.
    rewrite (lookup_delete_ne _ (output +:+ ".tmp.png") p) by congruence.
    destruct (decide (p = output)) as [-> | P1].
    { now rewrite !lookup_delete_eq. }
    rewrite !(lookup_delete_ne _ output p) by congruence.
    now rewrite lookup_insert_ne by congruence.
Qed.

(** [capture_window] as one step. *)
Lemma capture_window_exact e x y width height output mt mb ml mr w :
  pyautogui e = true ->
  capture_window e x y width height output mt mb ml mr w
  = match grab e (grabs w) (x, y, width / 3, height) with
    | Some shot =>
        if crop_saved shot mt mb ml mr then
          (Ok true,
           {| fs := <[output := cropped_image shot mt mb ml mr]>
                      (delete (output +:+ ".tmp.png")
                         (delete (output +:+ ".cvtmp.png") (fs w)));
              trace := EvScreenshot (x, y, width / 3, height) :: trace w;
              enumerations := enumerations w; grabs := S (grabs w) |})
        else
          (Ok true,
           {| fs := <[output +:+ ".cvtmp.png" := shot]>
                      (delete (output +:+ ".tmp.png") (delete output (fs w)));
              trace := EvLogError "Cropping failed"
                       :: EvScreenshot (x, y, width / 3, height) :: trace w;
              enumerations := enumerations w; grabs := S (grabs w) |})
    | None =>
        (Ok false,
         {| fs := fs w;
            trace := EvLogError "Capture failed"
                     :: EvScreenshot (x, y, width / 3, height) :: trace w;
            enumerations := enumerations w; grabs := S (grabs w) |})
    end.
Proof.
  intros Hpy. unfold capture_window. rewrite Hpy. cbn [negb].
  unfold try_except, bind at 1, screenshot.
  destruct (grab e (grabs w) (x, y, width / 3, height)) as [shot |]; [| reflexivity].
  rewrite after_screenshot. cbn [fs trace enumerations grabs].
  now destruct (crop_saved shot mt mb ml mr).
Qed.

(** The files that a capture touches are its output and its two temporary
    files.  When the screenshot succeeds the capture returns [True]; the
    output then holds the cropped screenshot if that could be saved, and no
    image otherwise. *)
Lemma capture_window_files e x y width height output mt mb ml mr w :
  pyautogui e = true ->
  exists b w',
    capture_window e x y width height output mt mb ml mr w = (Ok b, w') /\
    (forall p, p <> output -> p <> output +:+ ".tmp.png" -> p <> output +:+ ".cvtmp.png" ->
               fs w' !! p = fs w !! p) /\
    (forall shot,
       grab e (grabs w) (x, y, width / 3, height) = Some shot ->
       b = true /\
       fs w' !! output = if crop_saved shot mt mb ml mr
                         then Some (cropped_image shot mt mb ml mr) else None).
Proof.
  intros Hpy. destruct (temp_paths_differ output) as (N1 & N2 & N3).
  rewrite (capture_window_exact _ _ _ _ _ _ _ _ _ _ _ Hpy).
  destruct (grab e (grabs w) (x, y, width / 3, height)) as [shot |].
  - destruct (crop_saved shot mt mb ml mr) eqn:Hs.
    + eexists _, _. split; [reflexivity |]. cbn [fs]. split.
      * intros p P1 P2 P3. rewrite lookup_insert_ne by congruence.
        now rewrite !lookup_delete_ne by congruence.
      * intros shot' [= <-]. split; [reflexivity |]. rewrite Hs. apply lookup_insert_eq.
    + eexists _, _. split; [reflexivity |]. cbn [fs]. split.
      * intros p P1 P2 P3. rewrite lookup_insert_ne by congruence.
        now rewrite !lookup_delete_ne by congruence.
      * intros shot' [= <-]. split; [reflexivity |]. rewrite Hs.
        rewrite lookup_insert_ne by congruence. rewrite lookup_delete_ne by congruence.
        apply lookup_delete_eq.
  - eexists _, _. split; [reflexivity |]. cbn [fs]. split; [reflexivity | discriminate].
Qed.

(** An activation changes no file and asks nothing of the oracles but its
    own. *)
Lemma activate_app_run e proc w :
  exists w1 pre,
    activate_app e proc w = (Ok tt, w1) /\
    trace w1 = rev pre ++ trace w /\
    fs w1 = fs w /\ grabs w1 = grabs w /\ enumerations w1 = enumerations w /\
    List.filter capture_or_advance pre = [].
Proof.
  unfold activate_app. destruct (activates e (activations w)).
  - eexists _, [EvActivate proc; EvSleep (1 # 2)]. repeat split.
  - eexists _, [EvActivate proc]. repeat split.
Qed.

(** One turn of the loop up to and including the settle delay after the
    capture. *)
Lemma capture_step e proc x y wd h delay output mt mb ml mr w :
  pyautogui e = true ->
  exists w' pre,
    (forall B (k : M B),
       (activate_app e proc ;;
        (if positive delay then sleep delay else ret tt) ;;
        capture_window e x y wd h output mt mb ml mr ;;
        sleep (1 # 10) ;;
        k) w = k w') /\
    grabs w' = S (grabs w) /\
    trace w' = rev pre ++ trace w /\
    List.filter capture_or_advance pre = [EvScreenshot (x, y, wd / 3, h)] /\
    (forall p, p <> output -> p <> output +:+ ".tmp.png" -> p <> output +:+ ".cvtmp.png" ->
               fs w' !! p = fs w !! p) /\
    (forall shot,
       grab e (grabs w) (x, y, wd / 3, h) = Some shot ->
       fs w' !! output = if crop_saved shot mt mb ml mr
                         then Some (cropped_image shot mt mb ml mr) else None).
Proof.
  intros Hpy.
  destruct (activate_app_run e proc w) as (w1 & a & E1 & T1 & Hfs1 & Hg1 & _ & F1).
  assert (exists w2 d, (if positive delay then sleep delay else ret tt) w1 = (Ok tt, w2) /\
                       trace w2 = d ++ trace w1 /\
                       List.filter capture_or_advance (rev d) = [])
    as (w2 & d & E2 & T2 & F2).
  { destruct (positive delay); [exists
      {| fs := fs w1; trace := EvSleep delay :: trace w1;
         enumerations := enumerations w1; grabs := grabs w1 |}, [EvSleep delay]
      | exists w1, []]; repeat split. }
  assert (fs w2 = fs w /\ grabs w2 = grabs w) as [Hfs2 Hg2].
  { destruct (positive delay); injection E2 as <-; split; cbn [fs grabs]; congruence. }
  destruct (capture_window_run e x y wd h output mt mb ml mr w2 Hpy)
    as (b & w3 & tail & E3 & T3 & L3 & _ & G3).
  destruct (capture_window_files e x y wd h output mt mb ml mr w2 Hpy)
    as (b' & w3' & E3' & O3 & S3).
  rewrite E3 in E3'. injection E3' as <- <-.
  exists {| fs := fs w3; trace := EvSleep (1 # 10) :: trace w3;
            enumerations := enumerations w3; grabs := grabs w3 |},
         (a ++ rev d
          ++ EvScreenshot (x, y, wd / 3, h) :: rev tail ++ [EvSleep (1 # 10)]).
  split; [| split; [| split; [| split; [| split]]]].
  5: { intros p P1 P2 P3. cbn [fs]. rewrite O3 by assumption. now rewrite Hfs2. }
  5: { intros shot Hshot. cbn [fs]. rewrite <- Hg2 in Hshot. now apply S3. }
  - intros B k.
    rewrite (bind_ok _ _ _ _ _ E1), (bind_ok _ _ _ _ _ E2), (bind_ok _ _ _ _ _ E3).
    reflexivity.
  - cbn [grabs]. now rewrite G3, Hg2.
  - cbn [sleep emit trace snd]. rewrite T3, T2, T1.
    rewrite !rev_app_distr. cbn [rev app]. rewrite !rev_app_distr, !rev_involutive.
    cbn [rev app]. rewrite <- !app_assoc. reflexivity.
  - rewrite List.filter_app, F1. cbn [app].
    rewrite List.filter_app, F2. cbn [app List.filter capture_or_advance is_screenshot orb].
    rewrite List.filter_app, (log_errors_filtered (rev tail)) by (now apply log_errors_rev).
    reflexivity.
Qed.

(** The loop with a well-formed action: it returns the paths of all pages,
    and its captures and page turns alternate. *)
Lemma capture_pages_run e proc x y wd h output_dir book pad next_action delay
    mt mb ml mr ev :
  pyautogui e = true ->
  advance_event next_action = Some ev ->
  forall pages img_paths w,
  exists w' hist,
    capture_pages e proc x y wd h output_dir book pad next_action delay
                  mt mb ml mr pages img_paths w
    = (Ok (img_paths ++
           ((fun i => Py.os_path_join output_dir (page_filename book pad i)) <$> pages)), w') /\
    trace w' = rev hist ++ trace w /\
    List.filter capture_or_advance hist = turns (length pages) (x, y, wd / 3, h) ev.
Proof.
  intros Hpy Hev. induction pages as [| i pages IH]; intros img_paths w.
  - exists w, []. cbn. rewrite app_nil_r. auto.
  - cbn [capture_pages].
    destruct (capture_step e proc x y wd h delay
                (Py.os_path_join output_dir (page_filename book pad i)) mt mb ml mr w Hpy)
      as (w1 & pre & K & _ & T1 & F1 & _).
    rewrite K. clear K.
    rewrite (bind_ok _ _ _ _ _ (advance_ok _ _ _ Hev)).
    set (w2 := {| fs := fs w1; trace := EvSleep (1 # 10) :: ev :: trace w1;
                  enumerations := enumerations w1; grabs := grabs w1 |}).
    destruct (IH (img_paths ++ [Py.os_path_join output_dir (page_filename book pad i)]) w2)
      as (w' & hist & E & T & F).
    exists w', (pre ++ ev :: EvSleep (1 # 10) :: hist).
    split; [| split].
    + change (capture_pages e proc x y wd h output_dir book pad next_action delay mt mb ml mr
                pages (img_paths ++ [Py.os_path_join output_dir (page_filename book pad i)]) w2
              = (Ok (img_paths ++
                     ((fun i => Py.os_path_join output_dir (page_filename book pad i))
                        <$> i :: pages)), w')).
      rewrite E, <- app_assoc. reflexivity.
    + rewrite T. cbn [w2 trace]. rewrite T1, rev_app_distr. cbn [rev].
      rewrite <- !app_assoc. reflexivity.
    + rewrite List.filter_app, F1. cbn [List.filter app].
      unfold capture_or_advance at 1.
      rewrite (advance_event_is_advance _ _ Hev), orb_true_r.
      cbn [capture_or_advance is_screenshot is_advance orb]. rewrite F. reflexivity.
Qed.

(** The loop with an action that has a comma and is not two integers: the
    first page is captured, then the run ends with the error; no page is
    turned. *)
Lemma capture_pages_malformed e proc x y wd h output_dir book pad next_action delay
    mt mb ml mr i pages img_paths w :
  pyautogui e = true ->
  advance_event next_action = None ->
  exists w' hist,
    capture_pages e proc x y wd h output_dir book pad next_action delay
                  mt mb ml mr (i :: pages) img_paths w = (Raise ValueError, w') /\
    trace w' = rev hist ++ trace w /\
    List.filter capture_or_advance hist = [EvScreenshot (x, y, wd / 3, h)].
Proof.
  intros Hpy Hev. cbn [capture_pages].
  destruct (capture_step e proc x y wd h delay
              (Py.os_path_join output_dir (page_filename book pad i)) mt mb ml mr w Hpy)
    as (w1 & pre & K & _ & T1 & F1 & _).
  rewrite K. clear K.
  rewrite (bind_raise _ _ _ _ _ (advance_malformed _ _ Hev)).
  eexists _, (pre ++ [EvLogError "--next must be 'x,y' for click or a key name for press."]).
  split; [reflexivity |]. split.
  - cbn [trace]. rewrite T1, rev_app_distr. reflexivity.
  - rewrite List.filter_app, F1. reflexivity.
Qed.

(** The files of the loop: it touches the output and the two temporary
    files of each of its pages and nothing else, and a page whose screenshot
    succeeded has its cropped capture under its path at the end, provided
    the crop could be saved; otherwise no image is under its path.  The paths
    of the pages are of one length and differ from one another, so no page
    overwrites or removes the file of another. *)
Lemma capture_pages_files e proc x y wd h output_dir book pad next_action delay
    mt mb ml mr ev (len_path : nat) :
  pyautogui e = true ->
  advance_event next_action = Some ev ->
  forall pages img_paths w,
  (forall i, i ∈ pages ->
     String.length (Py.os_path_join output_dir (page_filename book pad i)) = len_path) ->
  NoDup ((fun i => Py.os_path_join output_dir (page_filename book pad i)) <$> pages) ->
  exists r w',
    capture_pages e proc x y wd h output_dir book pad next_action delay
                  mt mb ml mr pages img_paths w = (r, w') /\
    (forall p,
       (forall i, i ∈ pages ->
          let out := Py.os_path_join output_dir (page_filename book pad i) in
          p <> out /\ p <> out +:+ ".tmp.png" /\ p <> out +:+ ".cvtmp.png") ->
       fs w' !! p = fs w !! p) /\
    (forall (k : nat) i shot,
       pages !! k = Some i ->
       grab e (grabs w + k) (x, y, wd / 3, h) = Some shot ->
       fs w' !! Py.os_path_join output_dir (page_filename book pad i)
       = if crop_saved shot mt mb ml mr
         then Some (cropped_image shot mt mb ml mr) else None).
Proof.
  intros Hpy Hev. induction pages as [| i pages IH]; intros img_paths w Hlen Hnd.
  - eexists _, w. split; [reflexivity |]. split; [reflexivity |]. intros k i shot Hk. discriminate.
  - rewrite fmap_cons in Hnd. apply NoDup_cons in Hnd as [Hfresh Hnd].
    set (out := Py.os_path_join output_dir (page_filename book pad i)) in *.
    cbn [capture_pages]. fold out.
    destruct (capture_step e proc x y wd h delay out mt mb ml mr w Hpy)
      as (w1 & pre & K & G1 & _ & _ & O1 & S1).
    rewrite K. clear K.
    rewrite (bind_ok _ _ _ _ _ (advance_ok _ _ _ Hev)).
    set (w2 := {| fs := fs w1; trace := EvSleep (1 # 10) :: ev :: trace w1;
                  enumerations := enumerations w1; grabs := grabs w1 |}).
    destruct (IH (img_paths ++ [out]) w2) as (r & w' & E & O & S).
    { intros j Hj. apply Hlen. now right. }
    { exact Hnd. }
    (* the path of this page is none of the files of the later pages *)
    assert (forall j, j ∈ pages ->
              let out_j := Py.os_path_join output_dir (page_filename book pad j) in
              out <> out_j /\ out <> out_j +:+ ".tmp.png" /\ out <> out_j +:+ ".cvtmp.png")
      as Hout.
    { intros j Hj out_j.
      assert (String.length out = String.length out_j) as Hl.
      { unfold out, out_j. rewrite !Hlen; [reflexivity | now right | left]. }
      split; [| split].
      - intros Heq. apply Hfresh. apply list_elem_of_fmap. now exists j.
      - intros Heq. apply (f_equal String.length) in Heq.
        rewrite string_length_app in Heq. cbn in Heq. lia.
      - intros Heq. apply (f_equal String.length) in Heq.
        rewrite string_length_app in Heq. cbn in Heq. lia. }
    exists r, w'. split; [exact E |]. split.
    + intros p Hp. rewrite O by (intros j Hj; apply Hp; now right).
      change (fs w2) with (fs w1).
      destruct (Hp i ltac:(left)) as (P1 & P2 & P3). now apply O1.
    + intros [| k] j shot Hk Hshot.
      * cbn in Hk. injection Hk as <-. rewrite Nat.add_0_r in Hshot. fold out.
        rewrite O by exact Hout. change (fs w2) with (fs w1). now apply S1.
      * cbn in Hk. apply (S k j shot Hk).
        change (grabs w2) with (grabs w1). rewrite G1.
        now replace (Datatypes.S (grabs w) + k)%nat with (grabs w + Datatypes.S k)%nat by lia.
Qed.

Lemma calm_refl w : calm_step w w.
Proof. split; [reflexivity |]. split; [reflexivity |]. now exists []. Qed.

Lemma calm_trans w1 w2 w3 : calm_step w1 w2 -> calm_step w2 w3 -> calm_step w1 w3.
Proof.
  intros (S1 & G1 & h1 & T1 & F1) (S2 & G2 & h2 & T2 & F2).
  split; [congruence |]. split; [congruence |].
  exists (h1 ++ h2). rewrite T2, T1, rev_app_distr, <- app_assoc. split; [reflexivity |].
  now rewrite List.filter_app, F1, F2.
Qed.

Lemma calm_emit ev w :
  capture_or_advance ev = false -> calm_step w (snd (emit ev w)).
Proof.
  intros H. split; [reflexivity |]. split; [reflexivity |]. exists [ev].
  split; [reflexivity |]. cbn [List.filter]. now rewrite H.
Qed.

Lemma get_window_info_run e app_name window_label w :
  _check_dependencies e = true ->
  exists w',
    get_window_info e app_name window_label w
    = (Ok (locate e (enumerations w) app_name window_label), w') /\
    enumerations w' = S (enumerations w) /\ calm_step w w'.
Proof.
  intros Hdeps. unfold get_window_info, locate. rewrite Hdeps. cbn [negb].
  unfold bind at 1, enumerate_windows.
  set (w1 := {| fs := fs w; trace := EvEnumerate :: trace w;
                enumerations := S (enumerations w); grabs := grabs w |}).
  assert (calm_step w w1) as C1 by (apply (calm_emit EvEnumerate w); reflexivity).
  destruct (osascript e (enumerations w)) as [windows |]; cbn [mbind option_bind].
  2: { exists w1. auto. }
  destruct (first_match app_name window_label windows) as [win |].
  - exists w1. auto.
  - eexists. split; [reflexivity |]. split; [reflexivity |].
    eapply calm_trans; [exact C1 |]. apply (calm_emit (EvLogError _) w1). reflexivity.
Qed.

Lemma set_window_size_run proc width height w :
  exists w',
    set_window_size_and_position proc width height w = (Ok tt, w') /\
    enumerations w' = enumerations w /\ calm_step w w'.
Proof.
  unfold set_window_size_and_position.
  destruct width, height;
    try (eexists; split; [reflexivity |]; split; [reflexivity |];
         apply (calm_emit (EvSetSize _ _ _) w); reflexivity).
  exists w. split; [reflexivity |]. split; [reflexivity | apply calm_refl].
Qed.

(** With the window found, [batch_capture] is the loop over the pages, run
    on the geometry of that window. *)
Lemma batch_capture_located e app_name window_label output_dir book start no
    next_action delay width height mt mb ml mr w win :
  located e w app_name window_label width height = Some win ->
  exists w0,
    batch_capture e app_name window_label output_dir book start no next_action delay
                  width height mt mb ml mr w
    = capture_pages e (proc_name win) (win_x win) (win_y win) (win_w win) (win_h win)
        output_dir book (Py.len (Py.str (start + no - 1))) next_action delay
        mt mb ml mr (Py.range start (start + no)) [] w0 /\
    calm_step w w0.
Proof.
  unfold located. destruct (_check_dependencies e) eqn:Hdeps; [| discriminate].
  destruct (locate e (enumerations w) app_name window_label) as [win1 |] eqn:L1;
    [| discriminate].
  intros Hloc. unfold batch_capture. rewrite Hdeps. cbn [negb].
  destruct (get_window_info_run e app_name window_label w Hdeps) as (w1 & E1 & N1 & C1).
  rewrite (bind_ok _ _ _ _ _ E1), L1.
  assert (forall proc w3,
            exists w4,
              (forall B (k : M B),
                 (activate_app e proc ;; emit (EvMakedirs output_dir) ;; k) w3 = k w4) /\
              calm_step w3 w4) as C0.
  { intros proc w3.
    destruct (activate_app_run e proc w3) as (w4 & a & E4 & T4 & F4 & G4 & _ & A4).
    exists {| fs := fs w4; trace := EvMakedirs output_dir :: trace w4;
              enumerations := enumerations w4; grabs := grabs w4 |}. split.
    - intros B k. rewrite (bind_ok _ _ _ _ _ E4). reflexivity.
    - split; [exact F4 |]. split; [exact G4 |].
      exists (a ++ [EvMakedirs output_dir]). cbn [trace]. rewrite T4, rev_app_distr.
      split; [reflexivity |]. now rewrite List.filter_app, A4. }
  destruct (nonzero width || nonzero height).
  - destruct (set_window_size_run (proc_name win1) width height w1) as (w2 & E2 & N2 & C2).
    destruct (get_window_info_run e app_name window_label w2 Hdeps) as (w3 & E3 & N3 & C3).
    rewrite N2, N1, Hloc in E3.
    destruct (C0 (proc_name win) w3) as (w4 & K4 & C4).
    exists w4. split.
    + unfold bind at 1. unfold bind at 1. rewrite E2.
      rewrite (bind_ok _ _ _ _ _ E3). unfold ret. cbv beta iota. apply K4.
    + eapply calm_trans; [exact C1 |]. eapply calm_trans; [exact C2 |].
      eapply calm_trans; [exact C3 |]. exact C4.
  - injection Hloc as <-.
    destruct (C0 (proc_name win1) w1) as (w4 & K4 & C4).
    exists w4. split.
    + unfold bind at 1, ret. cbv beta iota. apply K4.
    + eapply calm_trans; [exact C1 |]. exact C4.
Qed.

Lemma located_pyautogui e w app_name window_label width height win :
  located e w app_name window_label width height = Some win -> pyautogui e = true.
Proof.
  unfold located, _check_dependencies. destruct (pyautogui e); [reflexivity | discriminate].
Qed.

Lemma length_range a b : length (Py.range a b) = Z.to_nat (b - a).
Proof. apply length_seqZ. Qed.

End Runs.

(** ** Order of the page names *)

Section PageNames.
Import Py Shot.

Lemma string_compare_refl s : String.compare s s = Eq.
Proof.
  induction s as [| c s IH]; [reflexivity |].
  cbn [String.compare]. unfold Ascii.compare. now rewrite N.compare_refl.
Qed.

Lemma compare_app_prefix p a b : String.compare (p +:+ a) (p +:+ b) = String.compare a b.
Proof.
  induction p as [| c p IH]; [reflexivity |].
  rewrite !app_String. cbn [String.compare]. unfold Ascii.compare.
  now rewrite N.compare_refl.
Qed.

Lemma compare_app_suffix a : forall b s t,
  String.length a = String.length b -> String.compare a b <> Eq ->
  String.compare (a +:+ s) (b +:+ t) = String.compare a b.
Proof.
  induction a as [| c a IH]; intros [| d b] s t Hlen Hne; try discriminate.
  - now destruct Hne.
  - rewrite !app_String. cbn [String.compare] in *.
    destruct (Ascii.compare c d); try reflexivity.
    apply IH; [cbn in Hlen; lia | exact Hne].
Qed.

(** Two page names of one run compare as their page numbers do. *)
Lemma compare_page_filename book pad i j :
  0 <= i -> 0 <= j -> len (str i) <= pad -> len (str j) <= pad ->
  String.compare (page_filename book pad i) (page_filename book pad j) = (i ?= j).
Proof.
  intros Hi Hj Li Lj. unfold page_filename.
  rewrite compare_app_prefix.
  change ("_" +:+ ?x)%string with (String "_" x). cbn [String.compare].
  change (Ascii.compare "_" "_") with Eq. cbv iota.
  destruct (zfill_str i pad Hi Li) as (Di & Vi & Wi).
  destruct (zfill_str j pad Hj Lj) as (Dj & Vj & Wj).
  assert (String.compare (zfill (str i) pad) (zfill (str j) pad) = (i ?= j)) as Hc.
  { rewrite compare_digits by (try assumption; congruence). now rewrite Vi, Vj. }
  destruct (Z.eq_dec i j) as [-> | Hne].
  - now rewrite string_compare_refl, Z.compare_refl.
  - rewrite <- Hc. apply compare_app_suffix.
    + unfold len in Wi, Wj. lia.
    + rewrite Hc. now rewrite Z.compare_eq_iff.
Qed.

Lemma startswith_page_filename c book pad i j :
  startswith c (page_filename book pad i) = startswith c (page_filename book pad j).
Proof. unfold page_filename. now destruct book. Qed.

Lemma compare_os_path_join dir book pad i j :
  String.compare (os_path_join dir (page_filename book pad i))
                 (os_path_join dir (page_filename book pad j))
  = String.compare (page_filename book pad i) (page_filename book pad j).
Proof.
  unfold os_path_join. rewrite (startswith_page_filename "/" book pad i j).
  destruct (startswith "/" (page_filename book pad j)); [reflexivity |].
  destruct (String.eqb dir EmptyString || endswith "/" dir).
  - apply compare_app_prefix.
  - rewrite compare_app_prefix. cbn [String.compare].
    change (Ascii.compare "/" "/") with Eq. reflexivity.
Qed.

Lemma length_page_path dir book pad i j :
  len (zfill (str i) pad) = len (zfill (str j) pad) ->
  String.length (os_path_join dir (page_filename book pad i))
  = String.length (os_path_join dir (page_filename book pad j)).
Proof.
  intros Hz.
  assert (String.length (page_filename book pad i) = String.length (page_filename book pad j))
    as Hn.
  { unfold page_filename, len in *. rewrite !string_length_app. lia. }
  unfold os_path_join. rewrite (startswith_page_filename "/" book pad i j).
  destruct (startswith "/" (page_filename book pad j)); [exact Hn |].
  destruct (String.eqb dir EmptyString || endswith "/" dir).
  - rewrite !string_length_app. lia.
  - rewrite !string_length_app. cbn [String.length]. lia.
Qed.

Lemma lt_iff_compare a b : lt a b = true <-> String.compare a b = Lt.
Proof. unfold lt, String.ltb. destruct (String.compare a b); split; congruence. Qed.

Lemma turns_S k region ev :
  turns (S k) region ev = turns k region ev ++ [EvScreenshot region; ev].
Proof.
  unfold turns. induction k as [| k IH]; [reflexivity |].
  change (mjoin (replicate (S (S k)) [EvScreenshot region; ev]))
    with ([EvScreenshot region; ev] ++ mjoin (replicate (S k) [EvScreenshot region; ev])).
  rewrite IH at 1. reflexivity.
Qed.

End PageNames.

(** C1.  A batch run over [no >= 1] pages from [start >= 1], with the window
    found and a well-formed page-turn action, returns the paths of exactly the
    pages [start .. start + no - 1] in this order; the name of page [i] is
    [book_<i>.png] with [i] padded by zeros to the length of
    [str(start + no - 1)]; and the order of [str] on these names (and on the
    full paths) is the order of the page numbers.  A page whose screenshot
    was taken and whose crop has a width and a height is on disk under its
    path at the end of the run, as the screenshot cropped with the margins of
    the run; a page whose margins leave the crop without width or height has
    no image under its path, though the path is returned all the same. *)
Theorem C1_batch_filenames
    (e : Shot.env) (app_name window_label : option string) (output_dir book : string)
    (start no : Z) (next_action : string) (delay : Q) (width height : option Z)
    (top bottom left right : Z) (w : Shot.world) (win : Shot.window) (ev : Shot.event) :
  1 <= start -> 1 <= no ->
  Shot.located e w app_name window_label width height = Some win ->
  Shot.advance_event next_action = Some ev ->
  let pad_width := Py.len (Py.str (start + no - 1)) in
  let name := fun i => (book +:+ "_" +:+ Py.zfill (Py.str i) pad_width +:+ ".png")%string in
  let path := fun i => Py.os_path_join output_dir (name i) in
  exists paths w',
    Shot.batch_capture e app_name window_label output_dir book start no next_action
                       delay width height top bottom left right w = (Eff.Ok paths, w') /\
    length paths = Z.to_nat no /\
    (forall k : nat, Z.of_nat k < no -> paths !! k = Some (path (start + Z.of_nat k))) /\
    (forall i, start <= i <= start + no - 1 ->
       Py.len (Py.zfill (Py.str i) pad_width) = pad_width /\
       Py.all_digits (Py.zfill (Py.str i) pad_width) = true /\
       Py.val (Py.zfill (Py.str i) pad_width) = i) /\
    (forall i j, start <= i <= start + no - 1 -> start <= j <= start + no - 1 ->
       (Py.lt (name i) (name j) = true <-> i < j) /\
       (Py.lt (path i) (path j) = true <-> i < j)) /\
    (forall (k : nat) shot,
       Z.of_nat k < no ->
       Shot.grab e (Shot.grabs w + k)
         (Shot.win_x win, Shot.win_y win, Shot.win_w win / 3, Shot.win_h win) = Some shot ->
       Shot.fs w' !! path (start + Z.of_nat k)
       = if Shot.crop_saved shot top bottom left right
         then Some (Shot.cropped_image shot top bottom left right)
         else None).
Proof.
  intros Hstart Hno Hloc Hev pad_width name path.
  destruct (batch_capture_located e app_name window_label output_dir book start no
              next_action delay width height top bottom left right w win Hloc)
    as (w0 & E0 & Hfs0 & Hg0 & _).
  destruct (capture_pages_run e (Shot.proc_name win) (Shot.win_x win) (Shot.win_y win)
              (Shot.win_w win) (Shot.win_h win) output_dir book pad_width next_action
              delay top bottom left right ev
              (located_pyautogui _ _ _ _ _ _ _ Hloc) Hev (Py.range start (start + no)) [] w0)
    as (w' & hist & E & _ & _).
  assert (forall i, start <= i <= start + no - 1 -> Py.len (Py.str i) <= pad_width) as Hlen.
  { intros i Hi. unfold pad_width. apply len_str_mono. lia. }
  assert (forall i j, start <= i <= start + no - 1 -> start <= j <= start + no - 1 ->
            String.compare (Shot.page_filename book pad_width i)
                           (Shot.page_filename book pad_width j) = (i ?= j)) as Hcmp.
  { intros i j Hi Hj. apply compare_page_filename; try lia; now apply Hlen. }
  assert (forall i, i ∈ Py.range start (start + no) <-> start <= i <= start + no - 1) as Hrange.
  { intros i. unfold Py.range. rewrite elem_of_seqZ. lia. }
  exists (path <$> Py.range start (start + no)), w'.
  split; [| split; [| split; [| split; [| split]]]].
  6: { intros k shot Hk Hshot.
       destruct (capture_pages_files e (Shot.proc_name win) (Shot.win_x win) (Shot.win_y win)
                   (Shot.win_w win) (Shot.win_h win) output_dir book pad_width next_action
                   delay top bottom left right ev
                   (String.length (Py.os_path_join output_dir
                                     (Shot.page_filename book pad_width start)))
                   (located_pyautogui _ _ _ _ _ _ _ Hloc) Hev
                   (Py.range start (start + no)) [] w0)
         as (r & w'' & E' & _ & Hfiles).
       { intros i Hi. apply Hrange in Hi. apply length_page_path.
         destruct (zfill_str i pad_width ltac:(lia) (Hlen i Hi)) as (_ & _ & ->).
         destruct (zfill_str start pad_width ltac:(lia) (Hlen start ltac:(lia)))
           as (_ & _ & ->). reflexivity. }
       { apply NoDup_fmap_2_strong; [| apply NoDup_seqZ].
         intros i j Hi Hj Heq. apply Hrange in Hi, Hj.
         apply Z.compare_eq. rewrite <- (Hcmp i j Hi Hj), <- (compare_os_path_join output_dir).
         cbv beta in Heq. rewrite Heq. apply string_compare_refl. }
       rewrite E in E'. injection E' as _ <-.
       apply (Hfiles k (start + Z.of_nat k) shot).
       - unfold Py.range. apply lookup_seqZ_lt. lia.
       - now rewrite Hg0. }
  - rewrite E0. exact E.
  - rewrite length_fmap, length_range. f_equal. lia.
  - intros k Hk. rewrite list_lookup_fmap. unfold Py.range.
    rewrite lookup_seqZ_lt by lia. reflexivity.
  - intros i Hi.
    destruct (zfill_str i pad_width ltac:(lia) (Hlen i Hi)) as (H1 & H2 & H3). auto.
  - intros i j Hi Hj. subst path name. cbv beta.
    change (book +:+ "_" +:+ Py.zfill (Py.str i) pad_width +:+ ".png")%string
      with (Shot.page_filename book pad_width i).
    change (book +:+ "_" +:+ Py.zfill (Py.str j) pad_width +:+ ".png")%string
      with (Shot.page_filename book pad_width j).
    assert (String.compare (Shot.page_filename book pad_width i)
                           (Shot.page_filename book pad_width j) = (i ?= j)) as Hc.
    { apply compare_page_filename; try lia; now apply Hlen. }
    split; rewrite lt_iff_compare; [| rewrite compare_os_path_join];
      rewrite Hc; apply Z.compare_lt_iff.
Qed.

Lemma C1_batch_filenames_witness :
  exists w',
    Shot.batch_capture (Shot.reader_env (fun _ => Some Shot.dot_page))
      (Some "reader"%string) None "out" "prefix" 8 3 "right" 0 None None 0 0 0 0
      (Shot.initial ∅)
    = (Eff.Ok ["out/prefix_08.png"; "out/prefix_09.png"; "out/prefix_10.png"]%string, w').
Proof.
  destruct (C1_batch_filenames (Shot.reader_env (fun _ => Some Shot.dot_page))
              (Some "reader"%string) None "out" "prefix" 8 3 "right" 0 None None 0 0 0 0
              (Shot.initial ∅) (Shot.Window "Reader" "Book" 0 0 300 200)
              (Shot.EvPress "right") ltac:(lia) ltac:(lia) eq_refl eq_refl)
    as (paths & w' & E & _).
  exists w'. rewrite E. vm_compute in E. injection E as Hp _. now rewrite <- Hp.
Defined.

(** C2 as amended.  In a batch run the page-turn action is issued after the
    capture of every page that is not the last one, before the next page is
    captured: among the captures and page turns of the run, each capture but
    the last is followed by exactly one page turn.  The action is a click
    at [(x, y)] when it contains a comma and its comma-separated parts are
    exactly two integers [x] and [y], a key press when it contains no comma,
    and an action with a comma that is not two integers ends the run with an
    error after the first capture, without a key press. *)
Theorem C2_advance_between_pages
    (e : Shot.env) (app_name window_label : option string) (output_dir book : string)
    (start no : Z) (next_action : string) (delay : Q) (width height : option Z)
    (top bottom left right : Z) (w : Shot.world) (win : Shot.window) :
  1 <= no ->
  Shot.located e w app_name window_label width height = Some win ->
  let region := (Shot.win_x win, Shot.win_y win, Shot.win_w win / 3, Shot.win_h win) in
  let run := Shot.batch_capture e app_name window_label output_dir book start no
               next_action delay width height top bottom left right w in
  (Py.contains "," next_action = false ->
   forall w0, Shot.advance next_action w0 = Shot.emit (Shot.EvPress next_action) w0) /\
  (forall nx ny,
     Py.contains "," next_action = true ->
     Py.int <$> Py.split "," next_action = [Some nx; Some ny] ->
     forall w0, Shot.advance next_action w0 = Shot.emit (Shot.EvClick nx ny) w0) /\
  (forall ev,
     Shot.advance_event next_action = Some ev ->
     exists paths w' hist last,
       run = (Eff.Ok paths, w') /\
       Shot.trace w' = rev hist ++ Shot.trace w /\
       List.filter Shot.capture_or_advance hist
       = Shot.turns (Z.to_nat no - 1) region ev ++ Shot.EvScreenshot region :: last /\
       forallb Shot.is_advance last = true) /\
  (Shot.advance_event next_action = None ->
   Py.contains "," next_action = true /\
   exists w' hist,
     run = (Eff.Raise Shot.ValueError, w') /\
     Shot.trace w' = rev hist ++ Shot.trace w /\
     List.filter Shot.capture_or_advance hist = [Shot.EvScreenshot region]).
Proof.
  intros Hno Hloc region run.
  pose proof (located_pyautogui _ _ _ _ _ _ _ Hloc) as Hpy.
  destruct (batch_capture_located e app_name window_label output_dir book start no
              next_action delay width height top bottom left right w win Hloc)
    as (w0 & E0 & _ & _ & h0 & T0 & F0).
  assert (length (Py.range start (start + no)) = S (Z.to_nat no - 1)) as Hlen.
  { rewrite length_range. lia. }
  split; [| split; [| split]].
  - intros Hc w1. unfold Shot.advance. now rewrite Hc.
  - intros nx ny Hc Hp w1. unfold Shot.advance. now rewrite Hc, Hp.
  - intros ev Hev.
    destruct (capture_pages_run e (Shot.proc_name win) (Shot.win_x win) (Shot.win_y win)
                (Shot.win_w win) (Shot.win_h win) output_dir book
                (Py.len (Py.str (start + no - 1))) next_action delay top bottom left right
                ev Hpy Hev (Py.range start (start + no)) [] w0)
      as (w' & hist & E & T & F).
    eexists _, w', (h0 ++ hist), [ev]. split; [| split; [| split]].
    + unfold run. rewrite E0. exact E.
    + rewrite T, T0, rev_app_distr, <- app_assoc. reflexivity.
    + rewrite List.filter_app, F0, F, Hlen, turns_S. reflexivity.
    + cbn [forallb]. now rewrite (advance_event_is_advance _ _ Hev).
  - intros Hev. split.
    { unfold Shot.advance_event in Hev.
      destruct (Py.contains "," next_action); [reflexivity | discriminate]. }
    destruct (Py.range start (start + no)) as [| i pages] eqn:R; [discriminate |].
    destruct (capture_pages_malformed e (Shot.proc_name win) (Shot.win_x win)
                (Shot.win_y win) (Shot.win_w win) (Shot.win_h win) output_dir book
                (Py.len (Py.str (start + no - 1))) next_action delay top bottom left right
                i pages [] w0 Hpy Hev)
      as (w' & hist & E & T & F).
    exists w', (h0 ++ hist). split; [| split].
    + unfold run. rewrite E0. exact E.
    + rewrite T, T0, rev_app_distr, <- app_assoc. reflexivity.
    + now rewrite List.filter_app, F0, F.
Qed.

Lemma C2_advance_between_pages_witness :
  exists paths w' hist last,
    Shot.batch_capture (Shot.reader_env (fun _ => Some Shot.dot_page))
      (Some "reader"%string) None "out" "prefix" 1 3 "300,400" 0 None None 0 0 0 0
      (Shot.initial ∅) = (Eff.Ok paths, w') /\
    Shot.trace w' = rev hist ++ [] /\
    List.filter Shot.capture_or_advance hist
    = [Shot.EvScreenshot (0, 0, 100, 200); Shot.EvClick 300 400;
       Shot.EvScreenshot (0, 0, 100, 200); Shot.EvClick 300 400;
       Shot.EvScreenshot (0, 0, 100, 200)] ++ last /\
    forallb Shot.is_advance last = true.
Proof.
  destruct (C2_advance_between_pages (Shot.reader_env (fun _ => Some Shot.dot_page))
              (Some "reader"%string) None "out" "prefix" 1 3 "300,400" 0 None None 0 0 0 0
              (Shot.initial ∅) (Shot.Window "Reader" "Book" 0 0 300 200)
              ltac:(lia) eq_refl) as (_ & _ & H & _).
  destruct (H (Shot.EvClick 300 400) eq_refl) as (paths & w' & hist & last & E & T & F & L).
  exists paths, w', hist, last. auto.
Defined.

(** The claim as stated fails: with one page the action is still issued once,
    after the only (and last) page; and an action with a comma that is not
    two integers is not sent as a key press, the run ends with an error. *)
Lemma C2_counterexample :
  let e := Shot.reader_env (fun _ => Some Shot.dot_page) in
  let one_page := Shot.batch_capture e (Some "reader"%string) None "out" "prefix"
                    1 1 "right" 0 None None 0 0 0 0 (Shot.initial ∅) in
  let malformed := Shot.batch_capture e (Some "reader"%string) None "out" "prefix"
                     1 2 "a,b" 0 None None 0 0 0 0 (Shot.initial ∅) in
  List.filter Shot.capture_or_advance (Shot.history (snd one_page))
  = [Shot.EvScreenshot (0, 0, 100, 200); Shot.EvPress "right"] /\
  fst malformed = Eff.Raise Shot.ValueError /\
  List.filter Shot.is_advance (Shot.history (snd malformed)) = [].
Proof. vm_compute. repeat split. Qed.

(** C3 as amended.  When the capture library (or another dependency) is
    missing, the batch run fails as a whole before the first page: it raises
    and nothing has been done, so no page is captured and none is passed
    over. *)
Theorem C3_missing_capability_is_fatal
    (e : Shot.env) (app_name window_label : option string) (output_dir book : string)
    (start no : Z) (next_action : string) (delay : Q) (width height : option Z)
    (top bottom left right : Z) (w : Shot.world) :
  Shot.pyautogui e = false \/ Shot.pillow e = false \/ Shot.darwin e = false ->
  Shot.batch_capture e app_name window_label output_dir book start no next_action
                     delay width height top bottom left right w
  = (Eff.Raise (Shot.RuntimeError "Missing dependencies or not macOS"), w).
Proof.
  intros H. unfold Shot.batch_capture.
  assert (Shot._check_dependencies e = false) as ->; [| reflexivity].
  unfold Shot._check_dependencies.
  destruct H as [-> | [-> | ->]]; [reflexivity | now rewrite andb_false_r | apply andb_false_r].
Qed.

Lemma C3_missing_capability_is_fatal_witness :
  let e := {| Shot.pyautogui := false; Shot.pillow := true; Shot.darwin := true;
              Shot.osascript := fun _ => Some [Shot.Window "Reader" "Book" 0 0 300 200];
              Shot.grab := fun _ _ => None; Shot.activates := fun _ => true |} in
  Shot.batch_capture e (Some "reader"%string) None "out" "prefix" 1 3 "right" 0
                     None None 0 0 0 0 (Shot.initial ∅)
  = (Eff.Raise (Shot.RuntimeError "Missing dependencies or not macOS"), Shot.initial ∅).
Proof.
  intros e.
  exact (C3_missing_capability_is_fatal e (Some "reader"%string) None "out" "prefix" 1 3
           "right" 0 None None 0 0 0 0 (Shot.initial ∅) (or_introl eq_refl)).
Defined.

(** The claim as stated fails: the screenshot of page 1 raises, the run
    logs the failure, goes on to page 2, captures it and returns both
    paths. *)
Lemma C3_counterexample :
  let e := Shot.reader_env (fun k => if (k =? 0)%nat then None else Some Shot.dot_page) in
  let run := Shot.batch_capture e (Some "reader"%string) None "out" "prefix"
               1 2 "right" 0 None None 0 0 0 0 (Shot.initial ∅) in
  fst run = Eff.Ok ["out/prefix_1.png"; "out/prefix_2.png"]%string /\
  List.filter (fun ev => Shot.is_screenshot ev || Shot.is_log_error ev)
              (Shot.history (snd run))
  = [Shot.EvScreenshot (0, 0, 100, 200); Shot.EvLogError "Capture failed";
     Shot.EvScreenshot (0, 0, 100, 200)] /\
  Shot.fs (snd run) !! "out/prefix_1.png"%string = None /\
  is_Some (Shot.fs (snd run) !! "out/prefix_2.png"%string).
Proof. vm_compute. repeat split. eauto. Qed.

(** C4 as amended.  [capture_window] turns a request down before any
    capture only when the capture library is missing; then no screenshot is
    taken and no file is touched.  With the library at hand every request
    starts with the screenshot of [(x, y, width // 3, height)], whatever the
    sign of its width and height and whatever the margins: the margins are
    not taken off the captured region, they act in the cropper afterwards. *)
Theorem C4_capture_region_unchecked
    (e : Shot.env) (x y width height : Z) (output_path : string)
    (top bottom left right : Z) (w : Shot.world) :
  (Shot.pyautogui e = false ->
   exists w',
     Shot.capture_window e x y width height output_path top bottom left right w
     = (Eff.Ok false, w') /\
     Shot.fs w' = Shot.fs w /\ Shot.grabs w' = Shot.grabs w /\
     Shot.trace w' = Shot.EvLogError "pyautogui is required for capturing" :: Shot.trace w) /\
  (Shot.pyautogui e = true ->
   exists b w' tail,
     Shot.capture_window e x y width height output_path top bottom left right w
     = (Eff.Ok b, w') /\
     Shot.trace w' = tail ++ Shot.EvScreenshot (x, y, width / 3, height) :: Shot.trace w /\
     forallb Shot.is_log_error tail = true /\
     Shot.grabs w' = S (Shot.grabs w)).
Proof.
  split; intros Hpy.
  - unfold Shot.capture_window. rewrite Hpy. eexists. split; [reflexivity |]. auto.
  - destruct (capture_window_run e x y width height output_path top bottom left right w Hpy)
      as (b & w' & tail & E & T & L & _ & G).
    exists b, w', tail. auto.
Qed.

(** The claim as stated fails: a request whose region is 0 by 0, and one
    whose margins exceed the height of the region, both take the
    screenshot. *)
Lemma C4_counterexample :
  let e := Shot.reader_env (fun _ => Some Shot.dot_page) in
  let first := Shot.capture_window e 0 0 2 0 "out.png" 0 0 0 0 (Shot.initial ∅) in
  let second := Shot.capture_window e 0 0 30 10 "out2.png" 20 20 0 0 (snd first) in
  List.filter Shot.is_screenshot (Shot.history (snd first))
  = [Shot.EvScreenshot (0, 0, 0, 0)] /\
  fst second = Eff.Ok true /\
  List.filter Shot.is_screenshot (Shot.history (snd second))
  = [Shot.EvScreenshot (0, 0, 0, 0); Shot.EvScreenshot (0, 0, 10, 10)].
Proof. vm_compute. repeat split. Qed.

(** ** The merge of the text files *)

Section Merge.
Import Eff LlmOcr.
Local Open Scope eff_scope.

Lemma string_app_assoc a b c : (a +:+ b) +:+ c = a +:+ (b +:+ c).
Proof. induction a as [| x a IH]; [reflexivity |]. rewrite !app_String. now rewrite IH. Qed.

Lemma string_app_nil_r a : a +:+ EmptyString = a.
Proof. induction a as [| x a IH]; [reflexivity |]. rewrite app_String. now rewrite IH. Qed.

Lemma glob_txt_spec files name :
  name ∈ glob_txt_sorted files <-> is_Some (files !! name) /\ ends_with ".txt" name = true.
Proof.
  unfold glob_txt_sorted. rewrite merge_sort_Permutation, list_elem_of_filter, list_elem_of_fmap.
  rewrite Is_true_true. split.
  - intros (H & [n c] & -> & Hin). apply elem_of_map_to_list in Hin. cbn. eauto.
  - intros ([c Hc] & H). split; [exact H |]. exists (name, c). split; [reflexivity |].
    now apply elem_of_map_to_list.
Qed.

Lemma glob_txt_NoDup files : NoDup (glob_txt_sorted files).
Proof.
  unfold glob_txt_sorted. rewrite merge_sort_Permutation.
  apply NoDup_filter, NoDup_fst_map_to_list.
Qed.

Lemma glob_txt_sorted_order files : StronglySorted String.le (glob_txt_sorted files).
Proof. apply StronglySorted_merge_sort; apply _. Qed.

Lemma pieces_cons files n names :
  pieces files (n :: names)
  = (Py.strip (default EmptyString (files !! n)) +:+ blank_line) +:+ pieces files names.
Proof. reflexivity. Qed.

Lemma pieces_app files l1 l2 : pieces files (l1 ++ l2) = pieces files l1 +:+ pieces files l2.
Proof.
  induction l1 as [| n l1 IH]; [reflexivity |].
  cbn [app]. now rewrite !pieces_cons, IH, !string_app_assoc.
Qed.

Lemma pieces_ext files files' names :
  (forall n, n ∈ names -> files' !! n = files !! n) -> pieces files' names = pieces files names.
Proof.
  induction names as [| n names IH]; intros H; [reflexivity |].
  rewrite !pieces_cons. rewrite H by left. rewrite IH; [reflexivity |]. intros m Hm. apply H. now right.
Qed.

(** Writing the pieces of files other than the merged file itself. *)
Lemma write_merged_others e merged names : forall written w,
  merged ∉ names ->
  (forall n, n ∈ names -> is_Some (fs w !! n)) ->
  exists w',
    write_merged e merged names written w = (Ok (written +:+ pieces (fs w) names), w') /\
    (forall n, n <> merged -> fs w' !! n = fs w !! n) /\
    trace w' = trace w /\ posts w' = posts w /\
    (names = [] -> fs w' !! merged = fs w !! merged) /\
    (names <> [] -> fs w' !! merged = Some (flushed e (written +:+ pieces (fs w) names))).
Proof.
  induction names as [| n names IH]; intros written w Hno Hin.
  - exists w. cbn [write_merged]. change (pieces (fs w) []) with EmptyString.
    rewrite string_app_nil_r.
    repeat split; auto. congruence.
  - apply not_elem_of_cons in Hno as [Hne Hno].
    destruct (Hin n ltac:(left)) as [text Ht].
    cbn [write_merged]. unfold bind at 1, read_text. rewrite Ht.
    unfold bind at 1, store.
    set (written1 := written +:+ (Py.strip text +:+ blank_line)).
    set (w1 := {| fs := <[merged := flushed e written1]> (fs w);
                  trace := trace w; posts := posts w |}).
    assert (forall m, m <> merged -> fs w1 !! m = fs w !! m) as Hother.
    { intros m Hm. cbn [w1 fs]. now rewrite lookup_insert_ne. }
    destruct (IH written1 w1 Hno) as (w' & E & O & T & P & _ & L).
    { intros m Hm. rewrite Hother; [apply Hin; now right |]. intros ->. contradiction. }
    assert (written1 +:+ pieces (fs w1) names = written +:+ pieces (fs w) (n :: names)) as Heq.
    { rewrite (pieces_ext (fs w) (fs w1)).
      - rewrite pieces_cons. unfold written1.
        rewrite Ht. cbn [default]. now rewrite !string_app_assoc.
      - intros m Hm. apply Hother. intros ->. contradiction. }
    exists w'. rewrite E, Heq. repeat split; auto.
    + intros m Hm. rewrite O by exact Hm. now apply Hother.
    + discriminate.
    + intros _. destruct names as [| n' names'].
      * cbn [write_merged] in E. injection E as _ <-. rewrite <- Heq.
        change (pieces (fs w1) []) with EmptyString. rewrite string_app_nil_r. cbn [w1 fs].
        apply lookup_insert_eq.
      * rewrite L by discriminate. now rewrite Heq.
Qed.

Lemma write_merged_app e merged l1 : forall l2 written w,
  write_merged e merged (l1 ++ l2) written w
  = (written1 <- write_merged e merged l1 written ;; write_merged e merged l2 written1) w.
Proof.
  induction l1 as [| n l1 IH]; intros l2 written w; [reflexivity |].
  cbn [app write_merged]. unfold bind.
  destruct (read_text n w) as [[text | x] w1]; [| reflexivity].
  destruct (store merged _ w1) as [[[] | x] w2]; [| reflexivity].
  rewrite IH. reflexivity.
Qed.

(** The pass over the sorted names when the merged file itself is one of
    them: it was emptied when it was opened, so what is read from it is the
    part of the new text that has reached the disk. *)
Lemma write_merged_self e merged before after w1 :
  flushed e EmptyString = EmptyString ->
  merged ∉ before -> merged ∉ after ->
  fs w1 !! merged = Some EmptyString ->
  (forall n, n ∈ before ++ after -> is_Some (fs w1 !! n)) ->
  let B := pieces (fs w1) before in
  exists w',
    write_merged e merged (before ++ merged :: after) EmptyString w1
    = (Ok (B +:+ (Py.strip (flushed e B) +:+ blank_line) +:+ pieces (fs w1) after), w') /\
    (forall n, n <> merged -> fs w' !! n = fs w1 !! n) /\
    trace w' = trace w1 /\ posts w' = posts w1.
Proof.
  intros Hf Hb Ha Hm Hin B.
  destruct (write_merged_others e merged before EmptyString w1 Hb) as (w2 & E2 & O2 & T2 & P2 & N2 & L2).
  { intros n Hn. apply Hin, elem_of_app. now left. }
  change (EmptyString +:+ pieces (fs w1) before) with B in E2, L2.
  assert (fs w2 !! merged = Some (flushed e B)) as Hread.
  { destruct before as [| b before'].
    - rewrite N2 by reflexivity. rewrite Hm. subst B. cbn. now rewrite Hf.
    - apply L2. discriminate. }
  rewrite write_merged_app, (bind_ok _ _ _ _ _ E2).
  cbn [write_merged]. unfold bind at 1, read_text. rewrite Hread.
  unfold bind at 1, store.
  set (written := B +:+ (Py.strip (flushed e B) +:+ blank_line)).
  set (w3 := {| fs := <[merged := flushed e written]> (fs w2);
                trace := trace w2; posts := posts w2 |}).
  assert (forall n, n <> merged -> fs w3 !! n = fs w1 !! n) as O3.
  { intros n Hn. cbn [w3 fs]. rewrite lookup_insert_ne by congruence. now apply O2. }
  destruct (write_merged_others e merged after written w3 Ha) as (w4 & E4 & O4 & T4 & P4 & _ & _).
  { intros n Hn. rewrite O3; [apply Hin, elem_of_app; now right |]. intros ->. contradiction. }
  exists w4. rewrite E4. split; [| split; [| split]].
  - rewrite (pieces_ext (fs w1) (fs w3)).
    + unfold written. now rewrite !string_app_assoc.
    + intros n Hn. apply O3. intros ->. contradiction.
  - intros n Hn. rewrite O4 by exact Hn. now apply O3.
  - now rewrite T4.
  - now rewrite P4.
Qed.

Lemma ends_with_app suffix a b :
  ends_with suffix b = true -> ends_with suffix (a +:+ b) = true.
Proof.
  unfold ends_with. intros H. apply andb_true_iff in H as [H1 H2].
  apply Nat.leb_le in H1. rewrite string_length_app.
  apply andb_true_iff. split; [apply Nat.leb_le; lia |].
  induction a as [| c a IH]; [exact H2 |].
  rewrite app_String. cbn [String.length Nat.add].
  replace (S (String.length a + String.length b) - String.length suffix)%nat
    with (S (String.length a + String.length b - String.length suffix)) by lia.
  exact IH.
Qed.

Lemma prefix_of_empty s : String.prefix s EmptyString = true -> s = EmptyString.
Proof. now destruct s. Qed.

Lemma split_at_unique (x : string) l1 : forall l2 k1 k2,
  NoDup (l1 ++ x :: l2) -> l1 ++ x :: l2 = k1 ++ x :: k2 -> k1 = l1 /\ k2 = l2.
Proof.
  induction l1 as [| a l1 IH]; intros l2 k1 k2 Hnd Heq.
  - destruct k1 as [| b k1]; cbn in Heq.
    + injection Heq as <-. auto.
    + injection Heq as <- ->. apply NoDup_cons in Hnd as [Hx _].
      destruct Hx. apply elem_of_app. right. left.
  - cbn [app] in Hnd. apply NoDup_cons in Hnd as [Ha Hnd].
    destruct k1 as [| b k1]; cbn in Heq.
    + injection Heq as -> _. destruct Ha. apply elem_of_app. right. left.
    + injection Heq as <- Heq. destruct (IH _ _ _ Hnd Heq) as [-> ->]. auto.
Qed.

Lemma merge_texts_run e input_dir_name w :
  flushed e EmptyString = EmptyString ->
  glob_txt_sorted (fs w) <> [] ->
  let merged := input_dir_name +:+ "_merged.txt" in
  let all_txts := glob_txt_sorted (fs w) in
  exists w',
    merge_texts e input_dir_name w = (Ok tt, w') /\
    (forall n, n <> merged -> fs w' !! n = fs w !! n) /\
    trace w' = EvLog (LogMerged merged) :: EvWrite merged :: trace w /\
    posts w' = posts w /\
    (merged ∉ all_txts -> fs w' !! merged = Some (pieces (fs w) all_txts)) /\
    (forall before after,
       all_txts = before ++ merged :: after ->
       fs w' !! merged
       = Some (pieces (fs w) before
               +:+ (Py.strip (flushed e (pieces (fs w) before)) +:+ blank_line)
               +:+ pieces (fs w) after)).
Proof.
  intros Hf Hne merged all_txts. subst all_txts.
  pose proof (glob_txt_NoDup (fs w)) as Hnodup.
  assert (forall n, n ∈ glob_txt_sorted (fs w) -> is_Some (fs w !! n)) as Hsome.
  { intros n Hn. now apply glob_txt_spec in Hn as [Hn _]. }
  remember (glob_txt_sorted (fs w)) as all_txts eqn:Hall.
  set (w1 := {| fs := <[merged := EmptyString]> (fs w);
                trace := EvWrite merged :: trace w; posts := posts w |}).
  assert (forall n, n <> merged -> fs w1 !! n = fs w !! n) as O1.
  { intros n Hn. cbn [w1 fs]. now rewrite lookup_insert_ne. }
  assert (forall n, n ∈ all_txts -> n <> merged -> is_Some (fs w1 !! n)) as Hin.
  { intros n Hn Hm. rewrite O1 by exact Hm. now apply Hsome. }
  assert (forall written w4,
            write_merged e merged all_txts EmptyString w1 = (Ok written, w4) ->
            merge_texts e input_dir_name w
            = (Ok tt, {| fs := <[merged := written]> (fs w4);
                         trace := EvLog (LogMerged merged) :: trace w4;
                         posts := posts w4 |})) as Hrun.
  { intros written w4 E. unfold merge_texts. rewrite <- Hall.
    assert (write_text merged EmptyString w = (Ok tt, w1)) as Ew by reflexivity.
    destruct all_txts as [| t ts]; [now destruct Hne |].
    fold merged. rewrite (bind_ok _ _ _ _ _ Ew), (bind_ok _ _ _ _ _ E). reflexivity. }
  destruct (decide (merged ∈ all_txts)) as [Hmem | Hnot].
  - apply list_elem_of_split in Hmem as (before & after & Hsplit).
    pose proof Hnodup as Hnd. rewrite Hsplit in Hnd.
    apply NoDup_app in Hnd as (_ & Hb & Hnd). apply NoDup_cons in Hnd as [Ha _].
    assert (merged ∉ before) as Hb' by (intros H; apply (Hb _ H); left).
    destruct (write_merged_self e merged before after w1 Hf Hb' Ha) as (w4 & E & O4 & T4 & P4).
    { cbn [w1 fs]. apply lookup_insert_eq. }
    { intros n Hn. apply Hin.
      - rewrite Hsplit. apply elem_of_app in Hn as [Hn | Hn]; apply elem_of_app;
          [now left | right; now right].
      - intros ->. apply elem_of_app in Hn as [Hn | Hn]; contradiction. }
    rewrite <- Hsplit in E. eexists. split; [exact (Hrun _ _ E) |].
    cbn [fs trace posts]. rewrite T4, P4.
    assert (forall l, merged ∉ l -> pieces (fs w1) l = pieces (fs w) l) as Hp.
    { intros l Hl. apply pieces_ext. intros n Hn. apply O1. intros ->. contradiction. }
    split; [| split; [| split; [| split]]]; try reflexivity.
    + intros n Hn. rewrite lookup_insert_ne by congruence. rewrite O4 by exact Hn. now apply O1.
    + intros Hnot. destruct Hnot. rewrite Hsplit. apply elem_of_app. right. left.
    + intros before' after' Hsplit'.
      assert (before' = before /\ after' = after) as [-> ->].
      { rewrite Hsplit in Hsplit'. rewrite Hsplit in Hnodup.
        now apply (split_at_unique _ _ _ _ _ Hnodup) in Hsplit'. }
      rewrite lookup_insert_eq, !Hp by assumption. reflexivity.
  - destruct (write_merged_others e merged all_txts EmptyString w1 Hnot) as (w4 & E & O4 & T4 & P4 & _ & _).
    { intros n Hn. apply Hin; [exact Hn |]. intros ->. contradiction. }
    eexists. split; [exact (Hrun _ _ E) |].
    cbn [fs trace posts]. rewrite T4, P4.
    split; [| split; [| split; [| split]]]; try reflexivity.
    + intros n Hn. rewrite lookup_insert_ne by congruence. rewrite O4 by exact Hn. now apply O1.
    + intros _. rewrite lookup_insert_eq. f_equal.
      change (EmptyString +:+ ?x) with x. apply pieces_ext.
      intros n Hn. apply O1. intros ->. contradiction.
    + intros before after Hsplit. destruct Hnot. rewrite Hsplit. apply elem_of_app. right. left.
Qed.

End Merge.

(** ** The two passes over the images *)

Section Passes.
Import Eff LlmOcr.
Local Open Scope eff_scope.

Lemma extends_refl w : extends w w [].
Proof. split; [reflexivity | cbn; lia]. Qed.

Lemma posted_app h1 h2 : posted (h1 ++ h2) = posted h1 ++ posted h2.
Proof. unfold posted. apply omap_app. Qed.

Lemma extends_trans w1 w2 w3 h1 h2 :
  extends w1 w2 h1 -> extends w2 w3 h2 -> extends w1 w3 (h1 ++ h2).
Proof.
  intros [T1 P1] [T2 P2]. split.
  - now rewrite T2, T1, rev_app_distr, <- app_assoc.
  - rewrite P2, P1, posted_app, length_app. lia.
Qed.

Lemma extends_emit ev w : posted [ev] = [] -> extends w (snd (emit ev w)) [ev].
Proof.
  intros H. split; [reflexivity |]. rewrite H. cbn. lia.
Qed.

Lemma answered_nil e k : answered e k [].
Proof. intros i png H. discriminate. Qed.

Lemma answered_app e k l1 l2 :
  answered e k l1 -> answered e (k + length l1) l2 -> answered e k (l1 ++ l2).
Proof.
  intros H1 H2 i png Hi. apply lookup_app_Some in Hi as [Hi | [Hle Hi]]; [now apply H1 |].
  specialize (H2 _ _ Hi). now replace (k + i)%nat with (k + length l1 + (i - length l1))%nat by lia.
Qed.

(** A step that ends normally and sends nothing. *)
Lemma ends_quiet {A} e w hist (a : A) : posted hist = [] -> ends_at_request e w hist (Ok a).
Proof. intros H. cbn. rewrite H. apply answered_nil. Qed.

(** Two stretches of a run, one after the other. *)
Lemma ends_bind {A B} e (m : M A) (k : A -> M B) w r1 w1 h1 :
  m w = (r1, w1) -> extends w w1 h1 -> ends_at_request e w h1 r1 ->
  (forall a, r1 = Ok a ->
     exists r2 w2 h2, k a w1 = (r2, w2) /\ extends w1 w2 h2 /\ ends_at_request e w1 h2 r2) ->
  exists r w2 h, bind m k w = (r, w2) /\ extends w w2 h /\ ends_at_request e w h r.
Proof.
  intros E X R K. destruct r1 as [a | x].
  - destruct (K a eq_refl) as (r2 & w2 & h2 & E2 & X2 & R2).
    exists r2, w2, (h1 ++ h2). split; [rewrite (bind_ok _ _ _ _ _ E); exact E2 |].
    split; [now apply (extends_trans w w1 w2) |].
    destruct X as [_ P1]. cbn in R. destruct r2 as [b | y]; cbn in R2 |- *.
    + rewrite posted_app. apply answered_app; [exact R | now rewrite <- P1].
    + destruct R2 as (-> & before & png & -> & Hb & Hn). split; [reflexivity |].
      exists (h1 ++ before), png. split; [now rewrite app_assoc |].
      rewrite posted_app, length_app. split.
      * apply answered_app; [exact R | now rewrite <- P1].
      * now rewrite Nat.add_assoc, <- P1.
  - exists (Raise x), w1, h1. split; [now apply bind_raise |]. split; [exact X | exact R].
Qed.

(** One call of [perform_mistral_ocr] on a file that can be read, when the
    request is answered: with a key it sends one request and returns what
    [outcome_of] makes of the reply; without a key it sends nothing and
    returns [None]. *)
Lemma perform_run e png w :
  readable e png = true -> answers e (posts w) png = true ->
  exists w' hist,
    perform_mistral_ocr e png w
    = (Ok (if Py.truthy (MISTRAL_API_KEY e) then outcome_of (remote e (posts w) png) else None), w') /\
    fs w' = fs w /\ extends w w' hist /\
    posted hist = (if Py.truthy (MISTRAL_API_KEY e) then [png] else []).
Proof.
  intros Hr Ha.
  unfold perform_mistral_ocr, outcome_of. destruct (Py.truthy (MISTRAL_API_KEY e)); cbn [negb].
  - unfold bind at 1, encode_file. rewrite Hr. unfold bind at 1, post. rewrite Ha.
    destruct (status_code (remote e (posts w) png) =? 200).
    { eexists _, [EvPost png]. repeat split. cbn. lia. }
    destruct (status_code (remote e (posts w) png) =? 429).
    { eexists _, [EvPost png; EvLog (LogRateLimit png)]. repeat split. cbn. lia. }
    eexists _, [EvPost png; EvLog (LogApiError _)]. repeat split. cbn. lia.
  - eexists _, [EvLog LogNoKey]. repeat split. cbn. lia.
Qed.

(** One call on a file that can be read, whatever the service does: a
    request without an answer raises, and is the last thing done. *)
Lemma perform_ends e png w :
  readable e png = true ->
  exists r w' hist,
    perform_mistral_ocr e png w = (r, w') /\ extends w w' hist /\ ends_at_request e w hist r.
Proof.
  intros Hr. destruct (answers e (posts w) png) eqn:Ha.
  - destruct (perform_run e png w Hr Ha) as (w' & hist & E & _ & X & P).
    eexists _, w', hist. split; [exact E |]. split; [exact X |]. cbn. rewrite P.
    destruct (Py.truthy (MISTRAL_API_KEY e)); [| apply answered_nil].
    intros [| i] q Hi; [| discriminate]. injection Hi as <-. now rewrite Nat.add_0_r.
  - unfold perform_mistral_ocr. destruct (Py.truthy (MISTRAL_API_KEY e)); cbn [negb].
    + unfold bind at 1, encode_file. rewrite Hr. unfold bind at 1, post. rewrite Ha.
      eexists _, _, [EvPost png]. split; [reflexivity |].
      split; [split; [reflexivity | cbn; lia] |].
      split; [reflexivity |]. exists [], png. split; [reflexivity |].
      split; [apply answered_nil |]. cbn. now rewrite Nat.add_0_r.
    + eexists _, _, [EvLog LogNoKey]. split; [reflexivity |].
      split; [split; [reflexivity | cbn; lia] |]. apply answered_nil.
Qed.

Lemma write_text_run path text w :
  exists w',
    write_text path text w = (Ok tt, w') /\ extends w w' [EvWrite path].
Proof. eexists. split; [reflexivity |]. split; [reflexivity | cbn; lia]. Qed.

Lemma filter_ext_in {A} (P Q : A -> Prop) `{!forall x, Decision (P x), !forall x, Decision (Q x)}
    (l : list A) :
  (forall x, x ∈ l -> P x <-> Q x) -> filter P l = filter Q l.
Proof.
  induction l as [| a l IH]; intros Hext; [reflexivity |].
  rewrite !filter_cons.
  assert (filter P l = filter Q l) as -> by (apply IH; intros x Hx; apply Hext; now right).
  destruct (decide (P a)) as [Hp | Hp], (decide (Q a)) as [Hq | Hq]; try reflexivity.
  - destruct Hq. apply Hext; [left | exact Hp].
  - destruct Hp. apply Hext; [left | exact Hq].
Qed.

(** The first pass: every image is requested at most once, and the images
    put on the retry list are the requested ones whose reply was the rate
    limit.  Only the texts of the images are written.  With a key, and no two
    images sharing a text path, the images requested are those that had no
    text when the run began. *)
Lemma first_pass_run e png_files :
  (forall png, readable e png = true) -> (forall k png, answers e k png = true) ->
  forall txt_files retry_list w,
  exists w' hist txt_files' requested,
    first_pass e png_files txt_files retry_list w
    = (Ok (txt_files', retry_list ++ deferred e (posts w) requested), w') /\
    extends w w' hist /\ posted hist = requested /\
    sublist requested png_files /\
    (Py.truthy (MISTRAL_API_KEY e) = false -> requested = []) /\
    (forall p, p ∉ txt_path_of <$> png_files -> fs w' !! p = fs w !! p) /\
    (Py.truthy (MISTRAL_API_KEY e) = true -> NoDup (txt_path_of <$> png_files) ->
     requested = filter (fun png => fs w !! txt_path_of png = None) png_files).
Proof.
  intros Hr Ha.
  induction png_files as [| png rest IH]; intros txt_files retry_list w.
  - exists w, [], txt_files, []. cbn [first_pass deferred]. rewrite app_nil_r.
    repeat split; auto using extends_refl; try constructor.
  - cbn [first_pass]. unfold bind at 1, path_exists.
    destruct (bool_decide (is_Some (fs w !! txt_path_of png))) eqn:Hex.
    + apply bool_decide_eq_true in Hex.
      set (w1 := snd (logger (LogExists (txt_path_of png)) w)).
      destruct (IH txt_files retry_list w1)
        as (w' & hist & txts' & req & E & X & P & Sub & K & F & C).
      exists w', (EvLog (LogExists (txt_path_of png)) :: hist), txts', req.
      split; [exact E |]. split; [| split; [| split; [| split; [| split]]]].
      * apply (extends_trans w w1 w' [_] hist); [now apply extends_emit | exact X].
      * exact P.
      * now apply sublist_cons.
      * exact K.
      * intros p Hp. rewrite fmap_cons in Hp. apply not_elem_of_cons in Hp as [_ Hp].
        now rewrite F.
      * intros Key Hnd. rewrite fmap_cons in Hnd. apply NoDup_cons in Hnd as [_ Hnd].
        rewrite filter_cons_False by (intros Hn; rewrite Hn in Hex; now destruct Hex).
        now apply C.
    + apply bool_decide_eq_false in Hex.
      assert (fs w !! txt_path_of png = None) as Hnone.
      { destruct (fs w !! txt_path_of png) eqn:Hl; [| reflexivity]. destruct Hex. eauto. }
      destruct (perform_run e png w (Hr png) (Ha _ _)) as (w1 & h1 & E1 & F1 & X1 & P1).
      rewrite (bind_ok _ _ _ _ _ E1).
      remember (if Py.truthy (MISTRAL_API_KEY e) then outcome_of (remote e (posts w) png) else None)
        as text eqn:Htext.
      (* what the branch on [text] does *)
      assert (exists w2 h2 txts2,
                match text with
                | Some t =>
                    if String.eqb t RATE_LIMIT then ret (txt_files, retry_list ++ [png])
                    else if Py.truthy t then
                      write_text (txt_path_of png) t ;;
                      logger (LogSaved (txt_path_of png)) ;;
                      ret (txt_files ++ [txt_path_of png], retry_list)
                    else ret (txt_files, retry_list)
                | None => ret (txt_files, retry_list)
                end w1
                = (Ok (txts2, retry_list ++ (if is_rate_limited text then [png] else [])), w2) /\
                extends w1 w2 h2 /\ posted h2 = [] /\
                (forall p, p <> txt_path_of png -> fs w2 !! p = fs w1 !! p))
        as (w2 & h2 & txts2 & E2 & X2 & P2 & F2).
      { destruct text as [t |]; cbn [is_rate_limited].
        - destruct (String.eqb t RATE_LIMIT).
          + exists w1, [], txt_files. repeat split; auto using extends_refl.
          + destruct (Py.truthy t).
            * eexists _, [EvWrite (txt_path_of png); EvLog (LogSaved (txt_path_of png))], _.
              rewrite app_nil_r. split; [reflexivity |]. split; [split; [reflexivity | cbn; lia] |].
              split; [reflexivity |]. intros p Hp. cbn. now rewrite lookup_insert_ne.
            * exists w1, [], txt_files. rewrite app_nil_r. repeat split; auto using extends_refl.
        - exists w1, [], txt_files. rewrite app_nil_r. repeat split; auto using extends_refl. }
      rewrite (bind_ok _ _ _ _ _ E2). cbn [fst snd].
      set (w3 := snd (sleep (2 # 10) w2)).
      assert (forall p, p <> txt_path_of png -> fs w3 !! p = fs w !! p) as F3.
      { intros p Hp. change (fs w3) with (fs w2). rewrite F2 by exact Hp. now rewrite F1. }
      destruct (IH txts2 (retry_list ++ (if is_rate_limited text then [png] else [])) w3)
        as (w' & hist & txts' & req & E & X & P & Sub & K & F & C).
      assert (extends w w3 (h1 ++ h2 ++ [EvSleep (2 # 10)])) as X3.
      { eapply extends_trans; [exact X1 |]. eapply extends_trans; [exact X2 |].
        now apply extends_emit. }
      assert (posts w3 = (posts w + length (posted h1))%nat) as Hposts.
      { destruct X3 as [_ X3]. rewrite X3, !posted_app, P2, !length_app. cbn. lia. }
      assert ((sleep (2 # 10) ;;
               first_pass e rest txts2
                 (retry_list ++ (if is_rate_limited text then [png] else []))) w2
              = (Ok (txts', (retry_list ++ (if is_rate_limited text then [png] else []))
                            ++ deferred e (posts w3) req), w')) as E'
        by exact E.
      rewrite E'. clear E E'.
      assert (forall p, p ∉ txt_path_of <$> png :: rest -> fs w' !! p = fs w !! p) as F'.
      { intros p Hp. rewrite fmap_cons in Hp. apply not_elem_of_cons in Hp as [Hp1 Hp2].
        rewrite F by exact Hp2. now apply F3. }
      destruct (Py.truthy (MISTRAL_API_KEY e)) eqn:Key.
      * exists w', ((h1 ++ h2 ++ [EvSleep (2 # 10)]) ++ hist), txts', (png :: req).
        split; [| split; [| split; [| split; [| split; [| split]]]]].
        -- cbn [deferred]. rewrite <- Htext, Hposts, P1. cbn [length].
           replace (posts w + 1)%nat with (S (posts w)) by lia. now rewrite <- app_assoc.
        -- eapply extends_trans; [exact X3 | exact X].
        -- rewrite !posted_app, P1, P2, P. reflexivity.
        -- now apply sublist_skip.
        -- discriminate.
        -- exact F'.
        -- intros _ Hnd. rewrite fmap_cons in Hnd. apply NoDup_cons in Hnd as [Hfresh Hnd].
           rewrite filter_cons_True by exact Hnone. f_equal.
           rewrite (C eq_refl Hnd). apply filter_ext_in. intros q Hq.
           rewrite F3; [reflexivity |]. intros Heq. apply Hfresh.
           rewrite <- Heq. now apply list_elem_of_fmap_2.
      * exists w', ((h1 ++ h2 ++ [EvSleep (2 # 10)]) ++ hist), txts', [].
        specialize (K eq_refl).
        split; [| split; [| split; [| split; [| split; [| split]]]]].
        -- rewrite K, Htext. cbn [is_rate_limited deferred]. now rewrite !app_nil_r.
        -- eapply extends_trans; [exact X3 | exact X].
        -- rewrite !posted_app, P1, P2, P, K. reflexivity.
        -- apply sublist_nil_l.
        -- reflexivity.
        -- exact F'.
        -- discriminate.
Qed.

(** The retry pass: one request for each deferred image, in order, whatever
    the earlier retries gave; a retry without a usable text is logged as
    failed for its image and the pass goes on. *)
Lemma retry_pass_run e :
  Py.truthy (MISTRAL_API_KEY e) = true ->
  (forall png, readable e png = true) -> (forall k png, answers e k png = true) ->
  forall retry_list txt_files w,
  exists w' hist txt_files',
    retry_pass e retry_list txt_files w = (Ok txt_files', w') /\
    extends w w' hist /\ posted hist = retry_list /\
    (forall (k : nat) png,
       retry_list !! k = Some png ->
       if is_text (outcome_of (remote e (posts w + k) png))
       then EvWrite (txt_path_of png) ∈ hist /\ EvLog (LogRetryOk (txt_path_of png)) ∈ hist
       else EvLog (LogRetryFailed png) ∈ hist).
Proof.
  intros Key Hr Ha. induction retry_list as [| png rest IH]; intros txt_files w.
  - exists w, [], txt_files. repeat split; auto using extends_refl.
    intros k q Hk. discriminate.
  - cbn [retry_pass].
    destruct (perform_run e png w (Hr png) (Ha _ _)) as (w1 & h1 & E1 & F1 & X1 & P1).
    rewrite Key in E1, P1. rewrite (bind_ok _ _ _ _ _ E1).
    set (text := outcome_of (remote e (posts w) png)) in *.
    assert (exists w2 h2 txts2,
              match text with
              | Some t =>
                  if Py.truthy t && negb (String.eqb t RATE_LIMIT) then
                    write_text (txt_path_of png) t ;;
                    logger (LogRetryOk (txt_path_of png)) ;;
                    ret (txt_files ++ [txt_path_of png])
                  else logger (LogRetryFailed png) ;; ret txt_files
              | None => logger (LogRetryFailed png) ;; ret txt_files
              end w1 = (Ok txts2, w2) /\
              extends w1 w2 h2 /\ posted h2 = [] /\
              (if is_text text
               then EvWrite (txt_path_of png) ∈ h2 /\ EvLog (LogRetryOk (txt_path_of png)) ∈ h2
               else EvLog (LogRetryFailed png) ∈ h2)) as (w2 & h2 & txts2 & E2 & X2 & P2 & R2).
    { destruct text as [t |]; cbn [is_text].
      - destruct (Py.truthy t && negb (String.eqb t RATE_LIMIT)).
        + eexists _, [EvWrite (txt_path_of png); EvLog (LogRetryOk (txt_path_of png))], _.
          split; [reflexivity |]. split; [split; [reflexivity | cbn; lia] |].
          split; [reflexivity |]. split; [left | right; left].
        + eexists _, [EvLog (LogRetryFailed png)], _.
          split; [reflexivity |]. split; [split; [reflexivity | cbn; lia] |].
          split; [reflexivity | left].
      - eexists _, [EvLog (LogRetryFailed png)], _.
        split; [reflexivity |]. split; [split; [reflexivity | cbn; lia] |].
        split; [reflexivity | left]. }
    rewrite (bind_ok _ _ _ _ _ E2).
    destruct (IH txts2 w2) as (w' & hist & txts' & E & X & P & R).
    assert (posts w2 = S (posts w)) as Hposts.
    { destruct X1 as [_ X1]. destruct X2 as [_ X2]. rewrite X2, X1, P1, P2. cbn. lia. }
    exists w', (h1 ++ h2 ++ hist), txts'. split; [exact E |]. split; [| split].
    + eapply extends_trans; [exact X1 |]. eapply extends_trans; [exact X2 | exact X].
    + now rewrite !posted_app, P1, P2, P.
    + intros [| k] q Hk.
      * cbn in Hk. injection Hk as <-. rewrite Nat.add_0_r. fold text.
        destruct (is_text text).
        -- destruct R2 as [R2 R3]. split; apply elem_of_app; right; apply elem_of_app; now left.
        -- apply elem_of_app; right; apply elem_of_app; now left.
      * cbn in Hk. specialize (R k q Hk). rewrite Hposts in R.
        replace (posts w + S k)%nat with (S (posts w) + k)%nat by lia.
        destruct (is_text (outcome_of (remote e (S (posts w) + k) q))).
        -- destruct R as [R R']. split; apply elem_of_app; right; apply elem_of_app; now right.
        -- apply elem_of_app; right; apply elem_of_app; now right.
Qed.

Lemma write_merged_total e merged names : forall written w,
  (forall n, n ∈ names -> is_Some (fs w !! n)) ->
  exists written' w',
    write_merged e merged names written w = (Ok written', w') /\
    trace w' = trace w /\ posts w' = posts w.
Proof.
  induction names as [| n names IH]; intros written w Hin.
  - now exists written, w.
  - destruct (Hin n ltac:(left)) as [text Ht].
    cbn [write_merged]. unfold bind at 1, read_text. rewrite Ht.
    unfold bind at 1, store.
    match goal with |- context [write_merged _ _ _ ?wr ?w1] =>
      destruct (IH wr w1) as (written' & w' & E & T & P) end.
    { intros m Hm. cbn [fs]. apply lookup_insert_is_Some'. right. apply Hin. now right. }
    exists written', w'. now rewrite E.
Qed.

Lemma merge_texts_total e input_dir_name w :
  exists w' hist,
    merge_texts e input_dir_name w = (Ok tt, w') /\ extends w w' hist /\ posted hist = [].
Proof.
  unfold merge_texts.
  pose proof (fun n => proj1 (glob_txt_spec (fs w) n)) as Hin.
  destruct (glob_txt_sorted (fs w)) as [| t ts].
  - exists w, []. repeat split; auto using extends_refl.
  - set (merged := input_dir_name +:+ "_merged.txt").
    set (w1 := {| fs := <[merged := EmptyString]> (fs w);
                  trace := EvWrite merged :: trace w; posts := posts w |}).
    assert (write_text merged EmptyString w = (Ok tt, w1)) as Ew by reflexivity.
    destruct (write_merged_total e merged (t :: ts) EmptyString w1) as (written & w2 & E & T & P).
    { intros n Hn. cbn [w1 fs]. apply lookup_insert_is_Some'. right. now apply Hin. }
    rewrite (bind_ok _ _ _ _ _ Ew), (bind_ok _ _ _ _ _ E).
    eexists _, [EvWrite merged; EvLog (LogMerged merged)].
    split; [reflexivity |]. split; [| reflexivity].
    split; cbn [trace posts store logger emit bind snd fst]; [now rewrite T | rewrite P; cbn; lia].
Qed.

(** What the first pass does with the result of a request. *)
Lemma first_branch_run png (text : option string) (txt_files retry_list : list string) w1 :
  exists w2 h2 lists,
    match text with
    | Some t =>
        if String.eqb t RATE_LIMIT then ret (txt_files, retry_list ++ [png])
        else if Py.truthy t then
          write_text (txt_path_of png) t ;;
          logger (LogSaved (txt_path_of png)) ;;
          ret (txt_files ++ [txt_path_of png], retry_list)
        else ret (txt_files, retry_list)
    | None => ret (txt_files, retry_list)
    end w1 = (Ok lists, w2) /\ extends w1 w2 h2 /\ posted h2 = [].
Proof.
  destruct text as [t |]; [destruct (String.eqb t RATE_LIMIT); [| destruct (Py.truthy t)] |];
    first [ eexists w1, [], _; split; [reflexivity |]; split; [apply extends_refl | reflexivity]
          | eexists _, [EvWrite _; EvLog _], _; split; [reflexivity |];
            split; [split; [reflexivity | cbn; lia] | reflexivity] ].
Qed.

(** What the retry pass does with the result of a request. *)
Lemma retry_branch_run png (text : option string) (txt_files : list string) w1 :
  exists w2 h2 txts2,
    match text with
    | Some t =>
        if Py.truthy t && negb (String.eqb t RATE_LIMIT) then
          write_text (txt_path_of png) t ;;
          logger (LogRetryOk (txt_path_of png)) ;;
          ret (txt_files ++ [txt_path_of png])
        else logger (LogRetryFailed png) ;; ret txt_files
    | None => logger (LogRetryFailed png) ;; ret txt_files
    end w1 = (Ok txts2, w2) /\ extends w1 w2 h2 /\ posted h2 = [].
Proof.
  destruct text as [t |]; [destruct (Py.truthy t && negb (String.eqb t RATE_LIMIT)) |];
    first [ eexists _, [EvWrite _; EvLog _], _; split; [reflexivity |];
            split; [split; [reflexivity | cbn; lia] | reflexivity]
          | eexists _, [EvLog _], _; split; [reflexivity |];
            split; [split; [reflexivity | cbn; lia] | reflexivity] ].
Qed.

(** The first pass, whatever the service does. *)
Lemma first_pass_ends e png_files :
  (forall png, readable e png = true) ->
  forall txt_files retry_list w,
  exists r w' hist,
    first_pass e png_files txt_files retry_list w = (r, w') /\
    extends w w' hist /\ ends_at_request e w hist r.
Proof.
  intros Hr. induction png_files as [| png rest IH]; intros txt_files retry_list w.
  - eexists _, w, []. split; [reflexivity |]. split; [apply extends_refl | apply answered_nil].
  - cbn [first_pass]. unfold bind at 1, path_exists.
    destruct (bool_decide (is_Some (fs w !! txt_path_of png))).
    + apply (ends_bind e _ _ w (Ok tt) (snd (logger (LogExists (txt_path_of png)) w))
               [EvLog (LogExists (txt_path_of png))]);
        [reflexivity | now apply extends_emit | now apply ends_quiet |].
      intros _ _. apply IH.
    + destruct (perform_ends e png w (Hr png)) as (r1 & w1 & h1 & E1 & X1 & R1).
      eapply ends_bind; [exact E1 | exact X1 | exact R1 |]. intros text _.
      destruct (first_branch_run png text txt_files retry_list w1)
        as (w2 & h2 & lists & E2 & X2 & P2).
      eapply ends_bind; [exact E2 | exact X2 | now apply ends_quiet |]. intros a [= <-].
      apply (ends_bind e _ _ w2 (Ok tt) (snd (sleep (2 # 10) w2)) [EvSleep (2 # 10)]);
        [reflexivity | now apply extends_emit | now apply ends_quiet |].
      intros _ _. apply IH.
Qed.

(** The retry pass, whatever the service does. *)
Lemma retry_pass_ends e retry_list :
  (forall png, readable e png = true) ->
  forall txt_files w,
  exists r w' hist,
    retry_pass e retry_list txt_files w = (r, w') /\
    extends w w' hist /\ ends_at_request e w hist r.
Proof.
  intros Hr. induction retry_list as [| png rest IH]; intros txt_files w.
  - eexists _, w, []. split; [reflexivity |]. split; [apply extends_refl | apply answered_nil].
  - cbn [retry_pass].
    destruct (perform_ends e png w (Hr png)) as (r1 & w1 & h1 & E1 & X1 & R1).
    eapply ends_bind; [exact E1 | exact X1 | exact R1 |]. intros text _.
    destruct (retry_branch_run png text txt_files w1) as (w2 & h2 & txts2 & E2 & X2 & P2).
    eapply ends_bind; [exact E2 | exact X2 | now apply ends_quiet |]. intros a [= <-].
    apply IH.
Qed.

(** A run over a directory, whatever the service does: it ends normally,
    or it raises at a request that got no answer and does nothing after
    it. *)
Lemma main_ends e input_dir_name png_files merge w :
  (forall png, readable e png = true) ->
  exists r w' hist,
    LlmOcr.main e input_dir_name png_files merge w = (r, w') /\
    extends w w' hist /\ ends_at_request e w hist r.
Proof.
  intros Hr. unfold LlmOcr.main.
  destruct (first_pass_ends e png_files Hr [] [] w) as (r1 & w1 & h1 & E1 & X1 & R1).
  eapply ends_bind; [exact E1 | exact X1 | exact R1 |].
  intros [txt_files retry_list] _. cbv beta iota.
  assert (exists r2 w2 h2,
            match retry_list with
            | [] => ret txt_files
            | _ =>
                logger (LogRetryAnnounce (length retry_list)) ;;
                sleep 3 ;;
                retry_pass e retry_list txt_files
            end w1 = (r2, w2) /\ extends w1 w2 h2 /\ ends_at_request e w1 h2 r2)
    as (r2 & w2 & h2 & E2 & X2 & R2).
  { destruct retry_list as [| d ds].
    - eexists _, w1, []. split; [reflexivity |].
      split; [apply extends_refl | apply answered_nil].
    - set (l := d :: ds).
      apply (ends_bind e _ _ w1 (Ok tt) (snd (logger (LogRetryAnnounce (length l)) w1))
               [EvLog (LogRetryAnnounce (length l))]);
        [reflexivity | now apply extends_emit | now apply ends_quiet |].
      intros _ _.
      match goal with |- context [bind (sleep 3) _ ?w0] =>
        apply (ends_bind e _ _ w0 (Ok tt) (snd (sleep 3 w0)) [EvSleep 3]);
          [reflexivity | now apply extends_emit | now apply ends_quiet |] end.
      intros _ _. now apply retry_pass_ends. }
  eapply ends_bind; [exact E2 | exact X2 | exact R2 |]. intros txts _.
  destruct merge.
  - destruct (merge_texts_total e input_dir_name w2) as (w3 & rest & E3 & X3 & P3).
    eexists _, w3, rest. split; [exact E3 |]. split; [exact X3 | now apply ends_quiet].
  - eexists _, w2, []. split; [reflexivity |].
    split; [apply extends_refl | apply answered_nil].
Qed.

End Passes.

(** A run in which every image can be read and every request is answered. *)
Lemma main_answered
    (e : LlmOcr.env) (input_dir_name : string) (png_files : list string) (merge : bool)
    (w : LlmOcr.world) :
  (forall png, LlmOcr.readable e png = true) ->
  (forall k png, LlmOcr.answers e k png = true) ->
  exists w' first retry rest requested,
    LlmOcr.main e input_dir_name png_files merge w = (Eff.Ok tt, w') /\
    LlmOcr.history w' = LlmOcr.history w ++ first ++ retry ++ rest /\
    LlmOcr.posted first = requested /\ sublist requested png_files /\
    (Py.truthy (LlmOcr.MISTRAL_API_KEY e) = true ->
     NoDup (LlmOcr.txt_path_of <$> png_files) ->
     requested
     = filter (fun png => LlmOcr.fs w !! LlmOcr.txt_path_of png = None) png_files) /\
    LlmOcr.posted retry = LlmOcr.deferred e (LlmOcr.posts w) requested /\
    LlmOcr.posted rest = [] /\
    (LlmOcr.deferred e (LlmOcr.posts w) requested = [] -> retry = []) /\
    (LlmOcr.deferred e (LlmOcr.posts w) requested <> [] ->
     exists tail,
       retry = LlmOcr.EvLog (LlmOcr.LogRetryAnnounce
                               (length (LlmOcr.deferred e (LlmOcr.posts w) requested)))
               :: LlmOcr.EvSleep 3 :: tail) /\
    (forall (k : nat) png,
       LlmOcr.deferred e (LlmOcr.posts w) requested !! k = Some png ->
       if LlmOcr.is_text
            (LlmOcr.outcome_of
               (LlmOcr.remote e (LlmOcr.posts w + length requested + k) png))
       then LlmOcr.EvWrite (LlmOcr.txt_path_of png) ∈ retry /\
            LlmOcr.EvLog (LlmOcr.LogRetryOk (LlmOcr.txt_path_of png)) ∈ retry
       else LlmOcr.EvLog (LlmOcr.LogRetryFailed png) ∈ retry).
Proof.
  intros Hr Ha.
  destruct (first_pass_run e png_files Hr Ha [] [] w)
    as (w1 & first & txts1 & requested & E1 & X1 & P1 & Sub & K & _ & C).
  cbn [app] in E1.
  remember (LlmOcr.deferred e (LlmOcr.posts w) requested) as deferred eqn:Hdef.
  assert (LlmOcr.posts w1 = (LlmOcr.posts w + length requested)%nat) as Hposts.
  { destruct X1 as [_ X1]. now rewrite X1, P1. }
  (* the retry pass *)
  assert (exists w2 retry txts2,
            match deferred with
            | [] => Eff.ret txts1
            | _ =>
                Eff.bind (LlmOcr.logger (LlmOcr.LogRetryAnnounce (length deferred)))
                  (fun _ => Eff.bind (LlmOcr.sleep 3)
                     (fun _ => LlmOcr.retry_pass e deferred txts1))
            end w1 = (Eff.Ok txts2, w2) /\
            LlmOcr.extends w1 w2 retry /\ LlmOcr.posted retry = deferred /\
            (deferred = [] -> retry = []) /\
            (deferred <> [] ->
             exists tail,
               retry = LlmOcr.EvLog (LlmOcr.LogRetryAnnounce (length deferred))
                       :: LlmOcr.EvSleep 3 :: tail) /\
            (forall (k : nat) png,
               deferred !! k = Some png ->
               if LlmOcr.is_text
                    (LlmOcr.outcome_of
                       (LlmOcr.remote e (LlmOcr.posts w + length requested + k) png))
               then LlmOcr.EvWrite (LlmOcr.txt_path_of png) ∈ retry /\
                    LlmOcr.EvLog (LlmOcr.LogRetryOk (LlmOcr.txt_path_of png)) ∈ retry
               else LlmOcr.EvLog (LlmOcr.LogRetryFailed png) ∈ retry))
    as (w2 & retry & txts2 & E2 & X2 & P2 & N2 & A2 & R2).
  { destruct deferred as [| d ds].
    - exists w1, [], txts1. repeat split; auto using extends_refl.
      + intros H. now destruct H.
      + intros k q Hk. discriminate.
    - assert (Py.truthy (LlmOcr.MISTRAL_API_KEY e) = true) as Key.
      { destruct (Py.truthy (LlmOcr.MISTRAL_API_KEY e)); [reflexivity |].
        rewrite (K eq_refl) in Hdef. discriminate. }
      set (w1' := snd (LlmOcr.sleep 3
                         (snd (LlmOcr.logger (LlmOcr.LogRetryAnnounce (length (d :: ds))) w1)))).
      destruct (retry_pass_run e Key Hr Ha (d :: ds) txts1 w1') as (w2 & hist & txts2 & E & X & P & R).
      exists w2, (LlmOcr.EvLog (LlmOcr.LogRetryAnnounce (length (d :: ds)))
                  :: LlmOcr.EvSleep 3 :: hist), txts2.
      split; [exact E |]. split; [| split; [| split; [| split]]].
      + apply (extends_trans w1 w1' w2 [_; _] hist); [| exact X].
        split; [reflexivity | cbn; lia].
      + exact P.
      + discriminate.
      + intros _. now exists hist.
      + intros k q Hk. specialize (R k q Hk).
        change (LlmOcr.posts w1') with (LlmOcr.posts w1) in R. rewrite Hposts in R.
        destruct (LlmOcr.is_text _).
        * destruct R as [R R']. split; right; right; assumption.
        * right; right; assumption. }
  (* the merge *)
  assert (exists w3 rest,
            (if merge then LlmOcr.merge_texts e input_dir_name else Eff.ret tt) w2
            = (Eff.Ok tt, w3) /\
            LlmOcr.extends w2 w3 rest /\ LlmOcr.posted rest = [])
    as (w3 & rest & E3 & X3 & P3).
  { destruct merge; [apply merge_texts_total |].
    exists w2, []. repeat split; auto using extends_refl. }
  exists w3, first, retry, rest, requested. rewrite <- Hdef.
  split; [| split; [| repeat split; auto]].
  - unfold LlmOcr.main. rewrite (bind_ok _ _ _ _ _ E1). cbv iota beta.
    rewrite (bind_ok _ _ _ _ _ E2). exact E3.
  - unfold LlmOcr.history.
    destruct X1 as [T1 _]. destruct X2 as [T2 _]. destruct X3 as [T3 _].
    rewrite T3, T2, T1, !rev_app_distr, !rev_involutive, <- !app_assoc. reflexivity.
Qed.

(** C9 as amended.  When every request is answered: the first pass
    requests, with the API key set, exactly the images whose text file does
    not exist yet.  Of the images requested in the first pass, exactly
    those whose reply was the rate limit are requested again, once each and
    in the same order, after the announcement and the back-off sleep of 3
    seconds; the images that succeeded or failed otherwise, and those passed
    over because their text exists, are not requested again.  A retry that
    is answered without a usable text is logged as failed for its image; the
    pass still goes on to the remaining images and the run ends normally.
    A request that is not answered is another matter: neither pass catches
    what it raises, so the run ends there, with the request as the last thing
    it did; the images after it are not requested, no failure is logged and
    nothing is merged. *)
Theorem C9_rate_limited_retried_once
    (e : LlmOcr.env) (input_dir_name : string) (png_files : list string) (merge : bool)
    (w : LlmOcr.world) :
  (forall png, LlmOcr.readable e png = true) ->
  ((forall k png, LlmOcr.answers e k png = true) ->
   exists w' first retry rest requested,
     LlmOcr.main e input_dir_name png_files merge w = (Eff.Ok tt, w') /\
     LlmOcr.history w' = LlmOcr.history w ++ first ++ retry ++ rest /\
     LlmOcr.posted first = requested /\ sublist requested png_files /\
     (Py.truthy (LlmOcr.MISTRAL_API_KEY e) = true ->
      NoDup (LlmOcr.txt_path_of <$> png_files) ->
      requested
      = filter (fun png => LlmOcr.fs w !! LlmOcr.txt_path_of png = None) png_files) /\
     LlmOcr.posted retry = LlmOcr.deferred e (LlmOcr.posts w) requested /\
     LlmOcr.posted rest = [] /\
     (LlmOcr.deferred e (LlmOcr.posts w) requested = [] -> retry = []) /\
     (LlmOcr.deferred e (LlmOcr.posts w) requested <> [] ->
      exists tail,
        retry = LlmOcr.EvLog (LlmOcr.LogRetryAnnounce
                                (length (LlmOcr.deferred e (LlmOcr.posts w) requested)))
                :: LlmOcr.EvSleep 3 :: tail) /\
     (forall (k : nat) png,
        LlmOcr.deferred e (LlmOcr.posts w) requested !! k = Some png ->
        if LlmOcr.is_text
             (LlmOcr.outcome_of
                (LlmOcr.remote e (LlmOcr.posts w + length requested + k) png))
        then LlmOcr.EvWrite (LlmOcr.txt_path_of png) ∈ retry /\
             LlmOcr.EvLog (LlmOcr.LogRetryOk (LlmOcr.txt_path_of png)) ∈ retry
        else LlmOcr.EvLog (LlmOcr.LogRetryFailed png) ∈ retry)) /\
  (exists r w' hist,
     LlmOcr.main e input_dir_name png_files merge w = (r, w') /\
     LlmOcr.history w' = LlmOcr.history w ++ hist /\
     LlmOcr.ends_at_request e w hist r).
Proof.
  intros Hr. split.
  - intros Ha. exact (main_answered e input_dir_name png_files merge w Hr Ha).
  - destruct (main_ends e input_dir_name png_files merge w Hr) as (r & w' & hist & E & [T _] & R).
    exists r, w', hist. split; [exact E |]. split; [| exact R].
    unfold LlmOcr.history. now rewrite T, rev_app_distr, rev_involutive.
Qed.

Lemma C9_rate_limited_retried_once_witness :
  exists w',
    LlmOcr.main LlmOcr.demo_env "d" ["a.png"; "b.png"; "c.png"; "e.png"]%string false
                (LlmOcr.initial ∅) = (Eff.Ok tt, w') /\
    LlmOcr.posted (LlmOcr.history w') = ["a.png"; "b.png"; "c.png"; "e.png"; "b.png"]%string.
Proof.
  destruct (C9_rate_limited_retried_once LlmOcr.demo_env "d"
              ["a.png"; "b.png"; "c.png"; "e.png"]%string false (LlmOcr.initial ∅)
              (fun _ => eq_refl)) as [H _].
  destruct (H (fun _ _ => eq_refl)) as (w' & first & retry & rest & requested & E & _).
  exists w'. split; [exact E |].
  vm_compute in E. injection E as <-. vm_compute. reflexivity.
Defined.

(** The claim as stated fails.  Of three images the second and the third
    are rate limited in the first pass, so both are deferred.  The retry of
    the second gets no answer: the run raises there.  The third image is
    never requested again, no failure is logged for either, and the merge
    that was asked for does not take place although a text was saved. *)
Lemma C9_counterexample :
  let run := LlmOcr.main LlmOcr.failing_env "d" ["a.png"; "b.png"; "c.png"]%string true
               (LlmOcr.initial ∅) in
  LlmOcr.deferred LlmOcr.failing_env 0 ["a.png"; "b.png"; "c.png"]%string
  = ["b.png"; "c.png"]%string /\
  fst run = Eff.Raise LlmOcr.RequestError /\
  LlmOcr.posted (LlmOcr.history (snd run)) = ["a.png"; "b.png"; "c.png"; "b.png"]%string /\
  List.filter (fun ev => match ev with
                         | LlmOcr.EvLog (LlmOcr.LogRetryFailed _) => true
                         | _ => false
                         end) (LlmOcr.history (snd run)) = [] /\
  LlmOcr.fs (snd run) !! "a.txt"%string = Some "text of a.png"%string /\
  LlmOcr.fs (snd run) !! "d_merged.txt"%string = None.
Proof. vm_compute. repeat split. Qed.


(** A run over four images: [b.png] is rate limited and is the only one
    requested again; [c.png], a server error, is not. *)
Example retry_example :
  let run := LlmOcr.main LlmOcr.demo_env "d" ["a.png"; "b.png"; "c.png"; "e.png"]%string
               false (LlmOcr.initial ∅) in
  fst run = Eff.Ok tt /\
  LlmOcr.posted (LlmOcr.history (snd run))
  = ["a.png"; "b.png"; "c.png"; "e.png"; "b.png"]%string.
Proof. vm_compute. split; reflexivity. Qed.

(** C10 as amended.  With the merge option the merged file is written from
    the [.txt] files of the output directory in the order of their names, a
    merged file left by an earlier run being one of them.  Every other file
    gives its text, stripped and followed by a blank line, and is left as it
    is.  The merged file was emptied when it was opened for writing, before
    anything was read, so its old text never enters the new file: in its
    place stands whatever part of the new text had reached the disk when it
    was read. *)
Theorem C10_merge_reads_truncated_file
    (e : LlmOcr.env) (input_dir_name : string) (w : LlmOcr.world) :
  (forall written, String.prefix (LlmOcr.flushed e written) written = true) ->
  let merged := (input_dir_name +:+ "_merged.txt")%string in
  let all_txts := LlmOcr.glob_txt_sorted (LlmOcr.fs w) in
  (forall n, n ∈ all_txts <->
             is_Some (LlmOcr.fs w !! n) /\ LlmOcr.ends_with ".txt" n = true) /\
  StronglySorted String.le all_txts /\ NoDup all_txts /\
  (is_Some (LlmOcr.fs w !! merged) -> merged ∈ all_txts) /\
  (all_txts <> [] ->
   exists w',
     LlmOcr.merge_texts e input_dir_name w = (Eff.Ok tt, w') /\
     (forall n, n <> merged -> LlmOcr.fs w' !! n = LlmOcr.fs w !! n) /\
     (merged ∉ all_txts ->
      LlmOcr.fs w' !! merged = Some (LlmOcr.pieces (LlmOcr.fs w) all_txts)) /\
     (forall before after,
        all_txts = before ++ merged :: after ->
        (merged ∉ before) /\ (merged ∉ after) /\
        LlmOcr.fs w' !! merged
        = Some (LlmOcr.pieces (LlmOcr.fs w) before
                +:+ (Py.strip (LlmOcr.flushed e (LlmOcr.pieces (LlmOcr.fs w) before))
                     +:+ LlmOcr.blank_line)
                +:+ LlmOcr.pieces (LlmOcr.fs w) after))).
Proof.
  intros Hprefix merged all_txts.
  assert (LlmOcr.flushed e EmptyString = EmptyString) as Hf
    by (apply prefix_of_empty, Hprefix).
  split; [| split; [| split; [| split]]].
  - intros n. apply glob_txt_spec.
  - apply glob_txt_sorted_order.
  - apply glob_txt_NoDup.
  - intros Hm. apply glob_txt_spec. split; [exact Hm |]. now apply ends_with_app.
  - intros Hne.
    destruct (merge_texts_run e input_dir_name w Hf Hne) as (w' & E & O & _ & _ & N & S).
    exists w'. split; [exact E |]. split; [exact O |]. split; [exact N |].
    intros before after Hsplit.
    pose proof (glob_txt_NoDup (LlmOcr.fs w)) as Hnd. fold all_txts in Hnd.
    rewrite Hsplit in Hnd.
    apply NoDup_app in Hnd as (_ & Hb & Hnd). apply NoDup_cons in Hnd as [Ha _].
    split; [intros H; apply (Hb _ H); left |]. split; [exact Ha |].
    now apply S.
Qed.

Lemma C10_merge_reads_truncated_file_witness :
  let files : gmap string string :=
    <["a.txt"%string := "A"%string]> (<["d_merged.txt"%string := "OLD"%string]> ∅) in
  (forall written, String.prefix (LlmOcr.flushed LlmOcr.unbuffered_env written) written = true) /\
  LlmOcr.glob_txt_sorted files = ["a.txt"; "d_merged.txt"]%string /\
  exists w',
    LlmOcr.merge_texts LlmOcr.unbuffered_env "d" (LlmOcr.initial files) = (Eff.Ok tt, w') /\
    LlmOcr.fs w' !! "d_merged.txt"%string
    = Some (("A" +:+ LlmOcr.blank_line) +:+ ("A" +:+ LlmOcr.blank_line))%string.
Proof.
  intros files.
  assert (forall written,
            String.prefix (LlmOcr.flushed LlmOcr.unbuffered_env written) written = true) as Hp.
  { intros written. cbn. induction written as [| c s IH]; [reflexivity |].
    cbn. destruct (ascii_dec c c); [exact IH | contradiction]. }
  assert (LlmOcr.glob_txt_sorted files = ["a.txt"; "d_merged.txt"]%string) as Hall
    by (vm_compute; reflexivity).
  split; [exact Hp |]. split; [exact Hall |].
  destruct (C10_merge_reads_truncated_file LlmOcr.unbuffered_env "d" (LlmOcr.initial files) Hp)
    as (_ & _ & _ & _ & Hrun).
  destruct Hrun as (w' & E & _ & _ & Hself).
  { change (LlmOcr.fs (LlmOcr.initial files)) with files. rewrite Hall. discriminate. }
  exists w'. split; [exact E |].
  destruct (Hself ["a.txt"%string] [] Hall) as (_ & _ & Hc).
  change ("d" +:+ "_merged.txt")%string with "d_merged.txt"%string in Hc.
  rewrite Hc. vm_compute. reflexivity.
Defined.

(** The claim as stated fails.  The directory holds [a.txt] with the text
    [A] and a merged file from an earlier run with the text [OLD].  Built
    from the contents present at merge time, as the claim has it, the new
    merged file would hold [A], a blank line, [OLD], a blank line.  The run
    leaves [OLD] out, both when nothing reaches the disk before the file is
    closed and when every write does. *)
Lemma C10_counterexample :
  let files : gmap string string :=
    <["a.txt"%string := "A"%string]> (<["d_merged.txt"%string := "OLD"%string]> ∅) in
  let claimed := LlmOcr.pieces files (LlmOcr.glob_txt_sorted files) in
  let buffered := LlmOcr.main LlmOcr.demo_env "d" ["a.png"%string] true
                    (LlmOcr.initial files) in
  let unbuffered := LlmOcr.main LlmOcr.unbuffered_env "d" ["a.png"%string] true
                      (LlmOcr.initial files) in
  claimed = (("A" +:+ LlmOcr.blank_line) +:+ ("OLD" +:+ LlmOcr.blank_line))%string /\
  LlmOcr.fs (snd buffered) !! "d_merged.txt"%string
  = Some (("A" +:+ LlmOcr.blank_line) +:+ LlmOcr.blank_line)%string /\
  LlmOcr.fs (snd unbuffered) !! "d_merged.txt"%string
  = Some (("A" +:+ LlmOcr.blank_line) +:+ ("A" +:+ LlmOcr.blank_line))%string /\
  LlmOcr.fs (snd buffered) !! "d_merged.txt"%string <> Some claimed /\
  LlmOcr.fs (snd unbuffered) !! "d_merged.txt"%string <> Some claimed.
Proof. vm_compute. repeat split; discriminate. Qed.

(** * Further properties of the code *)

(** ** Decimal strings read back *)

Section ReadBack.
Import Py.

Lemma digit_not_space c : is_digit c = true -> is_space c = false.
Proof.
  unfold is_digit, is_space. intros H. apply andb_true_iff in H as [H1 H2].
  apply N.leb_le in H1, H2.
  repeat (apply orb_false_iff; split); try apply andb_false_iff.
  - right. apply N.leb_gt. lia.
  - right. apply N.leb_gt. lia.
  - apply N.eqb_neq. lia.
Qed.

(** A string whose first and last characters are not white space is left
    alone by [strip], also with white space around it. *)
Lemma lstrip_spaces a s : PyLib.all_space a = true -> lstrip (a +:+ s) = lstrip s.
Proof.
  induction a as [| c a IH]; [reflexivity |]. cbn [PyLib.all_space]. intros H.
  apply andb_true_iff in H as [Hc Ha]. rewrite app_String. cbn [lstrip]. rewrite Hc. auto.
Qed.

Lemma rstrip_all_space b : PyLib.all_space b = true -> rstrip b = EmptyString.
Proof.
  induction b as [| c b IH]; [reflexivity |]. cbn [PyLib.all_space]. intros H.
  apply andb_true_iff in H as [Hc Hb]. cbn [rstrip]. now rewrite IH, Hc.
Qed.

Lemma rstrip_spaces b s : PyLib.all_space b = true -> rstrip (s +:+ b) = rstrip s.
Proof.
  intros Hb. induction s as [| c s IH].
  - cbn [String.append]. now rewrite rstrip_all_space.
  - rewrite app_String. cbn [rstrip]. now rewrite IH.
Qed.

Lemma rstrip_digits s : all_digits s = true -> rstrip s = s.
Proof.
  induction s as [| c s IH]; [reflexivity |]. cbn [all_digits]. intros H.
  apply andb_true_iff in H as [Hc Hs]. cbn [rstrip]. rewrite (IH Hs).
  destruct s; [now rewrite (digit_not_space _ Hc) | reflexivity].
Qed.

Lemma int_digits_spec s : forall acc,
  all_digits s = true -> int_digits s acc true = Some (acc * 10 ^ len s + val s).
Proof.
  induction s as [| c s IH]; intros acc H.
  - cbn. f_equal. change (len EmptyString) with 0. lia.
  - cbn [all_digits] in H. apply andb_true_iff in H as [Hc Hs].
    cbn [int_digits val]. rewrite Hc, (IH _ Hs), len_String. f_equal.
    rewrite Z.pow_add_r by (pose proof (len_nonneg s); lia). lia.
Qed.

Lemma int_digits_first c s :
  all_digits (String c s) = true -> int_digits (String c s) 0 false = Some (val (String c s)).
Proof.
  cbn [all_digits]. intros H. apply andb_true_iff in H as [Hc Hs].
  cbn [int_digits val]. rewrite Hc, (int_digits_spec _ _ Hs). f_equal; lia.
Qed.

Lemma digit_not_int_space c : is_digit c = true -> is_int_space c = false.
Proof.
  unfold is_digit, is_int_space. intros H. apply andb_true_iff in H as [H1 H2].
  apply N.leb_le in H1, H2.
  apply orb_false_iff; split; [apply andb_false_iff |].
  - right. apply N.leb_gt. lia.
  - apply N.eqb_neq. lia.
Qed.

Lemma int_lstrip_spaces a s : PyLib.all_int_space a = true -> int_lstrip (a +:+ s) = int_lstrip s.
Proof.
  induction a as [| c a IH]; [reflexivity |]. cbn [PyLib.all_int_space]. intros H.
  apply andb_true_iff in H as [Hc Ha]. rewrite app_String. cbn [int_lstrip]. rewrite Hc. auto.
Qed.

Lemma int_rstrip_all_space b : PyLib.all_int_space b = true -> int_rstrip b = EmptyString.
Proof.
  induction b as [| c b IH]; [reflexivity |]. cbn [PyLib.all_int_space]. intros H.
  apply andb_true_iff in H as [Hc Hb]. cbn [int_rstrip]. now rewrite IH, Hc.
Qed.

Lemma int_rstrip_spaces b s : PyLib.all_int_space b = true -> int_rstrip (s +:+ b) = int_rstrip s.
Proof.
  intros Hb. induction s as [| c s IH].
  - cbn [String.append]. now rewrite int_rstrip_all_space.
  - rewrite app_String. cbn [int_rstrip]. now rewrite IH.
Qed.

Lemma int_rstrip_digits s : all_digits s = true -> int_rstrip s = s.
Proof.
  induction s as [| c s IH]; [reflexivity |]. cbn [all_digits]. intros H.
  apply andb_true_iff in H as [Hc Hs]. cbn [int_rstrip]. rewrite (IH Hs).
  destruct s; [now rewrite (digit_not_int_space _ Hc) | reflexivity].
Qed.

(** [int] of a digit string with white space around it. *)
Lemma int_of_digits a s b :
  PyLib.all_int_space a = true -> PyLib.all_int_space b = true ->
  all_digits s = true -> s <> EmptyString ->
  int (a +:+ s +:+ b) = Some (val s) /\
  int (a +:+ String "-" s +:+ b) = Some (- val s).
Proof.
  intros Ha Hb Hs Hne. destruct s as [| c s]; [now destruct Hne |].
  pose proof Hs as Hs'. cbn [all_digits] in Hs'. apply andb_true_iff in Hs' as [Hc _].
  pose proof (digit_not_int_space _ Hc) as Hsp.
  unfold int. rewrite !(int_lstrip_spaces a) by assumption.
  rewrite !app_String. cbn [int_lstrip]. rewrite Hsp. change (is_int_space "-") with false.
  cbv iota.
  rewrite <- !app_String, !(int_rstrip_spaces b) by assumption.
  change (int_rstrip (String "-" (String c s))) with
    (match int_rstrip (String c s) with
     | EmptyString => String "-" EmptyString
     | r' => String "-" r'
     end).
  rewrite (int_rstrip_digits _ Hs). split.
  - destruct (Ascii.eqb_spec c "-") as [-> | _]; [discriminate Hc |].
    destruct (Ascii.eqb_spec c "+") as [-> | _]; [discriminate Hc |].
    now apply int_digits_first.
  - change (Ascii.eqb "-" "-") with true. cbv iota.
    now rewrite (int_digits_first _ _ Hs).
Qed.

(** What [str] writes, [int] reads back, also with white space around it. *)
Lemma int_str a z b :
  PyLib.all_int_space a = true -> PyLib.all_int_space b = true ->
  int (a +:+ str z +:+ b) = Some z.
Proof.
  intros Ha Hb. unfold str. destruct (Z.ltb_spec z 0) as [Hneg | Hpos].
  - destruct (digits_spec (- z) ltac:(lia)) as (Hd & Hv & Hl & _).
    assert (digits (- z) <> EmptyString) as Hne.
    { intros E. rewrite E in Hl. change (len EmptyString) with 0 in Hl. lia. }
    destruct (int_of_digits a _ b Ha Hb Hd Hne) as [_ H]. rewrite H, Hv. f_equal. lia.
  - destruct (digits_spec z Hpos) as (Hd & Hv & Hl & _).
    assert (digits z <> EmptyString) as Hne.
    { intros E. rewrite E in Hl. change (len EmptyString) with 0 in Hl. lia. }
    destruct (int_of_digits a _ b Ha Hb Hd Hne) as [H _]. now rewrite H, Hv.
Qed.

End ReadBack.

Section Splitting.
Import Py.

Lemma contains_app c a b : contains c (a +:+ b) = contains c a || contains c b.
Proof.
  induction a as [| d a IH]; [reflexivity |].
  rewrite app_String. cbn [contains]. now rewrite IH, orb_assoc.
Qed.

Lemma split_no_sep sep s : contains sep s = false -> split sep s = [s].
Proof.
  induction s as [| c s IH]; [reflexivity |]. cbn [contains split]. intros H.
  apply orb_false_iff in H as [Hc Hs]. rewrite Ascii.eqb_sym, Hc, (IH Hs). reflexivity.
Qed.

Lemma split_app_sep sep a b :
  contains sep a = false -> split sep (a +:+ String sep b) = a :: split sep b.
Proof.
  induction a as [| c a IH]; intros H.
  - change (EmptyString +:+ String sep b) with (String sep b).
    cbn [split]. now rewrite Ascii.eqb_refl.
  - cbn [contains] in H. apply orb_false_iff in H as [Hc Ha].
    rewrite app_String. cbn [split]. rewrite Ascii.eqb_sym, Hc, (IH Ha). reflexivity.
Qed.

Lemma digits_contain c s : all_digits s = true -> is_digit c = false -> contains c s = false.
Proof.
  intros Hs Hc. induction s as [| d s IH]; [reflexivity |].
  cbn [all_digits] in Hs. apply andb_true_iff in Hs as [Hd Hs]. cbn [contains].
  rewrite (IH Hs), orb_false_r. destruct (Ascii.eqb_spec c d) as [-> | _]; congruence.
Qed.

(** [str] writes digits and the minus sign, nothing else. *)
Lemma str_contains c z : is_digit c = false -> c <> "-"%char -> contains c (str z) = false.
Proof.
  intros Hc Hm. unfold str. destruct (Z.ltb_spec z 0) as [Hneg | Hpos].
  - cbn [contains]. destruct (digits_spec (- z) ltac:(lia)) as (Hd & _).
    rewrite (digits_contain _ _ Hd Hc), orb_false_r. now apply Ascii.eqb_neq.
  - destruct (digits_spec z Hpos) as (Hd & _). now apply digits_contain.
Qed.

Lemma spaces_contain c a : PyLib.all_space a = true -> is_space c = false -> contains c a = false.
Proof.
  intros Ha Hc. induction a as [| d a IH]; [reflexivity |].
  cbn [PyLib.all_space] in Ha. apply andb_true_iff in Ha as [Hd Ha]. cbn [contains].
  rewrite (IH Ha), orb_false_r. destruct (Ascii.eqb_spec c d) as [-> | _]; congruence.
Qed.

Lemma int_spaces_contain c a :
  PyLib.all_int_space a = true -> is_int_space c = false -> contains c a = false.
Proof.
  intros Ha Hc. induction a as [| d a IH]; [reflexivity |].
  cbn [PyLib.all_int_space] in Ha. apply andb_true_iff in Ha as [Hd Ha]. cbn [contains].
  rewrite (IH Ha), orb_false_r. destruct (Ascii.eqb_spec c d) as [-> | _]; congruence.
Qed.

End Splitting.

(** X1.  A page-turn action written as two decimal integers with a comma
    between them, each with white space of the kind [int] passes over (tab,
    line feed, vertical tab, form feed, carriage return, blank) around it, is
    a click at exactly these coordinates, negative ones included: what [str]
    writes, the loop reads back. *)
Theorem X1_advance_clicks_where_written (x y : Z) (a b c d : string) (w : Shot.world) :
  PyLib.all_int_space a = true -> PyLib.all_int_space b = true ->
  PyLib.all_int_space c = true -> PyLib.all_int_space d = true ->
  Py.int (Py.str x) = Some x /\
  Shot.advance ((a +:+ Py.str x +:+ b) +:+ "," +:+ (c +:+ Py.str y +:+ d)) w
  = Shot.emit (Shot.EvClick x y) w.
Proof.
  intros Ha Hb Hc Hd. split.
  { rewrite <- (int_str EmptyString x EmptyString eq_refl eq_refl).
    change (EmptyString +:+ ?s) with s. now rewrite string_app_nil_r. }
  assert (forall p z q, PyLib.all_int_space p = true -> PyLib.all_int_space q = true ->
            Py.contains "," (p +:+ Py.str z +:+ q) = false) as Hno.
  { intros p z q Hp Hq. rewrite !contains_app.
    rewrite (int_spaces_contain "," _ Hp eq_refl), (int_spaces_contain "," _ Hq eq_refl).
    rewrite str_contains by (reflexivity || discriminate). reflexivity. }
  unfold Shot.advance.
  change ("," +:+ ?s)%string with (String "," s).
  rewrite contains_app. cbn [Py.contains]. change (Ascii.eqb "," ",") with true.
  rewrite orb_true_r. cbn [orb].
  rewrite split_app_sep by (now apply Hno).
  rewrite split_no_sep by (now apply Hno).
  cbn [fmap list_fmap]. now rewrite !int_str.
Qed.

Lemma X1_advance_clicks_where_written_witness :
  Shot.advance "300, -40" (Shot.initial ∅) = Shot.emit (Shot.EvClick 300 (-40)) (Shot.initial ∅).
Proof.
  exact (proj2 (X1_advance_clicks_where_written 300 (-40) "" "" " " "" (Shot.initial ∅)
                  eq_refl eq_refl eq_refl eq_refl)).
Defined.

(** ** Single captures *)

(** X2.  What one capture does to the files.  When the screenshot is
    taken the capture returns [True], and its first temporary file is gone
    afterwards, also when a file of this name was there before.  If the crop
    has a width and a height, the cropped screenshot is under the output
    path and the second temporary file is gone as well.  If the margins
    leave the crop without width or height, saving it fails inside
    [crop_left_third]: the failure is logged, no image is under the output
    path, the second temporary file stays behind with the screenshot in it,
    and the capture returns [True] all the same.  When the screenshot raises,
    the capture logs the failure and returns [False], and no file is
    written, changed or removed.  Either way every other file is as it was,
    and nothing is raised. *)
Theorem X2_capture_window_files
    (e : Shot.env) (x y width height : Z) (output : string) (mt mb ml mr : Z)
    (w : Shot.world) :
  Shot.pyautogui e = true ->
  let region := (x, y, width / 3, height) in
  let tmp := (output +:+ ".tmp.png")%string in
  let cvtmp := (output +:+ ".cvtmp.png")%string in
  exists b w',
    Shot.capture_window e x y width height output mt mb ml mr w = (Eff.Ok b, w') /\
    (forall shot,
       Shot.grab e (Shot.grabs w) region = Some shot ->
       b = true /\ Shot.fs w' !! tmp = None /\
       (Shot.crop_saved shot mt mb ml mr = true ->
        Shot.fs w' !! output = Some (Shot.cropped_image shot mt mb ml mr) /\
        Shot.fs w' !! cvtmp = None /\
        Shot.trace w' = Shot.EvScreenshot region :: Shot.trace w) /\
       (Shot.crop_saved shot mt mb ml mr = false ->
        Shot.fs w' !! output = None /\
        Shot.fs w' !! cvtmp = Some shot /\
        Shot.trace w' = Shot.EvLogError "Cropping failed"
                        :: Shot.EvScreenshot region :: Shot.trace w)) /\
    (Shot.grab e (Shot.grabs w) region = None ->
       b = false /\ Shot.fs w' = Shot.fs w /\
       Shot.trace w' = Shot.EvLogError "Capture failed"
                       :: Shot.EvScreenshot region :: Shot.trace w) /\
    (forall p, p <> output -> p <> tmp -> p <> cvtmp -> Shot.fs w' !! p = Shot.fs w !! p).
Proof.
  intros Hpy region tmp cvtmp. subst region tmp cvtmp.
  destruct (temp_paths_differ output) as (N1 & N2 & N3).
  rewrite (capture_window_exact _ _ _ _ _ _ _ _ _ _ _ Hpy).
  destruct (Shot.grab e (Shot.grabs w) (x, y, width / 3, height)) as [shot |].
  - destruct (Shot.crop_saved shot mt mb ml mr) eqn:Hs.
    + eexists _, _. split; [reflexivity |]. cbn [Shot.fs Shot.trace].
      split; [| split; [discriminate |]].
      * intros shot' [= <-]. rewrite Hs. split; [reflexivity |].
        rewrite !lookup_insert_ne by congruence. rewrite lookup_delete_eq.
        split; [reflexivity |]. split; [| discriminate]. intros _.
        rewrite lookup_insert_eq. split; [reflexivity |]. split; [| reflexivity].
        rewrite lookup_insert_ne by congruence.
        rewrite lookup_delete_ne by congruence. now rewrite lookup_delete_eq.
      * intros p P1 P2 P3. rewrite lookup_insert_ne by congruence.
        now rewrite !lookup_delete_ne by congruence.
    + eexists _, _. split; [reflexivity |]. cbn [Shot.fs Shot.trace].
      split; [| split; [discriminate |]].
      * intros shot' [= <-]. rewrite Hs. split; [reflexivity |].
        rewrite !lookup_insert_ne by congruence. rewrite lookup_delete_eq.
        split; [reflexivity |]. split; [discriminate |]. intros _.
        rewrite lookup_insert_eq. split; [| split; reflexivity].
        rewrite lookup_delete_ne by congruence. now rewrite lookup_delete_eq.
      * intros p P1 P2 P3. rewrite lookup_insert_ne by congruence.
        now rewrite !lookup_delete_ne by congruence.
  - eexists _, _. split; [reflexivity |]. cbn [Shot.fs Shot.trace].
    split; [discriminate |]. split; [auto | reflexivity].
Qed.

Lemma X2_capture_window_files_witness :
  let e := Shot.reader_env (fun _ => Some Shot.dot_page) in
  let files : gmap string Shot.image := <["p.png.tmp.png"%string := Shot.blank_page]> ∅ in
  (exists w',
     Shot.capture_window e 0 0 300 200 "p.png" 0 0 0 0 (Shot.initial files)
     = (Eff.Ok true, w') /\
     Shot.fs w' !! "p.png.tmp.png"%string = None /\
     Shot.fs w' !! "p.png"%string = Some (Shot.cropped_image Shot.dot_page 0 0 0 0)) /\
  (exists w',
     Shot.capture_window e 0 0 300 200 "p.png" 0 0 5 0 (Shot.initial files)
     = (Eff.Ok true, w') /\
     Shot.fs w' !! "p.png"%string = None /\
     Shot.fs w' !! "p.png.cvtmp.png"%string = Some Shot.dot_page).
Proof.
  intros e files. split.
  - destruct (X2_capture_window_files e 0 0 300 200 "p.png" 0 0 0 0 (Shot.initial files)
                eq_refl) as (b & w' & E & Hshot & _ & _).
    destruct (Hshot Shot.dot_page eq_refl) as (-> & Htmp & Hsaved & _).
    destruct (Hsaved eq_refl) as (Hout & _).
    exists w'. auto.
  - destruct (X2_capture_window_files e 0 0 300 200 "p.png" 0 0 5 0 (Shot.initial files)
                eq_refl) as (b & w' & E & Hshot & _ & _).
    destruct (Hshot Shot.dot_page eq_refl) as (-> & _ & _ & Hfailed).
    destruct (Hfailed eq_refl) as (Hout & Hcv & _).
    exists w'. auto.
Defined.

(** X3.  [crop_left_third] never raises.  With no image under the input
    path it logs the failure and returns [False] without touching a file.
    With an image whose crop has a width and a height it returns [True] and
    writes to the output path exactly what [crop_nonwhite_bbox_with_margin]
    makes of the image: the bounding box of the content with the margins
    applied, at its full width (no part of the width is cut away, whatever
    the name says); the copy it made on the way is removed.  With margins
    that leave the crop without width or height the saving fails: it logs
    the failure and returns [False], no image is under the output path, and
    the copy is left behind.  A blank image is always saved, whole.  No
    other file changes. *)
Theorem X3_crop_left_third_effect
    (image_path output : string) (mt mb ml mr : Z) (w : Shot.world) :
  let cvtmp := (output +:+ ".cvtmp.png")%string in
  exists b w',
    Shot.crop_left_third image_path output mt mb ml mr w = (Eff.Ok b, w') /\
    (Shot.fs w !! image_path = None ->
       b = false /\ Shot.fs w' = Shot.fs w /\
       Shot.trace w' = Shot.EvLogError "Cropping failed" :: Shot.trace w) /\
    (forall img,
       Shot.fs w !! image_path = Some img ->
       (Shot.crop_saved img mt mb ml mr = true ->
        b = true /\ Shot.trace w' = Shot.trace w /\
        Shot.fs w' !! output = Some (Shot.cropped_image img mt mb ml mr) /\
        Shot.fs w' !! cvtmp = None) /\
       (Shot.crop_saved img mt mb ml mr = false ->
        b = false /\
        Shot.trace w' = Shot.EvLogError "Cropping failed" :: Shot.trace w /\
        Shot.fs w' !! output = None /\
        Shot.fs w' !! cvtmp = Some img) /\
       (forall p, p <> output -> p <> cvtmp -> Shot.fs w' !! p = Shot.fs w !! p) /\
       (Shot.all_white img -> b = true /\ Shot.fs w' !! output = Some img)).
Proof.
  intros cvtmp. subst cvtmp.
  destruct (temp_paths_differ output) as (_ & N2 & _).
  rewrite crop_left_third_exact.
  destruct (Shot.fs w !! image_path) as [img |].
  - assert (Shot.all_white img -> Shot.crop_saved img mt mb ml mr = true) as Hwhite.
    { intros Hw. unfold Shot.crop_saved. now rewrite all_white_argwhere. }
    destruct (Shot.crop_saved img mt mb ml mr) eqn:Hs.
    + eexists _, _. split; [reflexivity |]. cbn [Shot.fs Shot.trace]. split; [discriminate |].
      intros img' [= <-]. rewrite Hs. split; [| split; [discriminate | split]].
      * intros _. split; [reflexivity |]. split; [reflexivity |].
        rewrite lookup_insert_eq. split; [reflexivity |].
        rewrite lookup_insert_ne by congruence. now rewrite lookup_delete_eq.
      * intros p P1 P2. rewrite lookup_insert_ne by congruence.
        now rewrite lookup_delete_ne by congruence.
      * intros Hw. split; [reflexivity |]. rewrite lookup_insert_eq. f_equal.
        unfold Shot.cropped_image. now rewrite all_white_argwhere.
    + eexists _, _. split; [reflexivity |]. cbn [Shot.fs Shot.trace]. split; [discriminate |].
      intros img' [= <-]. rewrite Hs. split; [discriminate | split; [| split]].
      * intros _. split; [reflexivity |]. split; [reflexivity |].
        rewrite lookup_insert_ne by congruence. rewrite lookup_delete_eq.
        split; [reflexivity |]. now rewrite lookup_insert_eq.
      * intros p P1 P2. rewrite lookup_insert_ne by congruence.
        now rewrite lookup_delete_ne by congruence.
      * intros Hw. specialize (Hwhite Hw). discriminate.
  - eexists _, _. split; [reflexivity |]. cbn [Shot.fs Shot.trace].
    split; [auto | discriminate].
Qed.

(** X4.  [capture_fullscreen] never raises.  When the screenshot of the
    whole screen is taken it returns [True]; if the crop has a width and a
    height the output holds that screenshot cropped to its content, at the
    full width of the screen: no part of the width is cut away (a blank
    screen is saved whole), and the temporary files are gone afterwards.  If
    the margins leave the crop without width or height, the failure to save
    it is logged, no image is under the output path, the second temporary
    file stays behind with the screenshot in it, and [True] is returned all
    the same.  When the screenshot raises it logs the failure, returns
    [False] and leaves every file as it was. *)
Theorem X4_capture_fullscreen_effect
    (e : Shot.env) (screen : Z * Z) (output : string) (mt mb ml mr : Z) (w : Shot.world) :
  Shot.pyautogui e = true ->
  let region := (0, 0, fst screen, snd screen) in
  exists b w',
    ShotCli.capture_fullscreen e screen output mt mb ml mr w = (Eff.Ok b, w') /\
    (forall shot,
       Shot.grab e (Shot.grabs w) region = Some shot ->
       b = true /\
       Shot.fs w' !! (output +:+ ".tmp.png")%string = None /\
       (Shot.crop_saved shot mt mb ml mr = true ->
        Shot.fs w' !! output = Some (Shot.cropped_image shot mt mb ml mr) /\
        Shot.fs w' !! (output +:+ ".cvtmp.png")%string = None /\
        Shot.trace w' = Shot.EvScreenshot region :: Shot.trace w) /\
       (Shot.crop_saved shot mt mb ml mr = false ->
        Shot.fs w' !! output = None /\
        Shot.fs w' !! (output +:+ ".cvtmp.png")%string = Some shot /\
        Shot.trace w' = Shot.EvLogError "Cropping failed"
                        :: Shot.EvScreenshot region :: Shot.trace w) /\
       (Shot.all_white shot -> Shot.fs w' !! output = Some shot)) /\
    (Shot.grab e (Shot.grabs w) region = None ->
       b = false /\ Shot.fs w' = Shot.fs w /\
       Shot.trace w' = Shot.EvLogError "Capture failed"
                       :: Shot.EvScreenshot region :: Shot.trace w).
Proof.
  intros Hpy region. subst region.
  destruct (temp_paths_differ output) as (N1 & N2 & N3).
  unfold ShotCli.capture_fullscreen. rewrite Hpy. cbn [negb].
  unfold Eff.try_except, Eff.bind at 1, Shot.screenshot.
  destruct (Shot.grab e (Shot.grabs w) (0, 0, fst screen, snd screen)) as [shot |].
  - rewrite after_screenshot.
    assert (Shot.all_white shot -> Shot.crop_saved shot mt mb ml mr = true) as Hwhite.
    { intros Hw. unfold Shot.crop_saved. now rewrite all_white_argwhere. }
    destruct (Shot.crop_saved shot mt mb ml mr) eqn:Hs.
    + eexists _, _. split; [reflexivity |]. cbn [Shot.fs Shot.trace].
      split; [| discriminate].
      intros shot' [= <-]. rewrite Hs. split; [reflexivity |].
      rewrite !(lookup_insert_ne _ output) by congruence. rewrite lookup_delete_eq.
      split; [reflexivity |]. split; [| split; [discriminate |]].
      * intros _. rewrite lookup_insert_eq. split; [reflexivity |]. split; [| reflexivity].
        rewrite (lookup_insert_ne _ output) by congruence.
        rewrite (lookup_delete_ne _ (output +:+ ".tmp.png")) by congruence.
        now rewrite lookup_delete_eq.
      * intros Hw. rewrite lookup_insert_eq. f_equal.
        unfold Shot.cropped_image. now rewrite all_white_argwhere.
    + eexists _, _. split; [reflexivity |]. cbn [Shot.fs Shot.trace].
      split; [| discriminate].
      intros shot' [= <-]. rewrite Hs. split; [reflexivity |].
      rewrite !(lookup_insert_ne _ (output +:+ ".cvtmp.png")) by congruence.
      rewrite lookup_delete_eq.
      split; [reflexivity |]. split; [discriminate | split].
      * intros _. rewrite lookup_insert_eq. split; [| split; reflexivity].
        rewrite (lookup_delete_ne _ (output +:+ ".tmp.png")) by congruence.
        now rewrite lookup_delete_eq.
      * intros Hw. specialize (Hwhite Hw). discriminate.
  - eexists _, _. split; [reflexivity |]. cbn [Shot.fs Shot.trace].
    split; [discriminate | auto].
Qed.

Lemma X4_capture_fullscreen_effect_witness :
  let e := Shot.reader_env (fun _ => Some Shot.blank_page) in
  exists w',
    ShotCli.capture_fullscreen e (2, 2) "screen.png" 60 55 0 0 (Shot.initial ∅)
    = (Eff.Ok true, w') /\
    Shot.fs w' !! "screen.png"%string = Some Shot.blank_page.
Proof.
  intros e.
  destruct (X4_capture_fullscreen_effect e (2, 2) "screen.png" 60 55 0 0 (Shot.initial ∅)
              eq_refl) as (b & w' & E & Hshot & _).
  destruct (Hshot Shot.blank_page eq_refl) as (-> & _ & _ & _ & Hblank).
  exists w'. split; [exact E |]. apply Hblank. repeat constructor.
Defined.

(** ** A batch run, step by step *)

Section BatchRuns.
Import Eff Shot ShotCli.
Local Open Scope eff_scope.

Lemma world_eq (a b : world) :
  fs a = fs b -> trace a = trace b -> enumerations a = enumerations b -> grabs a = grabs b ->
  a = b.
Proof. destruct a, b. cbn. now intros -> -> -> ->. Qed.

Lemma history_app w w' hist : trace w' = rev hist ++ trace w -> history w' = history w ++ hist.
Proof. unfold history. intros ->. now rewrite rev_app_distr, rev_involutive. Qed.

(** The look-up of the window: one enumeration and, when no window is
    named, error messages. *)
Lemma get_window_info_exact e app_name window_title w :
  _check_dependencies e = true ->
  exists errs,
    get_window_info e app_name window_title w
    = (Ok (locate e (enumerations w) app_name window_title),
       {| fs := fs w; trace := errs ++ EvEnumerate :: trace w;
          enumerations := S (enumerations w); grabs := grabs w |}) /\
    forallb is_log_error errs = true /\
    (is_Some (locate e (enumerations w) app_name window_title) -> errs = []).
Proof.
  intros Hdeps. unfold get_window_info, locate. rewrite Hdeps. cbn [negb].
  unfold bind at 1, enumerate_windows.
  destruct (osascript e (enumerations w)) as [windows |]; cbn [mbind option_bind].
  2: { exists []. repeat split. }
  destruct (first_match app_name window_title windows) as [win |].
  - exists []. repeat split.
  - exists [EvLogError "No exact matching window found"]. repeat split.
    intros [? ?]. discriminate.
Qed.

Lemma activate_app_exact e proc w :
  activate_app e proc w
  = (Ok tt, {| fs := fs w; trace := rev (activation_events e proc (activations w)) ++ trace w;
               enumerations := enumerations w; grabs := grabs w |}).
Proof.
  unfold activate_app, activation_events. now destruct (activates e (activations w)).
Qed.

Lemma activations_app l w w' :
  trace w' = rev l ++ trace w ->
  activations w' = (length (List.filter is_activate l) + activations w)%nat.
Proof.
  unfold activations. intros ->.
  now rewrite List.filter_app, length_app, List.filter_rev, length_rev.
Qed.

Lemma activations_page e proc region delay mt mb ml mr ev a k :
  is_advance ev = true ->
  List.filter is_activate (page_events e proc region delay mt mb ml mr ev a k)
  = [EvActivate proc].
Proof.
  intros Hev. unfold page_events, activation_events.
  assert (is_activate ev = false) as Ha by (destruct ev; try discriminate; reflexivity).
  destruct (activates e a), (positive delay), (grab e k region) as [shot |];
    try destruct (crop_saved shot mt mb ml mr); cbn; now rewrite Ha.
Qed.

(** One turn of the loop with a well-formed action, as one step. *)
Lemma capture_page_exact e proc x y wd h delay out mt mb ml mr next_action ev w :
  pyautogui e = true ->
  advance_event next_action = Some ev ->
  forall B (k : M B),
    (activate_app e proc ;;
     (if positive delay then sleep delay else ret tt) ;;
     capture_window e x y wd h out mt mb ml mr ;;
     sleep (1 # 10) ;;
     advance next_action ;;
     sleep (1 # 10) ;;
     k) w
    = k {| fs := page_files e (x, y, wd / 3, h) mt mb ml mr out (grabs w) (fs w);
           trace := rev (page_events e proc (x, y, wd / 3, h) delay mt mb ml mr ev
                           (activations w) (grabs w)) ++ trace w;
           enumerations := enumerations w; grabs := S (grabs w) |}.
Proof.
  intros Hpy Hev B k.
  rewrite (bind_ok _ _ _ _ _ (activate_app_exact e proc w)).
  set (w1 := {| fs := fs w; trace := rev (activation_events e proc (activations w)) ++ trace w;
                enumerations := enumerations w; grabs := grabs w |}).
  set (w2 := {| fs := fs w;
                trace := rev (if positive delay then [EvSleep delay] else []) ++ trace w1;
                enumerations := enumerations w; grabs := grabs w |}).
  assert ((if positive delay then sleep delay else ret tt) w1 = (Ok tt, w2)) as E2.
  { unfold w2. destruct (positive delay); reflexivity. }
  rewrite (bind_ok _ _ _ _ _ E2).
  unfold bind at 1. rewrite (capture_window_exact _ _ _ _ _ _ _ _ _ _ _ Hpy).
  change (grabs w2) with (grabs w). change (fs w2) with (fs w).
  unfold page_files, page_events.
  destruct (grab e (grabs w) (x, y, wd / 3, h)) as [shot |];
    [destruct (crop_saved shot mt mb ml mr) |];
    unfold bind at 1, sleep, emit; cbn [fs trace enumerations grabs];
    unfold bind at 1; rewrite (advance_ok _ _ _ Hev); cbn [fs trace enumerations grabs];
    unfold bind at 1; cbn [fs trace enumerations grabs];
    f_equal; apply world_eq; cbn [fs trace enumerations grabs]; try reflexivity;
    unfold w2, w1; cbn [trace];
    rewrite !rev_app_distr; cbn [rev app]; rewrite ?rev_app_distr; cbn [rev app];
    repeat first [rewrite <- app_assoc | progress cbn [app]]; reflexivity.
Qed.

(** The loop with a well-formed action, as one step. *)
Lemma capture_pages_exact e proc x y wd h output_dir book pad next_action delay
    mt mb ml mr ev :
  pyautogui e = true ->
  advance_event next_action = Some ev ->
  forall pages img_paths w,
  let outs := (fun i => Py.os_path_join output_dir (page_filename book pad i)) <$> pages in
  capture_pages e proc x y wd h output_dir book pad next_action delay
                mt mb ml mr pages img_paths w
  = (Ok (img_paths ++ outs),
     {| fs := loop_files e (x, y, wd / 3, h) mt mb ml mr outs (grabs w) (fs w);
        trace := rev (loop_events e proc (x, y, wd / 3, h) delay mt mb ml mr ev
                        (activations w) (grabs w) (length pages))
                 ++ trace w;
        enumerations := enumerations w;
        grabs := (grabs w + length pages)%nat |}).
Proof.
  intros Hpy Hev. pose proof (advance_event_is_advance _ _ Hev) as Hadv.
  induction pages as [| i pages IH]; intros img_paths w outs; subst outs.
  - cbn. rewrite app_nil_r. unfold ret. f_equal. apply world_eq; cbn; auto with lia.
  - cbn [capture_pages fmap list_fmap length loop_events loop_files].
    rewrite (capture_page_exact _ _ _ _ _ _ _ _ _ _ _ _ _ _ _ Hpy Hev).
    rewrite IH. rewrite <- app_assoc. f_equal.
    apply world_eq; cbn [fs trace enumerations grabs]; try reflexivity; [| lia].
    match goal with |- context [activations ?w0] =>
      rewrite (activations_app _ w w0 eq_refl) end.
    rewrite (activations_page _ _ _ _ _ _ _ _ _ _ _ Hadv). cbn [length Nat.add].
    rewrite rev_app_distr, <- app_assoc. reflexivity.
Qed.

(** A batch run with the window found and a well-formed action, as one
    step. *)
Lemma batch_capture_exact e app_name window_label output_dir book start no next_action
    delay width height mt mb ml mr w win ev :
  located e w app_name window_label width height = Some win ->
  advance_event next_action = Some ev ->
  let region := (win_x win, win_y win, win_w win / 3, win_h win) in
  let pad := Py.len (Py.str (start + no - 1)) in
  let outs := (fun i => Py.os_path_join output_dir (page_filename book pad i))
                <$> Py.range start (start + no) in
  let resized := nonzero width || nonzero height in
  exists first,
    locate e (enumerations w) app_name window_label = Some first /\
    batch_capture e app_name window_label output_dir book start no next_action delay
                  width height mt mb ml mr w
    = (Ok outs,
       {| fs := loop_files e region mt mb ml mr outs (grabs w) (fs w);
          trace := rev (setup_events e (proc_name first) (proc_name win) output_dir
                          width height (activations w)
                        ++ loop_events e (proc_name win) region delay mt mb ml mr ev
                             (S (activations w)) (grabs w) (Z.to_nat no))
                   ++ trace w;
          enumerations := ((if resized then 2 else 1) + enumerations w)%nat;
          grabs := (grabs w + Z.to_nat no)%nat |}).
Proof.
  intros Hloc Hev region pad outs resized.
  pose proof (located_pyautogui _ _ _ _ _ _ _ Hloc) as Hpy.
  unfold located in Hloc. destruct (_check_dependencies e) eqn:Hdeps; [| discriminate].
  destruct (locate e (enumerations w) app_name window_label) as [first |] eqn:L1;
    [| discriminate].
  exists first. split; [reflexivity |].
  unfold batch_capture. rewrite Hdeps. cbn [negb].
  destruct (get_window_info_exact e app_name window_label w Hdeps) as (errs & E1 & _ & N1).
  rewrite L1 in E1, N1. rewrite (N1 ltac:(eauto)) in E1. cbn [app] in E1.
  rewrite (bind_ok _ _ _ _ _ E1).
  unfold setup_events. fold resized. subst resized.
  assert (length (Py.range start (start + no)) = Z.to_nat no) as Hlen.
  { rewrite length_range. f_equal. lia. }
  assert (forall proc w3 l,
            trace w3 = rev l ++ trace w -> List.filter is_activate l = [] ->
            (activate_app e proc ;;
             emit (EvMakedirs output_dir) ;;
             capture_pages e proc (win_x win) (win_y win) (win_w win) (win_h win)
               output_dir book (Py.len (Py.str (start + no - 1))) next_action delay
               mt mb ml mr (Py.range start (start + no)) []) w3
            = (Ok outs,
               {| fs := loop_files e region mt mb ml mr outs (grabs w3) (fs w3);
                  trace := rev (l ++ activation_events e proc (activations w)
                                ++ [EvMakedirs output_dir]
                                ++ loop_events e proc region delay mt mb ml mr ev
                                     (S (activations w)) (grabs w3) (Z.to_nat no))
                           ++ trace w;
                  enumerations := enumerations w3;
                  grabs := (grabs w3 + Z.to_nat no)%nat |})) as Hrest.
  { intros proc w3 l T3 A3.
    assert (activations w3 = activations w) as Ha.
    { rewrite (activations_app l w w3 T3), A3. reflexivity. }
    rewrite (bind_ok _ _ _ _ _ (activate_app_exact e proc w3)).
    unfold bind at 1, emit. cbn [fs trace enumerations grabs].
    rewrite (capture_pages_exact _ _ _ _ _ _ _ _ _ _ _ _ _ _ _ _ Hpy Hev).
    cbn [fs trace enumerations grabs app]. rewrite Hlen. f_equal.
    apply world_eq; cbn [fs trace enumerations grabs]; try reflexivity.
    match goal with |- context [activations ?w0] =>
      rewrite (activations_app (activation_events e proc (activations w3)
                                ++ [EvMakedirs output_dir]) w3 w0)
    end.
    2: { cbn [trace]. rewrite rev_app_distr. reflexivity. }
    rewrite Ha, T3.
    assert (length (List.filter is_activate
                      (activation_events e proc (activations w) ++ [EvMakedirs output_dir]))
            = 1%nat) as ->.
    { unfold activation_events. now destruct (activates e (activations w)). }
    cbn [Nat.add]. rewrite !rev_app_distr. cbn [rev app].
    repeat first [rewrite <- app_assoc | progress cbn [app]]. reflexivity. }
  destruct (nonzero width || nonzero height) eqn:Hres.
  - set (w1 := {| fs := fs w; trace := EvEnumerate :: trace w;
                  enumerations := S (enumerations w); grabs := grabs w |}) in *.
    set (w2 := {| fs := fs w; trace := EvSetSize (proc_name first) width height :: trace w1;
                  enumerations := S (enumerations w); grabs := grabs w |}).
    assert (set_window_size_and_position (proc_name first) width height w1 = (Ok tt, w2)) as E2.
    { unfold set_window_size_and_position.
      destruct width as [wd |], height as [ht |]; try reflexivity. discriminate Hres. }
    destruct (get_window_info_exact e app_name window_label w2 Hdeps) as (errs3 & E3 & _ & N3).
    change (enumerations w2) with (S (enumerations w)) in E3, N3.
    rewrite Hloc in E3, N3. rewrite (N3 ltac:(eauto)) in E3. cbn [app] in E3.
    unfold bind at 1. unfold bind at 1. rewrite E2. rewrite (bind_ok _ _ _ _ _ E3).
    unfold ret. cbv beta iota.
    rewrite (Hrest _ _ [EvEnumerate; EvSetSize (proc_name first) width height; EvEnumerate])
      by reflexivity.
    cbn [fs trace enumerations grabs]. f_equal.
    apply world_eq; cbn [fs trace enumerations grabs]; try reflexivity.
    f_equal. f_equal. cbn [app].
    repeat first [rewrite <- app_assoc | progress cbn [app]]. reflexivity.
  - injection Hloc as <-.
    unfold bind at 1, ret. cbv beta iota.
    rewrite (Hrest _ _ [EvEnumerate]) by reflexivity.
    cbn [fs trace enumerations grabs]. f_equal.
    apply world_eq; cbn [fs trace enumerations grabs]; try reflexivity.
    f_equal. f_equal. cbn [app].
    repeat first [rewrite <- app_assoc | progress cbn [app]]. reflexivity.
Qed.

End BatchRuns.

(** X5.  A selector that is [None] or the empty string is no selector: with
    neither a process name nor a title to go by, the look-up names no window,
    whatever windows there are - a window whose own title is empty is not
    matched by an empty title either.  It runs the enumeration once and
    returns [None]. *)
Theorem X5_no_selector_no_window
    (e : Shot.env) (app_name window_title : option string) (w : Shot.world) :
  Shot.given app_name = None -> Shot.given window_title = None ->
  (forall win, Shot.window_matches app_name window_title win = false) /\
  (forall windows, Shot.first_match app_name window_title windows = None) /\
  exists w',
    Shot.get_window_info e app_name window_title w = (Eff.Ok None, w') /\
    Shot.fs w' = Shot.fs w /\ Shot.grabs w' = Shot.grabs w /\
    (Shot.enumerations w' <= S (Shot.enumerations w))%nat.
Proof.
  intros Ha Ht.
  assert (forall win, Shot.window_matches app_name window_title win = false) as Hm.
  { intros win. unfold Shot.window_matches. now rewrite Ha, Ht. }
  assert (forall windows, Shot.first_match app_name window_title windows = None) as Hf.
  { induction windows as [| v vs IH]; [reflexivity |]. cbn [Shot.first_match]. now rewrite Hm. }
  split; [exact Hm |]. split; [exact Hf |].
  unfold Shot.get_window_info. destruct (Shot._check_dependencies e); cbn [negb].
  - unfold Eff.bind at 1, Shot.enumerate_windows.
    destruct (Shot.osascript e (Shot.enumerations w)) as [windows |].
    + rewrite Hf. eexists. split; [reflexivity |]. cbn. auto.
    + eexists. split; [reflexivity |]. cbn. auto.
  - exists w. split; [reflexivity |]. auto.
Qed.

Lemma X5_no_selector_no_window_witness :
  let e := {| Shot.pyautogui := true; Shot.pillow := true; Shot.darwin := true;
              Shot.osascript := fun _ => Some [Shot.Window "" "" 0 0 800 600];
              Shot.grab := fun _ _ => None; Shot.activates := fun _ => true |} in
  fst (Shot.get_window_info e (Some ""%string) None (Shot.initial ∅)) = Eff.Ok None.
Proof.
  intros e.
  destruct (X5_no_selector_no_window e (Some ""%string) None (Shot.initial ∅) eq_refl eq_refl)
    as (_ & _ & w' & E & _).
  now rewrite E.
Defined.

(** X6.  A batch run whose window is not found stops there: it raises
    [RuntimeError("No matching window found")] after the one enumeration.
    The application is not brought to the front, the output directory is not
    made, nothing is captured and no file changes. *)
Theorem X6_window_not_found_is_fatal
    (e : Shot.env) (app_name window_label : option string) (output_dir book : string)
    (start no : Z) (next_action : string) (delay : Q) (width height : option Z)
    (top bottom left right : Z) (w : Shot.world) :
  Shot._check_dependencies e = true ->
  Shot.locate e (Shot.enumerations w) app_name window_label = None ->
  exists w' errs,
    Shot.batch_capture e app_name window_label output_dir book start no next_action
                       delay width height top bottom left right w
    = (Eff.Raise (Shot.RuntimeError "No matching window found"), w') /\
    Shot.fs w' = Shot.fs w /\ Shot.grabs w' = Shot.grabs w /\
    Shot.history w' = Shot.history w ++ Shot.EvEnumerate :: errs /\
    forallb Shot.is_log_error errs = true.
Proof.
  intros Hdeps Hloc.
  destruct (get_window_info_exact e app_name window_label w Hdeps) as (errs & E & L & _).
  rewrite Hloc in E.
  unfold Shot.batch_capture. rewrite Hdeps. cbn [negb].
  rewrite (bind_ok _ _ _ _ _ E).
  eexists _, (rev errs). split; [reflexivity |]. cbn [Shot.fs Shot.grabs].
  split; [reflexivity |]. split; [reflexivity |]. split.
  - apply history_app. cbn [Shot.trace rev]. rewrite rev_involutive, <- app_assoc. reflexivity.
  - now apply log_errors_rev.
Qed.

Lemma X6_window_not_found_is_fatal_witness :
  fst (Shot.batch_capture (Shot.reader_env (fun _ => Some Shot.dot_page))
         (Some "Safari"%string) None "out" "prefix" 1 3 "right" 0 None None 0 0 0 0
         (Shot.initial ∅))
  = Eff.Raise (Shot.RuntimeError "No matching window found").
Proof.
  destruct (X6_window_not_found_is_fatal (Shot.reader_env (fun _ => Some Shot.dot_page))
              (Some "Safari"%string) None "out" "prefix" 1 3 "right" 0 None None 0 0 0 0
              (Shot.initial ∅) eq_refl eq_refl) as (w' & errs & E & _).
  now rewrite E.
Defined.

(** X7.  When a size is asked for, the window is looked up a second time
    after the resize request; if it is not found then, the run raises
    [RuntimeError("No matching window after resize")].  By then the resize
    has been requested, of the process found first, but the application has
    not been brought to the front, and nothing is captured or written. *)
Theorem X7_window_lost_after_resize
    (e : Shot.env) (app_name window_label : option string) (output_dir book : string)
    (start no : Z) (next_action : string) (delay : Q) (width height : option Z)
    (top bottom left right : Z) (w : Shot.world) (first : Shot.window) :
  Shot._check_dependencies e = true ->
  Shot.locate e (Shot.enumerations w) app_name window_label = Some first ->
  Shot.nonzero width || Shot.nonzero height = true ->
  Shot.locate e (S (Shot.enumerations w)) app_name window_label = None ->
  exists w' errs,
    Shot.batch_capture e app_name window_label output_dir book start no next_action
                       delay width height top bottom left right w
    = (Eff.Raise (Shot.RuntimeError "No matching window after resize"), w') /\
    Shot.fs w' = Shot.fs w /\ Shot.grabs w' = Shot.grabs w /\
    Shot.history w'
    = Shot.history w
      ++ [Shot.EvEnumerate; Shot.EvSetSize (Shot.proc_name first) width height;
          Shot.EvEnumerate] ++ errs /\
    forallb Shot.is_log_error errs = true.
Proof.
  intros Hdeps L1 Hres L2.
  destruct (get_window_info_exact e app_name window_label w Hdeps) as (errs1 & E1 & _ & N1).
  rewrite L1 in E1, N1. rewrite (N1 ltac:(eauto)) in E1. cbn [app] in E1.
  unfold Shot.batch_capture. rewrite Hdeps. cbn [negb].
  rewrite (bind_ok _ _ _ _ _ E1), Hres.
  set (w1 := {| Shot.fs := Shot.fs w; Shot.trace := Shot.EvEnumerate :: Shot.trace w;
                Shot.enumerations := S (Shot.enumerations w); Shot.grabs := Shot.grabs w |}).
  set (w2 := {| Shot.fs := Shot.fs w;
                Shot.trace := Shot.EvSetSize (Shot.proc_name first) width height
                              :: Shot.trace w1;
                Shot.enumerations := S (Shot.enumerations w); Shot.grabs := Shot.grabs w |}).
  assert (Shot.set_window_size_and_position (Shot.proc_name first) width height w1
          = (Eff.Ok tt, w2)) as E2.
  { unfold Shot.set_window_size_and_position.
    destruct width as [wd |], height as [ht |]; try reflexivity. discriminate Hres. }
  destruct (get_window_info_exact e app_name window_label w2 Hdeps) as (errs & E3 & L & _).
  change (Shot.enumerations w2) with (S (Shot.enumerations w)) in E3. rewrite L2 in E3.
  unfold Eff.bind at 1. unfold Eff.bind at 1. rewrite E2.
  rewrite (bind_ok _ _ _ _ _ E3).
  eexists _, (rev errs). split; [reflexivity |]. cbn [Shot.fs Shot.grabs].
  split; [reflexivity |]. split; [reflexivity |]. split.
  - apply history_app. cbn [Shot.trace rev w2 w1 app].
    rewrite ?rev_app_distr, rev_involutive. cbn [rev app]. rewrite <- !app_assoc. reflexivity.
  - now apply log_errors_rev.
Qed.

Lemma X7_window_lost_after_resize_witness :
  let e := {| Shot.pyautogui := true; Shot.pillow := true; Shot.darwin := true;
              Shot.osascript := fun k =>
                if (k =? 0)%nat then Some [Shot.Window "Reader" "Book" 0 0 300 200]
                else Some [];
              Shot.grab := fun _ _ => Some Shot.dot_page;
              Shot.activates := fun _ => true |} in
  fst (Shot.batch_capture e (Some "reader"%string) None "out" "prefix" 1 3 "right" 0
         (Some 3840) (Some 2160) 0 0 0 0 (Shot.initial ∅))
  = Eff.Raise (Shot.RuntimeError "No matching window after resize").
Proof.
  intros e.
  destruct (X7_window_lost_after_resize e (Some "reader"%string) None "out" "prefix" 1 3
              "right" 0 (Some 3840) (Some 2160) 0 0 0 0 (Shot.initial ∅)
              (Shot.Window "Reader" "Book" 0 0 300 200) eq_refl eq_refl eq_refl eq_refl)
    as (w' & errs & E & _).
  now rewrite E.
Defined.

(** X8.  Asked for no page, or for a negative number of pages, a batch run
    whose window is found is not an error: it returns the empty list, takes
    no screenshot, turns no page and leaves every file as it was.  The
    page-turn action is not looked at, so a malformed one goes unnoticed. *)
Theorem X8_no_pages_no_capture
    (e : Shot.env) (app_name window_label : option string) (output_dir book : string)
    (start no : Z) (next_action : string) (delay : Q) (width height : option Z)
    (top bottom left right : Z) (w : Shot.world) (win : Shot.window) :
  no <= 0 ->
  Shot.located e w app_name window_label width height = Some win ->
  exists w' hist,
    Shot.batch_capture e app_name window_label output_dir book start no next_action
                       delay width height top bottom left right w = (Eff.Ok [], w') /\
    Shot.fs w' = Shot.fs w /\ Shot.grabs w' = Shot.grabs w /\
    Shot.trace w' = rev hist ++ Shot.trace w /\
    List.filter Shot.capture_or_advance hist = [].
Proof.
  intros Hno Hloc.
  destruct (batch_capture_located e app_name window_label output_dir book start no
              next_action delay width height top bottom left right w win Hloc)
    as (w0 & E0 & Hfs & Hg & hist & T & F).
  assert (Py.range start (start + no) = []) as Hrange.
  { unfold Py.range. apply length_zero_iff_nil. rewrite length_seqZ. lia. }
  rewrite Hrange in E0. cbn [Shot.capture_pages] in E0.
  exists w0, hist. rewrite E0. auto.
Qed.

Lemma X8_no_pages_no_capture_witness :
  fst (Shot.batch_capture (Shot.reader_env (fun _ => Some Shot.dot_page))
         (Some "reader"%string) None "out" "prefix" 1 0 "a,b" 0 None None 0 0 0 0
         (Shot.initial ∅))
  = Eff.Ok [].
Proof.
  destruct (X8_no_pages_no_capture (Shot.reader_env (fun _ => Some Shot.dot_page))
              (Some "reader"%string) None "out" "prefix" 1 0 "a,b" 0 None None 0 0 0 0
              (Shot.initial ∅) (Shot.Window "Reader" "Book" 0 0 300 200)
              ltac:(lia) eq_refl) as (w' & hist & E & _).
  now rewrite E.
Defined.

(** ** What a whole run amounts to *)

Section Accounting.
Import Eff Shot ShotCli.
Local Open Scope Q_scope.

Lemma slept_app a b : slept (a ++ b) == slept a + slept b.
Proof.
  induction a as [| ev a IH].
  { change (slept b == 0 + slept b). ring. }
  cbn [app]. unfold slept in *. cbn [foldr]. destruct ev; try exact IH.
  rewrite IH. ring.
Qed.

Lemma positive_iff delay : positive delay = true <-> 0 < delay.
Proof.
  unfold positive, Qlt. cbn [Qnum Qden]. rewrite Z.ltb_lt. lia.
Qed.

Lemma slept_activation e proc a :
  slept (activation_events e proc a) == (1 # 2) * inject_Z (Z.of_nat (if activates e a then 1 else 0)).
Proof. unfold activation_events. destruct (activates e a); reflexivity. Qed.

Lemma slept_page e proc region delay mt mb ml mr ev a k :
  is_advance ev = true ->
  slept (page_events e proc region delay mt mb ml mr ev a k)
  == (1 # 2) * inject_Z (Z.of_nat (if activates e a then 1 else 0))
     + ((2 # 10) + (if positive delay then delay else 0)).
Proof.
  intros Hev. unfold page_events.
  assert (slept [ev] == 0) as Hz by (destruct ev; try discriminate; reflexivity).
  rewrite !slept_app.
  change (EvScreenshot region :: ?l ++ ?t) with ([EvScreenshot region] ++ l ++ t).
  change [EvSleep (1 # 10); ev; EvSleep (1 # 10)]
    with ([EvSleep (1 # 10)] ++ [ev] ++ [EvSleep (1 # 10)]).
  rewrite !slept_app, Hz, slept_activation.
  assert (slept match grab e k region with
                | Some shot =>
                    if crop_saved shot mt mb ml mr then [] else [EvLogError "Cropping failed"]
                | None => [EvLogError "Capture failed"]
                end == 0) as ->.
  { destruct (grab e k region) as [shot |]; [destruct (crop_saved shot mt mb ml mr) |];
      reflexivity. }
  destruct (positive delay); cbn; ring.
Qed.

Lemma slept_loop e proc region delay mt mb ml mr ev n : forall a k,
  is_advance ev = true ->
  slept (loop_events e proc region delay mt mb ml mr ev a k n)
  == (1 # 2) * inject_Z (Z.of_nat (activated e a n))
     + inject_Z (Z.of_nat n) * ((2 # 10) + (if positive delay then delay else 0)).
Proof.
  induction n as [| n IH]; intros a k Hev; [cbn; ring |].
  cbn [loop_events activated].
  rewrite slept_app, (slept_page _ _ _ _ _ _ _ _ _ _ _ Hev), (IH _ _ Hev).
  rewrite Nat2Z.inj_succ, Nat2Z.inj_add. unfold Z.succ. rewrite !inject_Z_plus. ring.
Qed.

Lemma slept_setup e first proc output_dir width height a :
  slept (setup_events e first proc output_dir width height a)
  == (1 # 2) * inject_Z (Z.of_nat (if activates e a then 1 else 0)).
Proof.
  unfold setup_events, activation_events.
  destruct (nonzero width || nonzero height), (activates e a); cbn; ring.
Qed.

Lemma activated_all e : (forall k, activates e k = true) -> forall n a, activated e a n = n.
Proof.
  intros H. induction n as [| n IH]; intros a; [reflexivity |].
  cbn [activated]. now rewrite H, IH.
Qed.

Lemma sleeps_positive_loop e proc region delay mt mb ml mr ev n : forall a k,
  is_advance ev = true ->
  Forall (fun ev => match ev with EvSleep s => 0 < s | _ => True end)
         (loop_events e proc region delay mt mb ml mr ev a k n).
Proof.
  induction n as [| n IH]; intros a k Hev; [constructor |].
  cbn [loop_events]. apply Forall_app. split; [| now apply IH].
  unfold page_events, activation_events.
  apply Forall_app. split; [destruct (activates e a); repeat constructor |].
  apply Forall_app. split.
  { destruct (positive delay) eqn:Hd; [| constructor].
    constructor; [now apply positive_iff | constructor]. }
  constructor; [exact I |].
  apply Forall_app. split.
  { destruct (grab e k region) as [shot |]; [destruct (crop_saved shot mt mb ml mr) |];
      repeat constructor. }
  constructor; [reflexivity |]. constructor; [| repeat constructor].
  destruct ev; try discriminate; exact I.
Qed.

Lemma filter_actions_loop e proc region delay mt mb ml mr ev n : forall a k,
  is_advance ev = true ->
  List.filter is_action (loop_events e proc region delay mt mb ml mr ev a k n)
  = mjoin (replicate n [EvActivate proc; EvScreenshot region; ev]).
Proof.
  induction n as [| n IH]; intros a k Hev; [reflexivity |].
  cbn [loop_events replicate]. rewrite List.filter_app, (IH _ _ Hev).
  change (mjoin ([EvActivate proc; EvScreenshot region; ev] :: ?l))
    with ([EvActivate proc; EvScreenshot region; ev] ++ mjoin l).
  f_equal. unfold page_events, activation_events.
  assert (is_action ev = true) as Ha by (destruct ev; try discriminate; reflexivity).
  destruct (activates e a), (positive delay), (grab e k region) as [shot |];
    try destruct (crop_saved shot mt mb ml mr); cbn; now rewrite Ha.
Qed.

End Accounting.

(** X9.  The time a batch run sleeps.  A run over [no >= 0] pages that
    gets through (window found, well-formed page-turn action) asks for
    [no + 1] activations and sleeps half a second after each one whose script
    ran to its end (none after one that timed out or could not be started);
    besides, for each page, it sleeps the delay before the capture, when the
    delay is positive, and a tenth of a second after the capture and after
    the page turn.  With every activation running to its end this is
    [0.5 + no * (0.7 + d)] seconds in all, where [d] is the delay when it is
    positive and [0] otherwise.  A delay that is zero or negative is never
    passed to [time.sleep]: every sleep of the run is of a positive time. *)
Theorem X9_time_slept
    (e : Shot.env) (app_name window_label : option string) (output_dir book : string)
    (start no : Z) (next_action : string) (delay : Q) (width height : option Z)
    (top bottom left right : Z) (w : Shot.world) (win : Shot.window) (ev : Shot.event) :
  0 <= no ->
  Shot.located e w app_name window_label width height = Some win ->
  Shot.advance_event next_action = Some ev ->
  exists paths w' hist,
    Shot.batch_capture e app_name window_label output_dir book start no next_action
                       delay width height top bottom left right w = (Eff.Ok paths, w') /\
    Shot.history w' = Shot.history w ++ hist /\
    (ShotCli.slept hist
     == (1 # 2) * inject_Z (Z.of_nat (ShotCli.activated e (Shot.activations w)
                                        (S (Z.to_nat no))))
        + inject_Z no * ((2 # 10) + (if Shot.positive delay then delay else 0)))%Q /\
    ((forall k, Shot.activates e k = true) ->
     (ShotCli.slept hist
      == (1 # 2) + inject_Z no * ((7 # 10) + (if Shot.positive delay then delay else 0)))%Q) /\
    Forall (fun ev => match ev with Shot.EvSleep s => (0 < s)%Q | _ => True end) hist.
Proof.
  intros Hno Hloc Hev.
  destruct (batch_capture_exact e app_name window_label output_dir book start no next_action
              delay width height top bottom left right w win ev Hloc Hev)
    as (first & _ & E).
  pose proof (advance_event_is_advance _ _ Hev) as Hadv.
  match type of E with _ = (_, {| Shot.trace := rev ?h ++ _ |}) => set (hist := h) in * end.
  assert (ShotCli.slept hist
          == (1 # 2) * inject_Z (Z.of_nat (ShotCli.activated e (Shot.activations w)
                                             (S (Z.to_nat no))))
             + inject_Z no * ((2 # 10) + (if Shot.positive delay then delay else 0)))%Q as S1.
  { unfold hist. rewrite slept_app, slept_setup, (slept_loop _ _ _ _ _ _ _ _ _ _ _ _ Hadv).
    cbn [ShotCli.activated]. rewrite Nat2Z.inj_add, inject_Z_plus.
    rewrite Z2Nat.id by exact Hno. ring. }
  eexists _, _, hist. split; [exact E |]. split; [| split; [exact S1 | split]].
  - apply history_app. cbn [Shot.trace]. reflexivity.
  - intros Hall. rewrite S1, (activated_all e Hall), Nat2Z.inj_succ.
    rewrite Z2Nat.id by exact Hno. unfold Z.succ. rewrite inject_Z_plus. ring.
  - unfold hist. apply Forall_app. split; [| now apply sleeps_positive_loop].
    unfold ShotCli.setup_events, ShotCli.activation_events.
    destruct (Shot.nonzero width || Shot.nonzero height),
             (Shot.activates e (Shot.activations w)); repeat constructor.
Qed.

Lemma X9_time_slept_witness :
  exists paths w' hist,
    Shot.batch_capture (Shot.reader_env (fun _ => Some Shot.dot_page))
      (Some "reader"%string) None "out" "prefix" 1 3 "right" (3 # 10) None None 0 0 0 0
      (Shot.initial ∅) = (Eff.Ok paths, w') /\
    Shot.history w' = hist /\ (ShotCli.slept hist == 7 # 2)%Q.
Proof.
  destruct (X9_time_slept (Shot.reader_env (fun _ => Some Shot.dot_page))
              (Some "reader"%string) None "out" "prefix" 1 3 "right" (3 # 10) None None
              0 0 0 0 (Shot.initial ∅) (Shot.Window "Reader" "Book" 0 0 300 200)
              (Shot.EvPress "right") ltac:(lia) eq_refl eq_refl)
    as (paths & w' & hist & E & H & _ & S & _).
  exists paths, w', hist. split; [exact E |]. split; [exact H |].
  rewrite (S (fun _ => eq_refl)). reflexivity.
Defined.

(** X10.  What a batch run does to the desktop and the disk, in order.
    Sleeps and log messages apart, a run that gets through is: the
    enumeration of the windows; when a size is asked for, the resize request
    to the process found and a second enumeration; the activation of the
    process and the creation of the output directory; then, for each page,
    the activation of the process again, the screenshot, and the page turn.
    So the window is brought to the front anew before every capture, with
    nothing but sleeping between the activation and the screenshot, and the
    resize happens once, before the first page. *)
Theorem X10_actions_of_a_run
    (e : Shot.env) (app_name window_label : option string) (output_dir book : string)
    (start no : Z) (next_action : string) (delay : Q) (width height : option Z)
    (top bottom left right : Z) (w : Shot.world) (win : Shot.window) (ev : Shot.event) :
  Shot.located e w app_name window_label width height = Some win ->
  Shot.advance_event next_action = Some ev ->
  let region := (Shot.win_x win, Shot.win_y win, Shot.win_w win / 3, Shot.win_h win) in
  let proc := Shot.proc_name win in
  exists first paths w' hist,
    Shot.locate e (Shot.enumerations w) app_name window_label = Some first /\
    Shot.batch_capture e app_name window_label output_dir book start no next_action
                       delay width height top bottom left right w = (Eff.Ok paths, w') /\
    Shot.history w' = Shot.history w ++ hist /\
    List.filter ShotCli.is_action hist
    = Shot.EvEnumerate
      :: (if Shot.nonzero width || Shot.nonzero height
          then [Shot.EvSetSize (Shot.proc_name first) width height; Shot.EvEnumerate]
          else [])
      ++ [Shot.EvActivate proc; Shot.EvMakedirs output_dir]
      ++ mjoin (replicate (Z.to_nat no)
                  [Shot.EvActivate proc; Shot.EvScreenshot region; ev]).
Proof.
  intros Hloc Hev region proc.
  destruct (batch_capture_exact e app_name window_label output_dir book start no next_action
              delay width height top bottom left right w win ev Hloc Hev)
    as (first & L & E).
  pose proof (advance_event_is_advance _ _ Hev) as Hadv.
  eexists first, _, _, _. split; [exact L |]. split; [exact E |]. split.
  - apply history_app. cbn [Shot.trace]. reflexivity.
  - rewrite List.filter_app, (filter_actions_loop _ _ _ _ _ _ _ _ _ _ _ _ Hadv).
    unfold ShotCli.setup_events, ShotCli.activation_events.
    destruct (Shot.nonzero width || Shot.nonzero height),
             (Shot.activates e (Shot.activations w)); reflexivity.
Qed.

Lemma X10_actions_of_a_run_witness :
  exists w',
    snd (Shot.batch_capture (Shot.reader_env (fun _ => Some Shot.dot_page))
           (Some "reader"%string) None "out" "prefix" 1 2 "right" 0 (Some 900) None 0 0 0 0
           (Shot.initial ∅)) = w' /\
    List.filter ShotCli.is_action (Shot.history w')
    = [Shot.EvEnumerate; Shot.EvSetSize "Reader" (Some 900) None; Shot.EvEnumerate;
       Shot.EvActivate "Reader"; Shot.EvMakedirs "out";
       Shot.EvActivate "Reader"; Shot.EvScreenshot (0, 0, 100, 200); Shot.EvPress "right";
       Shot.EvActivate "Reader"; Shot.EvScreenshot (0, 0, 100, 200); Shot.EvPress "right"].
Proof.
  destruct (X10_actions_of_a_run (Shot.reader_env (fun _ => Some Shot.dot_page))
              (Some "reader"%string) None "out" "prefix" 1 2 "right" 0 (Some 900) None
              0 0 0 0 (Shot.initial ∅) (Shot.Window "Reader" "Book" 0 0 300 200)
              (Shot.EvPress "right") eq_refl eq_refl)
    as (first & paths & w' & hist & L & E & H & F).
  exists w'. rewrite E. split; [reflexivity |].
  injection L as <-. rewrite H. exact F.
Defined.

(** X11.  A requested width and height reach the window and nothing else.
    When a size is asked for, the run sends one resize request, with the
    numbers asked for, to the process found by the first enumeration, and
    then works with the geometry that the second enumeration reports: every
    screenshot of the run is of the left third of that geometry, and the
    names of the pages do not depend on the size either.  The numbers asked
    for occur in the resize request and nowhere else. *)
Theorem X11_requested_size_only_resizes
    (e : Shot.env) (app_name window_label : option string) (output_dir book : string)
    (start no : Z) (next_action : string) (delay : Q) (width height : option Z)
    (top bottom left right : Z) (w : Shot.world) (win : Shot.window) (ev : Shot.event) :
  Shot.nonzero width || Shot.nonzero height = true ->
  Shot.located e w app_name window_label width height = Some win ->
  Shot.advance_event next_action = Some ev ->
  exists first w' hist,
    Shot.locate e (Shot.enumerations w) app_name window_label = Some first /\
    Shot.locate e (S (Shot.enumerations w)) app_name window_label = Some win /\
    Shot.batch_capture e app_name window_label output_dir book start no
                       next_action delay width height top bottom left right w
    = (Eff.Ok ((fun i => Py.os_path_join output_dir
                           (Shot.page_filename book (Py.len (Py.str (start + no - 1))) i))
                 <$> Py.range start (start + no)), w') /\
    Shot.history w' = Shot.history w ++ hist /\
    List.filter ShotCli.is_resize hist = [Shot.EvSetSize (Shot.proc_name first) width height] /\
    List.filter Shot.is_screenshot hist
    = replicate (Z.to_nat no)
        (Shot.EvScreenshot (Shot.win_x win, Shot.win_y win, Shot.win_w win / 3,
                            Shot.win_h win)).
Proof.
  intros Hres Hloc Hev.
  destruct (batch_capture_exact e app_name window_label output_dir book start no next_action
              delay width height top bottom left right w win ev Hloc Hev)
    as (first & L & E).
  pose proof (advance_event_is_advance _ _ Hev) as Hadv.
  assert (Shot.is_screenshot ev = false /\ ShotCli.is_resize ev = false) as [Hs Hr].
  { destruct ev; try discriminate; split; reflexivity. }
  assert (forall proc region a k n,
            List.filter Shot.is_screenshot
              (ShotCli.loop_events e proc region delay top bottom left right ev a k n)
            = replicate n (Shot.EvScreenshot region) /\
            List.filter ShotCli.is_resize
              (ShotCli.loop_events e proc region delay top bottom left right ev a k n)
            = []) as Hloop.
  { intros proc region a k n. revert a k. induction n as [| n IH]; intros a k;
      [split; reflexivity |].
    destruct (IH (S a) (S k)) as [IH1 IH2].
    cbn [ShotCli.loop_events replicate]. rewrite !List.filter_app, IH1, IH2.
    change (Shot.EvScreenshot region :: ?l) with ([Shot.EvScreenshot region] ++ l).
    rewrite app_nil_r.
    unfold ShotCli.page_events, ShotCli.activation_events.
    destruct (Shot.activates e a), (Shot.positive delay),
             (Shot.grab e k region) as [shot |];
      try destruct (Shot.crop_saved shot top bottom left right);
      cbn; rewrite Hs, Hr; split; reflexivity. }
  eexists first, _, _. split; [exact L |]. split; [| split; [exact E |]].
  { unfold Shot.located in Hloc.
    destruct (Shot._check_dependencies e); [| discriminate].
    rewrite L, Hres in Hloc. exact Hloc. }
  split; [apply history_app; cbn [Shot.trace]; reflexivity |].
  rewrite !List.filter_app.
  destruct (Hloop (Shot.proc_name win)
              (Shot.win_x win, Shot.win_y win, Shot.win_w win / 3, Shot.win_h win)
              (S (Shot.activations w)) (Shot.grabs w) (Z.to_nat no)) as [-> ->].
  unfold ShotCli.setup_events, ShotCli.activation_events. rewrite Hres.
  destruct (Shot.activates e (Shot.activations w)); split; reflexivity.
Qed.

Lemma X11_requested_size_only_resizes_witness :
  let e := Shot.reader_env (fun _ => Some Shot.dot_page) in
  let run := Shot.batch_capture e (Some "reader"%string) None "out" "prefix" 1 2 "right" 0
               (Some 3840) (Some 2160) 0 0 0 0 (Shot.initial ∅) in
  List.filter Shot.is_screenshot (Shot.history (snd run))
  = [Shot.EvScreenshot (0, 0, 100, 200); Shot.EvScreenshot (0, 0, 100, 200)].
Proof.
  intros e run.
  destruct (X11_requested_size_only_resizes e (Some "reader"%string) None "out" "prefix" 1 2
              "right" 0 (Some 3840) (Some 2160) 0 0 0 0 (Shot.initial ∅)
              (Shot.Window "Reader" "Book" 0 0 300 200) (Shot.EvPress "right")
              eq_refl eq_refl eq_refl) as (first & w' & hist & _ & _ & E & H & _ & F).
  subst run. rewrite E. cbn [snd]. rewrite H. exact F.
Defined.

(** ** The reply of the enumeration script *)

Section Splits.
Import Py PyLib.

Lemma split_nonempty sep s : split sep s <> [].
Proof.
  destruct s as [| c s]; [discriminate |]. cbn [split].
  destruct (Ascii.eqb c sep); [discriminate |]. destruct (split sep s); discriminate.
Qed.

(** The pieces of [a + sep + b] are the pieces of [a], then those of [b]. *)
Lemma split_app sep a b : split sep (a +:+ String sep b) = split sep a ++ split sep b.
Proof.
  induction a as [| c a IH].
  - change (EmptyString +:+ String sep b) with (String sep b). cbn [split].
    now rewrite Ascii.eqb_refl.
  - rewrite app_String. cbn [split]. rewrite IH.
    destruct (Ascii.eqb c sep); [reflexivity |].
    pose proof (split_nonempty sep a) as Hne.
    destruct (split sep a) as [| p ps]; [now destruct Hne | reflexivity].
Qed.

Lemma length_split sep s : length (split sep s) = S (count sep s).
Proof.
  induction s as [| c s IH]; [reflexivity |]. cbn [split count].
  destruct (Ascii.eqb c sep).
  - cbn [length]. now rewrite IH.
  - pose proof (split_nonempty sep s) as Hne.
    destruct (split sep s) as [| p ps]; [now destruct Hne |]. cbn [length] in *. lia.
Qed.

Lemma count_app c a b : count c (a +:+ b) = (count c a + count c b)%nat.
Proof.
  induction a as [| d a IH]; [reflexivity |]. rewrite app_String. cbn [count]. rewrite IH. lia.
Qed.

Lemma count_contains c s : contains c s = false -> count c s = O.
Proof.
  induction s as [| d s IH]; [reflexivity |]. cbn [contains count]. intros H.
  apply orb_false_iff in H as [Hd Hs]. rewrite Ascii.eqb_sym, Hd, (IH Hs). reflexivity.
Qed.

(** No piece holds more of a character than the whole. *)
Lemma count_split sep c s p : p ∈ split sep s -> (count c p <= count c s)%nat.
Proof.
  revert p. induction s as [| d s IH]; intros p Hp.
  - cbn in Hp. apply list_elem_of_singleton in Hp as ->. reflexivity.
  - cbn [split] in Hp. cbn [count]. destruct (Ascii.eqb d sep).
    + apply elem_of_cons in Hp as [-> | Hp]; [cbn; lia |]. specialize (IH _ Hp). lia.
    + pose proof (split_nonempty sep s) as Hne.
      destruct (split sep s) as [| q qs]; [now destruct Hne |].
      apply elem_of_cons in Hp as [-> | Hp].
      * specialize (IH q ltac:(left)). cbn [count]. lia.
      * specialize (IH p ltac:(now right)). lia.
Qed.

Lemma count_lstrip c s : (count c (lstrip s) <= count c s)%nat.
Proof.
  induction s as [| d s IH]; [reflexivity |]. cbn [lstrip].
  destruct (is_space d); [cbn [count]; lia | reflexivity].
Qed.

Lemma count_rstrip c s : (count c (rstrip s) <= count c s)%nat.
Proof.
  induction s as [| d s IH]; [reflexivity |]. cbn [rstrip count].
  destruct (rstrip s) as [| e r] eqn:E.
  - destruct (is_space d); cbn [count]; lia.
  - cbn [count] in *. lia.
Qed.

Lemma count_lstrip_char q c s : (count c (lstrip_char q s) <= count c s)%nat.
Proof.
  induction s as [| d s IH]; [reflexivity |]. cbn [lstrip_char].
  destruct (Ascii.eqb d q); [cbn [count]; lia | reflexivity].
Qed.

Lemma count_rstrip_char q c s : (count c (rstrip_char q s) <= count c s)%nat.
Proof.
  induction s as [| d s IH]; [reflexivity |]. cbn [rstrip_char count].
  destruct (rstrip_char q s) as [| e r] eqn:E.
  - destruct (Ascii.eqb d q); cbn [count]; lia.
  - cbn [count] in *. lia.
Qed.

Lemma contains_split c s :
  contains c s = true -> exists a b, s = a +:+ String c b /\ contains c a = false.
Proof.
  induction s as [| d s IH]; [discriminate |]. cbn [contains].
  destruct (Ascii.eqb_spec c d) as [<- | Hne].
  - intros _. now exists EmptyString, s.
  - cbn [orb]. intros H. destruct (IH H) as (a & b & -> & Ha).
    exists (String d a), b. split; [reflexivity |]. cbn [contains].
    rewrite Ha, orb_false_r. now apply Ascii.eqb_neq.
Qed.

(** When stripping leaves a string as it is. *)
Lemma rstrip_app a b : b <> EmptyString -> rstrip b = b -> rstrip (a +:+ b) = a +:+ b.
Proof.
  intros Hne Hb. induction a as [| c a IH]; [exact Hb |].
  rewrite app_String. cbn [rstrip]. rewrite IH.
  destruct (a +:+ b) eqn:E; [| reflexivity].
  destruct a; [now destruct Hne | discriminate].
Qed.

Lemma rstrip_char_app q a b :
  b <> EmptyString -> rstrip_char q b = b -> rstrip_char q (a +:+ b) = a +:+ b.
Proof.
  intros Hne Hb. induction a as [| c a IH]; [exact Hb |].
  rewrite app_String. cbn [rstrip_char]. rewrite IH.
  destruct (a +:+ b) eqn:E; [| reflexivity].
  destruct a; [now destruct Hne | discriminate].
Qed.

Lemma rstrip_char_digits q s : is_digit q = false -> all_digits s = true -> rstrip_char q s = s.
Proof.
  intros Hq. induction s as [| c s IH]; [reflexivity |]. cbn [all_digits]. intros H.
  apply andb_true_iff in H as [Hc Hs]. cbn [rstrip_char]. rewrite (IH Hs).
  destruct s; [| reflexivity].
  destruct (Ascii.eqb_spec c q) as [-> | _]; [congruence | reflexivity].
Qed.

Lemma str_not_empty z : str z <> EmptyString.
Proof.
  unfold str. destruct (Z.ltb_spec z 0) as [Hneg | Hz]; [discriminate |].
  destruct (digits_spec z Hz) as (_ & _ & Hl & _). intros E. rewrite E in Hl.
  change (len EmptyString) with 0 in Hl. lia.
Qed.

(** [str] of a number ends in a digit: neither kind of strip takes
    anything off its end. *)
Lemma rstrip_str z : rstrip (str z) = str z.
Proof.
  unfold str. destruct (Z.ltb_spec z 0) as [Hneg | Hpos].
  - destruct (digits_spec (- z) ltac:(lia)) as (Hd & _ & Hl & _).
    change (String "-" (digits (- z))) with (String "-" EmptyString +:+ digits (- z)).
    apply rstrip_app; [| now apply rstrip_digits].
    intros E. rewrite E in Hl. change (len EmptyString) with 0 in Hl. lia.
  - destruct (digits_spec z Hpos) as (Hd & _). now apply rstrip_digits.
Qed.

Lemma rstrip_char_str q z : is_digit q = false -> rstrip_char q (str z) = str z.
Proof.
  intros Hq. unfold str. destruct (Z.ltb_spec z 0) as [Hneg | Hpos].
  - destruct (digits_spec (- z) ltac:(lia)) as (Hd & _ & Hl & _).
    change (String "-" (digits (- z))) with (String "-" EmptyString +:+ digits (- z)).
    apply rstrip_char_app; [| now apply rstrip_char_digits].
    intros E. rewrite E in Hl. change (len EmptyString) with 0 in Hl. lia.
  - destruct (digits_spec z Hpos) as (Hd & _). now apply rstrip_char_digits.
Qed.

Lemma endswith_app c a b : b <> EmptyString -> endswith c (a +:+ b) = endswith c b.
Proof.
  intros Hne. induction a as [| d a IH]; [reflexivity |].
  rewrite app_String. cbn [endswith]. rewrite IH.
  destruct (a +:+ b) eqn:E; [| reflexivity].
  destruct a; [now destruct Hne | discriminate].
Qed.

Lemma endswith_digits c s : is_digit c = false -> all_digits s = true -> endswith c s = false.
Proof.
  intros Hc. induction s as [| d s IH]; [reflexivity |]. cbn [all_digits]. intros H.
  apply andb_true_iff in H as [Hd Hs]. cbn [endswith]. rewrite (IH Hs).
  destruct s; [| reflexivity].
  destruct (Ascii.eqb_spec c d) as [-> | _]; [congruence | reflexivity].
Qed.

Lemma endswith_str c z : is_digit c = false -> endswith c (str z) = false.
Proof.
  intros Hc. unfold str. destruct (Z.ltb_spec z 0) as [Hneg | Hpos].
  - destruct (digits_spec (- z) ltac:(lia)) as (Hd & _ & Hl & _).
    change (String "-" (digits (- z))) with (String "-" EmptyString +:+ digits (- z)).
    rewrite endswith_app; [now apply endswith_digits |].
    intros E. rewrite E in Hl. change (len EmptyString) with 0 in Hl. lia.
  - destruct (digits_spec z Hpos) as (Hd & _). now apply endswith_digits.
Qed.

End Splits.

Section Replies.
Import Py PyLib Shot Reply.
Variable int_float : string -> option Z.

Lemma omap_cons_None {A B} (f : A -> option B) x l : f x = None -> omap f (x :: l) = omap f l.
Proof. intros H. cbn. now rewrite H. Qed.

Lemma one_char_app c s : String c EmptyString +:+ s = String c s.
Proof. reflexivity. Qed.

Lemma items_of_app a b : items_of (a +:+ String "," b) = items_of a ++ items_of b.
Proof. unfold items_of. now rewrite split_app, List.filter_app, fmap_app. Qed.

Lemma items_of_space s : items_of (String " " s) = items_of s.
Proof.
  unfold items_of. cbn [split]. change (Ascii.eqb " " ",") with false. cbv iota.
  pose proof (split_nonempty "," s) as Hne.
  destruct (split "," s) as [| p ps]; [now destruct Hne |].
  assert (strip (String " " p) = strip p) as E by reflexivity.
  cbn [List.filter]. rewrite E. destruct (truthy (strip p)); [| reflexivity].
  cbn [fmap list_fmap]. now rewrite E.
Qed.

(** The windows read from a reply are those read from its entries, one
    entry after the other. *)
Lemma windows_of_reply ws :
  omap (window_of int_float) (items_of (reply_of ws))
  = mjoin ((fun win => omap (window_of int_float) (items_of (record_of win))) <$> ws).
Proof.
  induction ws as [| win rest IH]; [reflexivity |].
  destruct rest as [| win' rest].
  - cbn [reply_of fmap list_fmap mjoin list_join]. now rewrite app_nil_r.
  - change (reply_of (win :: win' :: rest))
      with (record_of win +:+ String "," (String " " (reply_of (win' :: rest)))).
    rewrite items_of_app, items_of_space, omap_app, IH. reflexivity.
Qed.

Lemma plain_proc_spec name :
  plain_proc name = true ->
  contains "," name = false /\ contains "|" name = false /\
  forall rest, exists c r, name +:+ String "|" rest = String c r /\
                           is_space c = false /\ Ascii.eqb c dquote = false.
Proof.
  unfold plain_proc. intros H. apply andb_true_iff in H as [H H3].
  apply andb_true_iff in H as [H1 H2]. apply negb_true_iff in H1, H2.
  split; [exact H1 |]. split; [exact H2 |]. intros rest.
  destruct name as [| c r].
  - exists "|"%char, rest. repeat split.
  - apply andb_true_iff in H3 as [H3 H4]. apply negb_true_iff in H3, H4.
    exists c, (r +:+ String "|" rest). repeat split; assumption.
Qed.

(** An entry as a stretch that ends with the height. *)
Lemma record_of_ends win :
  record_of win
  = (proc_name win +:+ "|" +:+ win_name win +:+ "|" +:+ str (win_x win) +:+ "|"
     +:+ str (win_y win) +:+ "|" +:+ str (win_w win) +:+ "|") +:+ str (win_h win).
Proof. unfold record_of. now rewrite !string_app_assoc. Qed.

Lemma reply_of_ends ws : ws <> [] -> exists a z, reply_of ws = a +:+ str z.
Proof.
  induction ws as [| win rest IH]; [intros H; now destruct H |]. intros _.
  destruct rest as [| win' rest].
  - cbn [reply_of]. rewrite record_of_ends. eauto.
  - destruct (IH ltac:(discriminate)) as (a & z & E).
    change (reply_of (win :: win' :: rest))
      with (record_of win +:+ ", " +:+ reply_of (win' :: rest)).
    rewrite E. exists (record_of win +:+ ", " +:+ a), z. now rewrite !string_app_assoc.
Qed.

Lemma reply_of_starts win rest :
  plain_proc (proc_name win) = true ->
  exists c r, reply_of (win :: rest) = String c r /\ is_space c = false.
Proof.
  intros Hp. destruct (plain_proc_spec _ Hp) as (_ & _ & Hs).
  assert (exists tail, reply_of (win :: rest) = proc_name win +:+ String "|" tail) as [tail ->].
  { destruct rest as [| win' rest].
    - cbn [reply_of]. unfold record_of. eauto.
    - change (reply_of (win :: win' :: rest))
        with (record_of win +:+ ", " +:+ reply_of (win' :: rest)).
      unfold record_of. rewrite !string_app_assoc. eauto. }
  destruct (Hs tail) as (c & r & -> & Hc & _). eauto.
Qed.

(** The reply as [get_window_info] sees it: with the white space that
    follows it (the line end that [osascript] prints) stripped off, not empty,
    not ["{}"], and with no braces to take off. *)
Lemma parse_reply_of win rest b :
  plain_proc (proc_name win) = true -> all_space b = true ->
  parse_reply int_float 0 (reply_of (win :: rest) +:+ b)
  = Some (omap (window_of int_float) (items_of (reply_of (win :: rest)))).
Proof.
  intros Hp Hb.
  destruct (reply_of_starts win rest Hp) as (c & r & E & Hc).
  destruct (reply_of_ends (win :: rest) ltac:(discriminate)) as (a & z & E').
  assert (strip (reply_of (win :: rest) +:+ b) = reply_of (win :: rest)) as Hstrip.
  { unfold strip. rewrite E, app_String. cbn [lstrip]. rewrite Hc, <- app_String, <- E.
    rewrite rstrip_spaces by exact Hb. rewrite E'.
    apply rstrip_app; [apply str_not_empty | apply rstrip_str]. }
  assert (endswith "}" (reply_of (win :: rest)) = false) as Hend.
  { rewrite E', endswith_app by apply str_not_empty. now apply endswith_str. }
  unfold parse_reply. cbn [Z.eqb negb]. rewrite Hstrip.
  assert (truthy (reply_of (win :: rest)) = true) as -> by now rewrite E.
  assert (String.eqb (reply_of (win :: rest)) "{}" = false) as ->.
  { apply String.eqb_neq. intros Heq. rewrite Heq in Hend. discriminate. }
  cbn [negb orb]. unfold windows_of, content_of. now rewrite Hend, andb_false_r.
Qed.

(** An entry with plain names is one item, and reads back as its window. *)
Lemma record_plain win :
  plain_names win = true -> reads_back int_float win ->
  omap (window_of int_float) (items_of (record_of win)) = [win].
Proof.
  unfold plain_names. intros Hp (Rx & Ry & Rw & Rh). apply andb_true_iff in Hp as [Hp Ht].
  destruct (plain_proc_spec _ Hp) as (P1 & P2 & Hs).
  unfold plain_title in Ht. apply andb_true_iff in Ht as [T1 T2].
  apply negb_true_iff in T1, T2.
  assert (forall z, contains "," (str z) = false) as Sc
    by (intros z; apply str_contains; [reflexivity | discriminate]).
  assert (forall z, contains "|" (str z) = false) as Sb
    by (intros z; apply str_contains; [reflexivity | discriminate]).
  assert (contains "," (record_of win) = false) as Hnc.
  { unfold record_of. rewrite !contains_app, P1, T1, !Sc. reflexivity. }
  assert (strip (record_of win) = record_of win) as Hstrip.
  { unfold strip.
    destruct (Hs (win_name win +:+ "|" +:+ str (win_x win) +:+ "|" +:+ str (win_y win) +:+ "|"
                  +:+ str (win_w win) +:+ "|" +:+ str (win_h win))) as (c & r & E & Hc & _).
    assert (lstrip (record_of win) = record_of win) as ->.
    { unfold record_of. change ("|" +:+ ?s)%string with (String "|" s) at 1.
      rewrite E. cbn [lstrip]. now rewrite Hc. }
    rewrite record_of_ends.
    apply rstrip_app; [apply str_not_empty | apply rstrip_str]. }
  assert (strip_char dquote (record_of win) = record_of win) as Hquote.
  { unfold strip_char.
    destruct (Hs (win_name win +:+ "|" +:+ str (win_x win) +:+ "|" +:+ str (win_y win) +:+ "|"
                  +:+ str (win_w win) +:+ "|" +:+ str (win_h win))) as (c & r & E & _ & Hq).
    assert (lstrip_char dquote (record_of win) = record_of win) as ->.
    { unfold record_of. change ("|" +:+ ?s)%string with (String "|" s) at 1.
      rewrite E. cbn [lstrip_char]. now rewrite Hq. }
    rewrite record_of_ends.
    apply rstrip_char_app; [apply str_not_empty | now apply rstrip_char_str]. }
  unfold items_of. rewrite (split_no_sep _ _ Hnc). cbn [List.filter].
  rewrite Hstrip.
  assert (truthy (record_of win) = true) as ->.
  { rewrite record_of_ends. unfold truthy. apply negb_true_iff, String.eqb_neq.
    intros E. apply (f_equal String.length) in E. rewrite string_length_app in E.
    pose proof (str_not_empty (win_h win)). destruct (str (win_h win)); [contradiction |].
    cbn in E. lia. }
  cbn [fmap list_fmap omap list_omap]. rewrite Hstrip, Hquote.
  unfold window_of, record_of. rewrite !one_char_app.
  rewrite (split_app_sep _ _ _ P2), (split_app_sep _ _ _ T2).
  rewrite !split_app_sep by apply Sb. rewrite split_no_sep by apply Sb.
  rewrite Rx, Ry, Rw, Rh. now destruct win.
Qed.

(** An item is read as a window only if it holds five bars. *)
Lemma window_of_bars item : count "|" item <> 5%nat -> window_of int_float item = None.
Proof.
  intros H. unfold window_of. pose proof (length_split "|" item) as Hl.
  destruct (split "|" item) as [| a [| b [| c [| d [| x [| y [| z l]]]]]]]; try reflexivity.
  cbn [length] in Hl. lia.
Qed.

(** An entry whose title holds a comma falls apart into items none of which
    is read as a window. *)
Lemma record_comma_title win :
  plain_proc (proc_name win) = true ->
  contains "," (win_name win) = true -> contains "|" (win_name win) = false ->
  omap (window_of int_float) (items_of (record_of win)) = [].
Proof.
  intros Hp Hc Hb. destruct (plain_proc_spec _ Hp) as (P1 & P2 & _).
  assert (forall z, count "|" (str z) = O) as Sb.
  { intros z. apply count_contains, str_contains; [reflexivity | discriminate]. }
  assert (count "|" (record_of win) = 5%nat) as Hfive.
  { unfold record_of. rewrite !count_app, !Sb, (count_contains _ _ P2), (count_contains _ _ Hb).
    reflexivity. }
  destruct (contains_split _ _ Hc) as (t1 & t2 & Et & Ht1).
  set (tail := (str (win_x win) +:+ "|" +:+ str (win_y win) +:+ "|"
                +:+ str (win_w win) +:+ "|" +:+ str (win_h win))%string).
  assert (record_of win
          = (proc_name win +:+ "|" +:+ t1) +:+ String "," (t2 +:+ "|" +:+ tail)) as Hrec.
  { unfold record_of. fold tail. rewrite Et. rewrite !string_app_assoc. reflexivity. }
  assert (count "|" t1 = O /\ count "|" t2 = O) as [Ct1 Ct2].
  { pose proof (count_contains _ _ Hb) as Hz. rewrite Et, count_app in Hz.
    cbn [count] in Hz. change (Ascii.eqb "," "|") with false in Hz. cbv iota in Hz. lia. }
  assert (count "|" tail = 3%nat) as Ctail.
  { unfold tail. rewrite !count_app, !Sb. reflexivity. }
  assert (forall p, p ∈ split "," (record_of win) -> (count "|" p <= 4)%nat) as Hpieces.
  { intros p Hin. rewrite Hrec, split_app in Hin. apply elem_of_app in Hin as [Hin | Hin].
    - apply (count_split _ "|") in Hin. rewrite !count_app in Hin.
      rewrite (count_contains _ _ P2), Ct1 in Hin. cbn [count] in Hin.
      change (Ascii.eqb "|" "|") with true in Hin. cbv iota in Hin. lia.
    - apply (count_split _ "|") in Hin. rewrite !count_app, Ct2, Ctail in Hin.
      cbn [count] in Hin. change (Ascii.eqb "|" "|") with true in Hin. cbv iota in Hin. lia. }
  unfold items_of.
  induction (split "," (record_of win)) as [| p ps IH]; [reflexivity |].
  cbn [List.filter].
  assert (omap (window_of int_float)
            ((fun i => strip_char dquote (strip i))
               <$> List.filter (fun i => truthy (strip i)) ps) = []) as IH'.
  { apply IH. intros q Hq. apply Hpieces. now right. }
  destruct (truthy (strip p)); [| exact IH'].
  cbn [fmap list_fmap]. rewrite omap_cons_None; [exact IH' |].
  apply window_of_bars.
  { specialize (Hpieces p ltac:(left)).
    pose proof (count_rstrip_char dquote "|" (lstrip_char dquote (strip p))).
    pose proof (count_lstrip_char dquote "|" (strip p)).
    pose proof (count_rstrip "|" (lstrip p)). pose proof (count_lstrip "|" p).
    unfold strip_char, strip in *. lia. }
Qed.

End Replies.

(** X12.  The reply of the enumeration script reads back.  Take windows
    whose names are plain (no comma and no bar in the process name or the
    title, no white space or double quote at the start of the process name)
    and whose four numbers [int(float(.))] reads back from their decimal
    form.  From the reply that lists them in the form the script builds,
    ["proc|title|x|y|w|h"] joined by [", "], with any white space after it,
    lines 136-155 obtain exactly these windows, in the same order. *)
Theorem X12_reply_read_back
    (int_float : string -> option Z) (windows : list Shot.window) (b : string) :
  windows <> [] -> PyLib.all_space b = true ->
  Forall (fun win => Reply.plain_names win = true /\ Reply.reads_back int_float win)
         windows ->
  Reply.parse_reply int_float 0 (Reply.reply_of windows +:+ b) = Some windows.
Proof.
  intros Hne Hb Hall. destruct windows as [| win rest]; [now destruct Hne |].
  pose proof Hall as Hfirst. apply Forall_inv in Hfirst as [Hp _].
  unfold Reply.plain_names in Hp. apply andb_true_iff in Hp as [Hp _].
  rewrite (parse_reply_of int_float win rest b Hp Hb), windows_of_reply. f_equal.
  clear Hne Hp. induction Hall as [| v vs [Hv Rv] _ IH]; [reflexivity |].
  cbn [fmap list_fmap mjoin list_join]. rewrite (record_plain int_float v Hv Rv).
  cbn [app]. f_equal. exact IH.
Qed.

Lemma X12_reply_read_back_witness :
  Reply.parse_reply Py.int 0
    ("Reader|Book|0|-25|300|200, Safari|Start Page|10|20|1200|900" +:+ PyLib.newline)
  = Some [Shot.Window "Reader" "Book" 0 (-25) 300 200;
          Shot.Window "Safari" "Start Page" 10 20 1200 900].
Proof.
  apply (X12_reply_read_back Py.int
           [Shot.Window "Reader" "Book" 0 (-25) 300 200;
            Shot.Window "Safari" "Start Page" 10 20 1200 900] PyLib.newline).
  - discriminate.
  - reflexivity.
  - repeat constructor.
Defined.

(** X13.  A comma in a title hides the window.  The reply is cut at every
    comma, so the entry of a window whose title holds a comma falls apart
    into items with fewer than six fields, and all of them are passed over:
    the list obtained is that of the other windows, and no window on it
    carries that title.  Such a window cannot be found, by title or by
    process name. *)
Theorem X13_comma_in_title_hides_window
    (int_float : string -> option Z) (before after : list Shot.window) (win : Shot.window)
    (b : string) :
  PyLib.all_space b = true ->
  Forall (fun v => Reply.plain_names v = true /\ Reply.reads_back int_float v)
         (before ++ after) ->
  Reply.plain_proc (Shot.proc_name win) = true ->
  Py.contains "," (Shot.win_name win) = true ->
  Py.contains "|" (Shot.win_name win) = false ->
  Reply.parse_reply int_float 0 (Reply.reply_of (before ++ win :: after) +:+ b)
  = Some (before ++ after) /\
  Forall (fun v => Shot.win_name v <> Shot.win_name win) (before ++ after).
Proof.
  intros Hb Hall Hp Hc Hbar. split.
  - assert (exists first rest, before ++ win :: after = first :: rest /\
                               Reply.plain_proc (Shot.proc_name first) = true)
      as (first & rest & E & Hfirst).
    { destruct before as [| v vs]; [now exists win, after |].
      exists v, (vs ++ win :: after). split; [reflexivity |].
      apply Forall_inv in Hall as [Hv _].
      unfold Reply.plain_names in Hv. now apply andb_true_iff in Hv as [Hv _]. }
    rewrite E, (parse_reply_of int_float first rest b Hfirst Hb), <- E, windows_of_reply.
    f_equal. rewrite fmap_app, join_app. cbn [fmap list_fmap mjoin list_join].
    rewrite (record_comma_title int_float win Hp Hc Hbar). cbn [app].
    apply Forall_app in Hall as [Hbefore Hafter].
    assert (forall vs,
              Forall (fun v => Reply.plain_names v = true /\ Reply.reads_back int_float v) vs ->
              mjoin ((fun v => omap (Reply.window_of int_float)
                                 (Reply.items_of (Reply.record_of v))) <$> vs) = vs) as Hplain.
    { intros vs H. induction H as [| v vs [Hv Rv] _ IH]; [reflexivity |].
      cbn [fmap list_fmap mjoin list_join]. rewrite (record_plain int_float v Hv Rv).
      cbn [app]. f_equal. exact IH. }
    now rewrite !Hplain.
  - eapply Forall_impl; [exact Hall |]. intros v [Hv _] Heq.
    unfold Reply.plain_names, Reply.plain_title in Hv.
    apply andb_true_iff in Hv as [_ Hv]. apply andb_true_iff in Hv as [Hv _].
    apply negb_true_iff in Hv. congruence.
Qed.

Lemma X13_comma_in_title_hides_window_witness :
  Reply.parse_reply Py.int 0
    ("Reader|Book|0|0|300|200, Safari|News, Sport|10|20|1200|900" +:+ PyLib.newline)
  = Some [Shot.Window "Reader" "Book" 0 0 300 200].
Proof.
  exact (proj1 (X13_comma_in_title_hides_window Py.int
                  [Shot.Window "Reader" "Book" 0 0 300 200] []
                  (Shot.Window "Safari" "News, Sport" 10 20 1200 900) PyLib.newline
                  eq_refl ltac:(repeat constructor) eq_refl eq_refl eq_refl)).
Defined.

(** ** The OCR passes: what is asked for and what is written *)

Section OcrFiles.
Import Eff LlmOcr.
Local Open Scope eff_scope.

(** The events that write nothing and ask for nothing. *)
Lemma first_pass_idle e png_files : forall txt_files retry_list w,
  (forall png, png ∈ png_files ->
     is_Some (fs w !! txt_path_of png) \/ Py.truthy (MISTRAL_API_KEY e) = false) ->
  exists w' hist,
    first_pass e png_files txt_files retry_list w = (Ok (txt_files, retry_list), w') /\
    fs w' = fs w /\ posts w' = posts w /\ trace w' = rev hist ++ trace w /\
    Forall (fun ev => match ev with
                      | EvLog (LogExists _) | EvLog LogNoKey | EvSleep _ => True
                      | _ => False
                      end) hist /\
    ((forall png, png ∈ png_files -> is_Some (fs w !! txt_path_of png)) ->
     hist = (fun png => EvLog (LogExists (txt_path_of png))) <$> png_files).
Proof.
  induction png_files as [| png rest IH]; intros txt_files retry_list w Hidle.
  - exists w, []. repeat split; auto.
  - cbn [first_pass]. unfold bind at 1, path_exists.
    destruct (bool_decide (is_Some (fs w !! txt_path_of png))) eqn:Hex.
    + set (w1 := snd (logger (LogExists (txt_path_of png)) w)).
      destruct (IH txt_files retry_list w1) as (w' & hist & E & F & P & T & A & X).
      { intros q Hq. apply Hidle. now right. }
      exists w', (EvLog (LogExists (txt_path_of png)) :: hist).
      split; [exact E |]. split; [exact F |]. split; [exact P |]. split; [| split].
      * rewrite T. cbn [rev]. rewrite <- app_assoc. reflexivity.
      * constructor; [exact I | exact A].
      * intros Hall. rewrite fmap_cons. f_equal. apply X. intros q Hq. apply Hall. now right.
    + apply bool_decide_eq_false in Hex.
      destruct (Hidle png ltac:(left)) as [Hsome | Key]; [contradiction |].
      unfold perform_mistral_ocr. rewrite Key. cbn [negb].
      unfold bind at 1. unfold bind at 1. unfold logger, emit, ret. cbv beta iota.
      unfold bind at 1, ret. cbv beta iota. unfold bind at 1, sleep, emit. cbv beta iota.
      cbn [fst snd].
      match goal with |- context [first_pass e rest txt_files retry_list ?w0] =>
        set (w1 := w0) end.
      destruct (IH txt_files retry_list w1) as (w' & hist & E & F & P & T & A & X).
      { intros q Hq. destruct (Hidle q ltac:(now right)) as [Hq' | Hq']; [left | now right].
        exact Hq'. }
      exists w', (EvLog LogNoKey :: EvSleep (2 # 10) :: hist).
      split; [exact E |]. split; [exact F |]. split; [exact P |]. split; [| split].
      * rewrite T. cbn [rev w1 trace]. rewrite <- !app_assoc. reflexivity.
      * constructor; [exact I |]. constructor; [exact I | exact A].
      * intros Hall. destruct Hex. apply Hall. left.
Qed.

End OcrFiles.

(** X14.  Without an API key nothing is asked of the service and no text
    is written.  A run over a directory then sends no request at all and
    ends normally; without the merge option it leaves every file as it was,
    and all it does is log and sleep. *)
Theorem X14_no_key_no_request
    (e : LlmOcr.env) (input_dir_name : string) (png_files : list string) (merge : bool)
    (w : LlmOcr.world) :
  Py.truthy (LlmOcr.MISTRAL_API_KEY e) = false ->
  exists w' hist,
    LlmOcr.main e input_dir_name png_files merge w = (Eff.Ok tt, w') /\
    LlmOcr.history w' = LlmOcr.history w ++ hist /\
    LlmOcr.posted hist = [] /\ LlmOcr.posts w' = LlmOcr.posts w /\
    (merge = false ->
     LlmOcr.fs w' = LlmOcr.fs w /\
     Forall (fun ev => match ev with
                       | LlmOcr.EvLog (LlmOcr.LogExists _) | LlmOcr.EvLog LlmOcr.LogNoKey
                       | LlmOcr.EvSleep _ => True
                       | _ => False
                       end) hist).
Proof.
  intros Key.
  destruct (first_pass_idle e png_files [] [] w) as (w1 & hist & E1 & F1 & P1 & T1 & A1 & _).
  { intros png _. now right. }
  unfold LlmOcr.main. rewrite (bind_ok _ _ _ _ _ E1). cbv beta iota.
  unfold Eff.bind at 1, Eff.ret. cbv beta iota.
  assert (LlmOcr.posted hist = []) as Hposted.
  { clear - A1. induction A1 as [| ev l Hev _ IH]; [reflexivity |].
    destruct ev as [png | s | p | l0]; try contradiction; exact IH. }
  destruct merge.
  - destruct (merge_texts_total e input_dir_name w1) as (w2 & rest & E2 & [T2 P2] & N2).
    exists w2, (hist ++ rest). split; [exact E2 |]. split; [| split; [| split; [| discriminate]]].
    + unfold LlmOcr.history. rewrite T2, T1, !rev_app_distr, !rev_involutive.
      now rewrite app_assoc.
    + now rewrite posted_app, Hposted, N2.
    + rewrite P2, N2, P1. cbn. lia.
  - exists w1, hist. split; [reflexivity |]. split; [| split; [exact Hposted |]].
    + unfold LlmOcr.history. now rewrite T1, rev_app_distr, rev_involutive.
    + split; [exact P1 |]. intros _. split; [exact F1 | exact A1].
Qed.

Lemma X14_no_key_no_request_witness :
  let e := {| LlmOcr.MISTRAL_API_KEY := ""; LlmOcr.readable := fun _ => false;
              LlmOcr.answers := fun _ _ => false;
              LlmOcr.remote := LlmOcr.remote LlmOcr.demo_env;
              LlmOcr.flushed := fun _ => EmptyString |} in
  exists w',
    LlmOcr.main e "d" ["a.png"; "b.png"]%string false (LlmOcr.initial ∅) = (Eff.Ok tt, w') /\
    LlmOcr.posts w' = O /\ LlmOcr.fs w' = ∅.
Proof.
  intros e.
  destruct (X14_no_key_no_request e "d" ["a.png"; "b.png"]%string false (LlmOcr.initial ∅)
              eq_refl) as (w' & hist & E & _ & _ & P & H).
  destruct (H eq_refl) as [F _]. exists w'. auto.
Defined.

(** X15.  Resuming costs nothing.  When every image of the directory
    already has its text, a run sends no request, does not sleep and, without
    the merge option, changes no file: all it does is log, image by image,
    that the text exists. *)
Theorem X15_resume_is_idle
    (e : LlmOcr.env) (input_dir_name : string) (png_files : list string) (w : LlmOcr.world) :
  (forall png, png ∈ png_files -> is_Some (LlmOcr.fs w !! LlmOcr.txt_path_of png)) ->
  exists w',
    LlmOcr.main e input_dir_name png_files false w = (Eff.Ok tt, w') /\
    LlmOcr.fs w' = LlmOcr.fs w /\ LlmOcr.posts w' = LlmOcr.posts w /\
    LlmOcr.history w'
    = LlmOcr.history w
      ++ ((fun png => LlmOcr.EvLog (LlmOcr.LogExists (LlmOcr.txt_path_of png))) <$> png_files).
Proof.
  intros Hall.
  destruct (first_pass_idle e png_files [] [] w) as (w1 & hist & E1 & F1 & P1 & T1 & _ & X1).
  { intros png Hin. left. now apply Hall. }
  unfold LlmOcr.main. rewrite (bind_ok _ _ _ _ _ E1). cbv beta iota.
  unfold Eff.bind at 1, Eff.ret. cbv beta iota.
  exists w1. split; [reflexivity |]. split; [exact F1 |]. split; [exact P1 |].
  unfold LlmOcr.history. rewrite T1, rev_app_distr, rev_involutive. f_equal. now apply X1.
Qed.

Lemma X15_resume_is_idle_witness :
  let files : gmap string string := <["a.txt"%string := "A"%string]> ∅ in
  exists w',
    LlmOcr.main LlmOcr.demo_env "d" ["a.png"%string] false (LlmOcr.initial files)
    = (Eff.Ok tt, w') /\
    LlmOcr.fs w' = files /\ LlmOcr.posts w' = O.
Proof.
  intros files.
  destruct (X15_resume_is_idle LlmOcr.demo_env "d" ["a.png"%string] (LlmOcr.initial files))
    as (w' & E & F & P & _).
  { intros png Hin. apply list_elem_of_singleton in Hin as ->. vm_compute. eauto. }
  exists w'. auto.
Defined.

Section Stripping.
Import Py.

Lemma rstrip_cons c s :
  rstrip (String c s)
  = match rstrip s with
    | EmptyString => if is_space c then EmptyString else String c EmptyString
    | r' => String c r'
    end.
Proof. reflexivity. Qed.

Lemma rstrip_idem s : rstrip (rstrip s) = rstrip s.
Proof.
  induction s as [| c s IH]; [reflexivity |]. rewrite rstrip_cons.
  destruct (rstrip s) as [| d r] eqn:E.
  - destruct (is_space c) eqn:Hc; [reflexivity |]. cbn [rstrip]. now rewrite Hc.
  - rewrite rstrip_cons, IH. reflexivity.
Qed.

(** What [lstrip] returns has no white space in front, and [rstrip] keeps
    it so. *)
Lemma lstrip_rstrip_lstrip s : lstrip (rstrip (lstrip s)) = rstrip (lstrip s).
Proof.
  assert (forall t, (String.length (lstrip t) <= String.length t)%nat) as Hle.
  { induction t as [| d t IHt]; [reflexivity |]. cbn [lstrip].
    destruct (is_space d); cbn [String.length]; lia. }
  assert (forall x, lstrip x = x -> lstrip (rstrip x) = rstrip x) as H.
  { intros [| c r] Hx; [reflexivity |]. cbn [lstrip] in Hx.
    destruct (is_space c) eqn:Hc.
    - exfalso. pose proof (Hle r) as Hl. rewrite Hx in Hl. cbn [String.length] in Hl. lia.
    - rewrite rstrip_cons. destruct (rstrip r); rewrite ?Hc; cbn [lstrip]; now rewrite Hc. }
  apply H. induction s as [| c s IH]; [reflexivity |]. cbn [lstrip].
  destruct (is_space c) eqn:Hc; [exact IH |]. cbn [lstrip]. now rewrite Hc.
Qed.

(** [strip] of a stripped string changes nothing. *)
Lemma strip_idem s : strip (strip s) = strip s.
Proof. unfold strip. now rewrite lstrip_rstrip_lstrip, rstrip_idem. Qed.

End Stripping.

Section OcrTexts.
Import Eff LlmOcr LlmOcrFile.
Local Open Scope eff_scope.

Lemma texts_only_refl pngs w : texts_only pngs w w.
Proof. intros p. now left. Qed.

Lemma texts_only_trans pngs w1 w2 w3 :
  texts_only pngs w1 w2 -> texts_only pngs w2 w3 -> texts_only pngs w1 w3.
Proof.
  intros H12 H23 p. destruct (H23 p) as [E | R]; [| now right].
  rewrite E. apply H12.
Qed.

Lemma texts_only_mono pngs pngs' w w' :
  (forall q, q ∈ pngs -> q ∈ pngs') -> texts_only pngs w w' -> texts_only pngs' w w'.
Proof.
  intros Hsub H p. destruct (H p) as [E | (Hin & R)]; [now left | right].
  split; [| exact R]. apply list_elem_of_fmap in Hin as (q & -> & Hq).
  apply list_elem_of_fmap. exists q. auto.
Qed.

Lemma outcome_stripped r t :
  outcome_of r = Some t -> String.eqb t RATE_LIMIT = false -> Py.strip t = t.
Proof.
  unfold outcome_of. destruct (status_code r =? 200).
  - intros [= <-] _. apply strip_idem.
  - destruct (status_code r =? 429); [| discriminate].
    intros [= <-]. discriminate.
Qed.

(** One request, however it ends: no file changes, and what it returns,
    the marker apart, is a stripped text. *)
Lemma perform_text e png w :
  exists r w',
    perform_mistral_ocr e png w = (r, w') /\ fs w' = fs w /\
    (forall t, r = Ok (Some t) -> String.eqb t RATE_LIMIT = false -> Py.strip t = t).
Proof.
  unfold perform_mistral_ocr. destruct (Py.truthy (MISTRAL_API_KEY e)); cbn [negb].
  - unfold bind at 1, encode_file. destruct (readable e png).
    2: { eexists _, w. split; [reflexivity |]. split; [reflexivity | discriminate]. }
    unfold bind at 1, post. destruct (answers e (posts w) png).
    2: { eexists _, _. split; [reflexivity |]. split; [reflexivity | discriminate]. }
    pose proof (outcome_stripped (remote e (posts w) png)) as Hs. unfold outcome_of in Hs.
    destruct (status_code (remote e (posts w) png) =? 200);
      [| destruct (status_code (remote e (posts w) png) =? 429)];
      eexists _, _; (split; [reflexivity |]); (split; [reflexivity |]);
      intros t [= <-] Hr; now apply Hs.
  - eexists _, _. split; [reflexivity |]. split; [reflexivity | discriminate].
Qed.

Lemma write_text_only png t w :
  is_text (Some t) = true -> Py.strip t = t ->
  forall w1, fs w1 = fs w ->
  texts_only [png] w (snd (write_text (txt_path_of png) t w1)).
Proof.
  intros Ht Hs w1 F p. cbn. destruct (decide (p = txt_path_of png)) as [-> | Hne].
  - right. split; [left |]. exists t. rewrite lookup_insert_eq. auto.
  - left. rewrite lookup_insert_ne by congruence. now rewrite F.
Qed.

Lemma first_pass_texts e png_files : forall txt_files retry_list w,
  exists r w',
    first_pass e png_files txt_files retry_list w = (r, w') /\
    texts_only png_files w w' /\
    (forall lists, r = Ok lists ->
       forall q, q ∈ snd lists -> q ∈ retry_list \/ q ∈ png_files).
Proof.
  induction png_files as [| png rest IH]; intros txt_files retry_list w.
  - eexists _, w. split; [reflexivity |].
    split; [apply texts_only_refl |]. intros lists [= <-]. cbn [snd]. auto.
  - cbn [first_pass]. unfold bind at 1, path_exists.
    destruct (bool_decide (is_Some (fs w !! txt_path_of png))).
    + set (w1 := snd (logger (LogExists (txt_path_of png)) w)).
      destruct (IH txt_files retry_list w1) as (r & w' & E & T & R).
      exists r, w'. split; [exact E |]. split.
      * apply (texts_only_mono rest); [intros q Hq; now right | exact T].
      * intros lists Hl q Hq. destruct (R lists Hl q Hq); [now left | right; now right].
    + destruct (perform_text e png w) as (r1 & w1 & E1 & F1 & S1).
      destruct r1 as [text | x].
      2: { rewrite (bind_raise _ _ _ _ _ E1). exists (Raise x), w1.
           split; [reflexivity |]. split; [| discriminate].
           intros p. left. now rewrite F1. }
      rewrite (bind_ok _ _ _ _ _ E1).
      assert (exists w2 lists,
                match text with
                | Some t =>
                    if String.eqb t RATE_LIMIT then ret (txt_files, retry_list ++ [png])
                    else if Py.truthy t then
                      write_text (txt_path_of png) t ;;
                      logger (LogSaved (txt_path_of png)) ;;
                      ret (txt_files ++ [txt_path_of png], retry_list)
                    else ret (txt_files, retry_list)
                | None => ret (txt_files, retry_list)
                end w1 = (Ok lists, w2) /\
                texts_only [png] w w2 /\
                (forall q, q ∈ snd lists -> q ∈ retry_list \/ q = png))
        as (w2 & lists & E2 & T2 & R2).
      { assert (texts_only [png] w w1) as T1 by (intros p; left; now rewrite F1).
        destruct text as [t |].
        - destruct (String.eqb t RATE_LIMIT) eqn:Hr.
          + eexists w1, _. split; [reflexivity |]. split; [exact T1 |].
            cbn [snd]. intros q Hq. apply elem_of_app in Hq as [Hq | Hq]; [now left |].
            apply list_elem_of_singleton in Hq. now right.
          + destruct (Py.truthy t) eqn:Ht.
            * eexists _, _. split; [reflexivity |]. split; [| cbn [snd]; auto].
              apply (write_text_only png t w); [| now apply S1 | exact F1].
              cbn [is_text]. now rewrite Ht, Hr.
            * eexists w1, _. split; [reflexivity |]. split; [exact T1 | cbn [snd]; auto].
        - eexists w1, _. split; [reflexivity |]. split; [exact T1 | cbn [snd]; auto]. }
      rewrite (bind_ok _ _ _ _ _ E2).
      set (w3 := snd (sleep (2 # 10) w2)).
      destruct (IH (fst lists) (snd lists) w3) as (r & w' & E & T & R).
      exists r, w'. split; [exact E |]. split.
      * apply (texts_only_trans _ w w2).
        -- apply (texts_only_mono [png]); [| exact T2].
           intros q Hq. apply list_elem_of_singleton in Hq as ->. left.
        -- apply (texts_only_mono rest); [intros q Hq; now right | exact T].
      * intros lists' Hl q Hq. destruct (R lists' Hl q Hq) as [Hq' | Hq']; [| right; now right].
        destruct (R2 q Hq') as [? | ->]; [now left | right; left].
Qed.

Lemma retry_pass_texts e retry_list : forall txt_files w,
  exists r w',
    retry_pass e retry_list txt_files w = (r, w') /\
    texts_only retry_list w w'.
Proof.
  induction retry_list as [| png rest IH]; intros txt_files w.
  - eexists _, w. split; [reflexivity | apply texts_only_refl].
  - cbn [retry_pass].
    destruct (perform_text e png w) as (r1 & w1 & E1 & F1 & S1).
    destruct r1 as [text | x].
    2: { rewrite (bind_raise _ _ _ _ _ E1). exists (Raise x), w1.
         split; [reflexivity |]. intros p. left. now rewrite F1. }
    rewrite (bind_ok _ _ _ _ _ E1).
    assert (exists w2 txts2,
              match text with
              | Some t =>
                  if Py.truthy t && negb (String.eqb t RATE_LIMIT) then
                    write_text (txt_path_of png) t ;;
                    logger (LogRetryOk (txt_path_of png)) ;;
                    ret (txt_files ++ [txt_path_of png])
                  else logger (LogRetryFailed png) ;; ret txt_files
              | None => logger (LogRetryFailed png) ;; ret txt_files
              end w1 = (Ok txts2, w2) /\ texts_only [png] w w2)
      as (w2 & txts2 & E2 & T2).
    { assert (forall w0, fs w0 = fs w1 -> texts_only [png] w w0) as T1
        by (intros w0 F0 p; left; now rewrite F0, F1).
      destruct text as [t |].
      - destruct (Py.truthy t && negb (String.eqb t RATE_LIMIT)) eqn:Ht.
        + eexists _, _. split; [reflexivity |].
          apply (write_text_only png t w); [exact Ht | | exact F1].
          apply S1; [reflexivity |]. apply andb_true_iff in Ht as [_ Ht].
          now apply negb_true_iff in Ht.
        + eexists _, _. split; [reflexivity |]. now apply T1.
      - eexists _, _. split; [reflexivity |]. now apply T1. }
    rewrite (bind_ok _ _ _ _ _ E2).
    destruct (IH txts2 w2) as (r & w' & E & T).
    exists r, w'. split; [exact E |].
    apply (texts_only_trans _ w w2).
    + apply (texts_only_mono [png]); [| exact T2].
      intros q Hq. apply list_elem_of_singleton in Hq as ->. left.
    + apply (texts_only_mono rest); [intros q Hq; now right | exact T].
Qed.

(** The two passes together, however the run ends. *)
Lemma passes_texts e input_dir_name png_files w :
  exists r w',
    LlmOcr.main e input_dir_name png_files false w = (r, w') /\
    texts_only png_files w w'.
Proof.
  destruct (first_pass_texts e png_files [] [] w) as (r1 & w1 & E1 & T1 & R1).
  unfold LlmOcr.main. destruct r1 as [[txts1 retry1] | x].
  2: { rewrite (bind_raise _ _ _ _ _ E1). now exists (Raise x), w1. }
  rewrite (bind_ok _ _ _ _ _ E1). cbv beta iota.
  assert (forall q, q ∈ retry1 -> q ∈ png_files) as Hsub.
  { intros q Hq. destruct (R1 _ eq_refl q Hq) as [Hq' | Hq']; [inversion Hq' | exact Hq']. }
  destruct retry1 as [| d ds].
  - eexists _, w1. split; [reflexivity | exact T1].
  - set (w1' := snd (sleep 3 (snd (logger (LogRetryAnnounce (length (d :: ds))) w1)))).
    destruct (retry_pass_texts e (d :: ds) txts1 w1') as (r2 & w2 & E2 & T2).
    assert ((logger (LogRetryAnnounce (length (d :: ds))) ;; sleep 3 ;;
             retry_pass e (d :: ds) txts1) w1 = (r2, w2)) as E' by exact E2.
    assert (texts_only png_files w w2) as T.
    { apply (texts_only_trans _ w w1); [exact T1 |].
      apply (texts_only_mono (d :: ds)); [exact Hsub |].
      intros p. apply (T2 p). }
    destruct r2 as [txts2 | x].
    + exists (Ok tt), w2. split; [| exact T].
      unfold bind at 1. rewrite E'. reflexivity.
    + exists (Raise x), w2. split; [| exact T].
      unfold bind at 1. rewrite E'. reflexivity.
Qed.

End OcrTexts.

(** X16.  What the two passes write.  After a run over a directory
    (without the merge option), however it ends, every file is as it was
    before, or it is the text file of one of the images and holds a text that
    is not empty, is not the marker ["RATE_LIMIT"] and has no white space at
    either end.  In particular no file is removed, no empty text file is
    made, and the marker is never written out as a text.  When every image
    can be read and every request is answered the run ends normally. *)
Theorem X16_saved_texts_are_texts
    (e : LlmOcr.env) (input_dir_name : string) (png_files : list string) (w : LlmOcr.world) :
  exists r w',
    LlmOcr.main e input_dir_name png_files false w = (r, w') /\
    ((forall png, LlmOcr.readable e png = true) ->
     (forall k png, LlmOcr.answers e k png = true) ->
     r = Eff.Ok tt) /\
    forall p,
      LlmOcr.fs w' !! p = LlmOcr.fs w !! p \/
      (p ∈ LlmOcr.txt_path_of <$> png_files /\
       exists t, LlmOcr.fs w' !! p = Some t /\
                 t <> EmptyString /\ t <> LlmOcr.RATE_LIMIT /\ Py.strip t = t).
Proof.
  destruct (passes_texts e input_dir_name png_files w) as (r & w' & E & T).
  exists r, w'. split; [exact E |]. split.
  { intros Hr Ha.
    destruct (main_answered e input_dir_name png_files false w Hr Ha) as (w'' & ? & ? & ? & ? & E' & _).
    rewrite E in E'. now injection E' as ->. }
  intros p.
  destruct (T p) as [H | (Hin & t & Ht & Htext & Hstrip)]; [now left | right].
  split; [exact Hin |]. exists t. split; [exact Ht |].
  cbn [LlmOcr.is_text] in Htext. apply andb_true_iff in Htext as [H1 H2].
  apply negb_true_iff in H2. unfold Py.truthy in H1. apply negb_true_iff in H1.
  apply String.eqb_neq in H1, H2. auto.
Qed.

Section OneRequest.
Import Eff LlmOcr.

(** One request with a key set, for a file that can be read, when the
    request is answered: the request, and a log line unless the status is
    200. *)
Lemma perform_exact e png w :
  Py.truthy (MISTRAL_API_KEY e) = true ->
  readable e png = true -> answers e (posts w) png = true ->
  let reply := remote e (posts w) png in
  exists logs,
    perform_mistral_ocr e png w
    = (Ok (outcome_of reply),
       {| fs := fs w; trace := rev (EvPost png :: logs) ++ trace w; posts := S (posts w) |}) /\
    Forall (fun ev => match ev with EvLog _ => True | _ => False end) logs.
Proof.
  intros Key Hr Ha reply. unfold perform_mistral_ocr, outcome_of. rewrite Key. cbn [negb].
  unfold bind at 1, encode_file. rewrite Hr.
  unfold bind at 1, post. rewrite Ha. fold reply.
  destruct (status_code reply =? 200).
  { exists []. split; [reflexivity | constructor]. }
  destruct (status_code reply =? 429).
  { exists [EvLog (LogRateLimit png)]. split; [reflexivity | repeat constructor]. }
  exists [EvLog (LogApiError (status_code reply))]. split; [reflexivity | repeat constructor].
Qed.

End OneRequest.

(** X17.  With one input file there is no second try, and the rate limit
    is written out as if it were the text.  The input and the output are
    named by plain names, files of the working directory, and a key is set.
    If the input cannot be read the run raises before it sends anything; if
    the request gets no answer the run raises after sending it and writes
    nothing.  Otherwise the run sends exactly one request and does not
    sleep, and whatever [perform_mistral_ocr] returns that is not empty goes
    into the output file, the marker ["RATE_LIMIT"] included: after a reply
    with status 429 the output file holds the text [RATE_LIMIT].  The output
    file is the one named by [--output-file], or else the input name with
    its suffix replaced by [.txt]. *)
Theorem X17_single_file_writes_marker
    (e : LlmOcr.env) (input_file : string) (output_file : option string) (w : LlmOcr.world) :
  Py.truthy (LlmOcr.MISTRAL_API_KEY e) = true ->
  PyLib.plain_name input_file = true ->
  (forall o, Shot.given output_file = Some o -> PyLib.plain_name o = true) ->
  let output_path :=
    match Shot.given output_file with
    | Some o => o
    | None => LlmOcr.txt_path_of input_file
    end in
  let reply := LlmOcr.remote e (LlmOcr.posts w) input_file in
  (LlmOcr.readable e input_file = false ->
   LlmOcrFile.main e input_file output_file w = (Eff.Raise (LlmOcr.OSError input_file), w)) /\
  (LlmOcr.readable e input_file = true ->
   LlmOcr.answers e (LlmOcr.posts w) input_file = false ->
   exists w',
     LlmOcrFile.main e input_file output_file w = (Eff.Raise LlmOcr.RequestError, w') /\
     LlmOcr.fs w' = LlmOcr.fs w /\
     LlmOcr.history w' = LlmOcr.history w ++ [LlmOcr.EvPost input_file]) /\
  (LlmOcr.readable e input_file = true ->
   LlmOcr.answers e (LlmOcr.posts w) input_file = true ->
   exists w' hist,
     LlmOcrFile.main e input_file output_file w = (Eff.Ok tt, w') /\
     LlmOcr.history w' = LlmOcr.history w ++ hist /\
     LlmOcr.posted hist = [input_file] /\
     (forall s, LlmOcr.EvSleep s ∉ hist) /\
     (LlmOcr.status_code reply = 429 ->
      LlmOcr.fs w' = <[output_path := LlmOcr.RATE_LIMIT]> (LlmOcr.fs w)) /\
     (forall t, LlmOcr.outcome_of reply = Some t -> t <> EmptyString ->
                LlmOcr.fs w' = <[output_path := t]> (LlmOcr.fs w)) /\
     (LlmOcr.outcome_of reply = None \/ LlmOcr.outcome_of reply = Some EmptyString ->
      LlmOcr.fs w' = LlmOcr.fs w)).
Proof.
  intros Key _ _ output_path reply.
  assert ((match output_file with
           | Some o => if Py.truthy o then o else LlmOcr.txt_path_of input_file
           | None => LlmOcr.txt_path_of input_file
           end) = output_path) as Hout.
  { unfold output_path, Shot.given. destruct output_file as [o |]; [| reflexivity].
    now destruct (Py.truthy o). }
  split; [| split].
  { intros Hr. unfold LlmOcrFile.main, LlmOcr.perform_mistral_ocr. rewrite Key. cbn [negb].
    unfold Eff.bind at 1. unfold Eff.bind at 1. unfold LlmOcr.encode_file. now rewrite Hr. }
  { intros Hr Ha. unfold LlmOcrFile.main, LlmOcr.perform_mistral_ocr. rewrite Key. cbn [negb].
    unfold Eff.bind at 1. unfold Eff.bind at 1. unfold LlmOcr.encode_file. rewrite Hr.
    unfold Eff.bind at 1, LlmOcr.post. rewrite Ha.
    eexists. split; [reflexivity |]. split; [reflexivity |].
    unfold LlmOcr.history. cbn [LlmOcr.trace rev]. reflexivity. }
  intros Hr Ha.
  unfold LlmOcrFile.main. rewrite Hout.
  destruct (perform_exact e input_file w Key Hr Ha) as (logs & E1 & L1). fold reply in E1.
  rewrite (bind_ok _ _ _ _ _ E1).
  assert (forall tail s,
            Forall (fun ev => match ev with LlmOcr.EvLog _ | LlmOcr.EvWrite _ => True
                                       | _ => False end) tail ->
            LlmOcr.EvSleep s ∉ LlmOcr.EvPost input_file :: logs ++ tail) as Hs.
  { intros tail s Htail Hin. apply elem_of_cons in Hin as [Hin | Hin]; [discriminate |].
    apply elem_of_app in Hin as [Hin | Hin].
    - rewrite Forall_forall in L1. now apply L1 in Hin.
    - rewrite Forall_forall in Htail. now apply Htail in Hin. }
  assert (LlmOcr.posted (LlmOcr.EvPost input_file :: logs) = [input_file]) as Hp.
  { cbn. f_equal. clear - L1. induction L1 as [| ev l Hev _ IH]; [reflexivity |].
    destruct ev; try contradiction. exact IH. }
  assert (LlmOcr.status_code reply = 429 -> LlmOcr.outcome_of reply = Some LlmOcr.RATE_LIMIT)
    as H429.
  { intros H. unfold LlmOcr.outcome_of. rewrite H. reflexivity. }
  destruct (LlmOcr.outcome_of reply) as [t |] eqn:Ho.
  - destruct (Py.truthy t) eqn:Ht.
    + eexists _, (LlmOcr.EvPost input_file :: logs
                  ++ [LlmOcr.EvWrite output_path; LlmOcr.EvLog (LlmOcr.LogSaved output_path)]).
      split; [reflexivity |]. cbn [LlmOcr.fs LlmOcr.trace]. split; [| split; [| split]].
      * unfold LlmOcr.history. cbn [LlmOcr.trace rev].
        rewrite !rev_app_distr, rev_involutive. cbn [rev app].
        rewrite <- !app_assoc. reflexivity.
      * change (LlmOcr.EvPost input_file :: logs ++ ?l)
          with ((LlmOcr.EvPost input_file :: logs) ++ l).
        now rewrite posted_app, Hp.
      * intros s. apply Hs. repeat constructor.
      * split; [| split].
        -- intros H. specialize (H429 H). now injection H429 as ->.
        -- now intros t' [= <-] _.
        -- intros [H | H]; [discriminate |]. injection H as ->. discriminate.
    + eexists _, (LlmOcr.EvPost input_file :: logs).
      split; [reflexivity |]. cbn [LlmOcr.fs LlmOcr.trace].
      split; [| split; [exact Hp | split]].
      * unfold LlmOcr.history. cbn [LlmOcr.trace]. now rewrite rev_app_distr, rev_involutive.
      * intros s Hin. apply (Hs [] s); [constructor | now rewrite app_nil_r].
      * assert (t = EmptyString) as ->.
        { unfold Py.truthy in Ht. apply negb_false_iff in Ht. now apply String.eqb_eq. }
        split; [| split].
        -- intros H. specialize (H429 H). discriminate.
        -- intros t' [= <-] H. now destruct H.
        -- reflexivity.
  - eexists _, (LlmOcr.EvPost input_file :: logs).
    split; [reflexivity |]. cbn [LlmOcr.fs LlmOcr.trace].
    split; [| split; [exact Hp | split]].
    + unfold LlmOcr.history. cbn [LlmOcr.trace]. now rewrite rev_app_distr, rev_involutive.
    + intros s Hin. apply (Hs [] s); [constructor | now rewrite app_nil_r].
    + split; [| split].
      * intros H. specialize (H429 H). discriminate.
      * discriminate.
      * reflexivity.
Qed.

Lemma X17_single_file_writes_marker_witness :
  let e := {| LlmOcr.MISTRAL_API_KEY := "key";
              LlmOcr.readable := fun _ => true;
              LlmOcr.answers := fun _ _ => true;
              LlmOcr.remote := fun _ _ => LlmOcr.Response 429 [];
              LlmOcr.flushed := fun _ => EmptyString |} in
  exists w',
    LlmOcrFile.main e "page_01.png" None (LlmOcr.initial ∅) = (Eff.Ok tt, w') /\
    LlmOcr.fs w' !! "page_01.txt"%string = Some "RATE_LIMIT"%string.
Proof.
  intros e.
  destruct (X17_single_file_writes_marker e "page_01.png" None (LlmOcr.initial ∅)
              eq_refl eq_refl ltac:(intros o H; discriminate H)) as (_ & _ & Hrun).
  destruct (Hrun eq_refl eq_refl) as (w' & hist & E & _ & _ & _ & H & _).
  exists w'. split; [exact E |]. rewrite (H eq_refl). apply lookup_insert_eq.
Defined.

(** ** The text file of an image *)

Section Stems.
Import LlmOcr.

Lemma rfind_app c a b :
  rfind c (a +:+ b)
  = match rfind c b with
    | Some j => Some (String.length a + j)%nat
    | None => rfind c a
    end.
Proof.
  induction a as [| d a IH].
  { change (EmptyString +:+ b) with b. now destruct (rfind c b). }
  rewrite app_String. cbn [rfind String.length]. rewrite IH.
  destruct (rfind c b) as [j |]; [reflexivity |]. reflexivity.
Qed.

Lemma substring_0_app a b : substring 0 (String.length a) (a +:+ b) = a.
Proof.
  induction a as [| c a IH]; [now destruct b |].
  rewrite app_String. cbn [String.length substring]. now rewrite IH.
Qed.

Lemma substring_split s : forall m,
  (m <= String.length s)%nat ->
  s = substring 0 m s +:+ substring m (String.length s - m) s.
Proof.
  induction s as [| c s IH]; intros m Hm.
  - cbn in Hm. assert (m = O) as -> by lia. reflexivity.
  - destruct m as [| m].
    + cbn [substring String.length Nat.sub].
      change (EmptyString +:+ ?x) with x. f_equal.
      clear. induction s as [| d s IH]; [reflexivity |]. cbn [String.length substring].
      now rewrite <- IH.
    + cbn [String.length] in Hm. cbn [substring String.length Nat.sub].
      rewrite app_String. f_equal. apply IH. lia.
Qed.

Lemma string_app_inv_tail a : forall b s, a +:+ s = b +:+ s -> a = b.
Proof.
  induction a as [| c a IH]; intros [| d b] s Heq; try reflexivity.
  - exfalso. apply (f_equal String.length) in Heq.
    rewrite !string_length_app in Heq. cbn [String.length] in Heq. lia.
  - exfalso. apply (f_equal String.length) in Heq.
    rewrite !string_length_app in Heq. cbn [String.length] in Heq. lia.
  - rewrite !app_String in Heq. injection Heq as -> Heq. f_equal. now apply (IH b s).
Qed.

(** A name matched by [*.png] is a base followed by [.png]. *)
Lemma ends_with_split suffix name :
  ends_with suffix name = true -> exists base, name = base +:+ suffix.
Proof.
  unfold ends_with. intros H. apply andb_true_iff in H as [Hk He].
  apply Nat.leb_le in Hk. apply String.eqb_eq in He.
  exists (substring 0 (String.length name - String.length suffix) name).
  remember (String.length suffix) as k eqn:Hk'. rewrite <- He.
  pose proof (substring_split name (String.length name - k) ltac:(lia)) as Hs.
  now replace (String.length name - (String.length name - k))%nat with k in Hs by lia.
Qed.

Lemma stem_png base : base <> EmptyString -> stem (base +:+ ".png") = base.
Proof.
  intros Hne. unfold stem. rewrite rfind_app.
  change (rfind "." ".png") with (Some O). cbv iota beta.
  rewrite Nat.add_0_r, string_length_app.
  cbn [String.length].
  assert ((0 <? String.length base)%nat = true) as ->.
  { apply Nat.ltb_lt. destruct base; [now destruct Hne | cbn; lia]. }
  assert ((String.length base <? String.length base + 4 - 1)%nat = true) as ->
    by (apply Nat.ltb_lt; lia).
  cbn [andb]. apply substring_0_app.
Qed.

End Stems.

(** X18.  The text file of an image.  For an image [base.png] with a
    base that is not empty the text file is [base.txt], whatever dots the
    base holds; the hidden file [.png] has no suffix to replace and gets
    [.png.txt].  So images with distinct names matched by [*.png] have
    distinct text files - no image's text overwrites another's - with one
    exception: [.png] and [.png.png] share [.png.txt]. *)
Theorem X18_text_file_of_an_image (png_files : list string) :
  (forall base, base <> EmptyString ->
                LlmOcr.txt_path_of (base +:+ ".png") = (base +:+ ".txt")%string) /\
  LlmOcr.txt_path_of ".png" = ".png.txt"%string /\
  LlmOcr.txt_path_of ".png.png" = LlmOcr.txt_path_of ".png" /\
  (NoDup png_files ->
   Forall (fun name => LlmOcr.ends_with ".png" name = true /\ name <> ".png"%string) png_files ->
   NoDup (LlmOcr.txt_path_of <$> png_files)).
Proof.
  assert (forall base, base <> EmptyString ->
            LlmOcr.txt_path_of (base +:+ ".png") = (base +:+ ".txt")%string) as Htxt.
  { intros base Hne. unfold LlmOcr.txt_path_of. now rewrite stem_png. }
  split; [exact Htxt |]. split; [reflexivity |]. split; [reflexivity |].
  intros Hnd Hall. apply NoDup_fmap_2_strong; [| exact Hnd].
  intros a b Ha Hb Heq. rewrite Forall_forall in Hall.
  destruct (Hall a Ha) as [Ea Na]. destruct (Hall b Hb) as [Eb Nb].
  apply ends_with_split in Ea as [ba ->]. apply ends_with_split in Eb as [bb ->].
  assert (ba <> EmptyString) as Hba by (intros ->; now apply Na).
  assert (bb <> EmptyString) as Hbb by (intros ->; now apply Nb).
  rewrite !Htxt in Heq by assumption. f_equal.
  now apply string_app_inv_tail in Heq.
Qed.

Lemma X18_text_file_of_an_image_witness :
  NoDup (LlmOcr.txt_path_of <$> ["page_1.png"; "page_2.png"; "a.b.png"]%string).
Proof.
  apply (X18_text_file_of_an_image ["page_1.png"; "page_2.png"; "a.b.png"]%string).
  - repeat (constructor; [rewrite ?not_elem_of_cons; repeat split; solve [discriminate | apply not_elem_of_nil] |]).
    constructor.
  - repeat constructor; discriminate.
Defined.

Section Listings.
Import Shot Listing.
Variable int_float : string -> option Z.

(** A window read from the items is among the lines printed for them. *)
Lemma print_items_window items win : forall i,
  win ∈ omap (Reply.window_of int_float) items ->
  exists j x y w h,
    i <= j /\
    Print (line_of j (proc_name win) (win_name win) x y w h) ∈ print_items i items /\
    int_float x = Some (win_x win) /\ int_float y = Some (win_y win) /\
    int_float w = Some (win_w win) /\ int_float h = Some (win_h win).
Proof.
  induction items as [| item rest IH]; intros i Hin.
  - now apply elem_of_nil in Hin.
  - assert (win ∈ omap (Reply.window_of int_float) rest ->
            exists j x y w h,
              i <= j /\
              Print (line_of j (proc_name win) (win_name win) x y w h)
                ∈ print_items i (item :: rest) /\
              int_float x = Some (win_x win) /\ int_float y = Some (win_y win) /\
              int_float w = Some (win_w win) /\ int_float h = Some (win_h win)) as Hrest.
    { intros Hr. destruct (IH (i + 1) Hr) as (j & x & y & w & h & Hj & Hp & Hn).
      exists j, x, y, w, h. split; [lia |]. split; [| exact Hn].
      cbn [print_items]. apply elem_of_app. now right. }
    cbn [omap list_omap] in Hin.
    destruct (Reply.window_of int_float item) as [win0 |] eqn:Hw; [| now apply Hrest].
    apply elem_of_cons in Hin as [-> | Hin]; [| now apply Hrest].
    unfold Reply.window_of in Hw. cbn [print_items].
    destruct (Py.split "|" item) as [| p [| t [| x [| y [| w [| h [| ? ?]]]]]]];
      try discriminate.
    destruct (int_float x) as [zx |] eqn:Hx; [| discriminate].
    destruct (int_float y) as [zy |] eqn:Hy; [| discriminate].
    destruct (int_float w) as [zw |] eqn:Hw'; [| discriminate].
    destruct (int_float h) as [zh |] eqn:Hh; [| discriminate].
    injection Hw as <-. cbn [proc_name win_name win_x win_y win_w win_h].
    exists i, x, y, w, h. split; [lia |]. split; [| now repeat split].
    apply elem_of_app. left. apply list_elem_of_singleton. reflexivity.
Qed.

Lemma printed_print_items i items o : o ∈ print_items i items -> exists line, o = Print line.
Proof.
  revert i. induction items as [| item rest IH]; intros i Hin.
  - now apply elem_of_nil in Hin.
  - cbn [print_items] in Hin. apply elem_of_app in Hin as [Hin | Hin]; [| now apply (IH (i + 1))].
    destruct (Py.split "|" item) as [| p [| t [| x [| y [| w [| h [| ? ?]]]]]]];
      try (now apply elem_of_nil in Hin).
    apply list_elem_of_singleton in Hin. eexists. exact Hin.
Qed.

End Listings.

(** X19.  The listing shows every window that can be found.  On the same
    reply of the enumeration script, each window that [get_window_info] reads
    (and so can match by process name or title) is printed by [list_windows],
    under a number that is at least 1, with exactly that process name and
    title and with the four numbers as the script wrote them; and when
    [get_window_info] gives up before it looks for a match, [list_windows]
    prints nothing and logs one error. *)
Theorem X19_listing_shows_every_window
    (int_float : string -> option Z) (returncode : Z) (stdout stderr : string) :
  match Reply.parse_reply int_float returncode stdout with
  | Some windows =>
      Forall (fun win =>
        exists i x y w h,
          1 <= i /\
          Listing.Print (Listing.line_of i (Shot.proc_name win) (Shot.win_name win) x y w h)
            ∈ Listing.list_windows returncode stdout stderr /\
          int_float x = Some (Shot.win_x win) /\ int_float y = Some (Shot.win_y win) /\
          int_float w = Some (Shot.win_w win) /\ int_float h = Some (Shot.win_h win)) windows /\
      Forall (fun o => exists line, o = Listing.Print line)
             (Listing.list_windows returncode stdout stderr)
  | None =>
      exists msg, Listing.list_windows returncode stdout stderr = [Listing.LogError msg]
  end.
Proof.
  unfold Reply.parse_reply, Listing.list_windows.
  destruct (negb (returncode =? 0)); [now eexists |].
  cbv zeta.
  destruct (negb (Py.truthy (Py.strip stdout)) || String.eqb (Py.strip stdout) "{}");
    [now eexists |].
  split.
  - apply Forall_forall. intros win Hin. unfold Reply.windows_of in Hin.
    destruct (print_items_window int_float _ win 1 Hin) as (j & x & y & w & h & Hj & Hp & Hn).
    exists j, x, y, w, h. split; [exact Hj |]. split; [| exact Hn].
    apply elem_of_cons. now right.
  - apply Forall_forall. intros o Hin. apply elem_of_cons in Hin as [-> | Hin]; [now eexists |].
    now apply printed_print_items in Hin.
Qed.

(** X20.  [main] of [shot.py] never gets past its parser.  The short option
    [-l] is given to [--lang] (line 424) and again to [--left] (line 439), so
    the second registration raises [ArgumentError] for the argument
    [--left/-l]: whatever the command line and whatever the lines after the
    parser would do, [main] ends with this error and nothing else has
    happened.  The nineteen arguments before [--left] are accepted, and the
    parsers of [llm_ocr.py] and [pdf.py], which give [-l] to [--lang] only,
    are built. *)
Theorem X20_main_stops_at_its_parser {W E A : Type}
    (rest : Argparse.parser -> Eff.M W (ShotMain.exn E) A) (w : W) :
  ShotMain.main rest w
  = (Eff.Raise (ShotMain.Parser (Argparse.ArgumentError "--left/-l" ["-l"%string])), w) /\
  (exists p, Argparse.add_arguments Argparse.ArgumentParser (take 19 ShotMain.arguments)
             = Eff.Ok p) /\
  (exists p, Argparse.add_arguments Argparse.ArgumentParser ShotMain.llm_ocr_arguments
             = Eff.Ok p) /\
  (exists p, Argparse.add_arguments Argparse.ArgumentParser ShotMain.pdf_arguments
             = Eff.Ok p).
Proof.
  split.
  - unfold ShotMain.main.
    assert (Argparse.add_arguments Argparse.ArgumentParser ShotMain.arguments
            = Eff.Raise (Argparse.ArgumentError "--left/-l" ["-l"%string])) as ->
      by (vm_compute; reflexivity).
    reflexivity.
  - repeat split; eexists; vm_compute; reflexivity.
Qed.

Section Conversions.
Import Eff Tess ShotPdf.
Local Open Scope eff_scope.

Lemma ran_app a b : ran (a ++ b) = ran a ++ ran b.
Proof. unfold ran. apply omap_app. Qed.

(** One turn of the loop of [generate_pdfs] when the command succeeds. *)
Lemma generate_pdfs_step e tess lang img rest pdf_files w out :
  tesseract e (runs w) (command tess lang img) = Some out ->
  generate_pdfs_loop e (img :: rest) tess lang pdf_files w
  = generate_pdfs_loop e rest tess lang (pdf_files ++ [pdf_path_of img])
      {| fs := <[pdf_path_of img := out]> (fs w);
         trace := EvLog (LogPdfSaved (pdf_path_of img)) :: EvRun (command tess lang img)
                  :: EvLog (LogRunning (command tess lang img)) :: trace w;
         runs := S (runs w) |}.
Proof.
  intros Hout. cbn [generate_pdfs_loop].
  unfold bind at 1, logger, emit. cbv beta iota.
  unfold bind at 1, subprocess_run. cbn [runs fs trace].
  fold (command tess lang img). rewrite Hout. cbv beta iota.
  unfold bind at 1. cbv beta iota. reflexivity.
Qed.

Lemma generate_pdfs_loop_ok e tess lang imgs : forall pdf_files w,
  (forall k img, imgs !! k = Some img ->
     is_Some (tesseract e (runs w + k)%nat (command tess lang img))) ->
  exists w' hist,
    generate_pdfs_loop e imgs tess lang pdf_files w
    = (Ok (pdf_files ++ (pdf_path_of <$> imgs)), w') /\
    trace w' = rev hist ++ trace w /\
    ran hist = command tess lang <$> imgs /\
    runs w' = (runs w + length imgs)%nat /\
    (forall p, is_Some (fs w !! p) -> is_Some (fs w' !! p)) /\
    Forall (fun img => is_Some (fs w' !! pdf_path_of img)) imgs.
Proof.
  induction imgs as [| img rest IH]; intros pdf_files w Hok.
  - exists w, []. cbn [generate_pdfs_loop fmap list_fmap length]. rewrite app_nil_r, Nat.add_0_r.
    repeat split; auto.
  - destruct (Hok O img eq_refl) as [out Hout]. rewrite Nat.add_0_r in Hout.
    rewrite (generate_pdfs_step _ _ _ _ _ _ _ _ Hout).
    match goal with |- context [generate_pdfs_loop e rest tess lang _ ?w0] => set (w1 := w0) end.
    destruct (IH (pdf_files ++ [pdf_path_of img]) w1) as (w' & hist & E & T & R & N & K & F).
    { intros k img' Hk. unfold w1. cbn [runs].
      replace (S (runs w) + k)%nat with (runs w + S k)%nat by lia. now apply Hok. }
    exists w', ([EvLog (LogRunning (command tess lang img)); EvRun (command tess lang img);
                 EvLog (LogPdfSaved (pdf_path_of img))] ++ hist).
    split; [| split; [| split; [| split; [| split]]]].
    + rewrite E, fmap_cons, <- app_assoc. reflexivity.
    + rewrite T. unfold w1. cbn [trace]. rewrite rev_app_distr. cbn [rev app].
      rewrite <- !app_assoc. reflexivity.
    + rewrite ran_app, R. reflexivity.
    + rewrite N. unfold w1. cbn [runs length]. lia.
    + intros p Hp. apply K. unfold w1. cbn [fs].
      destruct (decide (p = pdf_path_of img)) as [-> | Hne].
      * rewrite lookup_insert_eq. now eexists.
      * now rewrite lookup_insert_ne by congruence.
    + constructor; [| exact F]. apply K. unfold w1. cbn [fs]. rewrite lookup_insert_eq. now eexists.
Qed.

Lemma generate_pdfs_loop_fails e tess lang imgs : forall pdf_files w j img,
  imgs !! j = Some img ->
  tesseract e (runs w + j)%nat (command tess lang img) = None ->
  (forall k img', (k < j)%nat -> imgs !! k = Some img' ->
     is_Some (tesseract e (runs w + k)%nat (command tess lang img'))) ->
  exists w' hist,
    generate_pdfs_loop e imgs tess lang pdf_files w
    = (Raise (CalledProcessError (command tess lang img)), w') /\
    trace w' = rev hist ++ trace w /\
    ran hist = command tess lang <$> take (S j) imgs /\
    (forall p, is_Some (fs w !! p) -> is_Some (fs w' !! p)).
Proof.
  induction imgs as [| img0 rest IH]; intros pdf_files w j img Hj Hfail Hok; [discriminate |].
  destruct j as [| j].
  - injection Hj as ->. rewrite Nat.add_0_r in Hfail.
    cbn [generate_pdfs_loop]. unfold bind at 1, logger, emit. cbv beta iota.
    unfold bind at 1, subprocess_run. cbn [runs fs trace].
    fold (command tess lang img). rewrite Hfail.
    eexists. exists [EvLog (LogRunning (command tess lang img)); EvRun (command tess lang img)].
    split; [reflexivity |]. cbn [trace fs]. repeat split; auto.
  - destruct (Hok O img0 ltac:(lia) eq_refl) as [out Hout]. rewrite Nat.add_0_r in Hout.
    rewrite (generate_pdfs_step _ _ _ _ _ _ _ _ Hout).
    match goal with |- context [generate_pdfs_loop e rest tess lang _ ?w0] => set (w1 := w0) end.
    destruct (IH (pdf_files ++ [pdf_path_of img0]) w1 j img Hj) as (w' & hist & E & T & R & K).
    { unfold w1. cbn [runs]. now replace (S (runs w) + j)%nat with (runs w + S j)%nat by lia. }
    { intros k img' Hk Hin. unfold w1. cbn [runs].
      replace (S (runs w) + k)%nat with (runs w + S k)%nat by lia.
      apply Hok; [lia | exact Hin]. }
    exists w', ([EvLog (LogRunning (command tess lang img0)); EvRun (command tess lang img0);
                 EvLog (LogPdfSaved (pdf_path_of img0))] ++ hist).
    split; [exact E |]. split; [| split].
    + rewrite T. unfold w1. cbn [trace]. rewrite rev_app_distr. cbn [rev app].
      rewrite <- !app_assoc. reflexivity.
    + rewrite ran_app, R. reflexivity.
    + intros p Hp. apply K. unfold w1. cbn [fs].
      destruct (decide (p = pdf_path_of img0)) as [-> | Hne].
      * rewrite lookup_insert_eq. now eexists.
      * now rewrite lookup_insert_ne by congruence.
Qed.

End Conversions.

(** X21.  [generate_pdfs] runs tesseract once for each image, in the order
    of the list, and stops at the first run that fails.  If every run
    succeeds it returns, for each image and in the same order, the path of
    the image with its extension replaced by [.pdf], and each of these files
    exists afterwards.  If the run for image number [j] is the first to
    fail, [CalledProcessError] for its command comes out of [generate_pdfs]:
    the images after it are never given to tesseract and the paths of the
    PDFs made so far are not returned. *)
Theorem X21_generate_pdfs_stops_at_first_failure
    (e : Tess.env) (img_files : list string) (tess_path lang : string) (w : Tess.world) :
  ((forall k img, img_files !! k = Some img ->
      is_Some (Tess.tesseract e (Tess.runs w + k)%nat (ShotPdf.command tess_path lang img))) ->
   exists w' hist,
     ShotPdf.generate_pdfs e img_files tess_path lang w
     = (Eff.Ok (ShotPdf.pdf_path_of <$> img_files), w') /\
     Tess.history w' = Tess.history w ++ hist /\
     Tess.ran hist = ShotPdf.command tess_path lang <$> img_files /\
     Forall (fun pdf_path => is_Some (Tess.fs w' !! pdf_path))
            (ShotPdf.pdf_path_of <$> img_files)) /\
  (forall j img,
     img_files !! j = Some img ->
     Tess.tesseract e (Tess.runs w + j)%nat (ShotPdf.command tess_path lang img) = None ->
     (forall k img', (k < j)%nat -> img_files !! k = Some img' ->
        is_Some (Tess.tesseract e (Tess.runs w + k)%nat (ShotPdf.command tess_path lang img'))) ->
     exists w' hist,
       ShotPdf.generate_pdfs e img_files tess_path lang w
       = (Eff.Raise (Tess.CalledProcessError (ShotPdf.command tess_path lang img)), w') /\
       Tess.history w' = Tess.history w ++ hist /\
       Tess.ran hist = ShotPdf.command tess_path lang <$> take (S j) img_files).
Proof.
  split.
  - intros Hok.
    destruct (generate_pdfs_loop_ok e tess_path lang img_files [] w Hok)
      as (w' & hist & E & T & R & _ & _ & F).
    exists w', hist. split; [exact E |]. split; [| split; [exact R |]].
    + unfold Tess.history. now rewrite T, rev_app_distr, rev_involutive.
    + apply Forall_fmap. exact F.
  - intros j img Hj Hfail Hok.
    destruct (generate_pdfs_loop_fails e tess_path lang img_files [] w j img Hj Hfail Hok)
      as (w' & hist & E & T & R & _).
    exists w', hist. split; [exact E |]. split; [| exact R].
    unfold Tess.history. now rewrite T, rev_app_distr, rev_involutive.
Qed.

Lemma X21_generate_pdfs_stops_at_first_failure_witness :
  let e := {| Tess.tesseract := fun k _ => if (k =? 1)%nat then None else Some ["page"%string];
              Tess.PyPDF2 := true |} in
  exists w' hist,
    ShotPdf.generate_pdfs e ["out/p_1.png"; "out/p_2.png"; "out/p_3.png"]%string
      "tesseract" "eng" (Tess.initial ∅)
    = (Eff.Raise (Tess.CalledProcessError
                    (ShotPdf.command "tesseract" "eng" "out/p_2.png")), w') /\
    Tess.history w' = hist /\
    Tess.ran hist = [ShotPdf.command "tesseract" "eng" "out/p_1.png";
                     ShotPdf.command "tesseract" "eng" "out/p_2.png"].
Proof.
  intros e.
  destruct (X21_generate_pdfs_stops_at_first_failure e
              ["out/p_1.png"; "out/p_2.png"; "out/p_3.png"]%string
              "tesseract" "eng" (Tess.initial ∅)) as [_ H].
  destruct (H 1%nat "out/p_2.png"%string eq_refl eq_refl) as (w' & hist & E & T & R).
  { intros k img' Hk Hin. assert (k = O) as -> by lia. now eexists. }
  exists w', hist. split; [exact E |]. split; [exact T | exact R].
Defined.

Section Extensions.
Import LlmOcr.

Lemma rfind_lt c s i : rfind c s = Some i -> (i < String.length s)%nat.
Proof.
  revert i. induction s as [| d s IH]; intros i H; [discriminate |].
  cbn [rfind] in H. cbn [String.length]. destruct (rfind c s) as [j |].
  - injection H as <-. specialize (IH j eq_refl). lia.
  - destruct (Ascii.eqb c d); [injection H as <-; lia | discriminate].
Qed.

Lemma get_app_length a c b : String.get (String.length a) (a +:+ String c b) = Some c.
Proof. induction a as [| d a IH]; [reflexivity |]. rewrite app_String. exact IH. Qed.

(** A stretch of [p] that holds a character other than the dot. *)
Lemma only_dots_substring p : forall i n k c,
  String.get k p = Some c -> c <> "."%char -> (i <= k < i + n)%nat ->
  PyLib.only_dots (substring i n p) = false.
Proof.
  induction p as [| a p IH]; intros i n k c Hget Hc Hk; [discriminate |].
  destruct i as [| i].
  - destruct n as [| n]; [lia |]. cbn [substring PyLib.only_dots].
    destruct k as [| k].
    + cbn in Hget. injection Hget as ->.
      destruct (Ascii.eqb_spec c ".") as [-> | _]; [now destruct Hc | reflexivity].
    + cbn in Hget. rewrite (IH O n k c Hget Hc ltac:(lia)). apply andb_false_r.
  - destruct k as [| k]; [lia |]. cbn in Hget. cbn [substring].
    apply (IH i n k c Hget Hc). lia.
Qed.

Lemma substring_all s : substring 0 (String.length s) s = s.
Proof. induction s as [| c s IH]; [reflexivity |]. cbn [String.length substring]. now rewrite IH. Qed.

Lemma substring_app_tail a b :
  substring (String.length a) (String.length b) (a +:+ b) = b.
Proof.
  induction a as [| c a IH]; [apply substring_all |].
  rewrite app_String. cbn [String.length substring]. exact IH.
Qed.

(** The extension [.png] comes off a path that ends with a character which
    is neither a dot nor a slash. *)
Lemma splitext_png pre c :
  c <> "."%char -> c <> "/"%char ->
  PyLib.splitext ((pre +:+ String c EmptyString) +:+ ".png")
  = (pre +:+ String c EmptyString, ".png"%string).
Proof.
  intros Hdot Hsep. unfold PyLib.splitext.
  set (a := pre +:+ String c EmptyString).
  assert (String.length a = S (String.length pre)) as Hlen
    by (unfold a; rewrite string_length_app; cbn [String.length]; lia).
  rewrite (rfind_app "." a ".png"). change (rfind "." ".png") with (Some O). cbv iota beta.
  rewrite Nat.add_0_r.
  assert (rfind "/" (a +:+ ".png") = rfind "/" pre) as ->.
  { rewrite (rfind_app "/" a ".png"). change (rfind "/" ".png") with (@None nat). cbv iota beta.
    unfold a. rewrite rfind_app. cbn [rfind].
    destruct (Ascii.eqb_spec "/" c) as [<- | _]; [now destruct Hsep | reflexivity]. }
  set (filenameIndex := match rfind "/" pre with Some sepIndex => S sepIndex | None => O end).
  assert (filenameIndex <= String.length pre)%nat as Hfi.
  { unfold filenameIndex. destruct (rfind "/" pre) as [sep |] eqn:E; [| lia].
    apply rfind_lt in E. lia. }
  assert ((filenameIndex <=? String.length a)%nat = true) as -> by (apply Nat.leb_le; lia).
  rewrite (only_dots_substring (a +:+ ".png") filenameIndex _ (String.length pre) c).
  - cbn [negb andb]. rewrite substring_0_app. f_equal.
    rewrite string_length_app. replace (String.length a + String.length ".png" - String.length a)%nat
      with (String.length ".png") by lia.
    apply substring_app_tail.
  - unfold a. rewrite string_app_assoc. apply get_app_length.
  - exact Hdot.
  - lia.
Qed.

(** A text that ends with a decimal digit. *)
Lemma digits_end s :
  Py.all_digits s = true -> s <> EmptyString ->
  exists q d, s = q +:+ String d EmptyString /\ Py.is_digit d = true.
Proof.
  induction s as [| c s IH]; intros Had Hne; [now destruct Hne |].
  cbn [Py.all_digits] in Had. apply andb_true_iff in Had as [Hc Hs].
  destruct s as [| c' s'].
  - exists EmptyString, c. now split.
  - destruct (IH Hs ltac:(discriminate)) as (q & d & E & Hd).
    exists (String c q), d. rewrite app_String, <- E. now split.
Qed.

Lemma zfill_str_end i width :
  exists q d, Py.zfill (Py.str i) width = q +:+ String d EmptyString /\ Py.is_digit d = true.
Proof.
  assert (forall n, 0 <= n -> exists q d, Py.digits n = q +:+ String d EmptyString
                                          /\ Py.is_digit d = true) as Hdig.
  { intros n Hn. destruct (digits_spec n Hn) as (Had & _ & Hl & _).
    apply digits_end; [exact Had |]. intros E. rewrite E in Hl.
    change (Py.len EmptyString) with 0 in Hl. lia. }
  unfold Py.str. destruct (Z.ltb_spec i 0) as [Hneg | Hpos].
  - destruct (Hdig (- i) ltac:(lia)) as (q & d & E & Hd). rewrite E.
    unfold Py.zfill. cbn [Ascii.eqb orb]. change (Ascii.eqb "-" "+") with false.
    change (Ascii.eqb "-" "-") with true. cbv iota beta. cbn [orb].
    exists (String "-" (Py.zeros (Z.to_nat (width - Py.len (String "-" (q +:+ String d EmptyString))))
                        +:+ q)), d.
    split; [| exact Hd]. rewrite app_String. f_equal. now rewrite string_app_assoc.
  - destruct (Hdig i Hpos) as (q & d & E & Hd).
    destruct (digits_no_sign i Hpos) as (c & r & Heq & Hsign).
    rewrite Heq, (zfill_no_sign _ _ _ Hsign), <- Heq, E.
    exists (Py.zeros (Z.to_nat (width - Py.len (q +:+ String d EmptyString))) +:+ q), d.
    split; [| exact Hd]. now rewrite string_app_assoc.
Qed.

Lemma digit_not_dot_slash d : Py.is_digit d = true -> d <> "."%char /\ d <> "/"%char.
Proof. intros H. split; intros ->; discriminate. Qed.

Lemma startswith_app c a b : a <> EmptyString -> Py.startswith c (a +:+ b) = Py.startswith c a.
Proof. intros Hne. destruct a; [now destruct Hne | reflexivity]. Qed.

Lemma os_path_join_app dir a b :
  a <> EmptyString -> Py.os_path_join dir (a +:+ b) = Py.os_path_join dir a +:+ b.
Proof.
  intros Hne. unfold Py.os_path_join. rewrite (startswith_app _ _ _ Hne).
  destruct (Py.startswith "/" a); [reflexivity |].
  destruct (String.eqb dir EmptyString || Py.endswith "/" dir).
  - now rewrite string_app_assoc.
  - rewrite string_app_assoc. reflexivity.
Qed.

(** The path of a page without its extension. *)
Lemma splitext_page output_dir book pad_width i :
  PyLib.splitext (Py.os_path_join output_dir (Shot.page_filename book pad_width i))
  = (Py.os_path_join output_dir (book +:+ "_" +:+ Py.zfill (Py.str i) pad_width),
     ".png"%string).
Proof.
  unfold Shot.page_filename.
  destruct (zfill_str_end i pad_width) as (q & d & E & Hd).
  destruct (digit_not_dot_slash d Hd) as [Hdot Hsep].
  replace (book +:+ "_" +:+ Py.zfill (Py.str i) pad_width +:+ ".png")
    with ((book +:+ "_" +:+ Py.zfill (Py.str i) pad_width) +:+ ".png")
    by now rewrite !string_app_assoc.
  rewrite os_path_join_app by (destruct book; discriminate).
  assert (exists pre, Py.os_path_join output_dir (book +:+ "_" +:+ Py.zfill (Py.str i) pad_width)
                      = pre +:+ String d EmptyString) as [pre Hpre].
  { rewrite E.
    replace (book +:+ "_" +:+ q +:+ String d EmptyString)
      with ((book +:+ "_" +:+ q) +:+ String d EmptyString) by now rewrite !string_app_assoc.
    rewrite os_path_join_app by (destruct book; discriminate). now eexists. }
  rewrite Hpre. now apply splitext_png.
Qed.

End Extensions.

Section Extensionless.
Import LlmOcr.

Lemma rfind_none c s : Py.contains c s = false -> rfind c s = None.
Proof.
  induction s as [| d s IH]; [reflexivity |]. cbn [Py.contains rfind]. intros H.
  apply orb_false_iff in H as [Hc Hs]. now rewrite (IH Hs), Hc.
Qed.

(** A dot in the directory starts no extension. *)
Lemma splitext_no_dot dir name :
  Py.contains "." name = false -> Py.contains "/" name = false ->
  PyLib.splitext (dir +:+ String "/" name) = (dir +:+ String "/" name, EmptyString).
Proof.
  intros Hdot Hsep. unfold PyLib.splitext.
  rewrite (rfind_app "." dir). cbn [rfind]. rewrite (rfind_none _ _ Hdot).
  change (Ascii.eqb "." "/") with false. cbv iota beta.
  destruct (rfind "." dir) as [i |] eqn:Ei; [| reflexivity].
  rewrite (rfind_app "/" dir). cbn [rfind]. rewrite (rfind_none _ _ Hsep).
  change (Ascii.eqb "/" "/") with true. cbv iota beta. rewrite Nat.add_0_r.
  apply rfind_lt in Ei.
  assert ((S (String.length dir) <=? i)%nat = false) as -> by (apply Nat.leb_gt; lia).
  reflexivity.
Qed.

End Extensionless.

(** X22.  The PDF of a captured page.  For the page images that a batch
    run names - [output_dir] joined with [book_NN.png] - [generate_pdfs] asks
    tesseract for the output base [output_dir] joined with [book_NN] and
    returns that base followed by [.pdf]: the extension taken off is exactly
    [.png], whatever dots and slashes the directory and the book name hold.
    An image whose name has no dot keeps its whole path as the base, even
    when a directory of the path has a dot. *)
Theorem X22_pdfs_of_captured_pages
    (e : Tess.env) (output_dir book : string) (pad_width : Z) (pages : list Z)
    (tess_path lang : string) (w : Tess.world) :
  let page_path i := Py.os_path_join output_dir (Shot.page_filename book pad_width i) in
  let base i := Py.os_path_join output_dir (book +:+ "_" +:+ Py.zfill (Py.str i) pad_width) in
  (forall k cmd, is_Some (Tess.tesseract e k cmd)) ->
  (exists w' hist,
     ShotPdf.generate_pdfs e (page_path <$> pages) tess_path lang w
     = (Eff.Ok ((fun i => base i +:+ ".pdf") <$> pages), w') /\
     Tess.history w' = Tess.history w ++ hist /\
     Tess.ran hist
     = (fun i => [tess_path; page_path i; base i; "-l"; lang; "pdf"]%string) <$> pages) /\
  (forall dir name,
     Py.contains "." name = false -> Py.contains "/" name = false ->
     ShotPdf.pdf_path_of (dir +:+ String "/" name) = dir +:+ String "/" name +:+ ".pdf").
Proof.
  intros page_path base Hok. split.
  - destruct (generate_pdfs_loop_ok e tess_path lang (page_path <$> pages) [] w)
      as (w' & hist & E & T & R & _).
    { intros k img _. apply Hok. }
    exists w', hist. split; [| split].
    + unfold ShotPdf.generate_pdfs. rewrite E. cbn [app]. rewrite <- list_fmap_compose. do 2 f_equal.
      apply list_fmap_ext. intros _ i _. unfold compose, ShotPdf.pdf_path_of, page_path, base.
      now rewrite splitext_page.
    + unfold Tess.history. now rewrite T, rev_app_distr, rev_involutive.
    + rewrite R, <- list_fmap_compose. apply list_fmap_ext. intros _ i _.
      unfold compose, ShotPdf.command, page_path, base. now rewrite splitext_page.
  - intros dir name Hdot Hsep. unfold ShotPdf.pdf_path_of.
    rewrite (splitext_no_dot _ _ Hdot Hsep). cbn [fst]. now rewrite string_app_assoc.
Qed.

Lemma X22_pdfs_of_captured_pages_witness :
  let e := {| Tess.tesseract := fun _ _ => Some ["page"%string]; Tess.PyPDF2 := true |} in
  exists w',
    ShotPdf.generate_pdfs e
      ((fun i => Py.os_path_join "out.d" (Shot.page_filename "my.book" 2 i)) <$> [9; 10])
      "tesseract" "eng" (Tess.initial ∅)
    = (Eff.Ok ["out.d/my.book_09.pdf"; "out.d/my.book_10.pdf"]%string, w').
Proof.
  intros e.
  destruct (X22_pdfs_of_captured_pages e "out.d" "my.book" 2 [9; 10] "tesseract" "eng"
              (Tess.initial ∅)) as [(w' & hist & E & _) _].
  { intros k cmd. now eexists. }
  exists w'. exact E.
Defined.

Section PdfNames.
Import LlmOcr.

Lemma stem_not_empty name : name <> EmptyString -> stem name <> EmptyString.
Proof.
  intros Hne. unfold stem. destruct (rfind "." name) as [i |]; [| exact Hne].
  destruct ((0 <? i)%nat && (i <? String.length name - 1)%nat) eqn:E; [| exact Hne].
  apply andb_true_iff in E as [Hi Hl]. apply Nat.ltb_lt in Hi, Hl.
  intros Hs. apply (f_equal String.length) in Hs.
  destruct name as [| c name]; [now destruct Hne |].
  destruct i as [| i]; [lia |]. cbn in Hs. lia.
Qed.

Lemma stem_pdf base : base <> EmptyString -> stem (base +:+ ".pdf") = base.
Proof.
  intros Hne. unfold stem. rewrite rfind_app.
  change (rfind "." ".pdf") with (Some O). cbv iota beta.
  rewrite Nat.add_0_r, string_length_app.
  cbn [String.length].
  assert ((0 <? String.length base)%nat = true) as ->.
  { apply Nat.ltb_lt. destruct base; [now destruct Hne | cbn; lia]. }
  assert ((String.length base <? String.length base + 4 - 1)%nat = true) as ->
    by (apply Nat.ltb_lt; lia).
  cbn [andb]. apply substring_0_app.
Qed.

(** The name that [run_tesseract] makes tesseract write is the output name
    exactly when that name is a base followed by [.pdf]. *)
Lemma stem_pdf_iff o :
  stem o +:+ ".pdf" = o <-> ends_with ".pdf" o = true /\ o <> ".pdf"%string.
Proof.
  split.
  - intros H. split.
    + rewrite <- H. unfold ends_with. rewrite string_length_app. cbn [String.length].
      replace (String.length (stem o) + 4 - 4)%nat with (String.length (stem o)) by lia.
      assert ((4 <=? String.length (stem o) + 4)%nat = true) as -> by (apply Nat.leb_le; lia).
      cbn [andb]. apply String.eqb_eq.
      apply (substring_app_tail (stem o) ".pdf").
    + intros ->. discriminate H.
  - intros [He Hne]. apply ends_with_split in He as [base ->].
    rewrite stem_pdf; [reflexivity |]. intros ->. now apply Hne.
Qed.

End PdfNames.

Section PdfRuns.
Import Eff Tess PdfTool.
Local Open Scope eff_scope.

Lemma convert_present e png rest lang tess_path w :
  is_Some (fs w !! pdf_path_of png) ->
  convert e (png :: rest) lang tess_path w
  = convert e rest lang tess_path
      {| fs := fs w; trace := EvLog (LogExists (pdf_path_of png)) :: trace w; runs := runs w |}.
Proof.
  intros Hsome. cbn [convert]. unfold bind at 1, path_exists. fold (pdf_path_of png).
  rewrite (bool_decide_eq_true_2 _ Hsome). unfold bind at 1, logger, emit. reflexivity.
Qed.

Lemma convert_missing e png rest lang tess_path w :
  png <> EmptyString -> fs w !! pdf_path_of png = None ->
  convert e (png :: rest) lang tess_path w
  = match tesseract e (runs w) (command tess_path lang png) with
    | Some out =>
        convert e rest lang tess_path
          {| fs := <[pdf_path_of png := out]> (fs w);
             trace := EvLog (LogPdfSaved (pdf_path_of png)) :: EvRun (command tess_path lang png)
                      :: EvLog (LogRunning (command tess_path lang png)) :: trace w;
             runs := S (runs w) |}
    | None =>
        (Raise (CalledProcessError (command tess_path lang png)),
         {| fs := fs w;
            trace := EvRun (command tess_path lang png)
                     :: EvLog (LogRunning (command tess_path lang png)) :: trace w;
            runs := S (runs w) |})
    end.
Proof.
  intros Hne Hnone. cbn [convert]. unfold bind at 1, path_exists.
  unfold run_tesseract. rewrite (stem_pdf _ (stem_not_empty _ Hne)).
  fold (pdf_path_of png). fold (command tess_path lang png).
  rewrite bool_decide_eq_false_2 by (rewrite Hnone; now intros [? ?]).
  unfold bind at 1. unfold bind at 1. unfold bind at 1. unfold logger at 1, emit at 1.
  unfold bind at 1, subprocess_run. cbn [runs fs trace].
  destruct (tesseract e (runs w) (command tess_path lang png)) as [out |]; reflexivity.
Qed.

(** A run of the loop in which every command succeeds. *)
Lemma convert_run e lang tess_path png_files : forall w,
  (forall k cmd, is_Some (tesseract e k cmd)) ->
  Forall (fun png => png <> EmptyString) png_files ->
  NoDup (pdf_path_of <$> png_files) ->
  exists w' hist,
    convert e png_files lang tess_path w = (Ok tt, w') /\
    trace w' = rev hist ++ trace w /\
    ran hist = command tess_path lang
               <$> filter (fun png => fs w !! pdf_path_of png = None) png_files /\
    runs w' = (runs w + length (ran hist))%nat /\
    (forall p, is_Some (fs w !! p) -> fs w' !! p = fs w !! p) /\
    (forall p, p ∉ pdf_path_of <$> png_files -> fs w' !! p = fs w !! p) /\
    Forall (fun png => is_Some (fs w' !! pdf_path_of png)) png_files /\
    Forall (fun ev => match ev with EvMerge _ => False | _ => True end) hist.
Proof.
  intros w Hok Hne Hnd. revert w.
  induction png_files as [| png rest IH]; intros w.
  - exists w, []. cbn. rewrite Nat.add_0_r. repeat split; auto.
  - apply Forall_cons in Hne as [Hpng Hne]. rewrite fmap_cons in Hnd.
    apply NoDup_cons in Hnd as [Hfresh Hnd]. specialize (IH Hne Hnd).
    destruct (fs w !! pdf_path_of png) as [content |] eqn:Hl.
    + rewrite convert_present by (rewrite Hl; now eexists).
      match goal with |- context [convert e rest lang tess_path ?w0] => set (w1 := w0) end.
      destruct (IH w1) as (w' & hist & E & T & R & N & K & O & F & G).
      exists w', (EvLog (LogExists (pdf_path_of png)) :: hist).
      split; [exact E |]. split; [| split; [| split; [| split; [| split; [| split]]]]].
      * rewrite T. cbn [rev w1 trace]. now rewrite <- app_assoc.
      * rewrite filter_cons_False by (rewrite Hl; discriminate). exact R.
      * exact N.
      * exact K.
      * intros p Hp. apply O. intros Hin. apply Hp. rewrite fmap_cons. now right.
      * constructor; [| exact F].
        rewrite (K (pdf_path_of png)); unfold w1; cbn [fs]; rewrite Hl; now eexists.
      * constructor; [exact I | exact G].
    + rewrite (convert_missing _ _ _ _ _ _ Hpng Hl).
      destruct (Hok (runs w) (command tess_path lang png)) as [out ->].
      match goal with |- context [convert e rest lang tess_path ?w0] => set (w1 := w0) end.
      destruct (IH w1) as (w' & hist & E & T & R & N & K & O & F & G).
      assert (filter (fun png0 => fs w1 !! pdf_path_of png0 = None) rest
              = filter (fun png0 => fs w !! pdf_path_of png0 = None) rest) as Hfilter.
      { apply filter_ext_in. intros q Hq. unfold w1. cbn [fs].
        rewrite lookup_insert_ne; [reflexivity |].
        intros Heq. apply Hfresh. rewrite Heq. apply list_elem_of_fmap. now exists q. }
      exists w', ([EvLog (LogRunning (command tess_path lang png));
                   EvRun (command tess_path lang png);
                   EvLog (LogPdfSaved (pdf_path_of png))] ++ hist).
      split; [exact E |]. split; [| split; [| split; [| split; [| split; [| split]]]]].
      * rewrite T. unfold w1. cbn [trace]. rewrite rev_app_distr. cbn [rev app].
        now rewrite <- !app_assoc.
      * rewrite filter_cons_True by exact Hl. rewrite ran_app, R, Hfilter. reflexivity.
      * rewrite N. unfold w1. cbn [runs]. rewrite ran_app. cbn [ran omap list_omap app length].
        lia.
      * intros p Hp. rewrite K.
        -- unfold w1. cbn [fs]. rewrite lookup_insert_ne; [reflexivity |].
           intros <-. rewrite Hl in Hp. now destruct Hp.
        -- unfold w1. cbn [fs]. rewrite lookup_insert_ne; [exact Hp |].
           intros <-. rewrite Hl in Hp. now destruct Hp.
      * intros p Hp. rewrite O.
        -- unfold w1. cbn [fs]. rewrite lookup_insert_ne; [reflexivity |].
           intros <-. apply Hp. rewrite fmap_cons. now left.
        -- intros Hin. apply Hp. rewrite fmap_cons. now right.
      * constructor; [| exact F]. rewrite (O (pdf_path_of png) Hfresh). unfold w1. cbn [fs].
        rewrite lookup_insert_eq. now eexists.
      * repeat (constructor; [exact I |]). exact G.
Qed.

(** A run of the loop over images that all have their PDF. *)
Lemma convert_idle e lang tess_path png_files : forall w,
  (forall png, png ∈ png_files -> is_Some (fs w !! pdf_path_of png)) ->
  exists w',
    convert e png_files lang tess_path w = (Ok tt, w') /\
    fs w' = fs w /\ runs w' = runs w /\
    trace w' = rev ((fun png => EvLog (LogExists (pdf_path_of png))) <$> png_files) ++ trace w.
Proof.
  induction png_files as [| png rest IH]; intros w Hall.
  - exists w. repeat split; auto.
  - rewrite convert_present by (apply Hall; now left).
    match goal with |- context [convert e rest lang tess_path ?w0] => set (w1 := w0) end.
    destruct (IH w1) as (w' & E & F & N & T).
    { intros q Hq. apply Hall. now right. }
    exists w'. split; [exact E |]. split; [exact F |]. split; [exact N |].
    rewrite T, fmap_cons. cbn [rev w1 trace]. now rewrite <- app_assoc.
Qed.

End PdfRuns.

(** X23.  A directory run of [pdf.py] converts what is missing and nothing
    else.  When tesseract succeeds, it is run exactly for the images that
    have no PDF yet, in the order of the list; the PDFs that were there are
    left as they were, no other file changes, and afterwards every image has
    its PDF.  A second run over the same images therefore runs nothing and
    changes nothing, whatever tesseract would do.  (No two images of the list
    share a stem, as [a.png] and [a.PNG] would.) *)
Theorem X23_pdf_run_converts_what_is_missing
    (e e' : Tess.env) (input_file input_dir output_file : option string) (d : string)
    (input_dir_name : string) (png_files : list string) (lang tess_path : string)
    (w : Tess.world) :
  Shot.given input_file = None -> Shot.given input_dir = Some d ->
  (forall k cmd, is_Some (Tess.tesseract e k cmd)) ->
  Forall (fun png => png <> EmptyString) png_files ->
  NoDup (PdfTool.pdf_path_of <$> png_files) ->
  exists w' hist,
    PdfTool.main e input_file input_dir output_file input_dir_name png_files false
                 lang tess_path w = (Eff.Ok tt, w') /\
    Tess.history w' = Tess.history w ++ hist /\
    Tess.ran hist
    = PdfTool.command tess_path lang
      <$> filter (fun png => Tess.fs w !! PdfTool.pdf_path_of png = None) png_files /\
    (forall p, is_Some (Tess.fs w !! p) -> Tess.fs w' !! p = Tess.fs w !! p) /\
    (forall p, p ∉ PdfTool.pdf_path_of <$> png_files -> Tess.fs w' !! p = Tess.fs w !! p) /\
    Forall (fun png => is_Some (Tess.fs w' !! PdfTool.pdf_path_of png)) png_files /\
    exists w'',
      PdfTool.main e' input_file input_dir output_file input_dir_name png_files false
                   lang tess_path w' = (Eff.Ok tt, w'') /\
      Tess.fs w'' = Tess.fs w' /\ Tess.runs w'' = Tess.runs w'.
Proof.
  intros Hfile Hdir Hok Hne Hnd.
  destruct (convert_run e lang tess_path png_files w Hok Hne Hnd)
    as (w' & hist & E & T & R & _ & K & O & F & _).
  destruct (convert_idle e' lang tess_path png_files w') as (w'' & E' & F' & N' & _).
  { intros png Hin. rewrite Forall_forall in F. now apply F. }
  exists w', hist. unfold PdfTool.main. rewrite Hfile, Hdir.
  split; [| split; [| split; [exact R | split; [exact K | split; [exact O | split; [exact F |]]]]]].
  - rewrite (bind_ok _ _ _ _ _ E). reflexivity.
  - unfold Tess.history. now rewrite T, rev_app_distr, rev_involutive.
  - exists w''. rewrite (bind_ok _ _ _ _ _ E'). repeat split; assumption.
Qed.

Lemma X23_pdf_run_converts_what_is_missing_witness :
  let e := {| Tess.tesseract := fun _ _ => Some ["scan"%string]; Tess.PyPDF2 := true |} in
  let files : gmap string Tess.pdf := <["p1.pdf"%string := ["old"%string]]> ∅ in
  exists w' hist,
    PdfTool.main e None (Some "in"%string) None "in" ["p1.png"; "p2.png"]%string false
                 "eng" "tesseract" (Tess.initial files) = (Eff.Ok tt, w') /\
    Tess.history w' = hist /\
    Tess.ran hist = [PdfTool.command "tesseract" "eng" "p2.png"] /\
    Tess.fs w' !! "p1.pdf"%string = Some ["old"%string].
Proof.
  intros e files.
  destruct (X23_pdf_run_converts_what_is_missing e e None (Some "in"%string) None "in" "in"
              ["p1.png"; "p2.png"]%string "eng" "tesseract" (Tess.initial files)
              eq_refl eq_refl)
    as (w' & hist & E & T & R & K & _).
  - intros k cmd. now eexists.
  - repeat constructor; discriminate.
  - vm_compute. repeat constructor; rewrite ?not_elem_of_cons;
      repeat split; solve [discriminate | apply not_elem_of_nil].
  - exists w', hist. split; [exact E |]. split; [exact T |]. split; [exact R |].
    rewrite K; [reflexivity | now eexists].
Defined.

(** X24.  Where the PDF of a single file goes, the input and the output
    being named by plain names, files of the working directory.  With
    [--input-file], tesseract is run once, for that file, and the directory
    options and [--merge] play no part.  The file it writes is the output
    name with its last suffix replaced by [.pdf]; the log names the output
    file itself.  The two are the same exactly when the output name is a
    non-empty base followed by [.pdf] - as the default output always is; for
    an output name such as [out.txt] the PDF lands in [out.pdf] and the named
    file is not written.  If tesseract fails, [CalledProcessError] ends the
    run. *)
Theorem X24_pdf_single_file_output
    (e : Tess.env) (input_file input_dir output_file : option string) (f : string)
    (input_dir_name : string) (png_files : list string) (merge : bool)
    (lang tess_path : string) (w : Tess.world) :
  Shot.given input_file = Some f ->
  PyLib.plain_name f = true ->
  (forall o, Shot.given output_file = Some o -> PyLib.plain_name o = true) ->
  let output_path :=
    match Shot.given output_file with
    | Some o => o
    | None => LlmOcr.stem f +:+ ".pdf"
    end in
  let written := LlmOcr.stem output_path +:+ ".pdf" in
  let cmd := [tess_path; f; LlmOcr.stem output_path; "-l"; lang; "pdf"]%string in
  (forall out, Tess.tesseract e (Tess.runs w) cmd = Some out ->
     exists w',
       PdfTool.main e input_file input_dir output_file input_dir_name png_files merge
                    lang tess_path w = (Eff.Ok tt, w') /\
       Tess.fs w' = <[written := out]> (Tess.fs w) /\
       Tess.history w'
       = Tess.history w ++ [Tess.EvLog (Tess.LogRunning cmd); Tess.EvRun cmd;
                            Tess.EvLog (Tess.LogPdfSaved output_path)]) /\
  (Tess.tesseract e (Tess.runs w) cmd = None ->
     exists w',
       PdfTool.main e input_file input_dir output_file input_dir_name png_files merge
                    lang tess_path w = (Eff.Raise (Tess.CalledProcessError cmd), w') /\
       Tess.fs w' = Tess.fs w) /\
  (written = output_path
   <-> LlmOcr.ends_with ".pdf" output_path = true /\ output_path <> ".pdf"%string) /\
  (Shot.given output_file = None -> written = output_path).
Proof.
  intros Hfile _ _ output_path written cmd.
  assert (f <> EmptyString) as Hf.
  { intros ->. destruct input_file as [s |]; [| discriminate]. cbn in Hfile.
    destruct (Py.truthy s) eqn:Ht; [| discriminate]. injection Hfile as ->. discriminate. }
  split; [| split; [| split]].
  - intros out Hout. unfold PdfTool.main. rewrite Hfile. fold output_path.
    unfold PdfTool.run_tesseract. fold cmd.
    unfold Eff.bind at 1. unfold Eff.bind at 1. unfold Tess.logger at 1, Tess.emit at 1.
    unfold Eff.bind at 1, Tess.subprocess_run. cbn [Tess.runs Tess.fs Tess.trace].
    rewrite Hout. eexists. split; [reflexivity |]. cbn [Tess.fs]. split; [reflexivity |].
    unfold Tess.history. cbn [Tess.trace rev]. now rewrite <- !app_assoc.
  - intros Hfail. unfold PdfTool.main. rewrite Hfile. fold output_path.
    unfold PdfTool.run_tesseract. fold cmd.
    unfold Eff.bind at 1. unfold Eff.bind at 1. unfold Tess.logger at 1, Tess.emit at 1.
    unfold Eff.bind at 1, Tess.subprocess_run. cbn [Tess.runs Tess.fs Tess.trace].
    rewrite Hfail. eexists. split; reflexivity.
  - apply stem_pdf_iff.
  - intros Hnone. unfold written, output_path. rewrite Hnone.
    now rewrite (stem_pdf _ (stem_not_empty _ Hf)).
Qed.

Lemma X24_pdf_single_file_output_witness :
  let e := {| Tess.tesseract := fun _ _ => Some ["scan"%string]; Tess.PyPDF2 := true |} in
  exists w',
    PdfTool.main e (Some "page.png"%string) None (Some "out.txt"%string) "" [] false
                 "eng" "tesseract" (Tess.initial ∅) = (Eff.Ok tt, w') /\
    Tess.fs w' !! "out.pdf"%string = Some ["scan"%string] /\
    Tess.fs w' !! "out.txt"%string = None.
Proof.
  intros e.
  destruct (X24_pdf_single_file_output e (Some "page.png"%string) None (Some "out.txt"%string)
              "page.png" "" [] false "eng" "tesseract" (Tess.initial ∅) eq_refl eq_refl
              ltac:(intros o H; vm_compute in H; injection H as <-; reflexivity))
    as [H _].
  destruct (H ["scan"%string] eq_refl) as (w' & E & F & _).
  exists w'. split; [exact E |]. rewrite F. split; reflexivity.
Defined.

Section PdfMerge.
Import Eff Tess PdfTool.
Local Open Scope eff_scope.

Lemma glob_pdf_spec files name :
  name ∈ glob_pdf_sorted files
  <-> is_Some (files !! name)
      /\ (LlmOcr.ends_with ".pdf" name = true \/ LlmOcr.ends_with ".PDF" name = true).
Proof.
  unfold glob_pdf_sorted. cbv zeta.
  rewrite merge_sort_Permutation, elem_of_app, !list_elem_of_filter, !list_elem_of_fmap.
  rewrite !Is_true_true. split.
  - intros [(H & [n c] & -> & Hin) | (H & [n c] & -> & Hin)];
      apply elem_of_map_to_list in Hin; cbn in *; eauto.
  - intros ([c Hc] & H).
    assert (exists y : string * pdf, name = y.1 /\ y ∈ map_to_list files) as Hex.
    { exists (name, c). split; [reflexivity |]. now apply elem_of_map_to_list. }
    destruct H as [H | H]; [left | right]; now split.
Qed.

Lemma glob_pdf_sorted_order files : StronglySorted String.le (glob_pdf_sorted files).
Proof. apply StronglySorted_merge_sort; apply _. Qed.

(** No name ends with [.pdf] and with [.PDF]. *)
Lemma ends_pdf_PDF name :
  LlmOcr.ends_with ".pdf" name = true -> LlmOcr.ends_with ".PDF" name = true -> False.
Proof.
  unfold LlmOcr.ends_with. cbn [String.length]. intros H1 H2.
  apply andb_true_iff in H1 as [_ H1]. apply andb_true_iff in H2 as [_ H2].
  apply String.eqb_eq in H1, H2. rewrite H1 in H2. discriminate.
Qed.

Lemma glob_pdf_NoDup files : NoDup (glob_pdf_sorted files).
Proof.
  unfold glob_pdf_sorted. cbv zeta. rewrite merge_sort_Permutation.
  apply NoDup_app. split; [| split].
  - apply NoDup_filter, NoDup_fst_map_to_list.
  - intros name H1 H2. apply list_elem_of_filter in H1 as [H1 _], H2 as [H2 _].
    apply Is_true_true in H1, H2. exact (ends_pdf_PDF _ H1 H2).
  - apply NoDup_filter, NoDup_fst_map_to_list.
Qed.

Lemma merge_sort_sorted (l : list string) :
  StronglySorted String.le l -> merge_sort String.le l = l.
Proof.
  intros Hs. apply (StronglySorted_unique String.le); [| exact Hs |].
  - apply StronglySorted_merge_sort; apply _.
  - apply merge_sort_Permutation.
Qed.

Lemma append_all_run names : forall pages w,
  (forall name, name ∈ names -> is_Some (fs w !! name)) ->
  append_all names pages w = (Ok (pages ++ pages_of (fs w) names), w).
Proof.
  induction names as [| name rest IH]; intros pages w Hall.
  - cbn. now rewrite app_nil_r.
  - cbn [append_all]. unfold bind at 1, read_pdf.
    destruct (Hall name ltac:(left)) as [content Hc]. rewrite Hc.
    rewrite IH by (intros q Hq; apply Hall; now right).
    unfold pages_of. rewrite fmap_cons. cbn [mjoin list_join]. cbv beta. rewrite Hc.
    cbn [default].
    now rewrite <- app_assoc.
Qed.

(** The merge at the end of a directory run. *)
Lemma merge_all_run e input_dir_name w :
  merge_all e input_dir_name w
  = match glob_pdf_sorted (fs w) with
    | [] => (Ok tt, {| fs := fs w; trace := EvLog LogNothingToMerge :: trace w;
                       runs := runs w |})
    | all_pdfs =>
        if PyPDF2 e then
          (Ok tt,
           {| fs := <[input_dir_name +:+ "_merged.pdf" := pages_of (fs w) all_pdfs]> (fs w);
              trace := EvLog (LogMerged (input_dir_name +:+ "_merged.pdf"))
                       :: EvMerge (input_dir_name +:+ "_merged.pdf") :: trace w;
              runs := runs w |})
        else
          (Raise (SystemExit 1),
           {| fs := fs w; trace := EvLog LogNoPyPDF2 :: trace w; runs := runs w |})
    end.
Proof.
  unfold merge_all. cbv zeta.
  pose proof (glob_pdf_sorted_order (fs w)) as Hs.
  assert (forall name, name ∈ glob_pdf_sorted (fs w) -> is_Some (fs w !! name)) as Hall
    by (intros name Hin; now apply glob_pdf_spec in Hin as [H _]).
  destruct (glob_pdf_sorted (fs w)) as [| name rest] eqn:Eg; [reflexivity |].
  unfold merge_pdfs. destruct (PyPDF2 e); cbn [negb]; [| reflexivity].
  rewrite (merge_sort_sorted _ Hs). unfold bind at 1. rewrite (append_all_run _ _ _ Hall).
  reflexivity.
Qed.

End PdfMerge.

(** X25.  What the merged PDF holds.  With [--merge], after the
    conversions, every file of the output directory whose name ends with
    [.pdf] or [.PDF] goes into the merged file, whole, in the order of the
    names compared as strings; the result is written to
    [<input_dir.name>_merged.pdf] and nothing else changes.  The files taken
    are not only the PDFs of the images: a merged file left by an earlier
    run has such a name and is merged into the new one.  With no PDF at all
    nothing is written, and without PyPDF2 the run ends with exit status 1
    after all the conversions. *)
Theorem X25_pdf_merge_takes_every_pdf
    (e : Tess.env) (input_file input_dir output_file : option string) (d : string)
    (input_dir_name : string) (png_files : list string) (lang tess_path : string)
    (w w1 : Tess.world) :
  Shot.given input_file = None -> Shot.given input_dir = Some d ->
  PdfTool.convert e png_files lang tess_path w = (Eff.Ok tt, w1) ->
  let all_pdfs := PdfTool.glob_pdf_sorted (Tess.fs w1) in
  let merged_path := input_dir_name +:+ "_merged.pdf" in
  (exists r w',
     PdfTool.main e input_file input_dir output_file input_dir_name png_files true
                  lang tess_path w = (r, w') /\
     match all_pdfs with
     | [] => r = Eff.Ok tt /\ Tess.fs w' = Tess.fs w1
     | _ =>
         if Tess.PyPDF2 e
         then r = Eff.Ok tt /\
              Tess.fs w' = <[merged_path := PdfTool.pages_of (Tess.fs w1) all_pdfs]> (Tess.fs w1)
         else r = Eff.Raise (Tess.SystemExit 1) /\ Tess.fs w' = Tess.fs w1
     end) /\
  (forall name,
     name ∈ all_pdfs
     <-> is_Some (Tess.fs w1 !! name)
         /\ (LlmOcr.ends_with ".pdf" name = true \/ LlmOcr.ends_with ".PDF" name = true)) /\
  StronglySorted String.le all_pdfs /\ NoDup all_pdfs /\
  (is_Some (Tess.fs w1 !! merged_path) -> merged_path ∈ all_pdfs).
Proof.
  intros Hfile Hdir E all_pdfs merged_path.
  split; [| split; [| split; [| split]]].
  - unfold PdfTool.main. rewrite Hfile, Hdir. rewrite (bind_ok _ _ _ _ _ E).
    rewrite merge_all_run. fold all_pdfs.
    destruct all_pdfs as [| name rest]; [eexists _, _; split; [reflexivity | now split] |].
    fold merged_path.
    destruct (Tess.PyPDF2 e); eexists _, _; (split; [reflexivity | now split]).
  - intros name. apply glob_pdf_spec.
  - apply glob_pdf_sorted_order.
  - apply glob_pdf_NoDup.
  - intros Hsome. apply glob_pdf_spec. split; [exact Hsome |]. left.
    unfold merged_path. now apply ends_with_app.
Qed.

Lemma X25_pdf_merge_takes_every_pdf_witness :
  let e := {| Tess.tesseract := fun _ _ => None; Tess.PyPDF2 := true |} in
  let files : gmap string Tess.pdf :=
    <["p2.pdf"%string := ["two"%string]]>
      (<["p1.pdf"%string := ["one"%string]]>
         (<["in_merged.pdf"%string := ["old"%string]]> ∅)) in
  exists w',
    PdfTool.main e None (Some "in"%string) None "in" ["p1.png"; "p2.png"]%string true
                 "eng" "tesseract" (Tess.initial files) = (Eff.Ok tt, w') /\
    Tess.fs w' !! "in_merged.pdf"%string = Some ["old"; "one"; "two"]%string.
Proof.
  intros e files.
  destruct (X25_pdf_merge_takes_every_pdf e None (Some "in"%string) None "in" "in"
              ["p1.png"; "p2.png"]%string "eng" "tesseract" (Tess.initial files)
              (snd (PdfTool.convert e ["p1.png"; "p2.png"]%string "eng" "tesseract"
                      (Tess.initial files)))
              eq_refl eq_refl) as [(r & w' & E & H) _].
  { vm_compute. reflexivity. }
  vm_compute in H. destruct H as [-> F]. exists w'. split; [exact E |].
  exact (f_equal (fun files : gmap string Tess.pdf => files !! "in_merged.pdf"%string) F).
Defined.

Section PdfFailure.
Import Eff Tess PdfTool.
Local Open Scope eff_scope.

(** The loop up to the first conversion, when that one fails. *)
Lemma convert_fails e lang tess_path png rest done : forall w,
  (forall q, q ∈ done -> is_Some (fs w !! pdf_path_of q)) ->
  png <> EmptyString -> fs w !! pdf_path_of png = None ->
  tesseract e (runs w) (command tess_path lang png) = None ->
  exists w',
    convert e (done ++ png :: rest) lang tess_path w
    = (Raise (CalledProcessError (command tess_path lang png)), w') /\
    fs w' = fs w /\
    trace w' = rev (((fun q => EvLog (LogExists (pdf_path_of q))) <$> done)
                    ++ [EvLog (LogRunning (command tess_path lang png));
                        EvRun (command tess_path lang png)]) ++ trace w.
Proof.
  induction done as [| q done IH]; intros w Hdone Hne Hnone Hfail.
  - cbn [app]. rewrite (convert_missing _ _ _ _ _ _ Hne Hnone), Hfail.
    eexists. split; [reflexivity |]. split; reflexivity.
  - cbn [app]. rewrite convert_present by (apply Hdone; now left).
    match goal with |- context [convert e _ lang tess_path ?w0] => set (w1 := w0) end.
    destruct (IH w1) as (w' & E & F & T); try assumption.
    { intros q' Hq'. apply Hdone. now right. }
    exists w'. split; [exact E |]. split; [exact F |].
    rewrite T, fmap_cons. unfold w1. cbn [trace app rev].
    rewrite !rev_app_distr. cbn [rev app]. now rewrite <- !app_assoc.
Qed.

End PdfFailure.

(** X26.  A failed conversion ends the whole run of [pdf.py].  When the
    first image that still lacks its PDF makes tesseract fail,
    [CalledProcessError] for its command comes out of [main]: this is the
    only command run, no file has changed, the images after it are not
    looked at, and with [--merge] nothing is merged either. *)
Theorem X26_pdf_failed_conversion_ends_the_run
    (e : Tess.env) (input_file input_dir output_file : option string) (d : string)
    (input_dir_name : string) (done rest : list string) (png : string) (merge : bool)
    (lang tess_path : string) (w : Tess.world) :
  Shot.given input_file = None -> Shot.given input_dir = Some d ->
  (forall q, q ∈ done -> is_Some (Tess.fs w !! PdfTool.pdf_path_of q)) ->
  png <> EmptyString -> Tess.fs w !! PdfTool.pdf_path_of png = None ->
  Tess.tesseract e (Tess.runs w) (PdfTool.command tess_path lang png) = None ->
  exists w' hist,
    PdfTool.main e input_file input_dir output_file input_dir_name (done ++ png :: rest)
                 merge lang tess_path w
    = (Eff.Raise (Tess.CalledProcessError (PdfTool.command tess_path lang png)), w') /\
    Tess.fs w' = Tess.fs w /\
    Tess.history w' = Tess.history w ++ hist /\
    Tess.ran hist = [PdfTool.command tess_path lang png] /\
    Forall (fun ev => match ev with Tess.EvMerge _ => False | _ => True end) hist.
Proof.
  intros Hfile Hdir Hdone Hne Hnone Hfail.
  destruct (convert_fails e lang tess_path png rest done w Hdone Hne Hnone Hfail)
    as (w' & E & F & T).
  eexists w', _. unfold PdfTool.main. rewrite Hfile, Hdir.
  rewrite (bind_raise _ _ _ _ _ E).
  split; [reflexivity |]. split; [exact F |]. split; [| split].
  - unfold Tess.history. rewrite T, rev_app_distr, rev_involutive. reflexivity.
  - rewrite ran_app. clear. induction done as [| q done IH]; [reflexivity | exact IH].
  - apply Forall_app. split.
    + apply Forall_fmap, Forall_forall. intros q _. exact I.
    + repeat constructor.
Qed.

Lemma X26_pdf_failed_conversion_ends_the_run_witness :
  let e := {| Tess.tesseract := fun _ _ => None; Tess.PyPDF2 := true |} in
  let files : gmap string Tess.pdf := <["p1.pdf"%string := ["one"%string]]> ∅ in
  exists w',
    PdfTool.main e None (Some "in"%string) None "in" ["p1.png"; "p2.png"; "p3.png"]%string
                 true "eng" "tesseract" (Tess.initial files)
    = (Eff.Raise (Tess.CalledProcessError (PdfTool.command "tesseract" "eng" "p2.png")), w') /\
    Tess.fs w' = files.
Proof.
  intros e files.
  destruct (X26_pdf_failed_conversion_ends_the_run e None (Some "in"%string) None "in" "in"
              ["p1.png"%string] ["p3.png"%string] "p2.png" true "eng" "tesseract"
              (Tess.initial files) eq_refl eq_refl) as (w' & hist & E & F & _).
  - intros q Hq. apply list_elem_of_singleton in Hq as ->. now eexists.
  - discriminate.
  - reflexivity.
  - reflexivity.
  - exists w'. split; [exact E | exact F].
Defined.

Section LegacyRuns.
Import Eff ShotTest.
Local Open Scope eff_scope.

(** One turn of the loop when the margins leave an area. *)
Lemma legacy_page_step e a proc x y w h i rest w0 :
  Shot.pyautogui e = true ->
  0 < w - left a - right a -> 0 < h - top a - bottom a ->
  let region := (x + left a, y + top a, w - left a - right a, h - top a - bottom a) in
  capture_pages e a proc x y w h (i :: rest) w0
  = capture_pages e a proc x y w h rest
      {| fs := match Shot.grab e (grabs w0) region with
               | Some screenshot =>
                   <[path_join (output_dir a) (Py.zfill (Py.str (start a + i)) 4 +:+ ".png")
                     := screenshot]> (fs w0)
               | None => fs w0
               end;
         trace := rev (EvActivate proc
                       :: match Shot.grab e (grabs w0) region with
                          | Some _ => [EvScreenshot region]
                          | None => [EvScreenshot region; EvLogError "Capture failed"]
                          end
                       ++ (if (i <? no a - 1) && Py.truthy (next a)
                           then EvKeystroke proc (next a)
                                :: (if Shot.positive (delay a) then [EvSleep (delay a)] else [])
                           else []))
                  ++ trace w0;
         enumerations := enumerations w0;
         grabs := S (grabs w0) |}.
Proof.
  intros Hpy Hw Hh region. cbn [capture_pages].
  assert ((w - left a - right a <=? 0) || (h - top a - bottom a <=? 0) = false) as ->.
  { apply orb_false_iff. split; apply Z.leb_gt; assumption. }
  unfold bind at 1, activate_app, emit. cbv beta iota.
  unfold bind at 1, capture_window. rewrite Hpy. cbn [negb grabs fs trace enumerations].
  fold region.
  destruct (Shot.grab e (grabs w0) region) as [shot |];
    destruct ((i <? no a - 1) && Py.truthy (next a));
    try destruct (Shot.positive (delay a)); reflexivity.
Qed.

(** The loop over the last [n] pages of a run, when the margins leave an
    area: [n] captures of the region and a page turn after each but the
    last. *)
Lemma legacy_pages_run e a proc x y w h n : forall i0 w0,
  Shot.pyautogui e = true ->
  0 < w - left a - right a -> 0 < h - top a - bottom a ->
  i0 + Z.of_nat n = no a ->
  exists w' hist,
    capture_pages e a proc x y w h (seqZ i0 (Z.of_nat n)) w0 = (Ok tt, w') /\
    trace w' = rev hist ++ trace w0 /\
    grabs w' = (grabs w0 + n)%nat /\
    List.filter is_screenshot hist
    = replicate n (EvScreenshot (x + left a, y + top a,
                                 w - left a - right a, h - top a - bottom a)) /\
    List.filter is_keystroke hist
    = (if Py.truthy (next a) then replicate (n - 1) (EvKeystroke proc (next a)) else []).
Proof.
  induction n as [| n IH]; intros i0 w0 Hpy Hw Hh Hi.
  - exists w0, []. cbn. rewrite Nat.add_0_r. repeat split; auto. now destruct (Py.truthy (next a)).
  - rewrite Nat2Z.inj_succ, seqZ_cons by lia.
    replace (Z.pred (Z.succ (Z.of_nat n))) with (Z.of_nat n) by lia.
    rewrite (legacy_page_step e a proc x y w h i0 _ w0 Hpy Hw Hh). cbv zeta.
    set (region := (x + left a, y + top a, w - left a - right a, h - top a - bottom a)).
    set (shot_events := match Shot.grab e (grabs w0) region with
                        | Some _ => [EvScreenshot region]
                        | None => [EvScreenshot region; EvLogError "Capture failed"]
                        end).
    set (turn_events := if (i0 <? no a - 1) && Py.truthy (next a)
                        then EvKeystroke proc (next a)
                             :: (if Shot.positive (delay a) then [EvSleep (delay a)] else [])
                        else []).
    match goal with |- context [capture_pages e a proc x y w h _ ?w1'] => set (w1 := w1') end.
    destruct (IH (Z.succ i0) w1 Hpy Hw Hh ltac:(lia)) as (w' & hist & E & T & G & S1 & K1).
    exists w', (EvActivate proc :: shot_events ++ turn_events ++ hist).
    split; [exact E |]. split; [| split; [| split]].
    + rewrite T. unfold w1. cbn [trace rev]. rewrite !rev_app_distr. cbn [rev].
      now rewrite <- !app_assoc.
    + rewrite G. unfold w1. cbn [grabs]. lia.
    + cbn [List.filter is_screenshot]. rewrite !List.filter_app, S1.
      assert (List.filter is_screenshot shot_events = [EvScreenshot region]) as ->
        by (unfold shot_events; now destruct (Shot.grab e (grabs w0) region)).
      assert (List.filter is_screenshot turn_events = []) as ->.
      { unfold turn_events. destruct ((i0 <? no a - 1) && Py.truthy (next a)); [| reflexivity].
        now destruct (Shot.positive (delay a)). }
      reflexivity.
    + cbn [List.filter is_keystroke]. rewrite !List.filter_app, K1.
      assert (List.filter is_keystroke shot_events = []) as ->
        by (unfold shot_events; now destruct (Shot.grab e (grabs w0) region)).
      unfold turn_events. destruct (Py.truthy (next a)).
      * rewrite andb_true_r. destruct (Z.ltb_spec i0 (no a - 1)) as [Hlt | Hge].
        -- destruct n as [| n]; [lia |].
           replace (S (S n) - 1)%nat with (S (S n - 1)) by lia.
           cbn [app replicate]. destruct (Shot.positive (delay a)); reflexivity.
        -- assert (n = O) as -> by lia. reflexivity.
      * rewrite andb_false_r. reflexivity.
Qed.

End LegacyRuns.

Section LegacyMain.
Import Eff ShotTest.
Local Open Scope eff_scope.

(** [main] up to its loop, for a window that is found. *)
Lemma legacy_main_setup e a w windows win :
  Shot._check_dependencies e = true ->
  Shot.osascript e (enumerations w) = Some windows ->
  Shot.first_match (Some (app a)) (Some (label a)) windows = Some win ->
  exists resize,
    main e a w
    = capture_pages e a (Shot.proc_name win) (Shot.win_x win) (Shot.win_y win)
        (fst (size_used a win)) (snd (size_used a win)) (Py.range 0 (no a))
        {| fs := fs w;
           trace := rev ([EvMakedirs (output_dir a); EvEnumerate] ++ resize) ++ trace w;
           enumerations := S (enumerations w); grabs := grabs w |} /\
    (resize = [] \/
     exists width height, resize = [EvResize (Shot.proc_name win) (Shot.win_name win)
                                             width height]).
Proof.
  intros Hdeps Hos Hmatch. unfold main. rewrite Hdeps. cbn [negb].
  unfold bind at 1, emit. cbv beta iota.
  unfold bind at 1, get_window_info. rewrite Hdeps. cbn [negb enumerations fs trace grabs].
  rewrite Hos, Hmatch. cbv beta iota. unfold size_used.
  destruct (negb (width a =? 0) && negb (height a =? 0)).
  - exists [EvResize (Shot.proc_name win) (Shot.win_name win) (width a) (height a)].
    split; [reflexivity | right; eauto].
  - destruct (negb (width a =? 0)).
    + exists [EvResize (Shot.proc_name win) (Shot.win_name win) (width a) (Shot.win_h win)].
      split; [reflexivity | right; eauto].
    + destruct (negb (height a =? 0)).
      * exists [EvResize (Shot.proc_name win) (Shot.win_name win) (Shot.win_w win) (height a)].
        split; [reflexivity | right; eauto].
      * exists []. split; [reflexivity |]. now left.
Qed.

End LegacyMain.

(** X27.  The earlier tool refuses an empty capture area before it captures
    anything.  When the window is found but the margins leave no width or no
    height of the size in use, and at least one page is asked for, [main] of
    [legacy/shot-test.py] exits with status 1: no screenshot is taken, no
    key is sent, the application is not brought to the front and no file is
    written.  The output directory has been made by then, and the window
    resized if a size was asked for. *)
Theorem X27_legacy_rejects_empty_area
    (e : Shot.env) (a : ShotTest.args) (w : ShotTest.world)
    (windows : list Shot.window) (win : Shot.window) :
  Shot._check_dependencies e = true ->
  Shot.osascript e (ShotTest.enumerations w) = Some windows ->
  Shot.first_match (Some (ShotTest.app a)) (Some (ShotTest.label a)) windows = Some win ->
  0 < ShotTest.no a ->
  (fst (ShotTest.size_used a win) - ShotTest.left a - ShotTest.right a <= 0 \/
   snd (ShotTest.size_used a win) - ShotTest.top a - ShotTest.bottom a <= 0) ->
  exists w' hist,
    ShotTest.main e a w = (Eff.Raise (ShotTest.SystemExit 1), w') /\
    ShotTest.fs w' = ShotTest.fs w /\ ShotTest.grabs w' = ShotTest.grabs w /\
    ShotTest.history w' = ShotTest.history w ++ hist /\
    Forall (fun ev => match ev with
                      | ShotTest.EvMakedirs _ | ShotTest.EvEnumerate
                      | ShotTest.EvResize _ _ _ _ | ShotTest.EvLogError _ => True
                      | _ => False
                      end) hist.
Proof.
  intros Hdeps Hos Hmatch Hno Harea.
  destruct (legacy_main_setup e a w windows win Hdeps Hos Hmatch) as (resize & E & Hr).
  rewrite E. unfold Py.range. rewrite seqZ_cons by lia. cbn [ShotTest.capture_pages].
  assert ((fst (ShotTest.size_used a win) - ShotTest.left a - ShotTest.right a <=? 0)
          || (snd (ShotTest.size_used a win) - ShotTest.top a - ShotTest.bottom a <=? 0)
          = true) as ->.
  { apply orb_true_iff. destruct Harea as [H | H]; [left | right]; now apply Z.leb_le. }
  unfold Eff.bind, ShotTest.emit, Eff.raise. cbv beta iota.
  eexists _, _. split; [reflexivity |]. cbn [ShotTest.fs ShotTest.grabs].
  split; [reflexivity |]. split; [reflexivity |]. split.
  - unfold ShotTest.history. cbn [ShotTest.trace rev].
    rewrite rev_app_distr, rev_involutive, <- app_assoc. reflexivity.
  - apply Forall_app. split; [| repeat constructor].
    apply Forall_app. split; [repeat constructor |].
    destruct Hr as [-> | (width & height & ->)]; repeat constructor.
Qed.

Lemma X27_legacy_rejects_empty_area_witness :
  let e := Shot.reader_env (fun _ => Some Shot.dot_page) in
  let a := {| ShotTest.output_dir := "out/book"; ShotTest.app := "reader";
              ShotTest.label := "none"; ShotTest.width := 0; ShotTest.height := 0;
              ShotTest.start := 1; ShotTest.no := 2; ShotTest.next := "right";
              ShotTest.delay := 0; ShotTest.top := 150; ShotTest.bottom := 60;
              ShotTest.left := 0; ShotTest.right := 0 |} in
  exists w',
    ShotTest.main e a (ShotTest.initial ∅) = (Eff.Raise (ShotTest.SystemExit 1), w') /\
    ShotTest.fs w' = ∅ /\ ShotTest.grabs w' = O.
Proof.
  intros e a.
  destruct (X27_legacy_rejects_empty_area e a (ShotTest.initial ∅)
              [Shot.Window "Reader" "Book" 0 0 300 200] (Shot.Window "Reader" "Book" 0 0 300 200)
              eq_refl eq_refl eq_refl ltac:(reflexivity))
    as (w' & hist & E & F & G & _).
  - right. vm_compute. discriminate.
  - exists w'. split; [exact E |]. split; [exact F | exact G].
Defined.

(** X28.  A run of the earlier tool.  When the window is found and the
    margins leave an area, [main] of [legacy/shot-test.py] ends normally
    after one screenshot for each page asked for, each of the same region:
    the corner of the window moved in by the left and top margins, and the
    size in use - the size asked for where one was asked for, not the size
    the window has after the resize - less the margins.  The key that turns
    the page is sent after every page but the last, so one time less than
    there are pages, and never when [--next] is empty. *)
Theorem X28_legacy_run_turns_between_pages
    (e : Shot.env) (a : ShotTest.args) (w : ShotTest.world)
    (windows : list Shot.window) (win : Shot.window) :
  Shot._check_dependencies e = true ->
  Shot.osascript e (ShotTest.enumerations w) = Some windows ->
  Shot.first_match (Some (ShotTest.app a)) (Some (ShotTest.label a)) windows = Some win ->
  0 < fst (ShotTest.size_used a win) - ShotTest.left a - ShotTest.right a ->
  0 < snd (ShotTest.size_used a win) - ShotTest.top a - ShotTest.bottom a ->
  exists w' hist,
    ShotTest.main e a w = (Eff.Ok tt, w') /\
    ShotTest.history w' = ShotTest.history w ++ hist /\
    ShotTest.grabs w' = (ShotTest.grabs w + Z.to_nat (ShotTest.no a))%nat /\
    List.filter ShotTest.is_screenshot hist
    = replicate (Z.to_nat (ShotTest.no a)) (ShotTest.EvScreenshot (ShotTest.region_of a win)) /\
    List.filter ShotTest.is_keystroke hist
    = (if Py.truthy (ShotTest.next a)
       then replicate (Z.to_nat (ShotTest.no a) - 1)
                      (ShotTest.EvKeystroke (Shot.proc_name win) (ShotTest.next a))
       else []).
Proof.
  intros Hdeps Hos Hmatch Hw Hh.
  destruct (legacy_main_setup e a w windows win Hdeps Hos Hmatch) as (resize & E & Hr).
  assert (Shot.pyautogui e = true) as Hpy.
  { unfold Shot._check_dependencies in Hdeps. now destruct (Shot.pyautogui e). }
  rewrite E. clear E.
  match goal with |- context [ShotTest.capture_pages _ _ _ _ _ _ _ _ ?w0] => set (wS := w0) end.
  assert (exists w' hist,
            ShotTest.capture_pages e a (Shot.proc_name win) (Shot.win_x win) (Shot.win_y win)
              (fst (ShotTest.size_used a win)) (snd (ShotTest.size_used a win))
              (Py.range 0 (ShotTest.no a)) wS = (Eff.Ok tt, w') /\
            ShotTest.trace w' = rev hist ++ ShotTest.trace wS /\
            ShotTest.grabs w' = (ShotTest.grabs wS + Z.to_nat (ShotTest.no a))%nat /\
            List.filter ShotTest.is_screenshot hist
            = replicate (Z.to_nat (ShotTest.no a))
                        (ShotTest.EvScreenshot (ShotTest.region_of a win)) /\
            List.filter ShotTest.is_keystroke hist
            = (if Py.truthy (ShotTest.next a)
               then replicate (Z.to_nat (ShotTest.no a) - 1)
                              (ShotTest.EvKeystroke (Shot.proc_name win) (ShotTest.next a))
               else [])) as (w' & hist & E & T & G & S1 & K1).
  { unfold Py.range. rewrite Z.sub_0_r. destruct (Z.le_gt_cases 0 (ShotTest.no a)) as [Hno | Hno].
    - replace (seqZ 0 (ShotTest.no a))
        with (seqZ 0 (Z.of_nat (Z.to_nat (ShotTest.no a)))) by (now rewrite Z2Nat.id).
      apply legacy_pages_run; try assumption. rewrite Z2Nat.id by exact Hno. lia.
    - assert (Z.to_nat (ShotTest.no a) = O) as -> by lia.
      assert (seqZ 0 (ShotTest.no a) = []) as -> by (unfold seqZ; now replace (Z.to_nat (ShotTest.no a)) with O by lia).
      exists wS, []. cbn. rewrite Nat.add_0_r. repeat split; auto.
      now destruct (Py.truthy (ShotTest.next a)). }
  exists w', ([ShotTest.EvMakedirs (ShotTest.output_dir a); ShotTest.EvEnumerate] ++ resize ++ hist).
  split; [exact E |]. split; [| split; [exact G | split]].
  - unfold ShotTest.history. rewrite T. unfold wS. cbn [ShotTest.trace].
    rewrite !rev_app_distr, !rev_involutive. cbn [rev app].
    rewrite <- !app_assoc. reflexivity.
  - rewrite !List.filter_app, S1.
    destruct Hr as [-> | (width & height & ->)]; reflexivity.
  - rewrite !List.filter_app, K1.
    destruct Hr as [-> | (width & height & ->)]; reflexivity.
Qed.

Lemma X28_legacy_run_turns_between_pages_witness :
  let e := Shot.reader_env (fun _ => Some Shot.dot_page) in
  let a := {| ShotTest.output_dir := "out/book"; ShotTest.app := "reader";
              ShotTest.label := "none"; ShotTest.width := 600; ShotTest.height := 0;
              ShotTest.start := 1; ShotTest.no := 3; ShotTest.next := "right";
              ShotTest.delay := 0; ShotTest.top := 45; ShotTest.bottom := 45;
              ShotTest.left := 0; ShotTest.right := 0 |} in
  exists w' hist,
    ShotTest.main e a (ShotTest.initial ∅) = (Eff.Ok tt, w') /\
    ShotTest.history w' = hist /\
    List.filter ShotTest.is_screenshot hist
    = replicate 3 (ShotTest.EvScreenshot (0, 45, 600, 110)) /\
    List.filter ShotTest.is_keystroke hist
    = replicate 2 (ShotTest.EvKeystroke "Reader" "right").
Proof.
  intros e a.
  destruct (X28_legacy_run_turns_between_pages e a (ShotTest.initial ∅)
              [Shot.Window "Reader" "Book" 0 0 300 200] (Shot.Window "Reader" "Book" 0 0 300 200)
              eq_refl eq_refl eq_refl ltac:(reflexivity) ltac:(reflexivity))
    as (w' & hist & E & T & _ & S1 & K1).
  exists w', hist. split; [exact E |]. split; [exact T |]. split; [exact S1 | exact K1].
Defined.
